(* ===== verification/_CoqProject ===== *)
-Q . S2P
Prelude.v
Serialize.v
Time.v
Types.v
Kernel.v
Hyperperiod.v
SchedInfo.v
PeerDbus.v
TrpcServer.v
Trpc.v
Sched.v
TraceBpf.v
BpfProgs.v
Task.v
Config.v
ApexMonitor.v
Core.v
Main.v
Safety.v
Shutdown.v
CppStd.v
SampleApps.v
SampleWorkloads.v
Getopt.v
SampleMain.v
TLog.v
OrchHyperperiod.v
NodeConfig.v
GlobalScheduler.v
Utilization.v
LegacyScheduling.v
SchedInfoService.v
OrchServer.v
Orchestrator.v
DBusLifecycle.v
OrchMain.v
Cluster.v
FaultPath.v
Races.v
NodeStart.v
ClusterStart.v
Reports.v
NodeLog.v
StartSkew.v
TrpcTest.v
Exprocs.v
