(* ===== verification/Prelude.v ===== *)
(** * Timpani: verification library

    Timpani runs time-triggered tasks on a set of nodes.  The orchestrator
    (timpani-o, C++) receives workloads over gRPC, places their tasks on the
    CPUs of their nodes and serves the schedules over D-Bus; on each node the
    executor (timpani-n, C) fetches the schedule of its node, finds the
    processes of its tasks, arms one absolute periodic timer per task, signals
    the task at each expiry, watches through two BPF programs whether the task
    was back in [sigwait] in time, and reports deadline misses.  libtrpc (C) is
    the transport both sides share.  sample-apps (C) holds periodic tasks to be
    scheduled; libtrpc and timpani-n come with test programs.  This library
    models the C and C++ code and proves what makes it correct.

    ** How the code is modelled

    - Integers are [Z] with the wrap-around of their C type written out ([u32],
      [u64], [i32], [i64]); character arrays are lists of bytes of the array's
      size; a struct is a record with one field per member.
    - A function that touches memory or calls out is a computation
      [ST nstate A] that ends with [Ret (result, state)] or with [UB],
      undefined behaviour: an access outside a buffer, a dangling node, an
      overflowing [int].  [nstate] (Kernel) holds the [struct context] of
      [main] and every static variable of the source files.  Linked lists are
      lists of nodes with their addresses, read and written through the
      addresses, so a node shared by a timer, the list and a BPF callback is one
      object.
    - What is not under src/ and is not the C language or its library (Linux,
      libsystemd, libbpf, the callbacks of a server) is the class [Kernel]: for
      every history of calls and every call it gives an arbitrary result.  A
      theorem holds for all kernels unless it names an assumption; assumptions
      are classes with documented behaviour ([MallocOk], [ProcFs],
      [ServerUpAfter], [SyncServer], [Clocks], [SteadyClock],
      [RejectsUnnormalized], [SetsErrno], [AddIoStores], [PidfdOk], [NodeOs],
      [LocalBus]), each with an instance in a witness; what uninitialised memory
      holds is arbitrary ([Allocator], [SyncJunk], [TaskJunk]).
      Every call is recorded in [n_trace]; what a function did is stated on that
      trace (reports sent, signals sent, timers armed, descriptors, buses and
      memory held).
    - [wp m Q s]: from [s], [m] has no undefined behaviour and ends in [Q];
      [wlp] is the same without excluding undefined behaviour.  [frames R m]
      says that [m] relates the states before and after by [R].
    - Loops over data are structural.  Loops whose number of turns the
      environment decides take that number as an argument and return [None] when
      it does not suffice: [sync_timer_internal], [wait_for_sync] and
      [epoll_turns]; the theorems say how many turns are enough (the poll the
      server acknowledges, the turn after a signal).  A busy loop has as much
      fuel as readings of the clock it takes until its time has passed
      ([advances], [busy_wait_spec]).  The retry loop of [init_trpc] has its 300 turns, the
      sieve and the Fibonacci loop have fuel bounds that are proved to suffice.
    - Threads: a timer handler, BPF callback or signal handler runs between two
      steps of the event loop and to completion ([async], [run_asyncs] in Main);
      theorems quantify over all such sequences.  Races takes the accesses of
      the timer handlers, the BPF thread and the cycle handler one by one and
      says which results still hold and which are lost.

    - C++: [std::map] is an association list sorted by the key order ([cmap]),
      [std::sort] any function with the documented result ([StdSort]), [double]
      the IEEE format of the Standard Library's SpecFloat.  Functions of the
      orchestrator's classes take and return the members as a record; the task
      arrays the classes share are blocks of a [heap], so reading one after
      [free] is [UB].  An exception that leaves a function is the result [None]
      (or a constructor of its own); gRPC and the answers of Pullpiri are the
      class [FaultRpc].  Requests and callbacks run to completion in any order
      ([orch_run]); the two overlaps the code allows (a request during a
      callback, the start of the event thread) have theorems of their own.

    ** Files

    - Prelude: record update, the computation type and its rules, machine
      integers, bytes, C strings, [atoi].
    - Serialize: libtrpc/src/serialize.c and .h.  Every value and string
      survives a round trip between hosts of any byte order; any sequence of
      operations keeps the buffer well-formed and behaves as a stack of bytes,
      unless a [deserialize_blob] or [deserialize_str] overflows its
      destination; [deserialize_str] is characterised on every input.
    - Time: timetrigger.h.  Conversions and comparisons agree with exact time.
    - Types: the structs and constants of internal.h, schedinfo.h, trace_bpf.h.
    - Kernel: the environment, the process state, the heap of nodes, frames.
    - Hyperperiod: hyperperiod.c.  The masked fast path equals the modulus; the
      cycle timer is armed one hyperperiod after the common start.
    - SchedInfo: [deserialize_sched_info] (trpc.c) and the orchestrator's
      [SerializeSchedInfo] (timpani-o/src/dbus_server.cpp).  The schedule that
      arrives is the one that was sent; nothing leaks on malformed input except
      where stated; an overlong name overruns the array.
    - PeerDbus, TrpcServer: both sides of libtrpc/src/peer_dbus.c.  One answer
      per request, with the callback's data or an error; ownership of sockets
      and buses.
    - Trpc: trpc.c.  Attempts and handles of [init_trpc], the loaded schedule,
      the synchronized start.
    - Sched: sched.c.  Affinity, attributes, look-up of threads in /proc.
    - TraceBpf, BpfProgs: trace_bpf.c and the BPF programs.  Start and stop
      balance; events are exactly those of registered threads; with programs on
      several CPUs, access by access, a start is never after its stop, and a
      wake-up is after a start only if it overtook the switch.
    - Task: task.c.  The list has exactly the tasks of this node that could be
      set up, with live pidfds, and holds no other resource.
    - Config: config.c over glibc's getopt.
    - ApexMonitor: apex_monitor.c.  Messages are decoded as sent.
    - Core: core.c.  Calibration error, last wait event, deadline-miss decision
      with counters, report and signal, timers, Apex.OS fault counting.
    - Main: signal.c, cleanup.c, main.c and the event loop of core.c.
    - Safety: no handler or loop turn follows a dangling pointer, in any order
      of events; counters equal reports; a signal ends the loop.
    - Shutdown: the memory, timers, descriptors, buses and BPF objects the
      cleanup gives back, handle by handle, what it leaves out, and that [main]
      always cleans up.
    - SampleApps: the periodic job of sample-apps/src/sample_apps.c.  Job
      statistics and deadline checks; the sieve counts primes; the Fibonacci
      loop ends.
    - SampleWorkloads: the other workloads and their dispatch.  The matrix
      product is the mathematical one, the memory workload stays in its
      buffers, the busy loop ends when the clock passes its duration.
    - Getopt: glibc's [getopt_long] with permutation, for the programs of the
      samples and of the orchestrator.
    - SampleMain: options, validation, start-up and main loop of the samples,
      and their copy of sched.c.  A program that gets to its loop has a valid
      configuration and has set up what the options say, and runs one job per
      release (and one per failed wait after a release).

    - TLog: timpani-o/src/tlog.h.  In every interleaving of the logging threads
      a stream is, record by record, the text of the calls that ended on it.
    - CppStd: ordered maps and sets, sorting, [std::stoi], doubles.
    - OrchHyperperiod: hyperperiod_manager.cpp, scheduler_utils.cpp, task.h.
      The hyperperiod is the least common multiple of the periods when it fits
      in 64 bits, and both implementations agree.
    - NodeConfig: node_config.cpp.  A configuration that is written out is read
      back; whatever the file holds, the loaded map is well-formed.
    - GlobalScheduler: global_scheduler.cpp.  Scheduling by target node keeps
      every CPU within the utilization threshold, rejects a task only if it fits
      on no CPU, and builds one array per node, exactly, without touching or
      leaking other blocks; a rejected task is sent all the same.
    - Utilization: rounding of the utilizations.  A workload with no more tasks
      per node than CPUs, none above nine tenths of its period, is placed
      completely.
    - LegacyScheduling: the two older algorithms give every task a CPU of its
      own.
    - SchedInfoService: schedinfo_service.cpp.  A request replaces the workload
      by the schedule it describes, or is refused, and owns its memory.
    - OrchServer: the callbacks of dbus_server.cpp, and fault_client.cpp.
    - Orchestrator: sequences of requests and callbacks refine a machine that
      holds one workload; the synchronized start is a barrier; a workload sent
      by gRPC arrives in the task list of the node; what goes wrong when a
      request overlaps a callback, when nodes are added, and when the event
      thread starts early.
    - DBusLifecycle: starting and stopping the servers, each handle on its own;
      the sockets that are lost when a port is busy are accounted for.
    - OrchMain: main.cpp.  The options on the command line are the ones in
      effect; a program that gets to its loop is in a state the theorems of
      Orchestrator start from, and one that exits has released what it held.

    - Cluster: the node of Trpc connected to the orchestrator of Orchestrator.
      A node that connects loads the workload that is served; nodes start when
      all of their workload have asked to.
    - FaultPath: a deadline miss on a node, through the node's report and the
      orchestrator's callback, is one fault notification for Pullpiri.
    - Races: handlers of the node interleaved access by access.  Counters of a
      task are exact as long as one thread writes them; the last wait event can
      be torn and updates of a shared counter can be lost.
    - NodeStart: [main] of the node up to its event loop in any environment: the
      state it is entered in is one Safety is about.
    - ClusterStart: the same with an orchestrator that serves a workload, on a
      system whose calls succeed ([NodeOs]): the list has exactly the node's
      tasks that have a process, one timer each, all with the common start.

    - Reports: the reports of the orchestrator (print_scheduling_results,
      DumpSchedInfo) as log records.  They read only live arrays and show every
      node and task; long task names lose their workload.
    - NodeLog: the log macros of the node and the statistics of a hyperperiod.
      The option -l selects what is printed.

    - StartSkew: several nodes in one run of the orchestrator.  The start times
      the nodes store are at most one polling distance apart and never equal.
    - TrpcTest: libtrpc/test/trpc_server.c, trpc_client.c and schedinfo.h.  The
      schedule survives the way from the server to the client, and the two
      programs run against each other do what they are written to show.
    - Exprocs: timpani-n/test/exprocs.c.  The test process reports exactly the
      releases that are more than 100 microseconds off its period.

    ** Not modelled

    The texts of most messages, which do not change the state (the loggers and
    the reports are modelled; usage texts and the statistics the samples print
    are not); the gRPC runtime and Pullpiri, which are parameters; the Rust port
    except the BPF program it shares, since this library is about the C and C++
    code; the unit tests of timpani-o/tests, which exercise the modelled classes
    and have no logic of their own; vmlinux.h, generated from the kernel; build
    files and documents.  The samples' [long double] is the 80-bit format of
    x86-64; [rand] and the clock are arbitrary sequences.  With this, every
    function of the C and C++ sources that changes state has a definition here;
    threads are interleaved access by access where they share data without a
    lock (Races, TLog, BpfProgs, the overlaps in Orchestrator) and run to completion
    otherwise. *)

From Stdlib Require Export ZArith Lia String Strings.Byte.
From stdpp Require Export base list gmap strings pretty.

#[global] Open Scope Z_scope.

(** ** Record update

    C code assigns one field of a struct at a time.  [r <| f := v |>] is the
    struct [r] with field [f] assigned, [r <| f ::= g |>] the struct with
    [g] applied to field [f].  A record takes part by declaring its
    eta-expansion as an [Eta] instance; the setter is derived from it. *)

Class Eta (R : Type) := eta : R -> R.
Class Upd {R E : Type} (get : R -> E) := upd : (E -> E) -> R -> R.
Arguments upd {R E} get {Upd} f r /.

Ltac derive_upd :=
  lazymatch goal with
  | |- @Upd ?R ?E ?get =>
      let e := constr:(ltac:(let i := constr:(_ : Eta R) in exact i)) in
      let r := fresh "r" in
      let f := fresh "f" in
      refine (fun f r => _);
      let b := eval hnf in (@eta R e r) in
      let p := eval pattern (get r) in b in
      lazymatch p with ?F _ => exact (F (f (get r))) end
  end.

#[export] Hint Extern 0 (Upd _) => derive_upd : typeclass_instances.

Declare Scope c_scope.
Delimit Scope c_scope with c.

Notation "r <| g ::= f |>" := (upd g f r)
  (at level 1, left associativity, g at level 0, f at level 99,
   format "r  <| g  ::=  f |>") : c_scope.
Notation "r <| g := v |>" := (upd g (fun _ => v) r)
  (at level 1, left associativity, g at level 0, v at level 99,
   format "r  <| g  :=  v |>") : c_scope.
#[global] Open Scope c_scope.

(** ** Outcomes of C computations

    [UB] is undefined behaviour (an out-of-bounds access, a use of a freed
    object); error codes are ordinary return values. *)

Inductive outcome (A : Type) : Type :=
  | Ret (a : A)
  | UB.
Arguments Ret {A} a.
Arguments UB {A}.

#[export] Instance outcome_ret : MRet outcome := fun _ a => Ret a.
#[export] Instance outcome_bind : MBind outcome := fun _ _ k m =>
  match m with Ret a => k a | UB => UB end.

Definition is_ret {A} (o : outcome A) : bool :=
  match o with Ret _ => true | UB => false end.

(** Explicit state passing: a computation on a memory of type [S]. *)
Definition ST (S A : Type) : Type := S -> outcome (A * S).

#[export] Instance ST_ret {S} : MRet (ST S) := fun _ a s => Ret (a, s).
#[export] Instance ST_bind {S} : MBind (ST S) := fun _ _ k m s =>
  match m s with Ret (a, s') => k a s' | UB => UB end.

Definition get_st {S} : ST S S := fun s => Ret (s, s).
Definition gets {S A} (f : S -> A) : ST S A := fun s => Ret (f s, s).
Definition modify {S} (f : S -> S) : ST S unit := fun s => Ret (tt, f s).
Definition undef {S A} : ST S A := fun _ => UB.

(** [wp m Q s]: run from [s], [m] has no undefined behaviour and ends with a
    value and a memory that satisfy [Q] (total correctness). *)
Definition wp {S A} (m : ST S A) (Q : A -> S -> Prop) (s : S) : Prop :=
  match m s with Ret (a, s') => Q a s' | UB => False end.

Section wp_rules.
  Context {S : Type}.

Lemma wp_ret {A} (a : A) Q (s : S) : Q a s -> wp (mret a) Q s.
Proof. done. Qed.

Lemma wp_bind {A B} (m : ST S A) (k : A -> ST S B) Q s :
  wp m (fun a s' => wp (k a) Q s') s -> wp (m ≫= k) Q s.
Proof.
  unfold wp, mbind, ST_bind. destruct (m s) as [[a s']|]; done.
Qed.

Lemma wp_gets {A} (f : S -> A) Q s : Q (f s) s -> wp (gets f) Q s.
Proof. done. Qed.

Lemma wp_get Q (s : S) : Q s s -> wp get_st Q s.
Proof. done. Qed.

Lemma wp_modify f Q (s : S) : Q tt (f s) -> wp (modify f) Q s.
Proof. done. Qed.

Lemma wp_mono {A} (m : ST S A) (P Q : A -> S -> Prop) s :
  wp m P s -> (forall a s', P a s' -> Q a s') -> wp m Q s.
Proof. unfold wp. destruct (m s) as [[a s']|]; eauto. Qed.

Lemma wp_inv {A} (m : ST S A) Q s :
  wp m Q s -> exists a s', m s = Ret (a, s') /\ Q a s'.
Proof. unfold wp. destruct (m s) as [[a s']|]; naive_solver. Qed.

Lemma wp_run {A} (m : ST S A) Q s a s' :
  wp m Q s -> m s = Ret (a, s') -> Q a s'.
Proof. unfold wp. intros H E. by rewrite E in H. Qed.

(** The result, remembered. *)
Lemma wp_eqn {A} (m : ST S A) Q s :
  wp m Q s -> wp m (fun a s' => Q a s' /\ m s = Ret (a, s')) s.
Proof. unfold wp. by destruct (m s) as [[a s']|]. Qed.

(** [wlp m Q s]: the same without excluding undefined behaviour. *)
Definition wlp {A} (m : ST S A) (Q : A -> S -> Prop) (s : S) : Prop :=
  match m s with Ret (a, s') => Q a s' | UB => True end.

Lemma wlp_ret {A} (a : A) Q (s : S) : Q a s -> wlp (mret a) Q s.
Proof. done. Qed.

Lemma wlp_bind {A B} (m : ST S A) (k : A -> ST S B) Q s :
  wlp m (fun a s' => wlp (k a) Q s') s -> wlp (m ≫= k) Q s.
Proof.
  unfold wlp, mbind, ST_bind. destruct (m s) as [[a s']|]; done.
Qed.

Lemma wlp_mono {A} (m : ST S A) (P Q : A -> S -> Prop) s :
  wlp m P s -> (forall a s', P a s' -> Q a s') -> wlp m Q s.
Proof. unfold wlp. destruct (m s) as [[a s']|]; eauto. Qed.

Lemma wp_wlp {A} (m : ST S A) Q s : wp m Q s -> wlp m Q s.
Proof. unfold wp, wlp. by destruct (m s) as [[a s']|]. Qed.

Lemma wlp_true {A} (m : ST S A) (s : S) : wlp m (fun _ _ => True) s.
Proof. unfold wlp. by destruct (m s) as [[a s']|]. Qed.

Lemma wp_and {A} (m : ST S A) P Q s :
  wp m P s -> wlp m Q s -> wp m (fun a s' => P a s' /\ Q a s') s.
Proof. unfold wp, wlp. destruct (m s) as [[a s']|]; auto. Qed.

Lemma wlp_and {A} (m : ST S A) P Q s :
  wlp m P s -> wlp m Q s -> wlp m (fun a s' => P a s' /\ Q a s') s.
Proof. unfold wlp. destruct (m s) as [[a s']|]; auto. Qed.

End wp_rules.

Create HintDb timpani.
#[export] Hint Resolve wp_ret wp_gets wp_modify wp_get : timpani.

(** [wp_step] symbolically executes the head of a computation. *)
Ltac wp_step :=
  lazymatch goal with
  | |- wp (mbind _ _) _ _ => apply wp_bind
  | |- wp (mret _) _ _ => apply wp_ret
  | |- wp (gets _) _ _ => apply wp_gets
  | |- wp get_st _ _ => apply wp_get
  | |- wp (modify _) _ _ => apply wp_modify
  | |- wp (match ?x with _ => _ end) _ _ => destruct x eqn:?
  end.
Ltac wp_run := repeat (wp_step; cbn beta).

(** ** Lists *)

Lemma length_filter_split {A} (P Q : A -> Prop) `{!forall x, Decision (P x), !forall x, Decision (Q x)}
    (l : list A) :
  (forall x, Q x <-> ~ P x) -> (length (filter P l) + length (filter Q l) = length l)%nat.
Proof.
  intros HPQ. induction l as [|x l IH]; [done|]. rewrite !filter_cons.
  destruct (decide (P x)), (decide (Q x)); simpl; try lia; exfalso; specialize (HPQ x); tauto.
Qed.

Lemma length_filter_fmap {A B} (f : A -> B) (P : B -> Prop) (Q : A -> Prop)
    `{!forall x, Decision (P x), !forall x, Decision (Q x)} (l : list A) :
  (forall x, P (f x) <-> Q x) -> length (filter P (f <$> l)) = length (filter Q l).
Proof.
  intros HPQ. induction l as [|x l IH]; [done|]. cbn [fmap list_fmap]. rewrite !filter_cons.
  destruct (decide (P (f x))), (decide (Q x)); simpl; try (exfalso; specialize (HPQ x); tauto); auto.
Qed.

Lemma Exists_filter {A} (P : A -> Prop) `{!forall x, Decision (P x)} (l : list A) :
  Exists P l <-> filter P l <> [].
Proof.
  split.
  - intros (x & Hx & Hp)%Exists_exists E.
    assert (x ∈ filter P l) as Hin by (by apply list_elem_of_filter).
    rewrite E in Hin. by apply not_elem_of_nil in Hin.
  - intros Hne. destruct (filter P l) as [|x a] eqn:E; [done|].
    assert (x ∈ filter P l) as [? ?]%list_elem_of_filter by (rewrite E; set_solver).
    apply Exists_exists. eauto.
Qed.

(** A decidable predicate that holds somewhere has a least number. *)
Lemma least_nat (P : nat -> Prop) `{!forall i, Decision (P i)} n :
  P n -> exists m, (m <= n)%nat /\ P m /\ forall i, (i < m)%nat -> ~ P i.
Proof.
  induction (Nat.lt_wf_0 n) as [n _ IH]. intros Hn.
  destruct (decide (Exists P (seq 0 n))) as [(i & Hi & HP)%Exists_exists|Hno].
  - apply elem_of_seq in Hi. destruct (IH i ltac:(lia) HP) as (m & ? & ? & ?). exists m. split_and!; [lia|done|done].
  - exists n. split_and!; [lia|done|]. intros i Hi HP. apply Hno, Exists_exists. exists i. split; [|done].
    apply elem_of_seq. lia.
Qed.

(** ** Machine integers

    A [w]-bit integer is a [Z]; unsigned arithmetic reduces modulo [2^w],
    conversion to a signed type is the usual two's complement wrap. *)

Definition wrapu (w x : Z) : Z := x mod 2 ^ w.
Definition wraps (w x : Z) : Z := (x + 2 ^ (w - 1)) mod 2 ^ w - 2 ^ (w - 1).

Abbreviation u8 := (wrapu 8).
Abbreviation u16 := (wrapu 16).
Abbreviation u32 := (wrapu 32).
Abbreviation u64 := (wrapu 64).
Abbreviation i32 := (wraps 32).
Abbreviation i64 := (wraps 64).

Definition in_u (w x : Z) : Prop := 0 <= x < 2 ^ w.
Definition in_s (w x : Z) : Prop := - 2 ^ (w - 1) <= x < 2 ^ (w - 1).

Lemma wrapu_range w x : 0 <= w -> in_u w (wrapu w x).
Proof. intros. apply Z.mod_pos_bound. lia. Qed.

Lemma wrapu_id w x : in_u w x -> wrapu w x = x.
Proof. intros H. by apply Z.mod_small. Qed.

Lemma wrapu_idemp w x : wrapu w (wrapu w x) = wrapu w x.
Proof. unfold wrapu. by rewrite Zmod_mod. Qed.

Lemma wraps_id w x : 0 < w -> in_s w x -> wraps w x = x.
Proof.
  intros Hw H. unfold wraps, in_s in *.
  assert (2 ^ w = 2 * 2 ^ (w - 1)).
  { rewrite <- Z.pow_succ_r by lia. f_equal. lia. }
  rewrite Z.mod_small; lia.
Qed.

Lemma wraps_range w x : 0 < w -> in_s w (wraps w x).
Proof.
  intros Hw. unfold wraps, in_s.
  assert (2 ^ w = 2 * 2 ^ (w - 1)).
  { rewrite <- Z.pow_succ_r by lia. f_equal. lia. }
  pose proof (Z.mod_pos_bound (x + 2 ^ (w - 1)) (2 ^ w)). lia.
Qed.

Lemma wraps_wrapu w x : 0 < w -> wraps w (wrapu w x) = wraps w x.
Proof.
  intros Hw. unfold wraps, wrapu. by rewrite Zplus_mod_idemp_l.
Qed.

Lemma wrapu_add_l w x y : wrapu w (wrapu w x + y) = wrapu w (x + y).
Proof. unfold wrapu. by rewrite Zplus_mod_idemp_l. Qed.

Lemma wrapu_add_r w x y : wrapu w (x + wrapu w y) = wrapu w (x + y).
Proof. unfold wrapu. by rewrite Zplus_mod_idemp_r. Qed.

#[export] Hint Resolve wrapu_range wrapu_id wraps_id wraps_range : timpani.

(** A closed decidable statement, by evaluation. *)
Ltac decided := lazymatch goal with |- ?P => apply (bool_decide_eq_true_1 P); reflexivity end.

Ltac unfold_range := unfold in_u, in_s in *; change (2 ^ 64) with 18446744073709551616 in *;
  change (2 ^ 63) with 9223372036854775808 in *; change (2 ^ 32) with 4294967296 in *;
  change (2 ^ 31) with 2147483648 in *;  change (2 ^ (64 - 1)) with 9223372036854775808 in *;
  change (2 ^ (32 - 1)) with 2147483648 in *.
Ltac range := unfold_range; lia.

(** Left inverse of the low bits: [x & (2^k - 1)] is [x mod 2^k]. *)
Lemma land_low_mask x k : 0 <= k -> Z.land x (2 ^ k - 1) = x mod 2 ^ k.
Proof.
  intros Hk. rewrite <- Z.land_ones by done. f_equal. rewrite Z.ones_equiv. lia.
Qed.

(** ** Bytes and byte order *)

Definition byteZ (b : byte) : Z := Z.of_N (Byte.to_N b).
Definition Zbyte (z : Z) : byte :=
  match Byte.of_N (Z.to_N (z mod 256)) with Some b => b | None => x00 end.

#[export] Instance byte_eq_dec : EqDecision byte := Byte.byte_eq_dec.

Lemma byteZ_range b : 0 <= byteZ b < 256.
Proof.
  unfold byteZ. pose proof (Byte.to_N_bounded b). lia.
Qed.

Lemma byteZ_Zbyte z : byteZ (Zbyte z) = z mod 256.
Proof.
  unfold byteZ, Zbyte. pose proof (Z.mod_pos_bound z 256 ltac:(lia)).
  destruct (Byte.of_N (Z.to_N (z mod 256))) as [b|] eqn:E.
  - apply Byte.to_of_N in E. rewrite E. lia.
  - apply Byte.of_N_None_iff in E. lia.
Qed.

Lemma Zbyte_byteZ b : Zbyte (byteZ b) = b.
Proof.
  unfold Zbyte. rewrite Z.mod_small by apply byteZ_range.
  unfold byteZ. by rewrite N2Z.id, Byte.of_to_N.
Qed.

(** Little-endian representation of the low [n] bytes of [x]. *)
Fixpoint le_bytes (n : nat) (x : Z) : list byte :=
  match n with
  | O => []
  | S n => Zbyte x :: le_bytes n (x / 256)
  end.

Fixpoint le_val (l : list byte) : Z :=
  match l with
  | [] => 0
  | b :: l => byteZ b + 256 * le_val l
  end.

Lemma length_le_bytes n x : length (le_bytes n x) = n.
Proof. revert x. induction n; intros; simpl; auto. Qed.

Lemma le_val_le_bytes n x : le_val (le_bytes n x) = x mod 2 ^ (8 * Z.of_nat n).
Proof.
  revert x. induction n as [|n IH]; intros x; cbn [le_bytes le_val].
  - change (2 ^ (8 * Z.of_nat 0)) with 1. by rewrite Z.mod_1_r.
  - rewrite IH, byteZ_Zbyte.
    replace (8 * Z.of_nat (S n)) with (8 + 8 * Z.of_nat n) by lia.
    rewrite Z.pow_add_r by lia. change (2 ^ 8) with 256.
    rewrite Z.rem_mul_r by lia. lia.
Qed.

Lemma le_val_range l : 0 <= le_val l < 2 ^ (8 * Z.of_nat (length l)).
Proof.
  induction l as [|b l IH]; cbn [le_val length].
  - change (2 ^ (8 * Z.of_nat 0)) with 1. lia.
  - replace (8 * Z.of_nat (S (length l))) with (8 + 8 * Z.of_nat (length l)) by lia.
    rewrite Z.pow_add_r by lia. change (2 ^ 8) with 256.
    pose proof (byteZ_range b). nia.
Qed.

Lemma le_bytes_le_val l : le_bytes (length l) (le_val l) = l.
Proof.
  induction l as [|b l IH]; cbn [le_val le_bytes length]; [done|].
  pose proof (byteZ_range b).
  f_equal.
  - rewrite <- (Zbyte_byteZ b) at 2. unfold Zbyte. repeat f_equal.
    rewrite Z.mul_comm, Z_mod_plus_full, (Z.mod_small (byteZ b)) by lia. done.
  - etransitivity; [|exact IH]. f_equal.
    rewrite Z.mul_comm, Z.div_add, Z.div_small by lia. lia.
Qed.

(** Network order. *)
Definition be_bytes (n : nat) (x : Z) : list byte := reverse (le_bytes n x).
Definition be_val (l : list byte) : Z := le_val (reverse l).

Lemma length_be_bytes n x : length (be_bytes n x) = n.
Proof. unfold be_bytes. by rewrite length_reverse, length_le_bytes. Qed.

Lemma be_val_be_bytes n x : be_val (be_bytes n x) = x mod 2 ^ (8 * Z.of_nat n).
Proof. unfold be_val, be_bytes. by rewrite reverse_involutive, le_val_le_bytes. Qed.

(** ** Character arrays

    A [char a[n]] is the list of its [n] bytes; the C string it holds is the
    part before its first NUL. *)

Definition str (s : string) : list byte := String.list_byte_of_string s.

Fixpoint cstr (a : list byte) : list byte :=
  match a with
  | [] => []
  | b :: a => if decide (b = x00) then [] else b :: cstr a
  end.

Definition zeros (n : nat) : list byte := replicate n x00.

Definition strlen (a : list byte) : Z := Z.of_nat (length (cstr a)).

(** [strncpy(dst, src, n)] *)
Definition strncpy (dst src : list byte) (n : nat) : list byte :=
  let s := take n (cstr src) in
  s ++ zeros (n - length s) ++ drop n dst.

(** [strcmp(a, b) == 0] and [strncmp(a, b, n) == 0] *)
Definition strcmp_eq (a b : list byte) : bool := bool_decide (cstr a = cstr b).
Definition strncmp_eq (a b : list byte) (n : nat) : bool :=
  bool_decide (take n (cstr a) = take n (cstr b)).

(** [a[i] = c], which the callers use with [i] inside the array. *)
Definition set_char (a : list byte) (i : nat) (c : byte) : list byte := <[i:=c]> a.

(** A NUL terminator lies inside the array. *)
Definition nul_terminated (a : list byte) : Prop := x00 ∈ a.

(** A value of type C string: no embedded NUL. *)
Definition no_nul (s : list byte) : Prop := x00 ∉ s.

Lemma cstr_app_nul s t : no_nul s -> cstr (s ++ x00 :: t) = s.
Proof.
  unfold no_nul. induction s as [|b s IH]; intros H; simpl; [done|].
  rewrite not_elem_of_cons in H. destruct H as [Hb Hs].
  rewrite decide_False by done. by rewrite IH.
Qed.

Lemma cstr_no_nul a : no_nul (cstr a).
Proof.
  unfold no_nul. induction a as [|b a IH]; simpl; [apply not_elem_of_nil|].
  case_decide; [apply not_elem_of_nil|]. rewrite not_elem_of_cons. auto.
Qed.

Lemma cstr_id s : no_nul s -> cstr s = s.
Proof.
  unfold no_nul. induction s as [|b s IH]; intros H; simpl; [done|].
  rewrite not_elem_of_cons in H. destruct H as [Hb Hs].
  rewrite decide_False by done. by rewrite IH.
Qed.

Lemma length_cstr_lt a : nul_terminated a -> (length (cstr a) < length a)%nat.
Proof.
  unfold nul_terminated. induction a as [|b a IH]; simpl; [set_solver|].
  intros H. case_decide; simpl; [lia|].
  apply elem_of_cons in H as [?|H]; [congruence|]. specialize (IH H). lia.
Qed.

Lemma length_cstr_le a : (length (cstr a) <= length a)%nat.
Proof. induction a; simpl; [lia|]. case_decide; simpl; lia. Qed.

Lemma length_zeros n : length (zeros n) = n.
Proof. apply length_replicate. Qed.

Lemma length_strncpy dst src n :
  (n <= length dst)%nat -> length (strncpy dst src n) = length dst.
Proof.
  intros H. unfold strncpy. rewrite !length_app, length_zeros, length_drop, length_take. lia.
Qed.

Lemma no_nul_take n s : no_nul s -> no_nul (take n s).
Proof. unfold no_nul. intros H Hin. apply H. eapply elem_of_take in Hin as (i&?&?).
  by apply list_elem_of_lookup; exists i. Qed.

(** What a string copied by [strncpy] into an array whose byte [n] is NUL
    reads back as. *)
Lemma cstr_strncpy dst src n :
  dst !! n = Some x00 -> cstr (strncpy dst src n) = take n (cstr src).
Proof.
  intros Hn. unfold strncpy.
  pose proof (no_nul_take n _ (cstr_no_nul src)) as Hs.
  destruct (n - length (take n (cstr src)))%nat as [|k] eqn:E; simpl.
  - rewrite (drop_S _ _ _ Hn). by apply cstr_app_nul.
  - by apply cstr_app_nul.
Qed.

(** ** Memory blocks

    A block of memory is the list of its bytes; an access outside it is
    undefined. *)

Abbreviation blen l := (Z.of_nat (length l)).

(** [memcpy(dst + off, src, |src|)] *)
Definition memcpy_to (dst : list byte) (off : Z) (src : list byte) : outcome (list byte) :=
  if (0 <=? off) && (off + blen src <=? blen dst)
  then Ret (take (Z.to_nat off) dst ++ src ++ drop (Z.to_nat off + length src) dst)
  else UB.

(** The [n] bytes at [src + off]. *)
Definition memread (src : list byte) (off n : Z) : outcome (list byte) :=
  if (0 <=? off) && (0 <=? n) && (off + n <=? blen src)
  then Ret (take (Z.to_nat n) (drop (Z.to_nat off) src))
  else UB.

Lemma memcpy_to_ok dst off src :
  0 <= off -> off + blen src <= blen dst ->
  memcpy_to dst off src =
    Ret (take (Z.to_nat off) dst ++ src ++ drop (Z.to_nat off + length src) dst).
Proof.
  intros. unfold memcpy_to. by rewrite (proj2 (Z.leb_le _ _)), (proj2 (Z.leb_le _ _)) by lia.
Qed.

Lemma memcpy_to_ub dst off src : blen dst < off + blen src -> memcpy_to dst off src = UB.
Proof.
  intros Hlt. unfold memcpy_to. destruct (_ && _) eqn:E; [|done].
  apply andb_true_iff in E as [_ E%Z.leb_le]. lia.
Qed.

Lemma memread_ok src off n :
  0 <= off -> 0 <= n -> off + n <= blen src ->
  memread src off n = Ret (take (Z.to_nat n) (drop (Z.to_nat off) src)).
Proof.
  intros. unfold memread. by rewrite !(proj2 (Z.leb_le _ _)) by lia.
Qed.

Lemma length_memcpy_to dst off src dst' :
  memcpy_to dst off src = Ret dst' -> length dst' = length dst.
Proof.
  unfold memcpy_to. destruct (_ && _) eqn:E; [|done]. intros [= <-].
  apply andb_true_iff in E as [?%Z.leb_le ?%Z.leb_le].
  rewrite !length_app, length_take, length_drop. lia.
Qed.

(** ** Decimal conversions of the C library *)

Definition isspace (b : byte) : bool :=
  let z := byteZ b in (z =? 32) || ((9 <=? z) && (z <=? 13)).
Definition isdigit (b : byte) : bool :=
  let z := byteZ b in (48 <=? z) && (z <=? 57).

Fixpoint skip_spaces (s : list byte) : list byte :=
  match s with
  | b :: s' => if isspace b then skip_spaces s' else s
  | [] => []
  end.

Fixpoint digits (acc : Z) (s : list byte) : Z :=
  match s with
  | b :: s => if isdigit b then digits (acc * 10 + (byteZ b - 48)) s else acc
  | [] => acc
  end.

(** [strtol(s, NULL, 10)]: saturates at the bounds of [long]. *)
Definition strtol (a : list byte) : Z :=
  let clip z := Z.max (- 2 ^ 63) (Z.min (2 ^ 63 - 1) z) in
  match skip_spaces (cstr a) with
  | b :: s =>
      if decide (b = "-"%byte) then clip (- digits 0 s)
      else if decide (b = "+"%byte) then clip (digits 0 s)
      else clip (digits 0 (b :: s))
  | [] => 0
  end.

(** [atoi] is [(int)strtol(s, NULL, 10)]. *)
Definition atoi (a : list byte) : Z := i32 (strtol a).

(** The conversion [%d] (and [%u] on a nonnegative value). *)
Definition fmt_d (z : Z) : list byte := str (pretty z).

Lemma atoi_range a : in_s 32 (atoi a).
Proof. by apply wraps_range. Qed.

Example atoi_ex1 : atoi (str "  -42abc") = -42.
Proof. reflexivity. Qed.
Example atoi_ex2 : atoi (str "..") = 0.
Proof. reflexivity. Qed.
Example atoi_fmt : atoi (fmt_d 12345) = 12345.
Proof. reflexivity. Qed.
