(* ===== verification/Serialize.v ===== *)
(** * libtrpc: the serial buffer (libtrpc/src/serialize.c, serialize.h)

    A [serial_buf_t] is a growable byte stack: [serialize_*] appends at
    [pos], [deserialize_*] removes from [pos].  The model keeps the whole
    allocated block, the [size] and [pos] fields and their 64-bit
    arithmetic; reads and writes outside the block are undefined behaviour.
    The abstract view of a buffer is the byte string below [pos]
    ([readable]); every operation is shown to refine the corresponding
    operation on that byte string. *)

From S2P Require Import Prelude.

(** ** Environment

    The byte order of the host and the allocator are the two things the code
    does not decide.  [al_ok n] tells whether an allocation of [n] bytes
    succeeds, [al_junk] is the indeterminate content of fresh memory;
    objects larger than [PTRDIFF_MAX] cannot be allocated. *)

Class Host := { host_le : bool }.

Class Allocator := {
  al_ok : Z -> bool;
  al_junk : Z -> nat -> byte;
  al_max : forall n, al_ok n = true -> n < 2 ^ 63;
}.

Section alloc.
Context {AL : Allocator}.

Definition fresh_bytes (n : Z) (k : nat) : list byte := al_junk n <$> seq 0 k.

Definition malloc (n : Z) : option (list byte) :=
  if al_ok n then Some (fresh_bytes n (Z.to_nat n)) else None.

Definition realloc (old : list byte) (n : Z) : option (list byte) :=
  if al_ok n
  then Some (take (Z.to_nat n) old ++ fresh_bytes n (Z.to_nat n - length old))
  else None.

Lemma length_fresh_bytes n k : length (fresh_bytes n k) = k.
Proof. unfold fresh_bytes. by rewrite length_fmap, length_seq. Qed.

Lemma realloc_grow old n new :
  realloc old n = Some new -> blen old <= n ->
  blen new = n /\ n < 2 ^ 63 /\ take (length old) new = old.
Proof.
  unfold realloc. destruct (al_ok n) eqn:E; [|done]. intros [= <-] Hle.
  rewrite take_ge by lia. split_and!.
  - rewrite length_app, length_fresh_bytes. lia.
  - by apply al_max.
  - by rewrite take_app_length.
Qed.

End alloc.

(** ** Byte order *)

Section byteorder.
Context {HO : Host}.

(** Object representation of an [n]-byte unsigned integer. *)
Definition host_store (n : nat) (x : Z) : list byte :=
  if host_le then le_bytes n x else be_bytes n x.
Definition host_load (l : list byte) : Z :=
  if host_le then le_val l else be_val l.

Definition bswap (n : nat) (x : Z) : Z := le_val (reverse (le_bytes n x)).

(** [htons]/[ntohs] and [htonl]/[ntohl] of the C library. *)
Definition htons (x : Z) : Z := if host_le then bswap 2 x else x.
Definition ntohs (x : Z) : Z := if host_le then bswap 2 x else x.
Definition htonl (x : Z) : Z := if host_le then bswap 4 x else x.
Definition ntohl (x : Z) : Z := if host_le then bswap 4 x else x.

Definition htonll (val : Z) : Z := if host_le then bswap 8 val else val.
Definition ntohll (val : Z) : Z := if host_le then bswap 8 val else val.

(** Floating-point values are represented by their bit pattern, which is all
    the conversion functions look at. *)
Definition htonf (val : Z) : Z := if host_le then bswap 4 val else val.
Definition ntohf (val : Z) : Z := if host_le then bswap 4 val else val.
Definition htond (val : Z) : Z := if host_le then bswap 8 val else val.
Definition ntohd (val : Z) : Z := if host_le then bswap 8 val else val.

End byteorder.

(** ** The buffer and its operations *)

Record serial_buf_t := mk_serial_buf {
  sb_data : list byte;
  sb_pos : Z;
  sb_size : Z;
}.
#[export] Instance eta_serial_buf : Eta serial_buf_t :=
  fun r => mk_serial_buf (sb_data r) (sb_pos r) (sb_size r).

(** [None] is the null pointer. *)
Abbreviation sbufp := (option serial_buf_t).

Definition INITIAL_SERIAL_BUF_SIZE : Z := 32.
Definition sizeof_serial_buf_t : Z := 24.

(** The type argument of the macros [DEFINE_SERIALIZE_T] and
    [DEFINE_DESERIALIZE_T]. *)
Inductive ctype := C_int8_t | C_int16_t | C_int32_t | C_int64_t | C_float | C_double.

Definition c_sizeof (ty : ctype) : nat :=
  match ty with
  | C_int8_t => 1 | C_int16_t => 2 | C_int32_t => 4 | C_int64_t => 8
  | C_float => 4 | C_double => 8
  end.

(** The unsigned [DATATYPE(sizeof(_type))] value [z] read as a [_type];
    floating-point values stay bit patterns. *)
Definition of_datatype (ty : ctype) (z : Z) : Z :=
  match ty with
  | C_float | C_double => z
  | _ => wraps (8 * Z.of_nat (c_sizeof ty)) z
  end.

Section ops.
Context {HO : Host} {AL : Allocator}.

Definition new_serial_buf (size : Z) : sbufp :=
  if al_ok sizeof_serial_buf_t then
    let size := if size <=? 0 then INITIAL_SERIAL_BUF_SIZE else size in
    match malloc size with
    | Some d => Some (mk_serial_buf d 0 size)
    | None => None
    end
  else None.

Definition make_serial_buf (data : list byte) (size : Z) : sbufp :=
  if al_ok sizeof_serial_buf_t then Some (mk_serial_buf data size size) else None.

Definition reset_serial_buf (b : sbufp) : sbufp :=
  match b with
  | Some b => Some (b <| sb_pos := 0 |>)
  | None => None
  end.

(** Returns the status and the buffer after the call. *)
Definition reserve_space (b : sbufp) (bytes : Z) : Z * sbufp :=
  match b with
  | None => (-1, None)
  | Some b =>
      if sb_size b <? u64 (sb_pos b + bytes) then
        let new_size := u64 (sb_size b * 2) in
        let new_size :=
          if new_size <? u64 (sb_pos b + bytes) then u64 (new_size + bytes) else new_size in
        match realloc (sb_data b) new_size with
        | None => (-1, Some b)
        | Some data => (0, Some (b <| sb_data := data |> <| sb_size := new_size |>))
        end
      else (0, Some b)
  end.

(** [memcpy(b->data + b->pos, src, n); b->pos += n;] *)
Definition put_bytes (b : serial_buf_t) (src : list byte) : outcome serial_buf_t :=
  data ← memcpy_to (sb_data b) (sb_pos b) src;
  mret (b <| sb_data := data |> <| sb_pos := u64 (sb_pos b + blen src) |>).

(** The converted value [x] of the macro. *)
Definition to_wire (ty : ctype) (t : Z) : Z :=
  match ty with
  | C_float => htonf (u32 t)
  | C_double => htond (u64 t)
  | _ =>
      match c_sizeof ty with
      | 1%nat => u8 t
      | 2%nat => htons (u16 t)
      | 4%nat => htonl (u32 t)
      | _ => htonll (u64 t)
      end
  end.

Definition from_wire (ty : ctype) (x : Z) : Z :=
  match ty with
  | C_float => ntohf x
  | C_double => ntohd x
  | _ =>
      match c_sizeof ty with
      | 1%nat => x
      | 2%nat => ntohs x
      | 4%nat => ntohl x
      | _ => ntohll x
      end
  end.

Definition serialize_T (ty : ctype) (b : sbufp) (t : Z) : outcome (Z * sbufp) :=
  let x := to_wire ty t in
  let '(r, b') := reserve_space b (Z.of_nat (c_sizeof ty)) in
  if negb (r =? 0) then mret (-1, b')
  else
    match b' with
    | None => UB
    | Some b' =>
        b'' ← put_bytes b' (host_store (c_sizeof ty) x);
        mret (0, Some b'')
    end.

(** Returns [*t] ([None] when the status is -1 and [*t] is not assigned). *)
Definition deserialize_T (ty : ctype) (b : serial_buf_t) : outcome (option Z * serial_buf_t) :=
  let n := Z.of_nat (c_sizeof ty) in
  if sb_pos b <? n then mret (None, b)
  else
    let b' := b <| sb_pos := u64 (sb_pos b - n) |> in
    x ← memread (sb_data b') (sb_pos b') n;
    mret (Some (of_datatype ty (from_wire ty (host_load x))), b').

Definition serialize_blob (b : sbufp) (t : list byte) (bytes : Z) : outcome (Z * sbufp) :=
  let '(r, b1) := reserve_space b (u64 (bytes + 4)) in
  if negb (r =? 0) then mret (-1, b1)
  else
    match b1 with
    | None => UB
    | Some b1 =>
        src ← memread t 0 bytes;
        b2 ← put_bytes b1 src;
        b3 ← put_bytes b2 (host_store 4 (htonl bytes));
        mret (0, Some b3)
    end.

(** Returns the status, the array [t], [*bytes] and the buffer. *)
Definition deserialize_blob (b : serial_buf_t) (t : list byte) (bytes : Z)
  : outcome (Z * list byte * Z * serial_buf_t) :=
  if sb_pos b <? 4 then mret (-1, t, bytes, b)
  else
    let b1 := b <| sb_pos := u64 (sb_pos b - 4) |> in
    x ← memread (sb_data b1) (sb_pos b1) 4;
    let bytes := ntohl (host_load x) in
    if sb_pos b1 <? bytes then mret (-1, t, bytes, b1)
    else
      let b2 := b1 <| sb_pos := u64 (sb_pos b1 - bytes) |> in
      src ← memread (sb_data b2) (sb_pos b2) bytes;
      t' ← memcpy_to t 0 src;
      mret (0, t', bytes, b2).

Definition serialize_str (b : sbufp) (t : list byte) : outcome (Z * sbufp) :=
  serialize_blob b t (u32 (strlen t)).

(** [None] when the status is -1; the array after the call otherwise. *)
Definition deserialize_str (b : serial_buf_t) (t : list byte)
  : outcome (option (list byte) * serial_buf_t) :=
  '(r, t', len, b') ← deserialize_blob b t 0;
  if negb (r =? 0) then mret (None, b')
  else
    t'' ← memcpy_to t' len [x00];
    mret (Some t'', b').

End ops.

(** ** Well-formed buffers and their abstract content *)

Definition wf_buf (b : serial_buf_t) : Prop :=
  blen (sb_data b) = sb_size b /\ 0 <= sb_pos b <= sb_size b /\ sb_size b < 2 ^ 63.

Definition readable (b : serial_buf_t) : list byte := take (Z.to_nat (sb_pos b)) (sb_data b).

Lemma length_readable b : wf_buf b -> blen (readable b) = sb_pos b.
Proof. intros (?&?&?). unfold readable. rewrite length_take. lia. Qed.

(** ** Conversions to network order do not depend on the host *)

Section conversions.
Context {HO : Host}.

Lemma le_bytes_mod n x : le_bytes n (x mod 2 ^ (8 * Z.of_nat n)) = le_bytes n x.
Proof.
  rewrite <- le_val_le_bytes.
  rewrite <- (length_le_bytes n x) at 1. apply le_bytes_le_val.
Qed.

Lemma le_bytes_bswap n x : le_bytes n (bswap n x) = be_bytes n x.
Proof.
  unfold bswap, be_bytes.
  assert (n = length (reverse (le_bytes n x))) as Hn
    by (by rewrite length_reverse, length_le_bytes).
  rewrite Hn at 1. apply le_bytes_le_val.
Qed.

Lemma bswap_le_val l : bswap (length l) (le_val l) = be_val l.
Proof. unfold bswap, be_val. by rewrite le_bytes_le_val. Qed.

Lemma host_store_to_wire ty t :
  host_store (c_sizeof ty) (to_wire ty t) = be_bytes (c_sizeof ty) t.
Proof.
  assert (forall n, be_bytes n (wrapu (8 * Z.of_nat n) t) = be_bytes n t) as Hmod
    by (intros; unfold be_bytes, wrapu; by rewrite le_bytes_mod).
  unfold host_store, to_wire, htons, htonl, htonll, htonf, htond.
  destruct ty; simpl c_sizeof; destruct host_le; rewrite ?le_bytes_bswap;
    (apply (Hmod 1%nat) || apply (Hmod 2%nat) || apply (Hmod 4%nat)
     || apply (Hmod 8%nat)).
Qed.

Lemma from_wire_host_load ty l :
  length l = c_sizeof ty -> from_wire ty (host_load l) = be_val l.
Proof.
  intros Hl. unfold host_load, from_wire, ntohs, ntohl, ntohll, ntohf, ntohd.
  destruct ty; simpl in *; destruct host_le; try done; try (rewrite <- Hl; apply bswap_le_val).
  destruct l as [|b [|c l]]; done.
Qed.

Lemma ntohl_host_load l : length l = 4%nat -> ntohl (host_load l) = be_val l.
Proof. apply (from_wire_host_load C_int32_t). Qed.

Lemma host_store_htonl x : host_store 4 (htonl x) = be_bytes 4 x.
Proof.
  unfold host_store, htonl. destruct host_le; [apply le_bytes_bswap|done].
Qed.

End conversions.

(** ** The operations refine the byte stack *)

Section refinement.
Context {HO : Host} {AL : Allocator}.

Lemma reserve_space_spec b bytes :
  wf_buf b -> 0 <= bytes < 2 ^ 33 ->
  exists r b', reserve_space (Some b) bytes = (r, Some b') /\ wf_buf b' /\
    sb_pos b' = sb_pos b /\ readable b' = readable b /\
    (r = 0 /\ sb_pos b + bytes <= sb_size b' \/ r = -1 /\ b' = b).
Proof.
  intros (Hlen & Hpos & Hsz) Hb. unfold reserve_space.
  change (2 ^ 33) with 8589934592 in Hb.
  rewrite !(wrapu_id 64 (sb_pos b + bytes)) by range.
  rewrite (wrapu_id 64 (sb_size b * 2)) by range.
  destruct (Z.ltb_spec (sb_size b) (sb_pos b + bytes)) as [Hgrow|Hfit].
  2:{ exists 0, b. unfold wf_buf. intuition lia. }
  set (ns := if sb_size b * 2 <? _ then _ else _).
  assert (sb_pos b + bytes <= ns /\ blen (sb_data b) <= ns) as [Hns Hle].
  { unfold ns. destruct (Z.ltb_spec (sb_size b * 2) (sb_pos b + bytes)); [|lia].
    rewrite wrapu_id by range. lia. }
  destruct (realloc (sb_data b) ns) as [d|] eqn:E.
  2:{ exists (-1), b. unfold wf_buf. intuition lia. }
  apply realloc_grow in E as (Hd & Hmax & Htake); [|lia].
  exists 0, (b <| sb_data := d |> <| sb_size := ns |>). unfold wf_buf, readable; simpl.
  split_and!; try lia; try done.
  rewrite <- Htake, take_take. f_equal. lia.
Qed.

Lemma put_bytes_spec b src :
  wf_buf b -> sb_pos b + blen src <= sb_size b ->
  exists b', put_bytes b src = Ret b' /\ wf_buf b' /\ sb_size b' = sb_size b /\
    sb_pos b' = sb_pos b + blen src /\ readable b' = readable b ++ src.
Proof.
  intros (Hlen & Hpos & Hsz) Hfit. unfold put_bytes.
  rewrite memcpy_to_ok by lia. simpl. eexists; split_and!; [done| |done| |].
  - unfold wf_buf; simpl. rewrite wrapu_id by range.
    rewrite !length_app, length_take, length_drop. lia.
  - simpl. rewrite wrapu_id by range. done.
  - unfold readable; simpl. rewrite wrapu_id by range.
    replace (Z.to_nat (sb_pos b + blen src)) with (Z.to_nat (sb_pos b) + length src)%nat by lia.
    rewrite app_assoc, take_app_le by (rewrite length_app, length_take; lia).
    apply take_ge. rewrite length_app, length_take. lia.
Qed.

Lemma take_pop (d : list byte) (p n : Z) l w :
  0 <= n <= p -> p <= blen d -> take (Z.to_nat p) d = l ++ w -> blen w = n ->
  take (Z.to_nat (p - n)) d = l /\ take (Z.to_nat n) (drop (Z.to_nat (p - n)) d) = w.
Proof.
  intros Hn Hp Ht Hw.
  assert (length l = Z.to_nat (p - n)) as Hl.
  { apply (f_equal length) in Ht. rewrite length_take, length_app in Ht. lia. }
  assert (take (Z.to_nat p) d ++ drop (Z.to_nat p) d = d) as Hd by apply take_drop.
  rewrite Ht in Hd. split.
  - rewrite <- Hd, <- app_assoc, <- Hl. apply take_app_length.
  - rewrite <- Hd, <- app_assoc, <- Hl, drop_app_length.
    replace (Z.to_nat n) with (length w) by lia. apply take_app_length.
Qed.

(** Appending a block of bytes, or failing with the buffer's content kept. *)
Definition pushes (f : sbufp -> outcome (Z * sbufp)) (w : list byte) : Prop :=
  forall b, wf_buf b ->
  exists r b', f (Some b) = Ret (r, Some b') /\ wf_buf b' /\
    (r = 0 /\ readable b' = readable b ++ w \/ r = -1 /\ b' = b).

Lemma serialize_T_pushes ty t :
  pushes (fun b => serialize_T ty b t) (be_bytes (c_sizeof ty) t).
Proof.
  intros b Hwf. unfold serialize_T.
  destruct (reserve_space_spec b (Z.of_nat (c_sizeof ty)) Hwf) as
    (r & b1 & -> & Hwf1 & Hp & Hr & [[-> Hfit]|[-> ->]]).
  { destruct ty; simpl; lia. }
  2:{ exists (-1), b. auto. }
  simpl. rewrite host_store_to_wire.
  destruct (put_bytes_spec b1 (be_bytes (c_sizeof ty) t) Hwf1) as (b2 & -> & ? & _ & _ & Hb2).
  { rewrite length_be_bytes. lia. }
  simpl. exists 0, b2. split_and!; try done. left. by rewrite Hb2, Hr.
Qed.

(** Byte image of a blob: its bytes, then its length in network order. *)
Definition blob_wire (w : list byte) : list byte := w ++ be_bytes 4 (blen w).

Lemma serialize_blob_pushes t w rest :
  t = w ++ rest -> blen w < 2 ^ 32 ->
  pushes (fun b => serialize_blob b t (blen w)) (blob_wire w).
Proof.
  intros -> Hw b Hwf. unfold serialize_blob. change (2 ^ 32) with 4294967296 in Hw.
  rewrite (wrapu_id 64 (blen w + 4)) by range.
  destruct (reserve_space_spec b (blen w + 4) Hwf) as
    (r & b1 & -> & Hwf1 & Hp & Hr & [[-> Hfit]|[-> ->]]).
  { change (2 ^ 33) with 8589934592. lia. }
  2:{ exists (-1), b. auto. }
  simpl. rewrite memread_ok by (rewrite ?length_app; lia). simpl.
  rewrite drop_0, take_app_le, take_ge by lia.
  destruct (put_bytes_spec b1 w Hwf1) as (b2 & -> & Hwf2 & Hs2 & Hp2 & Hb2); [lia|]. simpl.
  rewrite host_store_htonl.
  destruct (put_bytes_spec b2 (be_bytes 4 (blen w)) Hwf2) as (b3 & -> & Hwf3 & _ & _ & Hb3).
  { rewrite length_be_bytes. lia. }
  simpl. exists 0, b3. split_and!; try done. left. split; [done|].
  unfold blob_wire. by rewrite Hb3, Hb2, Hr, app_assoc.
Qed.

Lemma serialize_str_pushes t :
  blen (cstr t) < 2 ^ 32 -> pushes (fun b => serialize_str b t) (blob_wire (cstr t)).
Proof.
  intros Hlen. unfold serialize_str, strlen. rewrite wrapu_id by (unfold in_u; lia).
  assert (exists rest, t = cstr t ++ rest) as [rest Hrest].
  { clear. induction t as [|b t [r IH]]; [by exists []|]. simpl. case_decide; [by eexists|].
    exists r. simpl. by f_equal. }
  by apply serialize_blob_pushes with rest.
Qed.

(** Removing a block of bytes from the end. *)
Definition pops {A} (p : serial_buf_t -> outcome (option A * serial_buf_t))
    (a : A) (w : list byte) : Prop :=
  forall b l, wf_buf b -> readable b = l ++ w ->
  exists b', p b = Ret (Some a, b') /\ wf_buf b' /\ readable b' = l.

(** The value of type [ty] a byte image stands for. *)
Definition wire_val (ty : ctype) (w : list byte) : Z := of_datatype ty (be_val w).

Lemma pop_bytes b l w n :
  wf_buf b -> readable b = l ++ w -> n = blen w ->
  (sb_pos b <? n) = false /\
  memread (sb_data b) (u64 (sb_pos b - n)) n = Ret w /\
  wf_buf (b <| sb_pos := u64 (sb_pos b - n) |>) /\
  readable (b <| sb_pos := u64 (sb_pos b - n) |>) = l.
Proof.
  intros Hwf Hr ->. pose proof (length_readable b Hwf) as Hlr.
  rewrite Hr, length_app in Hlr. destruct Hwf as (Hlen & Hpos & Hsz).
  destruct (take_pop (sb_data b) (sb_pos b) (blen w) l w) as [H1 H2]; try done; try lia.
  rewrite (wrapu_id 64 (sb_pos b - blen w)) by range.
  rewrite memread_ok by lia. rewrite H2.
  split_and!; [lia|done| |done]. unfold wf_buf; simpl. lia.
Qed.

Lemma deserialize_T_pops ty w :
  length w = c_sizeof ty -> pops (deserialize_T ty) (wire_val ty w) w.
Proof.
  intros Hw b l Hwf Hr. unfold deserialize_T.
  destruct (pop_bytes b l w (Z.of_nat (c_sizeof ty)) Hwf Hr) as (-> & Hm & Hwf' & Hr'); [lia|].
  simpl in *. rewrite Hm. simpl. rewrite from_wire_host_load by done. eauto.
Qed.

Lemma deserialize_blob_pops b l w t n0 :
  wf_buf b -> readable b = l ++ blob_wire w -> blen w < 2 ^ 32 -> (length w <= length t)%nat ->
  exists b', deserialize_blob b t n0 = Ret (0, w ++ drop (length w) t, blen w, b') /\
    wf_buf b' /\ readable b' = l.
Proof.
  intros Hwf Hr Hw Ht. unfold deserialize_blob, blob_wire in *. rewrite app_assoc in Hr.
  destruct (pop_bytes b (l ++ w) (be_bytes 4 (blen w)) 4 Hwf Hr) as (-> & Hm & Hwf1 & Hr1).
  { by rewrite length_be_bytes. }
  simpl in *. rewrite Hm. simpl.
  rewrite ntohl_host_load by apply length_be_bytes.
  rewrite be_val_be_bytes, Z.mod_small by (split; [lia|exact Hw]).
  destruct (pop_bytes _ l w (blen w) Hwf1 Hr1) as (Hlt & Hm2 & Hwf2 & Hr2); [done|].
  simpl in *. rewrite Hlt, Hm2. simpl. rewrite memcpy_to_ok by lia. simpl.
  eauto.
Qed.

Lemma deserialize_str_pops t w :
  (length w < length t)%nat -> blen w < 2 ^ 32 ->
  pops (fun b => deserialize_str b t) (w ++ x00 :: drop (S (length w)) t) (blob_wire w).
Proof.
  intros Ht Hw b l Hwf Hr. unfold deserialize_str.
  destruct (deserialize_blob_pops b l w t 0 Hwf Hr) as (b' & -> & ? & ?); [done|lia|].
  simpl. rewrite memcpy_to_ok by (rewrite ?length_app, ?length_drop; simpl; lia).
  simpl. exists b'. split_and!; try done.
  rewrite Nat2Z.id, take_app_length, drop_app_ge, drop_drop by lia.
  replace (length w + (length w + 1 - length w))%nat with (S (length w)) by lia. done.
Qed.

End refinement.

(** ** Properties *)

(** Values a variable of the C type can hold (bit patterns for the
    floating-point types). *)
Definition c_in_range (ty : ctype) (t : Z) : Prop :=
  match ty with
  | C_float | C_double => in_u (8 * Z.of_nat (c_sizeof ty)) t
  | _ => in_s (8 * Z.of_nat (c_sizeof ty)) t
  end.

Lemma wire_val_be_bytes ty t :
  c_in_range ty t -> wire_val ty (be_bytes (c_sizeof ty) t) = t.
Proof.
  intros Ht. unfold wire_val. rewrite be_val_be_bytes.
  change (t mod 2 ^ (8 * Z.of_nat (c_sizeof ty)))
    with (wrapu (8 * Z.of_nat (c_sizeof ty)) t).
  destruct ty; simpl in *; rewrite ?wraps_wrapu by lia; (apply wraps_id || apply wrapu_id); done || lia.
Qed.

(** A value serialized on a host of one byte order and deserialized on a
    host of any byte order comes back unchanged, and the buffer is left with
    the bytes it had before; serializing either succeeds or reports -1 and
    keeps the buffer. *)
Theorem serialize_T_roundtrip (h1 h2 : Host) {AL : Allocator} ty t b :
  wf_buf b -> c_in_range ty t ->
  exists r b1, serialize_T (HO := h1) ty (Some b) t = Ret (r, Some b1) /\ wf_buf b1 /\
    (r = -1 /\ b1 = b \/
     r = 0 /\ exists b2, deserialize_T (HO := h2) ty b1 = Ret (Some t, b2) /\
       wf_buf b2 /\ readable b2 = readable b).
Proof.
  intros Hwf Ht.
  destruct (serialize_T_pushes (HO := h1) ty t b Hwf) as (r & b1 & E & Hwf1 & [[-> Hr]|[-> ->]]).
  2:{ eauto 10. }
  exists 0, b1. split_and!; [done|done|]. right. split; [done|].
  destruct (deserialize_T_pops (HO := h2) ty _ (length_be_bytes _ t) b1 _ Hwf1 Hr)
    as (b2 & E2 & ? & ?).
  rewrite wire_val_be_bytes in E2 by done. eauto.
Qed.

(** A string survives serialization and deserialization across byte
    orders: the destination array ends up holding the C string that was
    serialized, when it has room for it and its terminator. *)
Theorem serialize_str_roundtrip (h1 h2 : Host) {AL : Allocator} s t b :
  wf_buf b -> (length (cstr s) < length t)%nat -> blen (cstr s) < 2 ^ 32 ->
  exists r b1, serialize_str (HO := h1) (Some b) s = Ret (r, Some b1) /\ wf_buf b1 /\
    (r = -1 /\ b1 = b \/
     r = 0 /\ exists t' b2, deserialize_str (HO := h2) b1 t = Ret (Some t', b2) /\
       cstr t' = cstr s /\ length t' = length t /\ wf_buf b2 /\ readable b2 = readable b).
Proof.
  intros Hwf Ht Hlen.
  destruct (serialize_str_pushes (HO := h1) s Hlen b Hwf) as (r & b1 & E & Hwf1 & [[-> Hr]|[-> ->]]).
  2:{ eauto 10. }
  exists 0, b1. split_and!; [done|done|]. right. split; [done|].
  destruct (deserialize_str_pops (HO := h2) t _ Ht Hlen b1 _ Hwf1 Hr) as (b2 & E2 & ? & ?).
  eexists _, b2. split; [exact E2|]. split_and!; try done.
  - apply cstr_app_nul, cstr_no_nul.
  - rewrite length_app. simpl. rewrite length_drop. lia.
Qed.

(** The abstract content of a string at the end of a byte string. *)
Definition pop_n (n : nat) (s : list byte) : option (list byte * list byte) :=
  if decide (n <= length s)%nat
  then Some (take (length s - n) s, drop (length s - n) s) else None.

Definition pop_blob (s : list byte) : option (list byte * list byte) :=
  '(s1, len) ← pop_n 4 s; pop_n (Z.to_nat (be_val len)) s1.

Lemma pop_n_Some n s l w : pop_n n s = Some (l, w) -> s = l ++ w /\ length w = n.
Proof.
  unfold pop_n. case_decide; [|done]. intros [= <- <-].
  rewrite take_drop, length_drop. split; [done|lia].
Qed.

Lemma be_val_range w : 0 <= be_val w < 2 ^ (8 * Z.of_nat (length w)).
Proof. unfold be_val. pose proof (le_val_range (reverse w)). by rewrite length_reverse in *. Qed.

Lemma be_bytes_be_val w : be_bytes (length w) (be_val w) = w.
Proof.
  unfold be_bytes, be_val. rewrite <- (length_reverse w), le_bytes_le_val.
  apply reverse_involutive.
Qed.

Lemma pop_blob_Some s l w : pop_blob s = Some (l, w) -> s = l ++ blob_wire w /\ blen w < 2 ^ 32.
Proof.
  unfold pop_blob. intros H. apply bind_Some in H as ([s1 len] & H1 & H2).
  apply pop_n_Some in H1 as [-> Hlen]. apply pop_n_Some in H2 as [-> Hw].
  pose proof (be_val_range len) as Hr. rewrite Hlen in Hr.
  unfold blob_wire. rewrite <- app_assoc. split; [|change (2 ^ 32) with (2 ^ (8 * Z.of_nat 4)); lia].
  do 2 f_equal. rewrite Hw, Z2Nat.id by lia. rewrite <- Hlen. symmetry. apply be_bytes_be_val.
Qed.

Lemma pop_n_app (l w : list byte) : pop_n (length w) (l ++ w) = Some (l, w).
Proof.
  unfold pop_n. rewrite length_app, decide_True by lia.
  replace (length l + length w - length w)%nat with (length l) by lia.
  by rewrite take_app_length, drop_app_length.
Qed.

Lemma pop_blob_wire l w : blen w < 2 ^ 32 -> pop_blob (l ++ blob_wire w) = Some (l, w).
Proof.
  intros Hw. unfold pop_blob, blob_wire. rewrite app_assoc.
  rewrite <- (length_be_bytes 4 (blen w)) at 1. rewrite pop_n_app. simpl.
  rewrite be_val_be_bytes, Z.mod_small by (split; [lia|exact Hw]).
  by rewrite Nat2Z.id, pop_n_app.
Qed.

(** What is left of the byte string when a string could not be removed: the
    code gives the length field up before it looks at the content. *)
Definition drop_length (s : list byte) : list byte :=
  match pop_n 4 s with Some (l, _) => l | None => s end.

(** [deserialize_blob] on any well-formed buffer: it reports -1 exactly when
    the buffer does not hold a complete blob; otherwise it copies the blob and
    removes it, and it writes outside the destination array exactly when the
    blob is longer than the array (the length comes from the wire and the code
    has no check against the destination's size). *)
Lemma deserialize_blob_total {HO : Host} b t n0 :
  wf_buf b ->
  match pop_blob (readable b) with
  | None => exists n b', deserialize_blob b t n0 = Ret (-1, t, n, b') /\ wf_buf b' /\
              readable b' = drop_length (readable b)
  | Some (l, w) =>
      if decide (length w <= length t)%nat
      then exists b', deserialize_blob b t n0 = Ret (0, w ++ drop (length w) t, blen w, b') /\
             wf_buf b' /\ readable b' = l
      else deserialize_blob b t n0 = UB
  end.
Proof.
  intros Hwf. destruct (pop_blob (readable b)) as [[l w]|] eqn:E.
  - apply pop_blob_Some in E as [Hr Hw]. case_decide as Hlt.
    { by apply deserialize_blob_pops. }
    unfold deserialize_blob, blob_wire in *. rewrite app_assoc in Hr.
    destruct (pop_bytes b (l ++ w) (be_bytes 4 (blen w)) 4 Hwf Hr) as (-> & Hm & Hwf1 & Hr1).
    { by rewrite length_be_bytes. }
    simpl in *. rewrite Hm. simpl. rewrite ntohl_host_load by apply length_be_bytes.
    rewrite be_val_be_bytes, Z.mod_small by (split; [lia|exact Hw]).
    destruct (pop_bytes _ l w (blen w) Hwf1 Hr1) as (Hlt' & Hm2 & _ & _); [done|].
    simpl in *. rewrite Hlt', Hm2. simpl. rewrite memcpy_to_ub; [done|lia].
  - unfold deserialize_blob, pop_blob, drop_length in *.
    pose proof (length_readable b Hwf) as Hlr.
    destruct (pop_n 4 (readable b)) as [[s1 len]|] eqn:E4.
    + apply pop_n_Some in E4 as [Hr Hlen].
      destruct (pop_bytes b s1 len 4 Hwf Hr) as (-> & Hm & Hwf1 & Hr1); [lia|].
      simpl in *. rewrite Hm. simpl. rewrite ntohl_host_load by done.
      unfold pop_n in E. case_decide as Hgt; [done|].
      pose proof (length_readable _ Hwf1) as Hl1. rewrite Hr1 in Hl1. simpl in Hl1.
      pose proof (be_val_range len).
      rewrite (proj2 (Z.ltb_lt _ _)) by lia. simpl. eauto 10.
    + unfold pop_n in E4. case_decide; [done|].
      rewrite (proj2 (Z.ltb_lt _ _)) by lia. simpl. eauto 10.
Qed.

(** [deserialize_str] on any well-formed buffer; the terminator needs one
    more byte of the destination array. *)
Lemma deserialize_str_total {HO : Host} b t :
  wf_buf b ->
  match pop_blob (readable b) with
  | None => exists b', deserialize_str b t = Ret (None, b') /\ wf_buf b' /\
              readable b' = drop_length (readable b)
  | Some (l, w) =>
      if decide (length w < length t)%nat
      then exists b', deserialize_str b t = Ret (Some (w ++ x00 :: drop (S (length w)) t), b') /\
             wf_buf b' /\ readable b' = l
      else deserialize_str b t = UB
  end.
Proof.
  intros Hwf. pose proof (deserialize_blob_total b t 0 Hwf) as Hb.
  destruct (pop_blob (readable b)) as [[l w]|] eqn:E.
  - pose proof E as [Hr Hw]%pop_blob_Some.
    destruct (decide (length w < length t)%nat) as [Hlt|Hlt]; [by apply deserialize_str_pops|].
    unfold deserialize_str. case_decide as Hle; [|by rewrite Hb].
    destruct Hb as (b' & -> & _). simpl.
    rewrite memcpy_to_ub; [done|]. rewrite length_app, length_drop. simpl. lia.
  - unfold deserialize_str. destruct Hb as (n & b' & -> & ? & ?). simpl. eauto.
Qed.

(** *** Sequences of operations *)

(** The calls a client can make on a buffer, with their arguments: the value
    or bytes to serialize, or the destination array to deserialize into. *)
Inductive buf_op :=
  | Op_put (ty : ctype) (t : Z)
  | Op_blob (t : list byte)
  | Op_str (t : list byte)
  | Op_get (ty : ctype)
  | Op_get_blob (t : list byte)
  | Op_get_str (t : list byte)
  | Op_reset.

(** Lengths are [uint32_t] in the interface. *)
Definition op_ok (o : buf_op) : Prop :=
  match o with
  | Op_blob t => blen t < 2 ^ 32
  | Op_str t => blen t < 2 ^ 32
  | _ => True
  end.

Definition run_op {HO : Host} {AL : Allocator} (o : buf_op) (b : sbufp) : outcome sbufp :=
  match o with
  | Op_put ty t => '(_, b') ← serialize_T ty b t; mret b'
  | Op_blob t => '(_, b') ← serialize_blob b t (blen t); mret b'
  | Op_str t => '(_, b') ← serialize_str b t; mret b'
  | Op_get ty =>
      match b with
      | Some b => '(_, b') ← deserialize_T ty b; mret (Some b')
      | None => UB
      end
  | Op_get_blob t =>
      match b with
      | Some b => '(_, _, _, b') ← deserialize_blob b t 0; mret (Some b')
      | None => UB
      end
  | Op_get_str t =>
      match b with
      | Some b => '(_, b') ← deserialize_str b t; mret (Some b')
      | None => UB
      end
  | Op_reset => mret (reset_serial_buf b)
  end.

Fixpoint run_ops {HO : Host} {AL : Allocator} (os : list buf_op) (b : sbufp) : outcome sbufp :=
  match os with
  | [] => mret b
  | o :: os => b' ← run_op o b; run_ops os b'
  end.

(** The byte stack: [stack_op o s s'] when the call [o] may turn the byte
    string [s] into [s']; a serializing call that cannot get memory changes
    nothing. *)
Definition stack_op (o : buf_op) (s s' : list byte) : Prop :=
  match o with
  | Op_put ty t => s' = s ++ be_bytes (c_sizeof ty) t \/ s' = s
  | Op_blob t => s' = s ++ blob_wire t \/ s' = s
  | Op_str t => s' = s ++ blob_wire (cstr t) \/ s' = s
  | Op_get ty => s' = match pop_n (c_sizeof ty) s with Some (l, _) => l | None => s end
  | Op_get_blob _ | Op_get_str _ =>
      s' = match pop_blob s with Some (l, _) => l | None => drop_length s end
  | Op_reset => s' = []
  end.

Inductive stack_ops : list buf_op -> list byte -> list byte -> Prop :=
  | stack_nil s : stack_ops [] s s
  | stack_cons o os s s1 s2 :
      stack_op o s s1 -> stack_ops os s1 s2 -> stack_ops (o :: os) s s2.

(** The destination array of the call is too small for the string at the end
    of the buffer. *)
Definition overflows (o : buf_op) (s : list byte) : Prop :=
  match o, pop_blob s with
  | Op_get_blob t, Some (_, w) => (length t < length w)%nat
  | Op_get_str t, Some (_, w) => (length t <= length w)%nat
  | _, _ => False
  end.

Lemma pushes_op {HO : Host} {AL : Allocator} f w b :
  pushes f w -> wf_buf b ->
  exists b', ('(_, b') ← f (Some b); mret b') = Ret (Some b') /\ wf_buf b' /\
    (readable b' = readable b ++ w \/ readable b' = readable b).
Proof.
  intros Hf Hwf. destruct (Hf b Hwf) as (r & b' & -> & ? & [[_ ?]|[_ ->]]); simpl; eauto.
Qed.

Lemma get_op {HO : Host} ty b :
  wf_buf b ->
  exists r b', deserialize_T ty b = Ret (r, b') /\ wf_buf b' /\
    readable b' = match pop_n (c_sizeof ty) (readable b) with
                  | Some (l, _) => l | None => readable b end.
Proof.
  intros Hwf. destruct (pop_n (c_sizeof ty) (readable b)) as [[l w]|] eqn:E.
  - apply pop_n_Some in E as [Hr Hw].
    destruct (deserialize_T_pops ty w Hw b l Hwf Hr) as (b' & -> & ? & ?). eauto.
  - unfold pop_n in E. case_decide; [done|]. pose proof (length_readable b Hwf).
    unfold deserialize_T. rewrite (proj2 (Z.ltb_lt _ _)) by lia. simpl. eauto.
Qed.

(** One call: it overruns the destination array, or it acts on the byte
    stack. *)
Lemma run_op_stack {HO : Host} {AL : Allocator} o b :
  wf_buf b -> op_ok o ->
  (overflows o (readable b) /\ run_op o (Some b) = UB) \/
  (~ overflows o (readable b) /\
   exists b', run_op o (Some b) = Ret (Some b') /\ wf_buf b' /\
     stack_op o (readable b) (readable b')).
Proof.
  intros Hwf Hok. destruct o as [ty t|t|t|ty|t|t|]; simpl in *.
  - right. split; [tauto|]. apply (pushes_op (fun b => serialize_T ty b t)); [|done].
    apply serialize_T_pushes.
  - right. split; [tauto|]. apply (pushes_op (fun b => serialize_blob b t (blen t))); [|done].
    by apply serialize_blob_pushes with []; [rewrite app_nil_r|].
  - right. split; [tauto|]. apply (pushes_op (fun b => serialize_str b t)); [|done].
    apply serialize_str_pushes. pose proof (length_cstr_le t). lia.
  - right. split; [tauto|]. destruct (get_op ty b Hwf) as (r & b' & -> & ? & ?). simpl. eauto.
  - unfold overflows. pose proof (deserialize_blob_total b t 0 Hwf) as H.
    destruct (pop_blob (readable b)) as [[l w]|]; [case_decide|].
    + right. split; [lia|]. destruct H as (b' & -> & ? & ?). simpl. eauto.
    + left. rewrite H. split; [lia|done].
    + right. split; [tauto|]. destruct H as (n & b' & -> & ? & ?). simpl. eauto.
  - unfold overflows. pose proof (deserialize_str_total b t Hwf) as H.
    destruct (pop_blob (readable b)) as [[l w]|]; [case_decide|].
    + right. split; [lia|]. destruct H as (b' & -> & ? & ?). simpl. eauto.
    + left. rewrite H. split; [lia|done].
    + right. split; [tauto|]. destruct H as (b' & -> & ? & ?). simpl. eauto.
  - right. split; [tauto|]. eexists. split; [done|]. destruct Hwf as (?&?&?).
    unfold wf_buf; simpl. split; [lia|done].
Qed.

Lemma new_serial_buf_wf {AL : Allocator} size b :
  0 <= size -> new_serial_buf size = Some b -> wf_buf b /\ readable b = [].
Proof.
  unfold new_serial_buf, malloc. intros Hsz Hnew. destruct (al_ok sizeof_serial_buf_t); [|done].
  set (n := if size <=? 0 then _ else _) in *.
  assert (0 < n) by (unfold n, INITIAL_SERIAL_BUF_SIZE; destruct (Z.leb_spec size 0); lia).
  destruct (al_ok n) eqn:Hn; [|done]. injection Hnew as <-. apply al_max in Hn.
  unfold wf_buf; simpl. rewrite length_fresh_bytes. split; [lia|done].
Qed.

Lemma run_ops_stack {HO : Host} {AL : Allocator} os b :
  wf_buf b -> Forall op_ok os ->
  (exists os1 o os2 b1, os = os1 ++ o :: os2 /\ run_ops os1 (Some b) = Ret (Some b1) /\
     overflows o (readable b1) /\ run_ops os (Some b) = UB) \/
  (exists b', run_ops os (Some b) = Ret (Some b') /\ wf_buf b' /\
     stack_ops os (readable b) (readable b')).
Proof.
  intros Hwf Hos. revert b Hwf. induction Hos as [|o os Ho _ IH]; intros b Hwf; simpl.
  { right. eexists. split_and!; [done..|constructor]. }
  destruct (run_op_stack o b Hwf Ho) as [[Hov E]|(Hov & b1 & E & Hwf1 & Hs)]; rewrite E.
  { left. exists [], o, os, b. done. }
  simpl. destruct (IH b1 Hwf1) as [(os1 & o' & os2 & b2 & -> & E1 & ? & E2)|(b' & -> & ? & ?)].
  - left. exists (o :: os1), o', os2, b2. simpl. rewrite E. done.
  - right. eexists. split_and!; [done..|]. by econstructor.
Qed.

Lemma run_ops_app {HO : Host} {AL : Allocator} os1 os2 b :
  run_ops (os1 ++ os2) b = b' ← run_ops os1 b; run_ops os2 b'.
Proof.
  revert b. induction os1 as [|o os1 IH]; intros b; simpl; [done|].
  destruct (run_op o b); simpl; [apply IH|done].
Qed.

(** C32: starting from a buffer made by [new_serial_buf], for every sequence
    of serialize, deserialize and reset calls ([deserialize_blob] and
    [deserialize_str] into arrays of any size included), whatever the
    allocator answers: the calls have undefined behaviour exactly when one of
    them deserializes a blob longer than its destination array, or a string
    not shorter than it, which the code does not check; otherwise nothing is
    read or written outside the allocated block, the buffer stays well formed
    ([pos <= size], block of exactly [size] bytes), and its content is what
    the calls make of a stack of bytes. *)
Theorem serial_buf_safe {HO : Host} {AL : Allocator} size b os :
  0 <= size -> new_serial_buf size = Some b -> Forall op_ok os ->
  (run_ops os (Some b) = UB <->
   exists os1 o os2 b1, os = os1 ++ o :: os2 /\ run_ops os1 (Some b) = Ret (Some b1) /\
     overflows o (readable b1)) /\
  (run_ops os (Some b) <> UB ->
   exists b', run_ops os (Some b) = Ret (Some b') /\ wf_buf b' /\ stack_ops os [] (readable b')).
Proof.
  intros Hsz Hnew Hos. destruct (new_serial_buf_wf size b Hsz Hnew) as [Hwf Hr]. rewrite <- Hr.
  split; [split|].
  - intros HUB. destruct (run_ops_stack os b Hwf Hos) as [(os1 & o & os2 & b1 & ? & ? & ? & _)|(b' & ? & _)].
    + eauto 10.
    + congruence.
  - intros (os1 & o & os2 & b1 & -> & E & Hov). rewrite run_ops_app, E. simpl.
    apply Forall_app in Hos as [Hos1 [Ho _]%Forall_cons].
    destruct (run_ops_stack os1 b Hwf Hos1) as [(? & ? & ? & ? & _ & _ & _ & ?)|(b' & E' & Hwf' & _)];
      [congruence|]. rewrite E in E'. injection E' as <-.
    destruct (run_op_stack o b1 Hwf' Ho) as [[_ ->]|[? _]]; [done|tauto].
  - intros HUB. destruct (run_ops_stack os b Hwf Hos) as [(? & ? & ? & ? & ? & ? & ? & ?)|?]; done.
Qed.

(** *** Witnesses *)

(** A little-endian and a big-endian host, and an allocator with 1 MiB. *)
Definition le_host : Host := {| host_le := true |}.
Definition be_host : Host := {| host_le := false |}.
Definition small_alloc : Allocator.
Proof.
  refine {| al_ok := fun n => n <? 2 ^ 20; al_junk := fun _ _ => x00 |}.
  intros n Hn%Z.ltb_lt. change (2 ^ 20) with 1048576 in Hn. range.
Defined.

Definition buf8 : serial_buf_t := mk_serial_buf (zeros 8) 3 8.

Lemma serialize_T_roundtrip_witness :
  wf_buf buf8 /\
  exists r b1, serialize_T (HO := le_host) (AL := small_alloc) C_int64_t (Some buf8) (-5)
                 = Ret (r, Some b1) /\ wf_buf b1 /\
    (r = -1 /\ b1 = buf8 \/
     r = 0 /\ exists b2, deserialize_T (HO := be_host) C_int64_t b1 = Ret (Some (-5), b2) /\
       wf_buf b2 /\ readable b2 = readable buf8).
Proof.
  split; [vm_compute; intuition congruence|].
  apply (serialize_T_roundtrip le_host be_host (AL := small_alloc));
    vm_compute; intuition congruence.
Defined.

Lemma serialize_str_roundtrip_witness :
  exists r b1, serialize_str (HO := le_host) (AL := small_alloc) (Some buf8) (str "ctl_task")
                 = Ret (r, Some b1) /\ wf_buf b1 /\
    (r = -1 /\ b1 = buf8 \/
     r = 0 /\ exists t' b2, deserialize_str (HO := be_host) b1 (zeros 16) = Ret (Some t', b2) /\
       cstr t' = cstr (str "ctl_task") /\ length t' = length (zeros 16) /\
       wf_buf b2 /\ readable b2 = readable buf8).
Proof.
  apply (serialize_str_roundtrip le_host be_host (AL := small_alloc));
    [vm_compute; intuition congruence|vm_compute; lia|vm_compute; congruence].
Defined.

Definition name_buf : serial_buf_t := mk_serial_buf (blob_wire (str "abcdef")) 10 10.

(** The same encoded string is accepted by an 8-byte array and overflows a
    4-byte one. *)
Lemma deserialize_str_total_witness :
  wf_buf name_buf /\ deserialize_str (HO := le_host) name_buf (zeros 4) = UB.
Proof.
  assert (wf_buf name_buf) as Hwf by (vm_compute; intuition congruence).
  split; [exact Hwf|]. exact (deserialize_str_total (HO := le_host) name_buf (zeros 4) Hwf).
Defined.

(** A string is taken back into an array with room for it; one byte less is
    an overrun. *)
Lemma serial_buf_safe_witness :
  (exists b', run_ops (HO := le_host) (AL := small_alloc)
     [Op_put C_int32_t 7; Op_str (str "n1"); Op_get_str (zeros 3); Op_get C_int64_t; Op_reset]
     (new_serial_buf (AL := small_alloc) 0) = Ret (Some b') /\ wf_buf b') /\
  run_ops (HO := le_host) (AL := small_alloc) [Op_str (str "n1"); Op_get_str (zeros 2)]
     (new_serial_buf (AL := small_alloc) 0) = UB.
Proof.
  destruct (new_serial_buf (AL := small_alloc) 0) as [b|] eqn:E; [|discriminate].
  split.
  - edestruct (serial_buf_safe (HO := le_host) (AL := small_alloc) 0 b) as [_ H];
      [lia|exact E| |destruct H as (b' & ? & ? & _); [|eauto]].
    + repeat constructor; vm_compute; congruence.
    + injection E as <-. vm_compute. congruence.
  - edestruct (serial_buf_safe (HO := le_host) (AL := small_alloc) 0 b) as [[_ H] _];
      [lia|exact E| |apply H].
    + repeat constructor; vm_compute; congruence.
    + injection E as <-. eexists [_], _, [], _. split; [reflexivity|].
      split; [vm_compute; reflexivity|]. vm_compute. lia.
Defined.
