(* ===== verification/Time.v ===== *)
(** * Time arithmetic (timpani-n/src/timetrigger.h, internal.h)

    [struct timespec] with 64-bit signed fields, and the conversions between
    it and 64-bit nanosecond and microsecond counts, at their C widths. *)

From S2P Require Import Prelude.

Record timespec := mk_timespec { tv_sec : Z; tv_nsec : Z }.
#[export] Instance eta_timespec : Eta timespec := fun r => mk_timespec (tv_sec r) (tv_nsec r).
#[export] Instance timespec_eq_dec : EqDecision timespec.
Proof. solve_decision. Defined.

Record itimerspec := mk_itimerspec { it_interval : timespec; it_value : timespec }.
#[export] Instance eta_itimerspec : Eta itimerspec :=
  fun r => mk_itimerspec (it_interval r) (it_value r).

Definition TT_NSEC_PER_SEC : Z := 1000000000.
Definition TT_USEC_PER_SEC : Z := 1000000.
Definition TT_NSEC_PER_USEC : Z := 1000.
Abbreviation NSEC_PER_SEC := TT_NSEC_PER_SEC.
Abbreviation USEC_PER_SEC := TT_USEC_PER_SEC.
Abbreviation NSEC_PER_USEC := TT_NSEC_PER_USEC.

Definition tt_timespec_to_ns (ts : timespec) : Z :=
  u64 (u64 (u64 (tv_sec ts) * TT_NSEC_PER_SEC) + u64 (tv_nsec ts)).

Definition tt_timespec_to_us (ts : timespec) : Z :=
  u64 (u64 (u64 (tv_sec ts) * TT_USEC_PER_SEC) + u64 (tv_nsec ts) / TT_NSEC_PER_USEC).

Definition tt_us_to_timespec (us : Z) : timespec :=
  {| tv_sec := i64 (us / TT_USEC_PER_SEC);
     tv_nsec := i64 (u64 (us mod TT_USEC_PER_SEC * TT_NSEC_PER_USEC)) |}.

Definition tt_ns_to_timespec (ns : Z) : timespec :=
  {| tv_sec := i64 (ns / TT_NSEC_PER_SEC);
     tv_nsec := i64 (ns mod TT_NSEC_PER_SEC) |}.

Definition tt_timespec_compare (a b : timespec) : Z :=
  if negb (tv_sec a =? tv_sec b) then
    if tv_sec b <? tv_sec a then 1 else -1
  else if tv_nsec b <? tv_nsec a then 1
  else if tv_nsec a <? tv_nsec b then -1 else 0.

Definition tt_timespec_diff_ns (b a : timespec) : Z :=
  u64 (tt_timespec_to_ns b - tt_timespec_to_ns a).

Definition tt_timespec_add_us (ts : timespec) (us : Z) : timespec :=
  let total_ns := u64 (tt_timespec_to_ns ts + u64 (us * TT_NSEC_PER_USEC)) in
  tt_ns_to_timespec total_ns.

(** ** Well-formed times

    A normalized timespec, and one whose nanosecond count fits 64 bits (any
    date before the year 2554). *)

Definition ts_norm (ts : timespec) : Prop := 0 <= tv_nsec ts < 1000000000.
Definition ts_ok (ts : timespec) : Prop :=
  ts_norm ts /\ 0 <= tv_sec ts /\ tv_sec ts * 1000000000 + tv_nsec ts < 2 ^ 64.

Definition ts_total_ns (ts : timespec) : Z := tv_sec ts * 1000000000 + tv_nsec ts.

Ltac time_unfold :=
  unfold TT_NSEC_PER_SEC, TT_USEC_PER_SEC, TT_NSEC_PER_USEC, ts_ok, ts_norm, ts_total_ns in *.

Lemma to_ns_ok ts : ts_ok ts -> tt_timespec_to_ns ts = ts_total_ns ts.
Proof.
  intros H. unfold tt_timespec_to_ns. time_unfold.
  rewrite !(wrapu_id 64 (tv_sec ts)), !(wrapu_id 64 (tv_nsec ts)) by range.
  rewrite !(wrapu_id 64 (tv_sec ts * _)) by range.
  by rewrite wrapu_id by range.
Qed.

Lemma to_us_ok ts : ts_ok ts -> tt_timespec_to_us ts = ts_total_ns ts / 1000.
Proof.
  intros H. unfold tt_timespec_to_us. time_unfold.
  rewrite !(wrapu_id 64 (tv_sec ts)), !(wrapu_id 64 (tv_nsec ts)) by range.
  rewrite !(wrapu_id 64 (tv_sec ts * _)) by range.
  rewrite wrapu_id.
  - Z.div_mod_to_equations. lia.
  - unfold_range. Z.div_mod_to_equations. lia.
Qed.

Lemma us_to_timespec_norm us : ts_norm (tt_us_to_timespec us).
Proof.
  unfold tt_us_to_timespec. time_unfold. simpl.
  pose proof (Z.mod_pos_bound us 1000000).
  rewrite wrapu_id, wraps_id by range. lia.
Qed.

Lemma us_to_timespec_total us :
  in_u 64 us -> ts_total_ns (tt_us_to_timespec us) = us * 1000.
Proof.
  intros H. unfold tt_us_to_timespec. time_unfold. simpl.
  pose proof (Z.mod_pos_bound us 1000000).
  rewrite wrapu_id by range.
  rewrite !wraps_id; try lia.
  - Z.div_mod_to_equations. lia.
  - unfold_range. Z.div_mod_to_equations. lia.
  - unfold_range. Z.div_mod_to_equations. lia.
Qed.

(** Converting a 64-bit microsecond count to a timespec and back is the
    identity for every count, and the timespec is normalized. *)
Theorem us_timespec_roundtrip us :
  in_u 64 us ->
  ts_norm (tt_us_to_timespec us) /\ tt_timespec_to_us (tt_us_to_timespec us) = us.
Proof.
  intros H. split; [apply us_to_timespec_norm|].
  unfold tt_timespec_to_us, tt_us_to_timespec. time_unfold. simpl.
  pose proof (Z.mod_pos_bound us 1000000).
  rewrite !(wrapu_id 64 (us mod 1000000 * 1000)) by range.
  rewrite !wraps_id; try lia; try (unfold_range; Z.div_mod_to_equations; lia).
  rewrite !(wrapu_id 64 (us / 1000000)), !(wrapu_id 64 (us mod 1000000 * 1000))
    by (unfold_range; Z.div_mod_to_equations; lia).
  rewrite Z.div_mul by lia.
  rewrite (wrapu_id 64 (us / 1000000 * 1000000)) by (unfold_range; Z.div_mod_to_equations; lia).
  rewrite wrapu_id by (unfold_range; Z.div_mod_to_equations; lia).
  Z.div_mod_to_equations. lia.
Qed.

Lemma us_timespec_roundtrip_witness :
  ts_norm (tt_us_to_timespec 1700000000123456) /\
  tt_timespec_to_us (tt_us_to_timespec 1700000000123456) = 1700000000123456.
Proof. apply (us_timespec_roundtrip 1700000000123456). vm_compute. intuition congruence. Defined.

Lemma ns_timespec_roundtrip ns :
  in_u 64 ns ->
  ts_ok (tt_ns_to_timespec ns) /\ tt_timespec_to_ns (tt_ns_to_timespec ns) = ns.
Proof.
  intros H.
  assert (ts_ok (tt_ns_to_timespec ns) /\ ts_total_ns (tt_ns_to_timespec ns) = ns) as [Hok Ht].
  { unfold tt_ns_to_timespec. time_unfold. simpl.
    pose proof (Z.mod_pos_bound ns 1000000000).
    rewrite !wraps_id by (try lia; unfold_range; Z.div_mod_to_equations; lia).
    unfold_range. Z.div_mod_to_equations. lia. }
  split; [done|]. by rewrite to_ns_ok.
Qed.

(** On times whose nanosecond count fits 64 bits, [tt_timespec_compare]
    is the sign of the difference of the counts, [tt_timespec_diff_ns] is that
    difference modulo 2^64, and [tt_timespec_add_us] adds exactly the given
    microseconds and stays normalized as long as the sum fits. *)
Theorem timespec_arith a b us :
  ts_ok a -> ts_ok b -> 0 <= us -> ts_total_ns a + us * 1000 < 2 ^ 64 ->
  tt_timespec_compare a b = Z.sgn (ts_total_ns a - ts_total_ns b) /\
  tt_timespec_diff_ns a b = u64 (ts_total_ns a - ts_total_ns b) /\
  ts_ok (tt_timespec_add_us a us) /\
  ts_total_ns (tt_timespec_add_us a us) = ts_total_ns a + us * 1000.
Proof.
  intros Ha Hb Hus Hfit. split_and!.
  - unfold tt_timespec_compare. time_unfold.
    destruct (Z.eqb_spec (tv_sec a) (tv_sec b)) as [E|E]; simpl;
      repeat (case_match; simpl); lia.
  - unfold tt_timespec_diff_ns. by rewrite !to_ns_ok.
  - unfold tt_timespec_add_us. apply ns_timespec_roundtrip, wrapu_range. lia.
  - unfold tt_timespec_add_us. rewrite to_ns_ok by done.
    assert (0 <= ts_total_ns a) by (time_unfold; lia).
    unfold TT_NSEC_PER_USEC.
    rewrite (wrapu_id 64 (us * 1000)), wrapu_id by range.
    set (n := ts_total_ns a + us * 1000) in *.
    destruct (ns_timespec_roundtrip n) as [Hok Hn]; [range|].
    rewrite <- Hn at 2. by rewrite to_ns_ok.
Qed.

Lemma timespec_arith_witness :
  let a := mk_timespec 1700000000 999999999 in
  let b := mk_timespec 1700000001 5 in
  tt_timespec_compare a b = Z.sgn (ts_total_ns a - ts_total_ns b) /\
  tt_timespec_diff_ns a b = u64 (ts_total_ns a - ts_total_ns b) /\
  ts_ok (tt_timespec_add_us a 2500000) /\
  ts_total_ns (tt_timespec_add_us a 2500000) = ts_total_ns a + 2500000 * 1000.
Proof. apply timespec_arith; vm_compute; intuition congruence. Defined.
