(* ===== verification/Types.v ===== *)
(** * Data of the node executor (timpani-n/src/internal.h, schedinfo.h)

    The structs of timpani-n as records, field for field; character arrays
    are the lists of their bytes, C pointers to heap nodes are addresses.
    Field names carry a prefix per struct. *)

From S2P Require Import Prelude Time.

(** ** Error codes *)

Inductive ttsched_error_t :=
  | TTSCHED_SUCCESS
  | TTSCHED_ERROR_INVALID_ARGS
  | TTSCHED_ERROR_PERMISSION
  | TTSCHED_ERROR_SYSTEM.

Inductive tt_error_t :=
  | TT_SUCCESS
  | TT_ERROR_MEMORY
  | TT_ERROR_TIMER
  | TT_ERROR_SIGNAL
  | TT_ERROR_NETWORK
  | TT_ERROR_CONFIG
  | TT_ERROR_BPF
  | TT_ERROR_INVALID_ARGS
  | TT_ERROR_IO
  | TT_ERROR_PERMISSION.

#[export] Instance ttsched_error_eq_dec : EqDecision ttsched_error_t.
Proof. solve_decision. Defined.
#[export] Instance tt_error_eq_dec : EqDecision tt_error_t.
Proof. solve_decision. Defined.

Definition ttsched_code (e : ttsched_error_t) : Z :=
  match e with
  | TTSCHED_SUCCESS => 0
  | TTSCHED_ERROR_INVALID_ARGS => -1
  | TTSCHED_ERROR_PERMISSION => -2
  | TTSCHED_ERROR_SYSTEM => -3
  end.

Definition tt_code (e : tt_error_t) : Z :=
  match e with
  | TT_SUCCESS => 0
  | TT_ERROR_MEMORY => -1
  | TT_ERROR_TIMER => -2
  | TT_ERROR_SIGNAL => -3
  | TT_ERROR_NETWORK => -4
  | TT_ERROR_CONFIG => -5
  | TT_ERROR_BPF => -6
  | TT_ERROR_INVALID_ARGS => -7
  | TT_ERROR_IO => -8
  | TT_ERROR_PERMISSION => -9
  end.

(** [r == TTSCHED_SUCCESS] (and [r == TT_SUCCESS] where the code compares a
    scheduling result with the other enum's zero). *)
Definition ts_ok_code (r : ttsched_error_t) : bool := ttsched_code r =? 0.
Definition tt_ok_code (r : tt_error_t) : bool := tt_code r =? 0.

Definition ttsched_error_string (error : ttsched_error_t) : string :=
  match error with
  | TTSCHED_SUCCESS => "Success"
  | TTSCHED_ERROR_INVALID_ARGS => "Invalid arguments"
  | TTSCHED_ERROR_PERMISSION => "Permission denied"
  | TTSCHED_ERROR_SYSTEM => "System error"
  end.

Definition tt_error_string (error : tt_error_t) : string :=
  match error with
  | TT_SUCCESS => "Success"
  | TT_ERROR_MEMORY => "Memory allocation failed"
  | TT_ERROR_TIMER => "Timer operation failed"
  | TT_ERROR_SIGNAL => "Signal handling failed"
  | TT_ERROR_NETWORK => "Network operation failed"
  | TT_ERROR_CONFIG => "Configuration error"
  | TT_ERROR_BPF => "BPF operation failed"
  | TT_ERROR_INVALID_ARGS => "Invalid arguments"
  | TT_ERROR_IO => "Input/Output error"
  | TT_ERROR_PERMISSION => "Permission denied"
  end.

(** ** Constants *)

Definition TT_TIMER_INCREMENT_NS : Z := 5 * 1000 * 1000.
Definition TT_POLLING_INTERVAL_US : Z := 100 * 1000.
Definition TT_RETRY_INTERVAL_US : Z := 1000 * 1000.
Definition TT_MAX_CONNECTION_RETRIES : nat := 300.
Definition TT_STATISTICS_LOG_INTERVAL : Z := 100.

Definition TT_LOG_LEVEL_SILENT : Z := 0.
Definition TT_LOG_LEVEL_ERROR : Z := 1.
Definition TT_LOG_LEVEL_WARNING : Z := 2.
Definition TT_LOG_LEVEL_INFO : Z := 3.
Definition TT_LOG_LEVEL_DEBUG : Z := 4.
Definition TT_LOG_LEVEL_VERBOSE : Z := 5.

Definition TINFO_NAME_MAX : nat := 16.
Definition TINFO_NODEID_MAX : nat := 64.
Definition SINFO_NODE_MAX : nat := 16.
Definition MAX_APEX_NAME_LEN : nat := 256.

(** [__SIGRTMIN + 2] with glibc's [__SIGRTMIN] 32. *)
Definition SIGNO_TT : Z := 34.
Definition SIGINT : Z := 2.
Definition SIGTERM : Z := 15.

Definition CLOCK_REALTIME : Z := 0.
Definition CLOCK_MONOTONIC : Z := 1.
Definition TIMER_ABSTIME : Z := 1.
Definition SCHED_NORMAL : Z := 0.
Definition SCHED_FIFO : Z := 1.
Definition SCHED_RR : Z := 2.

(** ** schedinfo.h *)

Record task_info := mk_task_info {
  ti_pid : Z;
  ti_pidfd : Z;
  ti_name : list byte;
  ti_sched_priority : Z;
  ti_sched_policy : Z;
  ti_period : Z;
  ti_release_time : Z;
  ti_runtime : Z;
  ti_deadline : Z;
  ti_cpu_affinity : Z;
  ti_allowable_deadline_misses : Z;
  ti_node_id : list byte;
}.
#[export] Instance eta_task_info : Eta task_info := fun r =>
  mk_task_info (ti_pid r) (ti_pidfd r) (ti_name r) (ti_sched_priority r) (ti_sched_policy r)
    (ti_period r) (ti_release_time r) (ti_runtime r) (ti_deadline r) (ti_cpu_affinity r)
    (ti_allowable_deadline_misses r) (ti_node_id r).

(** The chain of [next] pointers of [tasks] is a list of nodes with their
    addresses. *)
Record sched_info := mk_sched_info {
  si_workload_id : list byte;
  si_container_rt_runtime : Z;
  si_container_rt_period : Z;
  si_cpumask : Z;
  si_container_period : Z;
  si_pod_period : Z;
  si_nr_tasks : Z;
  si_tasks : list (Z * task_info);
  si_nr_nodes : Z;
  si_node_ids : list Z;
}.
#[export] Instance eta_sched_info : Eta sched_info := fun r =>
  mk_sched_info (si_workload_id r) (si_container_rt_runtime r) (si_container_rt_period r)
    (si_cpumask r) (si_container_period r) (si_pod_period r) (si_nr_tasks r) (si_tasks r)
    (si_nr_nodes r) (si_node_ids r).

(** ** internal.h *)

Record sched_attr_tt := mk_sched_attr {
  sa_size : Z;
  sa_sched_policy : Z;
  sa_sched_flags : Z;
  sa_sched_nice : Z;
  sa_sched_priority : Z;
  sa_sched_runtime : Z;
  sa_sched_deadline : Z;
  sa_sched_period : Z;
}.
#[export] Instance eta_sched_attr : Eta sched_attr_tt := fun r =>
  mk_sched_attr (sa_size r) (sa_sched_policy r) (sa_sched_flags r) (sa_sched_nice r)
    (sa_sched_priority r) (sa_sched_runtime r) (sa_sched_deadline r) (sa_sched_period r).

(** A node of the task list.  [tt_addr] is the node's own address, the value
    its timer passes to the handler; [tt_ctx] tells whether the context
    pointer is set (there is one context). *)
Record time_trigger := mk_time_trigger {
  tt_addr : Z;
  tt_timer : Z;
  tt_task : task_info;
  tt_sigwait_ts : Z;
  tt_sigwait_ts_prev : Z;
  tt_sigwait_enter : Z;
  tt_prev_timer : timespec;
  tt_ctx : bool;
}.
#[export] Instance eta_time_trigger : Eta time_trigger := fun r =>
  mk_time_trigger (tt_addr r) (tt_timer r) (tt_task r) (tt_sigwait_ts r) (tt_sigwait_ts_prev r)
    (tt_sigwait_enter r) (tt_prev_timer r) (tt_ctx r).

Record hyperperiod_manager := mk_hyperperiod_manager {
  hp_hyperperiod_us : Z;
  hp_current_cycle : Z;
  hp_hyperperiod_start_time_us : Z;
  hp_completed_cycles : Z;
  hp_ctx : bool;
  hp_hyperperiod_timer : Z;
  hp_hyperperiod_start_ts : timespec;
  hp_tasks_in_hyperperiod : Z;
  hp_total_deadline_misses : Z;
  hp_cycle_deadline_misses : Z;
  hp_workload_id : list byte;
}.
#[export] Instance eta_hyperperiod_manager : Eta hyperperiod_manager := fun r =>
  mk_hyperperiod_manager (hp_hyperperiod_us r) (hp_current_cycle r)
    (hp_hyperperiod_start_time_us r) (hp_completed_cycles r) (hp_ctx r)
    (hp_hyperperiod_timer r) (hp_hyperperiod_start_ts r) (hp_tasks_in_hyperperiod r)
    (hp_total_deadline_misses r) (hp_cycle_deadline_misses r) (hp_workload_id r).

Record apex_info := mk_apex_info {
  ai_addr : Z;
  ai_task : task_info;
  ai_name : list byte;
  ai_nspid : Z;
  ai_dmiss_time_us : Z;
  ai_dmiss_count : Z;
  ai_coredata_timer : Z;
}.
#[export] Instance eta_apex_info : Eta apex_info := fun r =>
  mk_apex_info (ai_addr r) (ai_task r) (ai_name r) (ai_nspid r) (ai_dmiss_time_us r)
    (ai_dmiss_count r) (ai_coredata_timer r).

Record config := mk_config {
  cf_cpu : Z;
  cf_prio : Z;
  cf_port : Z;
  cf_addr : list byte;
  cf_node_id : list byte;
  cf_enable_sync : bool;
  cf_enable_plot : bool;
  cf_enable_apex : bool;
  cf_clockid : Z;
  cf_log_level : Z;
}.
#[export] Instance eta_config : Eta config := fun r =>
  mk_config (cf_cpu r) (cf_prio r) (cf_port r) (cf_addr r) (cf_node_id r) (cf_enable_sync r)
    (cf_enable_plot r) (cf_enable_apex r) (cf_clockid r) (cf_log_level r).

Record runtime := mk_runtime {
  rt_tt_list : list time_trigger;
  rt_sched_info : sched_info;
  rt_shutdown_requested : Z;
  rt_starttimer_ts : timespec;
  rt_apex_list : list apex_info;
}.
#[export] Instance eta_runtime : Eta runtime := fun r =>
  mk_runtime (rt_tt_list r) (rt_sched_info r) (rt_shutdown_requested r) (rt_starttimer_ts r)
    (rt_apex_list r).

(** Library handles are addresses, 0 the null pointer. *)
Record comm := mk_comm {
  cm_event : Z;
  cm_dbus : Z;
  cm_apex_fd : Z;
}.
#[export] Instance eta_comm : Eta comm := fun r => mk_comm (cm_event r) (cm_dbus r) (cm_apex_fd r).

Record context := mk_context {
  cx_config : config;
  cx_runtime : runtime;
  cx_comm : comm;
  cx_hp : hyperperiod_manager;
}.
#[export] Instance eta_context : Eta context := fun r =>
  mk_context (cx_config r) (cx_runtime r) (cx_comm r) (cx_hp r).

(** ** trace_bpf.h *)

Record sigwait_event := mk_sigwait_event {
  se_pid : Z;
  se_tgid : Z;
  se_timestamp : Z;
  se_enter : Z;
}.

Record schedstat_event := mk_schedstat_event {
  ss_pid : Z;
  ss_cpu : Z;
  ss_ts_wakeup : Z;
  ss_ts_start : Z;
  ss_ts_stop : Z;
}.

(** ** Zero-initialized objects ([memset] to 0, [calloc]) *)

Definition ts_zero : timespec := mk_timespec 0 0.
Definition task_info_zero : task_info :=
  mk_task_info 0 0 (zeros TINFO_NAME_MAX) 0 0 0 0 0 0 0 0 (zeros TINFO_NODEID_MAX).
Definition sched_info_zero : sched_info :=
  mk_sched_info (zeros 64) 0 0 0 0 0 0 [] 0 (replicate SINFO_NODE_MAX 0).
Definition hp_zero : hyperperiod_manager :=
  mk_hyperperiod_manager 0 0 0 0 false 0 ts_zero 0 0 0 (zeros 64).
Definition config_zero : config :=
  mk_config 0 0 0 [] (zeros TINFO_NODEID_MAX) false false false 0 0.
Definition context_zero : context :=
  mk_context config_zero (mk_runtime [] sched_info_zero 0 ts_zero []) (mk_comm 0 0 0) hp_zero.

(** ** Error codes are told apart by their values *)

Lemma ts_ok_code_spec r : ts_ok_code r = true <-> r = TTSCHED_SUCCESS.
Proof. destruct r; vm_compute; intuition congruence. Qed.

Lemma tt_ok_code_spec r : tt_ok_code r = true <-> r = TT_SUCCESS.
Proof. destruct r; vm_compute; intuition congruence. Qed.

Lemma tt_code_inj a b : tt_code a = tt_code b -> a = b.
Proof. destruct a, b; vm_compute; congruence. Qed.
