(* ===== verification/Kernel.v ===== *)
(** * The environment of the node executor and its memory

    What the programs call and do not contain (the Linux system calls, the
    parts of the C library that depend on the outside world, libsystemd and
    libbpf) is an arbitrary [Kernel]: a function that, given the calls made so
    far and the current call, chooses its results.  Every call is recorded, so
    what the program did is the trace [n_trace] (latest call first).

    [nstate] is the memory of the process: the [struct context] of [main] and
    the static variables of the source files. *)

From S2P Require Import Prelude Time Types.

(** ** Calls *)

(** Functions installed as timer handlers, with their [sival_ptr]. *)
Inductive handler :=
  | H_timer_expired (node : Z)
  | H_hyperperiod_cycle
  | H_coredata_timer (app : Z).

Record dirent := mk_dirent { d_is_dir : bool; d_name : list byte }.

(** [struct app_data_msg_t] with the [dmiss_status] member. *)
Record dmiss_status := mk_dmiss_status {
  ds_name : list byte;
  ds_pid : Z;
  ds_dmiss_max : Z;
  ds_dmiss_count : Z;
  ds_period_us : Z;
}.

Inductive bpf_prog := P_sigwait | P_schedstat.

(** The threads of the orchestrator: D-Bus events and the gRPC server. *)
Inductive orch_thread := T_events | T_grpc.

Definition EPOLL_CTL_ADD : Z := 1.
Definition EPOLL_CTL_DEL : Z := 2.
Definition EINTR : Z := 4.
Definition EAGAIN : Z := 11.

(** A call and the type of what it gives back.  A result [Z] is the return
    value; [Z * X] is the return value and the object written through a
    pointer argument; where the caller looks at [errno] it is a component. *)
Inductive call : Set -> Type :=
  (* time and timers *)
  | ClockGettime (clk : Z) : call (Z * timespec)
  | ClockNanosleep (clk : Z) (ts : timespec) : call Z
  | TimerCreate (clk : Z) (h : handler) : call (Z * Z)
  | TimerSettime (timer flags : Z) (its : itimerspec) : call Z
  | TimerDelete (timer : Z) : call Z
  | Usleep (us : Z) : call Z
  (* processes and scheduling *)
  | Getpid : call Z
  | SysconfNproc : call Z
  | SchedSetaffinity (pid cpuset : Z) : call Z
  | SchedSetattr (pid : Z) (attr : sched_attr_tt) : call Z
  | PidfdOpen (pid : Z) : call Z
  | PidfdSendSignal (pidfd sig : Z) : call Z
  | Sigaction (sig : Z) : call Z
  (* files and memory *)
  | Opendir (path : list byte) : call (option (list dirent))
  | ReadFile (path : list byte) : call (option (list byte))
  | FopenWrite (path : list byte) : call bool
  | FputLine (line : list byte) : call unit
  | Fclose : call unit
  | Malloc (size : Z) : call bool
  | Free (addr : Z) : call unit
  | Close (fd : Z) : call Z
  (* sockets and event loop *)
  | EpollCreate1 : call Z
  | EpollCtl (efd op fd : Z) : call Z
  | EpollWait (efd : Z) : call (Z * Z * Z)
  | Socket : call Z
  | Access (path : list byte) : call Z
  | Unlink (path : list byte) : call Z
  | Mkdir (path : list byte) (mode : Z) : call Z
  | Bind (fd : Z) (path : list byte) : call Z
  | Chmod (path : list byte) (mode : Z) : call Z
  | Recvfrom (fd size : Z) : call (Z * Z * list byte)
  | Sendto (fd : Z) (msg : dmiss_status) (path : list byte) : call Z
  (* libsystemd *)
  | SdEventDefault : call (Z * Z)
  | SdEventUnref (event : Z) : call unit
  | SdBusNew : call (Z * Z)
  | SdBusSetDescription (bus : Z) (desc : list byte) : call Z
  | SdBusSetTrusted (bus : Z) (b : bool) : call Z
  | SdBusSetAddress (bus : Z) (addr : list byte) : call Z
  | SdBusStart (bus : Z) : call Z
  | SdBusAttachEvent (bus event : Z) : call Z
  | SdBusUnref (bus : Z) : call unit
  | SdBusFlushCloseUnref (bus : Z) : call unit
  | SdBusCallMethod (bus : Z) (dest path iface member : list byte) (args : list (list byte))
      : call (Z * Z)
  | SdBusMessageReadArray (reply : Z) : call (Z * list byte)
  | SdBusMessageReadBTT (reply : Z) : call (Z * (Z * Z * Z))
  | SdBusErrorFree : call unit
  | SdBusMessageUnref (reply : Z) : call unit
  (* the serving side of libtrpc; failing socket calls give errno as well *)
  | SocketInet : call (Z * Z)
  | Setsockopt (fd level optname val : Z) : call (Z * Z)
  | BindInet (fd port : Z) : call (Z * Z)
  | Listen (fd : Z) : call (Z * Z)
  | Accept4 (fd : Z) : call (Z * Z)
  | SdId128Randomize : call (Z * Z)
  | SdBusSetFd (bus fd : Z) : call Z
  | SdBusSetServer (bus : Z) (b : bool) (id : Z) : call Z
  | SdBusSetAnonymous (bus : Z) (b : bool) : call Z
  | SdBusNegotiateCreds (bus : Z) (b : bool) : call Z
  | SdBusSetSender (bus : Z) (sender : list byte) : call Z
  | SdBusAddObjectVtable (bus : Z) (path iface : list byte) : call Z
  | SdEventAddIo (event fd : Z) : call (Z * Z)
  | SdEventSourceUnref (source : Z) : call unit
  | SdBusMessageReadS (m : Z) : call (Z * list byte)
  | SdBusMessageReadSS (m : Z) : call (Z * (list byte * list byte))
  | SdBusReplyMethodError (m : Z) : call Z
  | SdBusReplyMethodReturn (m : Z) (body : option (Z * Z * Z)) : call Z
  | SdBusMessageNewMethodReturn (m : Z) : call (Z * Z)
  | SdBusMessageAppendArray (reply : Z) (bytes : list byte) : call Z
  | SdBusMessageSend (reply : Z) : call Z
  (* the functions of trpc_server_ops_t, which belong to the serving program *)
  | CbRegister (name : list byte) : call unit
  | CbSchedinfo (name : list byte) : call (list byte)
  | CbDmiss (name task : list byte) : call unit
  | CbSync (name : list byte) : call (Z * timespec)
  (* libbpf *)
  | BpfOpen (p : bpf_prog) : call bool
  | BpfLoad (p : bpf_prog) : call Z
  | RingBufferNew (p : bpf_prog) : call bool
  | BpfAttach (p : bpf_prog) : call Z
  | PthreadCreate (p : bpf_prog) : call Z
  | PthreadJoin (p : bpf_prog) : call Z
  | RingBufferPoll (p : bpf_prog) (timeout_ms : Z) : call Z
  | RingBufferFree (p : bpf_prog) : call unit
  | BpfDestroy (p : bpf_prog) : call unit
  | BpfMapUpdate (p : bpf_prog) (pid : Z) : call Z
  | BpfMapDelete (p : bpf_prog) (pid : Z) : call Z
  (* the orchestrator: its event loop, threads and gRPC server *)
  | SdEventNew : call (Z * Z)
  | SdEventRun (event usec : Z) : call Z
  | ThreadStart (t : orch_thread) : call bool
  | ThreadJoin (t : orch_thread) : call unit
  | GrpcBuildAndStart (addr : list byte) : call bool
  | GrpcShutdown : call unit
  (* the sample applications *)
  | PrctlSetName (name : list byte) : call Z
  | PrctlGetName : call (Z * list byte)
  | SchedSetscheduler (pid policy priority : Z) : call Z
  | SigprocmaskBlock (sig : Z) : call Z
  | TimerCreateSignal (clk sig : Z) : call (Z * Z)
  (* the test programs of libtrpc *)
  | SdEventLoop (event : Z) : call Z.

Record event := Event { ev_ty : Set; ev_call : call ev_ty; ev_ret : ev_ty }.
Arguments Event {ev_ty} ev_call ev_ret.

(** The results of calls may depend on everything that happened before. *)
Class Kernel := { kresp : forall {A : Set}, list event -> call A -> A }.

(** A kernel in which every call succeeds with plain results. *)
Definition default_reply {A : Set} (c : call A) : A :=
  match c in call A return A with
  | ClockGettime _ => (0, ts_zero)
  | ClockNanosleep _ _ => 0
  | TimerCreate _ _ => (0, 1)
  | TimerSettime _ _ _ => 0
  | TimerDelete _ => 0
  | Usleep _ => 0
  | Getpid => 100
  | SysconfNproc => 4
  | SchedSetaffinity _ _ => 0
  | SchedSetattr _ _ => 0
  | PidfdOpen _ => 5
  | PidfdSendSignal _ _ => 0
  | Sigaction _ => 0
  | Opendir _ => Some []
  | ReadFile _ => Some []
  | FopenWrite _ => true
  | FputLine _ => tt
  | Fclose => tt
  | Malloc _ => true
  | Free _ => tt
  | Close _ => 0
  | EpollCreate1 => 3
  | EpollCtl _ _ _ => 0
  | EpollWait _ => (1, 0, 0)
  | Socket => 4
  | Access _ => 0
  | Unlink _ => 0
  | Mkdir _ _ => 0
  | Bind _ _ => 0
  | Chmod _ _ => 0
  | Recvfrom _ _ => (-1, EAGAIN, [])
  | Sendto _ _ _ => 0
  | SdEventDefault => (0, 1)
  | SdEventUnref _ => tt
  | SdBusNew => (0, 2)
  | SdBusSetDescription _ _ => 0
  | SdBusSetTrusted _ _ => 0
  | SdBusSetAddress _ _ => 0
  | SdBusStart _ => 0
  | SdBusAttachEvent _ _ => 0
  | SdBusUnref _ => tt
  | SdBusFlushCloseUnref _ => tt
  | SdBusCallMethod _ _ _ _ _ _ => (0, 9)
  | SdBusMessageReadArray _ => (0, [])
  | SdBusMessageReadBTT _ => (0, (1, 0, 0))
  | SdBusErrorFree => tt
  | SdBusMessageUnref _ => tt
  | SocketInet => (4, 0)
  | Setsockopt _ _ _ _ => (0, 0)
  | BindInet _ _ => (0, 0)
  | Listen _ => (0, 0)
  | Accept4 _ => (6, 0)
  | SdId128Randomize => (0, 7)
  | SdBusSetFd _ _ => 0
  | SdBusSetServer _ _ _ => 0
  | SdBusSetAnonymous _ _ => 0
  | SdBusNegotiateCreds _ _ => 0
  | SdBusSetSender _ _ => 0
  | SdBusAddObjectVtable _ _ _ => 0
  | SdEventAddIo _ _ => (0, 8)
  | SdEventSourceUnref _ => tt
  | SdBusMessageReadS _ => (1, [])
  | SdBusMessageReadSS _ => (1, ([], []))
  | SdBusReplyMethodError _ => 1
  | SdBusReplyMethodReturn _ _ => 1
  | SdBusMessageNewMethodReturn _ => (0, 9)
  | SdBusMessageAppendArray _ _ => 0
  | SdBusMessageSend _ => 1
  | CbRegister _ => tt
  | CbSchedinfo _ => []
  | CbDmiss _ _ => tt
  | CbSync _ => (1, ts_zero)
  | BpfOpen _ => true
  | BpfLoad _ => 0
  | RingBufferNew _ => true
  | BpfAttach _ => 0
  | PthreadCreate _ => 0
  | PthreadJoin _ => 0
  | RingBufferPoll _ _ => 0
  | RingBufferFree _ => tt
  | BpfDestroy _ => tt
  | BpfMapUpdate _ _ => 0
  | BpfMapDelete _ _ => 0
  | SdEventNew => (0, 1)
  | SdEventRun _ _ => 1
  | ThreadStart _ => true
  | ThreadJoin _ => tt
  | GrpcBuildAndStart _ => true
  | GrpcShutdown => tt
  | PrctlSetName _ => 0
  | PrctlGetName => (0, zeros 16)
  | SchedSetscheduler _ _ _ => 0
  | SigprocmaskBlock _ => 0
  | TimerCreateSignal _ _ => (0, 1)
  | SdEventLoop _ => 0
  end.

Definition default_kernel : Kernel := {| kresp := fun _ _ c => default_reply c |}.

(** ** Memory of the process *)

(** [trpc_server_ops_t]: which of the four function pointers are set. *)
Record trpc_server_ops_t := mk_trpc_server_ops {
  register_cb : bool;
  schedinfo_cb : bool;
  dmiss_cb : bool;
  sync_cb : bool;
}.

Record nstate := mk_nstate {
  n_ctx : context;
  n_g_ctx : bool;                  (* signal.c: g_ctx is set *)
  n_log_level : Z;                 (* globals.c: tt_global_log_level *)
  n_bpf_ktime_off : Z;             (* core.c *)
  n_plot_file : bool;              (* core.c, write_schedstat: the static FILE pointer is set *)
  n_coredata_fd : Z;               (* apex_monitor.c, coredata_client_send *)
  n_bpf_skel : bpf_prog -> bool;   (* trace_bpf.c: sigwait_bpf / schedstat_bpf is set *)
  n_bpf_rb : bpf_prog -> bool;     (* trace_bpf.c: the ring buffer of rb_data_t is set *)
  n_bpf_need_exit : bpf_prog -> Z; (* trace_bpf.c: need_exit of rb_data_t *)
  n_server_ops : option trpc_server_ops_t; (* peer_dbus.c: trpc_server_ops, None for NULL *)
  n_brk : Z;                       (* next heap address *)
  n_trace : list event;
}.
#[export] Instance eta_nstate : Eta nstate := fun r =>
  mk_nstate (n_ctx r) (n_g_ctx r) (n_log_level r) (n_bpf_ktime_off r) (n_plot_file r)
    (n_coredata_fd r) (n_bpf_skel r) (n_bpf_rb r) (n_bpf_need_exit r) (n_server_ops r)
    (n_brk r) (n_trace r).

Definition nstate_init : nstate :=
  mk_nstate context_zero false TT_LOG_LEVEL_INFO 0 false (-1)
    (fun _ => false) (fun _ => false) (fun _ => 0) None 1 [].

Definition set_prog {A} (p : bpf_prog) (v : A) (f : bpf_prog -> A) : bpf_prog -> A :=
  fun q => match p, q with
           | P_sigwait, P_sigwait | P_schedstat, P_schedstat => v
           | _, _ => f q
           end.

Abbreviation N := (ST nstate).

(** ** Primitive computations *)

Section prim.
Context {K : Kernel}.

Definition log {A : Set} (c : call A) (r : A) (s : nstate) : nstate :=
  s <| n_trace ::= cons (Event c r) |>.

Definition sys {A : Set} (c : call A) : N A := fun s =>
  let r := kresp (n_trace s) c in Ret (r, log c r s).

Lemma wp_sys {A : Set} (c : call A) Q s :
  Q (kresp (n_trace s) c) (log c (kresp (n_trace s) c) s) -> wp (sys c) Q s.
Proof. done. Qed.

(** [malloc]/[calloc]: a fresh address, [None] for the null pointer. *)
Definition alloc (size : Z) : N (option Z) :=
  ok ← sys (Malloc size);
  if ok : bool then
    s ← get_st;
    _ ← modify (fun s => s <| n_brk ::= Z.succ |>);
    mret (Some (n_brk s))
  else mret None.

End prim.

Definition upd_ctx (f : context -> context) : N unit := modify (fun s => s <| n_ctx ::= f |>).
Definition upd_hp (f : hyperperiod_manager -> hyperperiod_manager) : N unit :=
  upd_ctx (fun c => c <| cx_hp ::= f |>).
Definition upd_rt (f : runtime -> runtime) : N unit := upd_ctx (fun c => c <| cx_runtime ::= f |>).
Definition upd_comm (f : comm -> comm) : N unit := upd_ctx (fun c => c <| cx_comm ::= f |>).

Definition get_ctx : N context := gets n_ctx.

#[export] Hint Resolve wp_sys : timpani.

(** A computation on a local object alone, run inside the process. *)
Definition lift {A} (o : outcome A) : N A := fun s =>
  match o with Ret a => Ret (a, s) | UB => UB end.

Lemma wp_lift {A} (o : outcome A) Q s :
  match o with Ret a => Q a s | UB => False end -> wp (lift o) Q s.
Proof. unfold wp, lift. by destruct o. Qed.

Lemma wlp_lift {A} (o : outcome A) Q s :
  match o with Ret a => Q a s | UB => True end -> wlp (lift o) Q s.
Proof. unfold wlp, lift. by destruct o. Qed.

(** Sequencing notation for statements. *)
Notation "m ;; k" := (mbind (fun _ : unit => k) m)
  (at level 100, k at level 200, right associativity) : c_scope.

(** ** Loops over C lists *)

(** [LIST_FOREACH(x, l, entry) body]; the body may [break] by returning
    [Some r]. *)
Fixpoint for_each {S A R} (l : list A) (body : A -> ST S (option R)) : ST S (option R) :=
  match l with
  | [] => mret None
  | x :: l =>
      r ← body x;
      match r with
      | Some v => mret (Some v)
      | None => for_each l body
      end
  end.

(** Invariant rule. *)
Lemma wp_for_each {S A R} (l : list A) (body : A -> ST S (option R))
    (I : list A -> S -> Prop) (Q : option R -> S -> Prop) s :
  I l s ->
  (forall x l s, I (x :: l) s ->
     wp (body x) (fun r s' => match r with Some _ => Q r s' | None => I l s' end) s) ->
  (forall s, I [] s -> Q None s) ->
  wp (for_each l body) Q s.
Proof.
  intros Hi Hstep Hend. revert s Hi. induction l as [|x l IH]; intros s Hi; simpl.
  - apply wp_ret. auto.
  - apply wp_bind. eapply wp_mono; [by apply Hstep|]. intros [v|] s' H; [done|auto].
Qed.

(** Elements the body passes over. *)
Lemma wp_for_each_skip {S A R} (pre l : list A) (body : A -> ST S (option R)) Q s :
  Forall (fun x => forall s, body x s = Ret (None, s)) pre ->
  wp (for_each l body) Q s -> wp (for_each (pre ++ l) body) Q s.
Proof.
  intros Hpre H. induction Hpre as [|x pre Hx _ IH]; simpl; [done|].
  apply wp_bind. unfold wp at 1. rewrite Hx. exact IH.
Qed.

(** ** Nodes addressed by pointer *)

Section by_addr.
Context {A : Type} (addr : A -> Z).

(** The element at address [p]; the update of it. *)
Fixpoint find_by (p : Z) (l : list A) : option A :=
  match l with
  | [] => None
  | n :: l => if decide (addr n = p) then Some n else find_by p l
  end.

Definition upd_by (p : Z) (f : A -> A) (l : list A) : list A :=
  (fun n => if decide (addr n = p) then f n else n) <$> l.

Lemma find_by_Some p l n : find_by p l = Some n -> n ∈ l /\ addr n = p.
Proof.
  induction l as [|m l IH]; simpl; [done|]. case_decide as Hm.
  - intros [= ->]. split; [apply list_elem_of_here|done].
  - intros E. destruct (IH E). split; [by apply list_elem_of_further|done].
Qed.

Lemma find_by_in l n : NoDup (addr <$> l) -> n ∈ l -> find_by (addr n) l = Some n.
Proof.
  induction l as [|m l IH]; intros Hd Hn; [by apply not_elem_of_nil in Hn|]. simpl.
  apply NoDup_cons in Hd as [Hm Hd]. apply elem_of_cons in Hn as [->|Hn]; [by rewrite decide_True|].
  rewrite decide_False; [by apply IH|]. intros E. destruct Hm. rewrite E. by apply list_elem_of_fmap_2.
Qed.

Lemma find_by_upd p q f l :
  (forall n, addr (f n) = addr n) ->
  find_by q (upd_by p f l) = (fun n => if decide (p = q) then f n else n) <$> find_by q l.
Proof.
  intros Hf. induction l as [|n l IH]; [done|]. simpl.
  destruct (decide (addr n = p)) as [Hp|Hp]; [rewrite Hf|]; destruct (decide (addr n = q)) as [Hq|Hq];
    simpl; try done.
  - by rewrite decide_True by congruence.
  - by rewrite decide_False by congruence.
Qed.

Lemma upd_by_addrs p f l :
  (forall n, addr (f n) = addr n) -> addr <$> upd_by p f l = addr <$> l.
Proof.
  intros Hf. unfold upd_by. rewrite <- list_fmap_compose. apply list_fmap_ext.
  intros i n _. simpl. by case_decide.
Qed.

Lemma upd_by_compose p f g l :
  (forall n, addr (f n) = addr n) -> upd_by p g (upd_by p f l) = upd_by p (g ∘ f) l.
Proof.
  intros Hf. unfold upd_by. rewrite <- list_fmap_compose. apply list_fmap_ext. intros i n _. simpl.
  destruct (decide (addr n = p)) as [E|E]; [rewrite decide_True|rewrite decide_False]; rewrite ?Hf; done.
Qed.

Lemma upd_by_id p f l : (forall n, f n = n) -> upd_by p f l = l.
Proof.
  intros Hf. unfold upd_by. rewrite <- (list_fmap_id l) at 2. apply list_fmap_ext.
  intros i n _. simpl. case_decide; by rewrite ?Hf.
Qed.

Lemma upd_by_notin p f l : p ∉ (addr <$> l) -> upd_by p f l = l.
Proof.
  unfold upd_by. induction l as [|n l IH]; [done|]. rewrite !fmap_cons, not_elem_of_cons.
  intros [Hn Hl]. rewrite decide_False by congruence. by rewrite IH.
Qed.

Lemma upd_by_middle f a n b :
  NoDup (addr <$> a ++ n :: b) -> upd_by (addr n) f (a ++ n :: b) = a ++ f n :: b.
Proof.
  rewrite fmap_app, fmap_cons. intros (_ & Ha & [Hb _]%NoDup_cons)%NoDup_app.
  unfold upd_by. rewrite fmap_app, fmap_cons, decide_True by done.
  fold (upd_by (addr n) f a) (upd_by (addr n) f b). rewrite !upd_by_notin; [done|done|].
  intros Hin. apply (Ha _ Hin). apply list_elem_of_here.
Qed.

End by_addr.

Abbreviation find_node := (find_by tt_addr).
Abbreviation upd_node := (upd_by tt_addr).
Abbreviation find_apex := (find_by ai_addr).
Abbreviation upd_apex := (upd_by ai_addr).

(** [*p = f( *p)] for a list node; a pointer to no live node is dangling. *)
Definition write_node (p : Z) (f : time_trigger -> time_trigger) : N unit :=
  ctx ← get_ctx;
  match find_node p (rt_tt_list (cx_runtime ctx)) with
  | Some _ => upd_rt (fun r => r <| rt_tt_list ::= upd_node p f |>)
  | None => undef
  end.

Definition read_node (p : Z) : N time_trigger :=
  ctx ← get_ctx;
  match find_node p (rt_tt_list (cx_runtime ctx)) with
  | Some n => mret n
  | None => undef
  end.

Definition write_apex (p : Z) (f : apex_info -> apex_info) : N unit :=
  ctx ← get_ctx;
  match find_apex p (rt_apex_list (cx_runtime ctx)) with
  | Some _ => upd_rt (fun r => r <| rt_apex_list ::= upd_apex p f |>)
  | None => undef
  end.

Definition read_apex (p : Z) : N apex_info :=
  ctx ← get_ctx;
  match find_apex p (rt_apex_list (cx_runtime ctx)) with
  | Some n => mret n
  | None => undef
  end.

(** *** Rules for list nodes *)

Section node_rules.

Lemma wp_read_node p n Q s :
  find_node p (rt_tt_list (cx_runtime (n_ctx s))) = Some n -> Q n s -> wp (read_node p) Q s.
Proof. intros H HQ. unfold read_node, get_ctx. apply wp_bind, wp_gets. by rewrite H. Qed.

Lemma wp_write_node p f n Q s :
  find_node p (rt_tt_list (cx_runtime (n_ctx s))) = Some n ->
  Q tt (s <| n_ctx ::= fun c => c <| cx_runtime ::= fun r => r <| rt_tt_list ::= upd_node p f |> |> |>) ->
  wp (write_node p f) Q s.
Proof. intros H HQ. unfold write_node, get_ctx. apply wp_bind, wp_gets. by rewrite H. Qed.

Lemma wp_read_apex p n Q s :
  find_apex p (rt_apex_list (cx_runtime (n_ctx s))) = Some n -> Q n s -> wp (read_apex p) Q s.
Proof. intros H HQ. unfold read_apex, get_ctx. apply wp_bind, wp_gets. by rewrite H. Qed.

Lemma wp_write_apex p f n Q s :
  find_apex p (rt_apex_list (cx_runtime (n_ctx s))) = Some n ->
  Q tt (s <| n_ctx ::= fun c => c <| cx_runtime ::= fun r => r <| rt_apex_list ::= upd_apex p f |> |> |>) ->
  wp (write_apex p f) Q s.
Proof. intros H HQ. unfold write_apex, get_ctx. apply wp_bind, wp_gets. by rewrite H. Qed.

End node_rules.

(** ** Accounting over the trace

    A weight per call (+1 for a resource obtained, -1 for one released, or an
    indicator) summed over what the process has done. *)

Fixpoint tally (w : event -> Z) (tr : list event) : Z :=
  match tr with
  | [] => 0
  | e :: tr => w e + tally w tr
  end.

Lemma tally_app w a b : tally w (a ++ b) = tally w a + tally w b.
Proof. induction a; simpl; lia. Qed.

Definition tally_of (w : event -> Z) (s : nstate) : Z := tally w (n_trace s).

(** ** Frame relations

    [frames R m]: whatever [m] does, the memories before and after are
    related by [R].  With [R] a preorder the property is compositional, so a
    whole function is framed by looking at its primitive steps only.  Used
    with [emits P] (every new call satisfies [P]) and [keeps f] (the
    projection [f] of the memory is unchanged). *)

Section frames.
Context {K : Kernel} (R : relation nstate) `{!PreOrder R}.

Definition frames {A} (m : N A) : Prop := forall s, wlp m (fun _ s' => R s s') s.

Lemma frames_ret {A} (a : A) : frames (mret a).
Proof. intros s. apply wlp_ret. reflexivity. Qed.

Lemma frames_bind {A B} (m : N A) (k : A -> N B) :
  frames m -> (forall a, frames (k a)) -> frames (m ≫= k).
Proof.
  intros Hm Hk s. apply wlp_bind. eapply wlp_mono; [apply Hm|]. intros a s1 H1.
  eapply wlp_mono; [apply Hk|]. intros b s2 H2. exact (transitivity H1 H2).
Qed.

Lemma frames_gets {A} (f : nstate -> A) : frames (gets f).
Proof. intros s. change (R s s). reflexivity. Qed.

Lemma frames_get_st : frames get_st.
Proof. intros s. change (R s s). reflexivity. Qed.

Lemma frames_undef {A} : frames (undef (A := A)).
Proof. done. Qed.

Lemma frames_lift {A} (o : outcome A) : frames (lift o).
Proof. intros s. apply wlp_lift. destruct o; [reflexivity|done]. Qed.

Lemma frames_modify f : (forall s, R s (f s)) -> frames (modify f).
Proof. intros H s. apply H. Qed.

Lemma frames_sys {A : Set} (c : call A) : (forall r s, R s (log c r s)) -> frames (sys c).
Proof. intros H s. apply H. Qed.

Lemma frames_for_each {A B} (l : list A) (body : A -> N (option B)) :
  (forall x, frames (body x)) -> frames (for_each l body).
Proof.
  intros H. induction l as [|x l IH]; simpl; [apply frames_ret|].
  apply frames_bind; [apply H|]. intros [v|]; [apply frames_ret|apply IH].
Qed.

Lemma frames_wp {A} (m : N A) Q s :
  frames m -> wp m Q s -> wp m (fun a s' => Q a s' /\ R s s') s.
Proof. intros Hf Hm. by apply wp_and. Qed.

Lemma frames_wlp {A} (m : N A) Q s :
  frames m -> wlp m Q s -> wlp m (fun a s' => Q a s' /\ R s s') s.
Proof.
  intros Hf. specialize (Hf s). unfold wlp in *. destruct (m s) as [[a s']|]; auto.
Qed.

End frames.

Definition emits (P : event -> Prop) : relation nstate := fun s s' =>
  exists evs, n_trace s' = evs ++ n_trace s /\ Forall P evs.
Definition keeps {X} (f : nstate -> X) : relation nstate := fun s s' => f s' = f s.

#[export] Instance emits_preorder P : PreOrder (emits P).
Proof.
  split.
  - intros s. exists []. auto.
  - intros s1 s2 s3 (e1 & H1 & F1) (e2 & H2 & F2). exists (e2 ++ e1).
    rewrite H2, H1, app_assoc. split; [done|]. by apply Forall_app.
Qed.

#[export] Instance keeps_preorder {X} (f : nstate -> X) : PreOrder (keeps f).
Proof. split; unfold keeps; [done|]. intros ??? H1 H2. congruence. Qed.

Lemma emits_refl P s s' : n_trace s' = n_trace s -> emits P s s'.
Proof. exists []. auto. Qed.

Lemma emits_log P {A : Set} (c : call A) r s : P (Event c r) -> emits P s (log c r s).
Proof. intros H. exists [Event c r]. split; [done|]. by repeat constructor. Qed.

Lemma emits_mono (P Q : event -> Prop) s s' : (forall e, P e -> Q e) -> emits P s s' -> emits Q s s'.
Proof. intros H (evs & Ht & Hf). exists evs. split; [done|]. by eapply Forall_impl. Qed.

Create HintDb frames.
#[export] Hint Resolve frames_ret frames_gets frames_get_st frames_undef : frames.

(** [frames_tac] walks through a computation; the leaves it cannot close with
    the [frames] hints are left. *)
Ltac frames_leaf :=
  intros; first [ apply emits_refl; reflexivity | apply emits_log; exact I || (simpl; done)
                | reflexivity ].
Ltac frames_step :=
  lazymatch goal with
  | |- frames _ (mbind _ _) => apply frames_bind; [apply _| |intros ?]
  | |- frames _ (modify _) => apply frames_modify; try frames_leaf
  | |- frames _ (sys _) => apply frames_sys; try frames_leaf
  | |- frames _ (for_each _ _) => apply frames_for_each; [apply _|intros ?]
  | |- frames _ (match ?x with _ => _ end) => destruct x
  | |- frames _ (mret _) => apply frames_ret; apply _
  | |- frames _ (gets _) => apply frames_gets; apply _
  | |- frames _ get_st => apply frames_get_st; apply _
  | |- frames _ undef => apply frames_undef
  | |- frames _ (lift _) => apply frames_lift; apply _
  | |- frames _ _ => solve [eauto with frames]
  end.
Ltac frames_tac := repeat (cbn beta; frames_step).
