(* ===== verification/Hyperperiod.v ===== *)
(** * Hyperperiod management (timpani-n/src/hyperperiod.c)

    The hyperperiod manager lives in the context; its handler runs once per
    hyperperiod, and [get_hyperperiod_relative_time] gives the position of the
    current time inside the hyperperiod.  [log_hyperperiod_statistics] only
    prints and has no definition. *)

From S2P Require Import Prelude Time Types Kernel.

Section hyperperiod.
Context {K : Kernel}.

(** Pointer arguments are null when [false] or [None]; [hp_mgr] is the
    manager inside the context. *)
Definition init_hyperperiod (ctx : bool) (workload_id : option (list byte))
    (hyperperiod_us : Z) (hp_mgr : bool) : N tt_error_t :=
  match ctx, workload_id, hp_mgr with
  | true, Some workload_id, true =>
      upd_hp (fun h =>
        h <| hp_workload_id := strncpy (hp_workload_id h) workload_id (64 - 1) |>
          <| hp_hyperperiod_us := hyperperiod_us |>
          <| hp_current_cycle := 0 |>
          <| hp_completed_cycles := 0 |>
          <| hp_total_deadline_misses := 0 |>
          <| hp_cycle_deadline_misses := 0 |>
          <| hp_tasks_in_hyperperiod := 0 |>
          <| hp_ctx := true |>
          <| hp_hyperperiod_start_time_us := 0 |>) ;;
      mret TT_SUCCESS
  | _, _, _ => mret TT_ERROR_CONFIG
  end.

Definition hyperperiod_cycle_handler : N unit :=
  ctx ← get_ctx;
  if hp_ctx (cx_hp ctx) then
    '(_, now) ← sys (ClockGettime (cf_clockid (cx_config ctx)));
    upd_hp (fun h => h <| hp_completed_cycles ::= fun c => u64 (c + 1) |>) ;;
    upd_hp (fun h =>
      h <| hp_current_cycle := u64 (hp_current_cycle h + 1)
             mod (if 0 <? hp_hyperperiod_us h then 1 else 1) |>) ;;
    upd_hp (fun h => h <| hp_cycle_deadline_misses := 0 |>)
  else undef.

Definition get_hyperperiod_relative_time : N Z :=
  ctx ← get_ctx;
  let hp := cx_hp ctx in
  if hp_hyperperiod_start_time_us hp =? 0 then mret 0
  else if hp_ctx hp then
    '(_, now) ← sys (ClockGettime (cf_clockid (cx_config ctx)));
    let current_time_us := tt_timespec_to_us now in
    let elapsed_us := u64 (current_time_us - hp_hyperperiod_start_time_us hp) in
    if negb (Z.land (hp_hyperperiod_us hp) (u64 (hp_hyperperiod_us hp - 1)) =? 0)
    then mret (elapsed_us mod hp_hyperperiod_us hp)
    else mret (Z.land elapsed_us (u64 (hp_hyperperiod_us hp - 1)))
  else undef.

(** The timer setting of [start_hyperperiod_timer]. *)
Definition hyperperiod_its (starttimer_ts : timespec) (hyperperiod_us : Z) : itimerspec :=
  let sec := i64 (u64 (u64 (tv_sec starttimer_ts) + hyperperiod_us / USEC_PER_SEC)) in
  let nsec := i64 (u64 (u64 (tv_nsec starttimer_ts)
                        + u64 (hyperperiod_us mod USEC_PER_SEC * NSEC_PER_USEC))) in
  let value :=
    if NSEC_PER_SEC <=? u64 nsec
    then mk_timespec (i64 (sec + 1)) (i64 (u64 (u64 nsec - NSEC_PER_SEC)))
    else mk_timespec sec nsec in
  mk_itimerspec
    (mk_timespec (i64 (hyperperiod_us / USEC_PER_SEC))
                 (i64 (u64 (hyperperiod_us mod USEC_PER_SEC * NSEC_PER_USEC))))
    value.

Definition start_hyperperiod_timer : N tt_error_t :=
  ctx ← get_ctx;
  if hp_hyperperiod_us (cx_hp ctx) =? 0 then mret TT_SUCCESS
  else
    upd_hp (fun h => h <| hp_hyperperiod_start_ts := rt_starttimer_ts (cx_runtime ctx) |>) ;;
    upd_hp (fun h =>
      h <| hp_hyperperiod_start_time_us := tt_timespec_to_us (hp_hyperperiod_start_ts h) |>) ;;
    let its := hyperperiod_its (rt_starttimer_ts (cx_runtime ctx)) (hp_hyperperiod_us (cx_hp ctx)) in
    '(ret, timer) ← sys (TimerCreate (cf_clockid (cx_config ctx)) H_hyperperiod_cycle);
    if negb (ret =? 0) then mret TT_ERROR_TIMER
    else
      upd_hp (fun h => h <| hp_hyperperiod_timer := timer |>) ;;
      ret ← sys (TimerSettime timer TIMER_ABSTIME its);
      if negb (ret =? 0) then mret TT_ERROR_TIMER
      else mret TT_SUCCESS.

End hyperperiod.

(** ** The power-of-two test *)

Lemma pow2_test h :
  0 < h -> Z.land h (h - 1) = 0 -> exists k, 0 <= k /\ h = 2 ^ k.
Proof.
  intros Hh Hland. exists (Z.log2 h). split; [apply Z.log2_nonneg|].
  destruct (Z.log2_spec h Hh) as [Hlo Hhi].
  destruct (Z.eq_dec h (2 ^ Z.log2 h)) as [|Hne]; [done|].
  assert (Z.log2 (h - 1) = Z.log2 h) as Hl.
  { apply Z.log2_unique; [apply Z.log2_nonneg|lia]. }
  assert (0 < h - 1) as Hpos.
  { pose proof (Z.pow_pos_nonneg 2 (Z.log2 h)). pose proof (Z.log2_nonneg h). lia. }
  pose proof (Z.bit_log2 h Hh) as B1. pose proof (Z.bit_log2 (h - 1) Hpos) as B2.
  rewrite Hl in B2.
  assert (Z.testbit (Z.land h (h - 1)) (Z.log2 h) = true) as B
    by (rewrite Z.land_spec, B1, B2; done).
  rewrite Hland, Z.bits_0 in B. done.
Qed.

(** The mask branch computes the same remainder as the modulo branch. *)
Lemma relative_time_branches h e :
  0 < h < 2 ^ 64 ->
  (if negb (Z.land h (u64 (h - 1)) =? 0) then e mod h else Z.land e (u64 (h - 1))) = e mod h.
Proof.
  intros Hh. rewrite (wrapu_id 64 (h - 1)) by range.
  destruct (Z.eqb_spec (Z.land h (h - 1)) 0) as [E|E]; simpl; [|done].
  destruct (pow2_test h) as (k & Hk & ->); [lia|done|]. by apply land_low_mask.
Qed.

(** ** Properties *)

Section props.
Context {K : Kernel}.

(** The microsecond reading of the clock at trace [tr]. *)
Definition clock_us (tr : list event) (clk : Z) : Z :=
  tt_timespec_to_us (snd (kresp tr (ClockGettime clk))).

(** Once the hyperperiod timer has been started and the hyperperiod is
    not zero, [get_hyperperiod_relative_time] returns the elapsed time since
    the start (64-bit difference) modulo the hyperperiod, whichever of its two
    branches (bit mask or modulo) runs, after one clock reading and without
    any other effect; so the result is below the hyperperiod. *)
Theorem relative_time_mod s :
  hp_ctx (cx_hp (n_ctx s)) = true ->
  hp_hyperperiod_start_time_us (cx_hp (n_ctx s)) <> 0 ->
  0 < hp_hyperperiod_us (cx_hp (n_ctx s)) < 2 ^ 64 ->
  let clk := cf_clockid (cx_config (n_ctx s)) in
  let hp := cx_hp (n_ctx s) in
  wp get_hyperperiod_relative_time (fun r s' =>
    r = u64 (clock_us (n_trace s) clk - hp_hyperperiod_start_time_us hp)
        mod hp_hyperperiod_us hp /\
    0 <= r < hp_hyperperiod_us hp /\
    s' = log (ClockGettime clk) (kresp (n_trace s) (ClockGettime clk)) s) s.
Proof.
  intros Hctx Hst Hhp clk hp. subst clk hp. unfold get_hyperperiod_relative_time, get_ctx.
  do 2 wp_step. rewrite (proj2 (Z.eqb_neq _ _) Hst), Hctx.
  apply wp_bind, wp_sys. unfold clock_us.
  destruct (kresp (n_trace s) (ClockGettime _)) as [ret now]; simpl.
  set (e := u64 (tt_timespec_to_us now - _)). set (h := hp_hyperperiod_us _) in *.
  pose proof (relative_time_branches h e Hhp) as Hb.
  destruct (negb _); apply wp_ret; try rewrite Hb;
    (split_and!; [done|apply Z.mod_pos_bound; lia..|done]).
Qed.

(** Before the timers are started (start time 0) the relative time is 0
    and the clock is not read; with a zero hyperperiod the function returns the
    elapsed time itself: no division by zero is reached. *)
Theorem relative_time_edge s :
  let hp := cx_hp (n_ctx s) in
  (hp_hyperperiod_start_time_us hp = 0 -> get_hyperperiod_relative_time s = Ret (0, s)) /\
  (hp_hyperperiod_start_time_us hp <> 0 -> hp_ctx hp = true -> hp_hyperperiod_us hp = 0 ->
   wp get_hyperperiod_relative_time (fun r _ =>
     r = u64 (clock_us (n_trace s) (cf_clockid (cx_config (n_ctx s)))
              - hp_hyperperiod_start_time_us hp)) s).
Proof.
  intros hp. subst hp. split.
  - intros H0. unfold get_hyperperiod_relative_time, mbind, ST_bind, get_ctx, gets.
    by rewrite H0.
  - intros Hst Hctx Hz. unfold get_hyperperiod_relative_time, get_ctx. do 2 wp_step.
    rewrite (proj2 (Z.eqb_neq _ _) Hst), Hctx, Hz. apply wp_bind, wp_sys. unfold clock_us.
    destruct (kresp _ _) as [ret now]. simpl. apply wp_ret.
    change (u64 (0 - 1)) with (2 ^ 64 - 1). rewrite land_low_mask by lia. apply wrapu_idemp.
Qed.

(** The interval and first expiry of the hyperperiod timer. *)
Lemma hyperperiod_its_spec start h :
  ts_ok start -> in_u 64 h -> ts_total_ns start + h * 1000 < 2 ^ 63 ->
  ts_ok (it_value (hyperperiod_its start h)) /\
  ts_total_ns (it_value (hyperperiod_its start h)) = ts_total_ns start + h * 1000 /\
  ts_norm (it_interval (hyperperiod_its start h)) /\
  ts_total_ns (it_interval (hyperperiod_its start h)) = h * 1000.
Proof.
  intros Hs Hh Hfit. unfold hyperperiod_its. time_unfold. unfold_range. simpl.
  pose proof (Z.mod_pos_bound h 1000000 ltac:(lia)).
  pose proof (Z.div_mod h 1000000 ltac:(lia)).
  assert (0 <= h / 1000000) by (apply Z.div_pos; lia).
  rewrite !(wrapu_id 64 (tv_sec start)), !(wrapu_id 64 (tv_nsec start)) by range.
  rewrite !(wrapu_id 64 (h mod 1000000 * 1000)) by range.
  rewrite !(wrapu_id 64 (tv_sec start + h / 1000000)) by range.
  rewrite !(wrapu_id 64 (tv_nsec start + h mod 1000000 * 1000)) by range.
  rewrite !(wraps_id 64 (tv_sec start + h / 1000000)) by range.
  rewrite !(wraps_id 64 (tv_nsec start + h mod 1000000 * 1000)) by range.
  rewrite !(wraps_id 64 (h / 1000000)), !(wraps_id 64 (h mod 1000000 * 1000)) by range.
  rewrite !(wrapu_id 64 (tv_nsec start + h mod 1000000 * 1000)) by range.
  destruct (Z.leb_spec 1000000000 (tv_nsec start + h mod 1000000 * 1000)); simpl; [|lia].
  rewrite wrapu_id by range. rewrite !wraps_id by range. lia.
Qed.

(** [start_hyperperiod_timer] arms the cycle timer with an absolute,
    normalized first expiry exactly one hyperperiod after the common start
    time and with the hyperperiod as interval, records the start time, and
    maps each failing system call to [TT_ERROR_TIMER]; nothing is created when
    no hyperperiod is set. *)
Theorem start_hyperperiod_timer_spec s :
  let start := rt_starttimer_ts (cx_runtime (n_ctx s)) in
  let h := hp_hyperperiod_us (cx_hp (n_ctx s)) in
  ts_ok start -> in_u 64 h -> ts_total_ns start + h * 1000 < 2 ^ 63 ->
  wp start_hyperperiod_timer (fun r s' =>
    if h =? 0 then r = TT_SUCCESS /\ s' = s
    else
      hp_hyperperiod_start_time_us (cx_hp (n_ctx s')) = ts_total_ns start / 1000 /\
      let its := hyperperiod_its start h in
      let clk := cf_clockid (cx_config (n_ctx s)) in
      ts_ok (it_value its) /\
      ts_total_ns (it_value its) = ts_total_ns start + h * 1000 /\
      ts_total_ns (it_interval its) = h * 1000 /\
      exists timer rc rs,
        match r with
          | TT_SUCCESS => rc = 0 /\ rs = 0 /\
              n_trace s' = Event (TimerSettime timer TIMER_ABSTIME its) rs
                :: Event (TimerCreate clk H_hyperperiod_cycle) (rc, timer) :: n_trace s /\
              hp_hyperperiod_timer (cx_hp (n_ctx s')) = timer
          | TT_ERROR_TIMER =>
              rc <> 0 /\ n_trace s' =
                Event (TimerCreate clk H_hyperperiod_cycle) (rc, timer) :: n_trace s \/
              rs <> 0 /\ n_trace s' = Event (TimerSettime timer TIMER_ABSTIME its) rs
                :: Event (TimerCreate clk H_hyperperiod_cycle) (rc, timer) :: n_trace s
          | _ => False
          end) s.
Proof.
  intros start h Hs Hh Hfit. unfold start_hyperperiod_timer, get_ctx.
  do 2 wp_step. destruct (Z.eqb_spec h 0) as [E|E]; fold h; rewrite ?E; simpl.
  { by apply wp_ret. }
  rewrite (proj2 (Z.eqb_neq _ _) E).
  destruct (hyperperiod_its_spec start h Hs Hh Hfit) as (Hv & Ht & _ & Hi).
  do 2 (apply wp_bind; unfold upd_hp, upd_ctx; wp_step).
  apply wp_bind, wp_sys. destruct (kresp _ (TimerCreate _ _)) as [rc timer].
  destruct (Z.eqb_spec rc 0) as [Erc|Erc]; simpl.
  2:{ apply wp_ret. split; [by rewrite to_us_ok|].
      split_and!; try done. exists timer, rc, 0. left. done. }
  apply wp_bind. wp_step. apply wp_bind, wp_sys.
  set (rs := kresp _ (TimerSettime _ _ _)).
  destruct (Z.eqb_spec rs 0) as [Ers|Ers]; simpl; apply wp_ret;
    (split; [by simpl; rewrite to_us_ok|]).
  - split_and!; try done. exists timer, rc, rs. done.
  - split_and!; try done. exists timer, rc, rs. right. done.
Qed.

End props.

(** *** Witnesses *)

(** A kernel whose clocks read [t]. *)
Definition clock_kernel (t : timespec) : Kernel :=
  {| kresp := fun _ _ c =>
       match c in call A return A with ClockGettime _ => (0, t) | c => default_reply c end |}.

Definition hp_state (start h : Z) : nstate :=
  nstate_init <| n_ctx ::= fun c =>
    c <| cx_hp ::= fun m => m <| hp_ctx := true |> <| hp_hyperperiod_us := h |>
           <| hp_hyperperiod_start_time_us := start |> |>
      <| cx_runtime ::= fun r => r <| rt_starttimer_ts := mk_timespec 10 999000000 |> |> |>.

Lemma relative_time_mod_witness :
  wp (get_hyperperiod_relative_time (K := clock_kernel (mk_timespec 11 300000000)))
    (fun r _ => r = 300000 /\ 0 <= r < 1000000) (hp_state 10000000 1000000).
Proof.
  eapply wp_mono.
  - apply (relative_time_mod (K := clock_kernel (mk_timespec 11 300000000)) (hp_state 10000000 1000000));
      vm_compute; intuition congruence.
  - intros r s' (-> & _ & _). vm_compute. intuition congruence.
Defined.

Lemma relative_time_edge_witness :
  get_hyperperiod_relative_time (K := default_kernel) (hp_state 0 5) = Ret (0, hp_state 0 5).
Proof.
  apply (proj1 (relative_time_edge (K := default_kernel) (hp_state 0 5))). reflexivity.
Defined.

Lemma start_hyperperiod_timer_witness :
  wp (start_hyperperiod_timer (K := default_kernel)) (fun r s' =>
    r = TT_SUCCESS \/ r = TT_ERROR_TIMER) (hp_state 0 20000).
Proof.
  eapply wp_mono.
  - apply (start_hyperperiod_timer_spec (K := default_kernel) (hp_state 0 20000));
      vm_compute; intuition congruence.
  - simpl. intros r s' (_ & _ & _ & _ & timer & rc & rs & H).
    destruct r; auto; done.
Defined.
