(* ===== verification/SchedInfo.v ===== *)
(** * The schedule on the wire

    The orchestrator packs a workload's schedule into a serial buffer
    (timpani-o/src/dbus_server.cpp, [SerializeSchedInfo]); the node executor
    unpacks it from the end ([deserialize_sched_info] of
    timpani-n/src/trpc.c) into [ctx->runtime.sched_info] and initializes the
    hyperperiod manager.  [destroy_task_info_list] is from
    timpani-n/src/task.c. *)

From S2P Require Import Prelude Time Types Kernel Serialize Hyperperiod.

(** ** Deserializers in sequence

    The [||] chains of the source: the first call that reports a negative
    status ends the chain. *)

Definition BP (A : Type) : Type := serial_buf_t -> outcome (option A * serial_buf_t).

#[export] Instance BP_ret : MRet BP := fun _ a b => Ret (Some a, b).
#[export] Instance BP_bind : MBind BP := fun _ _ k m b =>
  match m b with
  | Ret (Some a, b') => k a b'
  | Ret (None, b') => Ret (None, b')
  | UB => UB
  end.

Definition sizeof_task_info : Z := 136.

Section node.
Context {HO : Host} {K : Kernel}.

Definition deserialize_int32_t : BP Z := deserialize_T C_int32_t.
Definition deserialize_int64_t : BP Z := deserialize_T C_int64_t.
Definition str_into (t : list byte) : BP (list byte) := fun b => deserialize_str b t.

(** The chain that fills the fields of one zeroed [struct task_info]. *)
Definition deserialize_task_info : BP task_info :=
  node_id ← str_into (zeros TINFO_NODEID_MAX);
  allowable_deadline_misses ← deserialize_int32_t;
  cpu_affinity ← deserialize_int64_t;
  deadline ← deserialize_int32_t;
  runtime ← deserialize_int32_t;
  release_time ← deserialize_int32_t;
  period ← deserialize_int32_t;
  sched_policy ← deserialize_int32_t;
  sched_priority ← deserialize_int32_t;
  name ← str_into (zeros TINFO_NAME_MAX);
  mret {| ti_pid := 0; ti_pidfd := 0; ti_name := name;
          ti_sched_priority := u32 sched_priority; ti_sched_policy := u32 sched_policy;
          ti_period := u32 period; ti_release_time := u32 release_time;
          ti_runtime := u32 runtime; ti_deadline := u32 deadline;
          ti_cpu_affinity := u64 cpu_affinity;
          ti_allowable_deadline_misses := u32 allowable_deadline_misses;
          ti_node_id := node_id |}.

Fixpoint destroy_task_info_list (tasks : list (Z * task_info)) : N unit :=
  match tasks with
  | [] => mret tt
  | (current, _) :: tasks => sys (Free current) ;; destroy_task_info_list tasks
  end.

Definition upd_sinfo (f : sched_info -> sched_info) : N unit :=
  upd_rt (fun r => r <| rt_sched_info ::= f |>).

Definition get_sinfo : N sched_info := gets (fun s => rt_sched_info (cx_runtime (n_ctx s))).

(** [destroy_task_info_list(sinfo->tasks); sinfo->tasks = NULL;] *)
Definition drop_tasks : N unit :=
  sinfo ← get_sinfo;
  destroy_task_info_list (si_tasks sinfo) ;;
  upd_sinfo (fun i => i <| si_tasks := [] |>).

(** The loop over the task entries; [i] counts down the remaining ones. *)
Fixpoint deserialize_tasks (i : nat) (sbuf : serial_buf_t) : N (tt_error_t * serial_buf_t) :=
  match i with
  | O => mret (TT_SUCCESS, sbuf)
  | S i =>
      tinfo ← alloc sizeof_task_info;
      match tinfo with
      | None => mret (TT_ERROR_MEMORY, sbuf)
      | Some tinfo =>
          '(r, sbuf') ← lift (deserialize_task_info sbuf);
          match r with
          | None =>
              sys (Free tinfo) ;;
              drop_tasks ;;
              mret (TT_ERROR_NETWORK, sbuf')
          | Some ti =>
              upd_sinfo (fun x => x <| si_tasks ::= cons (tinfo, ti) |>) ;;
              deserialize_tasks i sbuf'
          end
      end
  end.

(** [sinfo] is [&ctx->runtime.sched_info]. *)
Definition deserialize_sched_info (sbuf : serial_buf_t) : N (tt_error_t * serial_buf_t) :=
  '(nr, sbuf) ← lift (deserialize_int32_t sbuf);
  match nr with
  | None => mret (TT_ERROR_NETWORK, sbuf)
  | Some nr =>
      upd_sinfo (fun i => i <| si_nr_tasks := u32 nr |>) ;;
      upd_sinfo (fun i => i <| si_tasks := [] |>) ;;
      '(r, sbuf) ← deserialize_tasks (Z.to_nat (u32 nr)) sbuf;
      if tt_ok_code r then
        sinfo ← get_sinfo;
        '(w, sbuf) ← lift (deserialize_str sbuf (si_workload_id sinfo));
        match w with
        | None => drop_tasks ;; mret (TT_ERROR_NETWORK, sbuf)
        | Some w =>
            upd_sinfo (fun i => i <| si_workload_id := w |>) ;;
            '(hp, sbuf) ← lift (deserialize_int64_t sbuf);
            match hp with
            | None => drop_tasks ;; mret (TT_ERROR_NETWORK, sbuf)
            | Some hp =>
                sinfo ← get_sinfo;
                r ← init_hyperperiod true (Some (si_workload_id sinfo)) (u64 hp) true;
                if tt_ok_code r then mret (TT_SUCCESS, sbuf)
                else drop_tasks ;; mret (TT_ERROR_CONFIG, sbuf)
            end
        end
      else mret (r, sbuf)
  end.

End node.

(** ** The orchestrator's side (timpani-o/src/sched_info.h, dbus_server.cpp) *)

Record sched_task_t := mk_sched_task {
  st_task_name : list byte;
  st_period_ns : Z;
  st_runtime_ns : Z;
  st_deadline_ns : Z;
  st_release_time : Z;
  st_cpu_affinity : Z;
  st_sched_policy : Z;
  st_sched_priority : Z;
  st_max_dmiss : Z;
  st_assigned_node : list byte;
}.

Definition kNsToUs : Z := 1000.

Section orchestrator.
Context {HO : Host} {AL : Allocator}.

(** A sequence of serialize calls on one buffer.  The source discards the
    statuses; they are kept here so that a theorem can say that no call
    failed. *)
Fixpoint serialize_seq (cs : list (sbufp -> outcome (Z * sbufp))) (b : sbufp)
  : outcome (list Z * sbufp) :=
  match cs with
  | [] => mret ([], b)
  | c :: cs =>
      '(r, b1) ← c b;
      '(rs, b2) ← serialize_seq cs b1;
      mret (r :: rs, b2)
  end.

Definition ser_int32 (t : Z) (b : sbufp) := serialize_T C_int32_t b (i32 t).
Definition ser_int64 (t : Z) (b : sbufp) := serialize_T C_int64_t b (i64 t).
Definition ser_str (t : list byte) (b : sbufp) := serialize_str b t.

(** [std::string(a).substr(0, n).c_str()] *)
Definition substr0 (a : list byte) (n : nat) : list byte := take n (cstr a).

Definition ser_task (task : sched_task_t) : list (sbufp -> outcome (Z * sbufp)) :=
  [ ser_str (substr0 (st_task_name task) (16 - 1));
    ser_int32 (st_sched_priority task);
    ser_int32 (st_sched_policy task);
    ser_int32 (st_period_ns task / kNsToUs);
    ser_int32 (st_release_time task);
    ser_int32 (st_runtime_ns task / kNsToUs);
    ser_int32 (st_deadline_ns task / kNsToUs);
    ser_int64 (st_cpu_affinity task);
    ser_int32 (st_max_dmiss task);
    ser_str (substr0 (st_assigned_node task) (64 - 1)) ].

(** The buffer made for a workload: its id, its hyperperiod if known, and
    the tasks of its nodes in the order of the node map.  (A cached buffer is
    returned as it is; that branch does not reach the serializer.) *)
Definition SerializeSchedInfo (workload_id : list byte) (hyperperiod_info : option Z)
    (node_sched_info : list (list byte * list sched_task_t)) : outcome (option (list Z * sbufp)) :=
  match new_serial_buf (1024 + 256) with
  | None => mret None
  | Some buf =>
      let hyperperiod_us := match hyperperiod_info with Some h => h | None => 0 end in
      let tasks := concat (snd <$> node_sched_info) in
      let nr_tasks := i32 (Z.of_nat (length tasks)) in
      r ← serialize_seq
            ([ser_int64 hyperperiod_us; ser_str (substr0 workload_id (64 - 1))]
             ++ concat (ser_task <$> tasks) ++ [ser_int32 nr_tasks])
            (Some buf);
      mret (Some r)
  end.

End orchestrator.

(** ** Byte image of a schedule *)

Definition task_wire (t : sched_task_t) : list byte :=
  blob_wire (substr0 (st_task_name t) 15) ++ be_bytes 4 (st_sched_priority t)
  ++ be_bytes 4 (st_sched_policy t) ++ be_bytes 4 (st_period_ns t / kNsToUs)
  ++ be_bytes 4 (st_release_time t) ++ be_bytes 4 (st_runtime_ns t / kNsToUs)
  ++ be_bytes 4 (st_deadline_ns t / kNsToUs) ++ be_bytes 8 (st_cpu_affinity t)
  ++ be_bytes 4 (st_max_dmiss t) ++ blob_wire (substr0 (st_assigned_node t) 63).

(** A string held in a zeroed array of [n] bytes. *)
Definition in_array (n : nat) (s : list byte) : list byte := s ++ zeros (n - length s).

(** What the node executor receives for a task. *)
Definition task_info_of (t : sched_task_t) : task_info :=
  {| ti_pid := 0; ti_pidfd := 0;
     ti_name := in_array 16 (substr0 (st_task_name t) 15);
     ti_sched_priority := u32 (st_sched_priority t);
     ti_sched_policy := u32 (st_sched_policy t);
     ti_period := u32 (st_period_ns t / 1000);
     ti_release_time := u32 (st_release_time t);
     ti_runtime := u32 (st_runtime_ns t / 1000);
     ti_deadline := u32 (st_deadline_ns t / 1000);
     ti_cpu_affinity := u64 (st_cpu_affinity t);
     ti_allowable_deadline_misses := u32 (st_max_dmiss t);
     ti_node_id := in_array 64 (substr0 (st_assigned_node t) 63) |}.

(** ** Composition of deserializers and of serializers *)

Lemma pops_ret {A} (a : A) : pops (mret a : BP A) a [].
Proof. intros b l Hwf Hr. rewrite app_nil_r in Hr. eexists. split; [done|]. auto. Qed.

Lemma pops_bind {A B} (m : BP A) (k : A -> BP B) a c w1 w2 :
  pops m a w1 -> pops (k a) c w2 -> pops (m ≫= k : BP B) c (w2 ++ w1).
Proof.
  intros Hm Hk b l Hwf Hr. rewrite app_assoc in Hr.
  destruct (Hm b _ Hwf Hr) as (b1 & E1 & Hwf1 & Hr1).
  destruct (Hk b1 _ Hwf1 Hr1) as (b2 & E2 & ? & ?).
  exists b2. unfold mbind, BP_bind. rewrite E1. auto.
Qed.

Lemma in_array_eq n w :
  (length w < n)%nat -> w ++ x00 :: drop (S (length w)) (zeros n) = in_array n w.
Proof.
  intros Hw. unfold in_array, zeros. rewrite drop_replicate. f_equal.
  replace (n - length w)%nat with (S (n - S (length w))) by lia. done.
Qed.

Lemma length_substr0 a n : (length (substr0 a n) <= n)%nat.
Proof. unfold substr0. rewrite length_take. lia. Qed.

Lemma cstr_substr0 a n : cstr (substr0 a n) = substr0 a n.
Proof. apply cstr_id, no_nul_take, cstr_no_nul. Qed.

Section wires.
Context {HO : Host}.

Lemma str_into_pops n a k :
  (n < k)%nat -> (k <= 64)%nat ->
  pops (str_into (zeros k)) (in_array k (substr0 a n)) (blob_wire (substr0 a n)).
Proof.
  intros Hn Hk. pose proof (length_substr0 a n). unfold str_into.
  rewrite <- in_array_eq by lia. apply deserialize_str_pops.
  - rewrite length_zeros. lia.
  - change (2 ^ 32) with 4294967296. lia.
Qed.

Lemma int32_pops x : pops deserialize_int32_t (i32 x) (be_bytes 4 x).
Proof.
  pose proof (deserialize_T_pops C_int32_t (be_bytes 4 x) (length_be_bytes 4 x)) as H.
  unfold wire_val in H. rewrite be_val_be_bytes in H.
  change (of_datatype C_int32_t (x mod 2 ^ (8 * Z.of_nat 4))) with (i32 (u32 x)) in H.
  by rewrite wraps_wrapu in H.
Qed.

Lemma int64_pops x : pops deserialize_int64_t (i64 x) (be_bytes 8 x).
Proof.
  pose proof (deserialize_T_pops C_int64_t (be_bytes 8 x) (length_be_bytes 8 x)) as H.
  unfold wire_val in H. rewrite be_val_be_bytes in H.
  change (of_datatype C_int64_t (x mod 2 ^ (8 * Z.of_nat 8))) with (i64 (u64 x)) in H.
  by rewrite wraps_wrapu in H.
Qed.

Lemma wrapu_wraps w x : 0 < w -> wrapu w (wraps w x) = wrapu w x.
Proof.
  intros Hw. unfold wrapu, wraps.
  rewrite Zminus_mod_idemp_l. f_equal. lia.
Qed.

Lemma deserialize_task_info_pops t :
  pops deserialize_task_info (task_info_of t) (task_wire t).
Proof.
  unfold task_wire, deserialize_task_info. rewrite !app_assoc.
  assert (forall x, u32 (i32 x) = u32 x) as U by (intros; apply wrapu_wraps; lia).
  eapply pops_bind; [apply str_into_pops with (n := 63%nat); unfold TINFO_NODEID_MAX; lia|].
  do 8 (eapply pops_bind; [apply int32_pops || apply int64_pops|]).
  rewrite <- (app_nil_l (blob_wire (substr0 _ 15))).
  eapply pops_bind; [apply str_into_pops with (n := 15%nat); unfold TINFO_NAME_MAX; lia|].
  unfold task_info_of, kNsToUs. rewrite !U, wrapu_wraps by lia. apply pops_ret.
Qed.

End wires.

Section seq.
Context {HO : Host} {AL : Allocator}.

Lemma serialize_seq_spec cs ws b :
  Forall2 pushes cs ws -> wf_buf b ->
  exists rs b', serialize_seq cs (Some b) = Ret (rs, Some b') /\ wf_buf b' /\
    (Forall (fun r => r = 0) rs -> readable b' = readable b ++ concat ws).
Proof.
  intros Hcs. revert b. induction Hcs as [|c w cs ws Hc _ IH]; intros b Hwf; simpl.
  - eexists [], b. rewrite app_nil_r. auto.
  - destruct (Hc b Hwf) as (r & b1 & -> & Hwf1 & Hr). simpl.
    destruct (IH b1 Hwf1) as (rs & b2 & -> & Hwf2 & Hrs). simpl.
    eexists _, b2. split_and!; [done|done|]. intros [Hr0 Hrs0]%Forall_cons.
    rewrite Hrs by done. destruct Hr as [[_ ->]|[? _]]; [by rewrite app_assoc|lia].
Qed.

Lemma be_bytes_wraps n x :
  (0 < n)%nat -> be_bytes n (wraps (8 * Z.of_nat n) x) = be_bytes n x.
Proof.
  intros Hn. unfold be_bytes. rewrite <- le_bytes_mod.
  change (wraps (8 * Z.of_nat n) x mod 2 ^ (8 * Z.of_nat n))
    with (wrapu (8 * Z.of_nat n) (wraps (8 * Z.of_nat n) x)).
  rewrite wrapu_wraps by lia. unfold wrapu. by rewrite le_bytes_mod.
Qed.

Lemma ser_int32_pushes x : pushes (ser_int32 x) (be_bytes 4 x).
Proof. rewrite <- (be_bytes_wraps 4) by lia. apply (serialize_T_pushes C_int32_t). Qed.

Lemma ser_int64_pushes x : pushes (ser_int64 x) (be_bytes 8 x).
Proof. rewrite <- (be_bytes_wraps 8) by lia. apply (serialize_T_pushes C_int64_t). Qed.

Lemma ser_str_pushes a n : (n <= 64)%nat -> pushes (ser_str (substr0 a n)) (blob_wire (substr0 a n)).
Proof.
  intros Hn. rewrite <- (cstr_substr0 a n) at 2. apply serialize_str_pushes.
  rewrite cstr_substr0. pose proof (length_substr0 a n). change (2 ^ 32) with 4294967296. lia.
Qed.

Definition task_wires (t : sched_task_t) : list (list byte) :=
  [ blob_wire (substr0 (st_task_name t) 15); be_bytes 4 (st_sched_priority t);
    be_bytes 4 (st_sched_policy t); be_bytes 4 (st_period_ns t / kNsToUs);
    be_bytes 4 (st_release_time t); be_bytes 4 (st_runtime_ns t / kNsToUs);
    be_bytes 4 (st_deadline_ns t / kNsToUs); be_bytes 8 (st_cpu_affinity t);
    be_bytes 4 (st_max_dmiss t); blob_wire (substr0 (st_assigned_node t) 63) ].

Lemma task_wire_concat t : concat (task_wires t) = task_wire t.
Proof. unfold task_wires, task_wire. simpl. by rewrite app_nil_r. Qed.

Lemma ser_task_pushes t : Forall2 pushes (ser_task t) (task_wires t).
Proof.
  unfold ser_task, task_wires.
  repeat (constructor; [apply ser_int32_pushes || apply ser_int64_pushes
                        || (apply ser_str_pushes; lia)|]).
  constructor.
Qed.

Lemma ser_tasks_pushes ts :
  Forall2 pushes (concat (ser_task <$> ts)) (concat (task_wires <$> ts)).
Proof.
  induction ts as [|t ts IH]; [constructor|]. rewrite !fmap_cons, !concat_cons.
  apply Forall2_app; [apply ser_task_pushes|done].
Qed.

Lemma task_wires_concat ts :
  concat (concat (task_wires <$> ts)) = concat (task_wire <$> ts).
Proof.
  induction ts as [|t ts IH]; [done|].
  by rewrite !fmap_cons, !concat_cons, concat_app, task_wire_concat, IH.
Qed.

End seq.

(** ** Unpacking a schedule *)

(** No allocation fails. *)
Class MallocOk (K : Kernel) := malloc_ok : forall tr n, kresp tr (Malloc n) = true.

Section unpack.
Context {HO : Host} {K : Kernel}.

Definition sinfo_of (s : nstate) : sched_info := rt_sched_info (cx_runtime (n_ctx s)).

(** The context outside the schedule information. *)
Definition same_but_sinfo (s s' : nstate) : Prop :=
  n_ctx s' = (n_ctx s) <| cx_runtime ::= fun r => r <| rt_sched_info := sinfo_of s' |> |>.

Lemma deserialize_tasks_ok `{!MallocOk K} ts b l s :
  wf_buf b -> readable b = l ++ concat (task_wire <$> ts) ->
  wp (deserialize_tasks (length ts) b) (fun '(r, b') s' =>
    r = TT_SUCCESS /\ wf_buf b' /\ readable b' = l /\
    snd <$> si_tasks (sinfo_of s') = (task_info_of <$> ts) ++ (snd <$> si_tasks (sinfo_of s)) /\
    si_workload_id (sinfo_of s') = si_workload_id (sinfo_of s) /\
    si_nr_tasks (sinfo_of s') = si_nr_tasks (sinfo_of s) /\
    cx_hp (n_ctx s') = cx_hp (n_ctx s)) s.
Proof.
  revert b l s. induction ts as [|t ts IH] using rev_ind; intros b l s Hwf Hr; simpl.
  { apply wp_ret. simpl in Hr. rewrite app_nil_r in Hr. auto 10. }
  rewrite length_app. simpl. rewrite Nat.add_1_r. simpl.
  rewrite fmap_app, concat_app, app_assoc in Hr. simpl in Hr. rewrite app_nil_r in Hr.
  unfold alloc. do 2 apply wp_bind. apply wp_sys. rewrite malloc_ok.
  wp_run. apply wp_lift.
  destruct (deserialize_task_info_pops t b _ Hwf Hr) as (b1 & -> & Hwf1 & Hr1).
  apply wp_bind. unfold upd_sinfo, upd_rt, upd_ctx. wp_step.
  eapply wp_mono; [apply (IH b1 l _ Hwf1 Hr1)|].
  intros [r b'] s' (-> & ? & ? & Ht & ? & ? & ?). split_and!; try done.
  rewrite Ht, fmap_app. simpl. by rewrite <- app_assoc.
Qed.

End unpack.

(** The buffer the client builds from the received bytes
    ([make_serial_buf(buf, bufsize)]). *)
Definition received (bytes : list byte) : serial_buf_t :=
  mk_serial_buf bytes (blen bytes) (blen bytes).

Lemma received_wf bytes :
  blen bytes < 2 ^ 63 -> wf_buf (received bytes) /\ readable (received bytes) = bytes.
Proof.
  intros H. unfold wf_buf, readable, received; simpl. split; [lia|].
  rewrite Nat2Z.id. by rewrite take_ge.
Qed.

(** The bytes [SerializeSchedInfo] leaves in the buffer. *)
Lemma SerializeSchedInfo_wire {HO : Host} {AL : Allocator} wl hp nodes rs b :
  SerializeSchedInfo wl hp nodes = Ret (Some (rs, Some b)) -> Forall (fun r => r = 0) rs ->
  let ts := concat (snd <$> nodes) in
  wf_buf b /\
  readable b = be_bytes 8 (default 0 hp) ++ blob_wire (substr0 wl 63)
               ++ concat (task_wire <$> ts) ++ be_bytes 4 (blen ts).
Proof.
  intros E Hrs ts. unfold SerializeSchedInfo in E.
  destruct (new_serial_buf (1024 + 256)) as [b0|] eqn:E0; [|done].
  apply new_serial_buf_wf in E0 as [Hwf0 Hr0]; [|lia]. fold ts in E.
  set (cs := [_; _] ++ _ ++ _) in E.
  set (ws := [be_bytes 8 (default 0 hp); blob_wire (substr0 wl 63)]
             ++ concat (task_wires <$> ts) ++ [be_bytes 4 (blen ts)]).
  assert (Forall2 pushes cs ws) as Hcs.
  { apply Forall2_app; [repeat constructor|apply Forall2_app].
    - destruct hp; apply ser_int64_pushes.
    - apply ser_str_pushes; lia.
    - apply ser_tasks_pushes.
    - repeat constructor. intros b1. rewrite <- (be_bytes_wraps 4) by lia.
      apply ser_int32_pushes. }
  destruct (serialize_seq_spec cs ws b0 Hcs Hwf0) as (rs' & b' & E' & Hwf' & Hr').
  rewrite E' in E. simpl in E. injection E as <- <-. split; [done|].
  rewrite Hr', Hr0 by done. subst ws. simpl.
  rewrite !concat_app, task_wires_concat, concat_cons, app_nil_r. done.
Qed.

(** Unpacking what the orchestrator packed. *)
Lemma unpack_serialized (h1 h2 : Host) {AL : Allocator} {K : Kernel} `{!MallocOk K}
    wl hp nodes rs b s :
  SerializeSchedInfo (HO := h1) wl hp nodes = Ret (Some (rs, Some b)) ->
  Forall (fun r => r = 0) rs ->
  let ts := concat (snd <$> nodes) in
  blen ts < 2 ^ 31 -> length (si_workload_id (sinfo_of s)) = 64%nat ->
  wp (deserialize_sched_info (HO := h2) (received (readable b))) (fun '(r, b') s' =>
    r = TT_SUCCESS /\ readable b' = [] /\
    snd <$> si_tasks (sinfo_of s') = task_info_of <$> ts /\
    si_nr_tasks (sinfo_of s') = blen ts /\
    cstr (si_workload_id (sinfo_of s')) = substr0 wl 63 /\
    hp_hyperperiod_us (cx_hp (n_ctx s')) = u64 (default 0 hp)) s.
Proof.
  intros E Hrs ts Hts Hwl.
  destruct (SerializeSchedInfo_wire wl hp nodes rs b E Hrs) as [Hwf Hr]. fold ts in Hr.
  destruct (received_wf (readable b)) as [Hwf0 Hr0].
  { rewrite length_readable by done. destruct Hwf as (?&?&?). lia. }
  rewrite Hr in Hr0 at 2. rewrite !app_assoc in Hr0.
  unfold deserialize_sched_info.
  apply wp_bind, wp_lift.
  destruct (int32_pops (HO := h2) (blen ts) _ _ Hwf0 Hr0) as (b1 & -> & Hwf1 & Hr1).
  rewrite wraps_id, wrapu_id by range.
  do 2 (apply wp_bind; unfold upd_sinfo, upd_rt, upd_ctx; wp_step).
  rewrite Nat2Z.id. apply wp_bind. eapply wp_mono; [by apply deserialize_tasks_ok|].
  intros [r b2] s2 (-> & Hwf2 & Hr2 & Ht2 & Hw2 & Hn2 & _). simpl in Ht2, Hw2, Hn2.
  apply wp_bind. unfold get_sinfo. wp_step. apply wp_bind, wp_lift.
  pose proof (length_substr0 wl 63).
  destruct (deserialize_str_pops (HO := h2) (si_workload_id (sinfo_of s2)) (substr0 wl 63))
    with b2 (be_bytes 8 (default 0 hp)) as (b3 & E3 & Hwf3 & Hr3); try done.
  { rewrite Hw2. unfold sinfo_of in Hwl. simpl in *. lia. }
  { change (2 ^ 32) with 4294967296. lia. }
  fold (sinfo_of s2). rewrite E3. apply wp_bind. wp_step. apply wp_bind, wp_lift.
  destruct (int64_pops (HO := h2) (default 0 hp) b3 [] Hwf3 Hr3) as (b4 & -> & Hwf4 & Hr4).
  apply wp_bind. wp_step. apply wp_bind. unfold init_hyperperiod, upd_hp, upd_ctx.
  apply wp_bind. wp_step. apply wp_ret. simpl. apply wp_ret. simpl.
  rewrite wrapu_wraps by lia. split_and!; try done.
  - rewrite app_nil_r in Ht2. done.
  - apply cstr_app_nul, no_nul_take, cstr_no_nul.
Qed.

(** ** Properties *)

(** C9: the schedule the orchestrator serializes is the schedule the node
    executor unpacks, for any byte orders of the two hosts: the same tasks in
    the same order with every field preserved (times divided to microseconds
    and cut to the width of the receiving field, strings cut to the arrays),
    the task count, the workload id and the hyperperiod. *)
Theorem schedule_roundtrip (h1 h2 : Host) {AL : Allocator} {K : Kernel} `{!MallocOk K}
    wl hp nodes rs b s :
  SerializeSchedInfo (HO := h1) wl hp nodes = Ret (Some (rs, Some b)) ->
  Forall (fun r => r = 0) rs ->
  let ts := concat (snd <$> nodes) in
  blen ts < 2 ^ 31 -> length (si_workload_id (sinfo_of s)) = 64%nat ->
  wp (deserialize_sched_info (HO := h2) (received (readable b))) (fun '(r, b') s' =>
    r = TT_SUCCESS /\ readable b' = [] /\
    snd <$> si_tasks (sinfo_of s') = task_info_of <$> ts /\
    si_nr_tasks (sinfo_of s') = blen ts /\
    cstr (si_workload_id (sinfo_of s')) = substr0 wl 63 /\
    hp_hyperperiod_us (cx_hp (n_ctx s')) = u64 (default 0 hp)) s.
Proof. by apply unpack_serialized. Qed.

(** *** Allocation of the task entries *)

(** Successful allocations minus releases in a piece of trace. *)
Definition ev_alloc (e : event) : Z :=
  match e with
  | Event (Malloc _) r => if r : bool then 1 else 0
  | Event (Free _) _ => -1
  | _ => 0
  end.

Abbreviation outstanding := (tally ev_alloc).

Lemma outstanding_app a b : outstanding (a ++ b) = outstanding a + outstanding b.
Proof. apply tally_app. Qed.

Section resources.
Context {HO : Host} {K : Kernel}.

Lemma destroy_task_info_list_spec tasks s :
  wp (destroy_task_info_list tasks) (fun _ s' => exists evs,
    n_trace s' = evs ++ n_trace s /\ outstanding evs = - blen tasks /\ n_ctx s' = n_ctx s) s.
Proof.
  revert s. induction tasks as [|[a t] tasks IH]; intros s; simpl.
  - apply wp_ret. exists []. done.
  - apply wp_bind, wp_sys. eapply wp_mono; [apply IH|].
    intros [] s' (evs & Ht & Ho & Hc). simpl in *.
    eexists (evs ++ [_]). rewrite <- app_assoc. split_and!; [exact Ht| |done].
    rewrite outstanding_app, Ho. simpl. lia.
Qed.

Lemma drop_tasks_spec s :
  wp drop_tasks (fun _ s' => exists evs,
    n_trace s' = evs ++ n_trace s /\ outstanding evs = - blen (si_tasks (sinfo_of s)) /\
    si_tasks (sinfo_of s') = [] /\ si_nr_tasks (sinfo_of s') = si_nr_tasks (sinfo_of s)) s.
Proof.
  unfold drop_tasks, get_sinfo. apply wp_bind, wp_gets, wp_bind.
  eapply wp_mono; [apply destroy_task_info_list_spec|].
  intros [] s' (evs & Ht & Ho & Hc). unfold upd_sinfo, upd_rt, upd_ctx. wp_step.
  exists evs. unfold sinfo_of in *. simpl. rewrite Hc. done.
Qed.

(** What a call may leave behind, by status; [n0] entries were in the list
    when it started, [n] were still to be read. *)
Definition tasks_post (n0 n : Z) (s : nstate) (r : tt_error_t) (s' : nstate) : Prop :=
  exists evs, n_trace s' = evs ++ n_trace s /\
    si_nr_tasks (sinfo_of s') = si_nr_tasks (sinfo_of s) /\
    match r with
    | TT_SUCCESS => blen (si_tasks (sinfo_of s')) = n0 + n /\ outstanding evs = n
    | TT_ERROR_MEMORY => outstanding evs = blen (si_tasks (sinfo_of s')) - n0
    | TT_ERROR_NETWORK => si_tasks (sinfo_of s') = [] /\ outstanding evs = - n0
    | _ => False
    end.

Lemma deserialize_tasks_resources i b s :
  wlp (deserialize_tasks i b) (fun '(r, _) s' =>
    tasks_post (blen (si_tasks (sinfo_of s))) (Z.of_nat i) s r s') s.
Proof.
  revert b s. induction i as [|i IH]; intros b s; simpl.
  { apply wlp_ret. exists []. simpl. split_and!; lia || done. }
  unfold alloc. do 2 apply wlp_bind. apply wp_wlp, wp_sys.
  destruct (kresp _ (Malloc _)) eqn:Em; simpl.
  2:{ do 2 apply wlp_ret. eexists [_]. split_and!; [reflexivity|done|]. unfold sinfo_of; simpl. lia. }
  do 2 apply wlp_bind. apply wp_wlp, wp_modify. do 2 apply wlp_ret. apply wlp_bind, wlp_lift.
  destruct (deserialize_task_info b) as [[[ti|] b1]|]; [| |done].
  - apply wlp_bind. unfold upd_sinfo, upd_rt, upd_ctx. apply wp_wlp, wp_modify.
    eapply wlp_mono; [apply IH|]. intros [r b'] s' (evs & Ht & Hn & H). simpl in *.
    eexists (evs ++ [_]). rewrite <- app_assoc. split_and!; [exact Ht|exact Hn|].
    rewrite outstanding_app. simpl. unfold sinfo_of in *. simpl in *.
    destruct r; try done; intuition lia.
  - apply wlp_bind, wp_wlp, wp_sys, wlp_bind, wp_wlp. eapply wp_mono; [apply drop_tasks_spec|].
    intros [] s' (evs & Ht & Ho & Hl & Hn). apply wlp_ret. simpl in *.
    eexists (evs ++ [_; _]). rewrite <- app_assoc. split_and!; [exact Ht|exact Hn|done|].
    rewrite outstanding_app, Ho. unfold sinfo_of. simpl. lia.
Qed.

(** The error exits of [deserialize_sched_info] after the task loop. *)
Lemma drop_tasks_network (sbuf : serial_buf_t) s0 evs s :
  n_trace s = evs ++ n_trace s0 ->
  outstanding evs = blen (si_tasks (sinfo_of s)) ->
  wlp (drop_tasks ;; mret (TT_ERROR_NETWORK, sbuf)) (fun '(r, _) s' =>
    exists evs', n_trace s' = evs' ++ n_trace s0 /\ r = TT_ERROR_NETWORK /\
      si_tasks (sinfo_of s') = [] /\ outstanding evs' = 0) s.
Proof.
  intros Ht Ho. apply wlp_bind, wp_wlp. eapply wp_mono; [apply drop_tasks_spec|].
  intros [] s3 (e3 & Ht3 & Ho3 & Hl3 & _). apply wlp_ret.
  exists (e3 ++ evs). rewrite Ht3, Ht, app_assoc, outstanding_app. split_and!; done || lia.
Qed.

(** Whatever bytes arrive, when [deserialize_sched_info] returns it has
    either unpacked exactly [nr_tasks] entries, one allocation each
    ([TT_SUCCESS]); or reported [TT_ERROR_NETWORK] with the task list empty and
    every entry it had allocated released; or reported [TT_ERROR_MEMORY], and
    then the entries read so far stay allocated in the list.  The only other
    way to report [TT_ERROR_NETWORK] is on a missing task count, and then
    nothing was changed. *)
Theorem deserialize_sched_info_resources b s :
  wlp (deserialize_sched_info b) (fun '(r, _) s' =>
    r = TT_ERROR_NETWORK /\ s' = s \/
    exists evs, n_trace s' = evs ++ n_trace s /\
      match r with
      | TT_SUCCESS =>
          blen (si_tasks (sinfo_of s')) = si_nr_tasks (sinfo_of s') /\
          outstanding evs = si_nr_tasks (sinfo_of s')
      | TT_ERROR_NETWORK => si_tasks (sinfo_of s') = [] /\ outstanding evs = 0
      | TT_ERROR_MEMORY => outstanding evs = blen (si_tasks (sinfo_of s'))
      | _ => False
      end) s.
Proof.
  unfold deserialize_sched_info. apply wlp_bind, wlp_lift.
  destruct (deserialize_int32_t b) as [[[nr|] b1]|]; [| |done].
  2:{ apply wlp_ret. by left. }
  do 2 (apply wlp_bind; unfold upd_sinfo, upd_rt, upd_ctx; apply wp_wlp, wp_modify).
  apply wlp_bind. eapply wlp_mono; [apply deserialize_tasks_resources|].
  intros [r b2] s2 (evs & Ht & Hn & H). simpl in *.
  pose proof (wrapu_range 32 nr ltac:(lia)) as [Hnr _].
  destruct r; simpl; try done;
    try (apply wlp_ret; right; exists evs; split; [done|]; unfold sinfo_of in *; simpl in *; intuition lia).
  destruct H as [H1 H2]. unfold sinfo_of in Hn, H1. simpl in *. rewrite Z2Nat.id in * by lia.
  apply wlp_bind. unfold get_sinfo. apply wp_wlp, wp_gets, wlp_bind, wlp_lift.
  destruct (deserialize_str b2 _) as [[[w|] b3]|]; [| |done].
  2:{ eapply wlp_mono; [apply (drop_tasks_network b3 s evs); unfold sinfo_of; done || lia|].
      intros [r b4] s4 (e4 & ? & -> & ? & ?). right. by exists e4. }
  apply wlp_bind, wp_wlp, wp_modify, wlp_bind, wlp_lift.
  destruct (deserialize_int64_t b3) as [[[hp|] b4]|]; [| |done].
  2:{ eapply wlp_mono; [apply (drop_tasks_network b4 s evs); unfold sinfo_of; simpl; done || lia|].
      intros [r b5] s5 (e5 & ? & -> & ? & ?). right. by exists e5. }
  apply wlp_bind, wp_wlp, wp_gets, wlp_bind. unfold init_hyperperiod, upd_hp, upd_ctx.
  apply wlp_bind, wp_wlp, wp_modify, wlp_ret. simpl. apply wlp_ret. right.
  exists evs. unfold sinfo_of. simpl. split; [done|]. lia.
Qed.

End resources.

(** A task name of 16 bytes or more on the wire overruns
    [tinfo->name]: the node executor does not compare the length of a received
    string with the size of the array it copies it into. *)
Theorem overlong_task_name_overruns {HO : Host} {K : Kernel} t l name s b :
  (16 <= length name)%nat -> blen name < 2 ^ 32 -> wf_buf b ->
  readable b = l ++ blob_wire name ++ be_bytes 4 (st_sched_priority t)
    ++ be_bytes 4 (st_sched_policy t) ++ be_bytes 4 (st_period_ns t / kNsToUs)
    ++ be_bytes 4 (st_release_time t) ++ be_bytes 4 (st_runtime_ns t / kNsToUs)
    ++ be_bytes 4 (st_deadline_ns t / kNsToUs) ++ be_bytes 8 (st_cpu_affinity t)
    ++ be_bytes 4 (st_max_dmiss t) ++ blob_wire (substr0 (st_assigned_node t) 63)
    ++ be_bytes 4 1 ->
  kresp (n_trace s) (Malloc sizeof_task_info) = true ->
  deserialize_sched_info b s = UB.
Proof.
  intros Hn Hn' Hwf Hr Hm. rewrite !app_assoc in Hr.
  destruct (int32_pops 1 b _ Hwf Hr) as (b1 & E1 & Hwf1 & Hr1).
  assert (deserialize_task_info b1 = UB) as Hub.
  { unfold deserialize_task_info, mbind, BP_bind.
    destruct (str_into_pops 63 (st_assigned_node t) 64 ltac:(lia) ltac:(lia) b1 _ Hwf1 Hr1)
      as (b2 & E2 & Hwf2 & Hr2). unfold TINFO_NODEID_MAX. rewrite E2.
    do 8 (match goal with
      | Hw : wf_buf ?b, Hx : readable ?b = _ ++ be_bytes 4 ?x
        |- context [deserialize_int32_t ?b] =>
          destruct (int32_pops x b _ Hw Hx) as (? & -> & ? & ?); clear Hw Hx
      | Hw : wf_buf ?b, Hx : readable ?b = _ ++ be_bytes 8 ?x
        |- context [deserialize_int64_t ?b] =>
          destruct (int64_pops x b _ Hw Hx) as (? & -> & ? & ?); clear Hw Hx
      end).
    match goal with
    | Hw : wf_buf ?b, Hx : readable ?b = l ++ blob_wire name |- _ =>
        pose proof (deserialize_str_total b (zeros TINFO_NAME_MAX) Hw) as Ht; rewrite Hx in Ht
    end.
    rewrite pop_blob_wire, decide_False in Ht by (rewrite ?length_zeros; unfold TINFO_NAME_MAX; done || lia).
    unfold str_into. by rewrite Ht. }
  unfold deserialize_sched_info, mbind, ST_bind, lift. rewrite E1.
  unfold upd_sinfo, upd_rt, upd_ctx, modify. simpl.
  unfold alloc, mbind, ST_bind, sys. simpl. rewrite Hm. simpl. by rewrite Hub.
Qed.

(** *** Witnesses *)

#[export] Instance default_malloc_ok : MallocOk default_kernel := fun _ _ => eq_refl.

Definition ex_task (name : string) (period_us : Z) : sched_task_t :=
  mk_sched_task (in_array 16 (str name)) (period_us * 1000) 3000000 (period_us * 1000) 0 2 1 50 3
    (in_array 64 (str "node01")).

Definition ex_nodes : list (list byte * list sched_task_t) :=
  [(str "node01", [ex_task "sensor" 10000; ex_task "control" 20000]);
   (str "node02", [ex_task "logger" 100000])].

Definition ex_serialized : list Z * serial_buf_t :=
  match SerializeSchedInfo (HO := le_host) (AL := small_alloc) (str "wl-1") (Some 100000) ex_nodes with
  | Ret (Some (rs, Some b)) => (rs, b)
  | _ => ([], buf8)
  end.

Lemma schedule_roundtrip_witness :
  wp (deserialize_sched_info (HO := be_host) (K := default_kernel)
        (received (readable (snd ex_serialized))))
    (fun '(r, b') s' =>
      r = TT_SUCCESS /\ readable b' = [] /\
      snd <$> si_tasks (sinfo_of s') = task_info_of <$> concat (snd <$> ex_nodes) /\
      si_nr_tasks (sinfo_of s') = 3 /\
      cstr (si_workload_id (sinfo_of s')) = substr0 (str "wl-1") 63 /\
      hp_hyperperiod_us (cx_hp (n_ctx s')) = u64 100000) nstate_init.
Proof.
  apply (schedule_roundtrip le_host be_host (AL := small_alloc) (K := default_kernel)
           (str "wl-1") (Some 100000) ex_nodes (fst ex_serialized)).
  - vm_compute. reflexivity.
  - vm_compute. repeat constructor.
  - vm_compute. reflexivity.
  - vm_compute. reflexivity.
Defined.

Definition long_name_bytes : list byte :=
  blob_wire (str "a_task_name_of_20_ch") ++ concat (drop 1 (task_wires (ex_task "x" 10)))
  ++ be_bytes 4 1.

Lemma overlong_task_name_witness :
  deserialize_sched_info (HO := le_host) (K := default_kernel) (received long_name_bytes) nstate_init
  = UB.
Proof.
  apply (overlong_task_name_overruns (HO := le_host) (K := default_kernel) (ex_task "x" 10) []
           (str "a_task_name_of_20_ch")).
  - vm_compute. lia.
  - vm_compute. reflexivity.
  - vm_compute. intuition congruence.
  - vm_compute. reflexivity.
  - vm_compute. reflexivity.
Defined.
