(* ===== verification/PeerDbus.v ===== *)
(** * libtrpc: client side of the D-Bus channel (libtrpc/src/peer_dbus.c)

    The functions a node executor uses to reach the orchestrator.  libsystemd
    is part of the environment; what is modelled is which calls are made in
    which order, how failures end the sequence and release the bus, and what is
    handed back to the caller. *)

From S2P Require Import Prelude Time Types Kernel.

Definition TRPC_SERVER_NAME : list byte := str "com.lge.Timpani".
Definition TRPC_CLIENT_DESC : list byte := str "Timpani-N".
Definition TRPC_OBJECT_PATH : list byte := str "/com/lge/Timpani".
Definition TRPC_OBJECT_INTERFACE : list byte := str "com.lge.Timpani.Orchestrator".
Definition TRPC_METHOD_REGISTER : list byte := str "Register".
Definition TRPC_METHOD_SCHEDINFO : list byte := str "SchedInfo".
Definition TRPC_METHOD_DMISS : list byte := str "DMiss".
Definition TRPC_METHOD_SYNC : list byte := str "Sync".

Section client.
Context {K : Kernel}.

(** [ret = c; if (ret < 0) goto cleanup;] *)
Definition checked {A} (c : call Z) (cleanup : N A) (next : N A) : N A :=
  ret ← sys c;
  if ret <? 0 then cleanup else next.

(** Returns the bus, 0 for NULL; a null [serv_addr] is [None]. *)
Definition init_dbus_client (event : Z) (dbus_desc : list byte) (serv_addr : option (list byte))
  : N Z :=
  match serv_addr with
  | None => mret 0
  | Some serv_addr =>
      '(ret, dbus) ← sys SdBusNew;
      let cleanup : N Z :=
        if negb (dbus =? 0) then sys (SdBusFlushCloseUnref dbus) ;; mret 0 else mret 0 in
      if ret <? 0 then cleanup
      else
        checked (SdBusSetDescription dbus dbus_desc) cleanup (
        checked (SdBusSetTrusted dbus true) cleanup (
        checked (SdBusSetAddress dbus serv_addr) cleanup (
        checked (SdBusStart dbus) cleanup (
        checked (SdBusAttachEvent dbus event) cleanup (
        mret dbus)))))
  end.

(** Returns the status and, on success, the bus stored in [*dbus_ret]. *)
Definition trpc_client_create (serv_addr : option (list byte)) (event : Z) : N (Z * option Z) :=
  dbus ← init_dbus_client event TRPC_CLIENT_DESC serv_addr;
  if dbus =? 0 then mret (-1, None) else mret (0, Some dbus).

(** The common cleanup of the request functions. *)
Definition release_reply (reply : Z) : N unit :=
  sys SdBusErrorFree ;;
  if negb (reply =? 0) then sys (SdBusMessageUnref reply) else mret tt.

Definition call_method (dbus : Z) (member : list byte) (args : list (list byte)) : N (Z * Z) :=
  sys (SdBusCallMethod dbus TRPC_SERVER_NAME TRPC_OBJECT_PATH TRPC_OBJECT_INTERFACE member args).

Definition trpc_client_register (dbus : Z) (name : list byte) : N Z :=
  '(ret, reply) ← call_method dbus TRPC_METHOD_REGISTER [cstr name];
  release_reply reply ;;
  mret ret.

(** Returns the status and [*buf]: the address of the copy and its bytes;
    [None] when [*buf] is NULL. *)
Definition trpc_client_schedinfo (dbus : Z) (name : list byte) : N (Z * option (Z * list byte)) :=
  '(ret, reply) ← call_method dbus TRPC_METHOD_SCHEDINFO [cstr name];
  if ret <? 0 then release_reply reply ;; mret (ret, None)
  else
    '(ret, r_buf) ← sys (SdBusMessageReadArray reply);
    if ret <? 0 then release_reply reply ;; mret (ret, None)
    else
      p ← alloc (blen r_buf);
      match p with
      | None => release_reply reply ;; mret (-1, None)
      | Some p => release_reply reply ;; mret (ret, Some (p, r_buf))
      end.

Definition trpc_client_dmiss (dbus : Z) (name task : list byte) : N Z :=
  '(ret, reply) ← call_method dbus TRPC_METHOD_DMISS [cstr name; cstr task];
  release_reply reply ;;
  mret ret.

(** [ack] and [ts] are the values of [*ack] and [*ts] before and after. *)
Definition trpc_client_sync (dbus : Z) (name : list byte) (ack : Z) (ts : timespec)
  : N (Z * Z * timespec) :=
  '(ret, reply) ← call_method dbus TRPC_METHOD_SYNC [cstr name];
  if ret <? 0 then release_reply reply ;; mret (ret, ack, ts)
  else
    '(ret, (a, sec, nsec)) ← sys (SdBusMessageReadBTT reply);
    if ret <? 0 then release_reply reply ;; mret (ret, ack, ts)
    else release_reply reply ;; mret (ret, a, mk_timespec (i64 sec) (i64 nsec)).

End client.

(** ** Accounting of bus connections *)

(** Buses made minus buses released. *)
Definition ev_bus (e : event) : Z :=
  match e with
  | Event SdBusNew r => if snd r =? 0 then 0 else 1
  | Event (SdBusFlushCloseUnref _) _ => -1
  | Event (SdBusUnref _) _ => -1
  | _ => 0
  end.

(** A handle counts when it is not the null pointer. *)
Definition live (h : Z) : Z := if h =? 0 then 0 else 1.

Section client_lemmas.
Context {K : Kernel}.

(** [goto cleanup] in [init_dbus_client]: a bus that was made is released. *)
Lemma client_cleanup_spec dbus n s :
  tally_of ev_bus s = n + live dbus ->
  wp (if negb (dbus =? 0) then sys (SdBusFlushCloseUnref dbus) ;; mret 0 else mret 0)
    (fun d s' => d = 0 /\ tally_of ev_bus s' = n) s.
Proof.
  unfold live, tally_of. intros H. destruct (dbus =? 0); simpl.
  - apply wp_ret. split; [done|lia].
  - apply wp_bind, wp_sys, wp_ret. simpl. split; [done|lia].
Qed.

Lemma checked_spec {A} c (cleanup next : N A) (Q : A -> nstate -> Prop) n s :
  (forall r, ev_bus (Event c r) = 0) -> tally_of ev_bus s = n ->
  (forall s', tally_of ev_bus s' = n -> wp cleanup Q s') ->
  (forall s', tally_of ev_bus s' = n -> wp next Q s') ->
  wp (checked c cleanup next) Q s.
Proof.
  intros Hc Hn H1 H2. unfold checked. apply wp_bind, wp_sys.
  assert (tally_of ev_bus (log c (kresp (n_trace s) c) s) = n).
  { unfold tally_of in *.
    change (ev_bus (Event c (kresp (n_trace s) c)) + tally ev_bus (n_trace s) = n).
    rewrite Hc. lia. }
  destruct (_ <? 0); auto.
Qed.

(** The client bus is either handed out or released, on every path. *)
Lemma init_dbus_client_spec event desc addr s :
  wp (init_dbus_client event desc addr)
    (fun d s' => tally_of ev_bus s' = tally_of ev_bus s + live d) s.
Proof.
  unfold init_dbus_client. destruct addr as [addr|]; [|apply wp_ret; unfold live; simpl; lia].
  apply wp_bind, wp_sys. destruct (kresp _ SdBusNew) as [ret dbus] eqn:E.
  set (n := tally_of ev_bus s).
  assert (Hclean : forall s', tally_of ev_bus s' = n + live dbus ->
    wp (if negb (dbus =? 0) then sys (SdBusFlushCloseUnref dbus) ;; mret 0 else mret 0)
      (fun d s2 => tally_of ev_bus s2 = n + live d) s').
  { intros s' H. eapply wp_mono; [by apply client_cleanup_spec|].
    intros d s2 [-> ->]. unfold live. simpl. lia. }
  assert (Hnew : tally_of ev_bus (log SdBusNew (ret, dbus) s) = n + live dbus).
  { unfold tally_of, n, live. simpl. destruct (dbus =? 0); unfold tally_of; lia. }
  destruct (ret <? 0); [auto|].
  repeat (eapply checked_spec; [done|eassumption|auto|clear Hnew; intros ? Hnew]).
  by apply wp_ret.
Qed.

(** The status tells whether there is a bus. *)
Lemma trpc_client_create_spec addr event s :
  wp (trpc_client_create addr event) (fun '(ret, dbus) s' =>
    tally_of ev_bus s' = tally_of ev_bus s + live (default 0 dbus) /\
    match dbus with Some d => ret = 0 /\ d <> 0 | None => ret = -1 end) s.
Proof.
  unfold trpc_client_create. apply wp_bind.
  eapply wp_mono; [apply init_dbus_client_spec|]. intros d s' H.
  destruct (Z.eqb_spec d 0) as [->|]; apply wp_ret; done.
Qed.

End client_lemmas.
