(* ===== verification/TrpcServer.v ===== *)
(** * libtrpc: serving side of the D-Bus channel (libtrpc/src/peer_dbus.c)

    The orchestrator listens on a TCP socket, makes a peer-to-peer bus of every
    connection and answers the four methods of [trpc_vtable] with the functions
    of a [trpc_server_ops_t].  Those functions belong to the serving program;
    like libsystemd they are calls to the environment.  The theorems are about
    the answers and about the descriptors, buses and messages the code is
    responsible for. *)

From S2P Require Import Prelude Time Types Kernel PeerDbus.

Definition TRPC_SERVER_DESC : list byte := str "Timpani-O".

(** Constants of the socket interface (Linux). *)
Definition SOL_SOCKET : Z := 1.
Definition SO_REUSEADDR : Z := 2.
Definition SO_KEEPALIVE : Z := 9.
Definition IPPROTO_TCP : Z := 6.
Definition TCP_NODELAY : Z := 1.
Definition TCP_KEEPIDLE : Z := 4.
Definition TCP_KEEPINTVL : Z := 5.
Definition TCP_KEEPCNT : Z := 6.
Definition EWOULDBLOCK : Z := EAGAIN.

(** What the uninitialised [ack] and [ts] of [trpc_method_sync] hold. *)
Class SyncJunk := { sync_junk : list event -> Z * timespec }.

Section server.
Context {K : Kernel} {YJ : SyncJunk}.

(** ** Methods *)

(** [trpc_server_ops && trpc_server_ops->f] *)
Definition has_cb (f : trpc_server_ops_t -> bool) : N bool :=
  gets (fun s => match n_server_ops s with Some ops => f ops | None => false end).

Definition trpc_method_register (m : Z) : N Z :=
  '(ret, name) ← sys (SdBusMessageReadS m);
  if ret <? 0 then sys (SdBusReplyMethodError m)
  else
    cb ← has_cb register_cb;
    (if cb : bool then sys (CbRegister name) else mret tt) ;;
    sys (SdBusReplyMethodReturn m None).

(** The buffer stays empty (NULL, 0) without a callback. *)
Definition trpc_method_schedinfo (m : Z) : N Z :=
  '(ret, name) ← sys (SdBusMessageReadS m);
  if ret <? 0 then sys (SdBusReplyMethodError m)
  else
    cb ← has_cb schedinfo_cb;
    buf ← (if cb : bool then sys (CbSchedinfo name) else mret []);
    '(ret, reply_m) ← sys (SdBusMessageNewMethodReturn m);
    if ret <? 0 then sys (SdBusReplyMethodError m)
    else
      ret ← sys (SdBusMessageAppendArray reply_m buf);
      if ret <? 0 then sys (SdBusReplyMethodError m)
      else sys (SdBusMessageSend reply_m).

Definition trpc_method_dmiss (m : Z) : N Z :=
  '(ret, (name, task)) ← sys (SdBusMessageReadSS m);
  if ret <? 0 then sys (SdBusReplyMethodError m)
  else
    cb ← has_cb dmiss_cb;
    (if cb : bool then sys (CbDmiss name task) else mret tt) ;;
    sys (SdBusReplyMethodReturn m None).

Definition trpc_method_sync (m : Z) : N Z :=
  '(ret, name) ← sys (SdBusMessageReadS m);
  if ret <? 0 then sys (SdBusReplyMethodError m)
  else
    cb ← has_cb sync_cb;
    s ← get_st;
    '(ack, ts) ← (if cb : bool then sys (CbSync name) else mret (sync_junk (n_trace s)));
    sys (SdBusReplyMethodReturn m (Some (ack, u64 (tv_sec ts), u64 (tv_nsec ts)))).

Record vtable_entry := mk_vtable_entry {
  vt_member : list byte;
  vt_in : string;
  vt_out : string;
  vt_handler : Z -> N Z;
}.

Definition trpc_vtable : list vtable_entry :=
  [ mk_vtable_entry TRPC_METHOD_REGISTER "s" "" trpc_method_register;
    mk_vtable_entry TRPC_METHOD_SCHEDINFO "s" "ay" trpc_method_schedinfo;
    mk_vtable_entry TRPC_METHOD_DMISS "ss" "" trpc_method_dmiss;
    mk_vtable_entry TRPC_METHOD_SYNC "s" "btt" trpc_method_sync ].

(** ** Connections *)

(** [if (c < 0) return -errno;] *)
Definition or_errno (c : call (Z * Z)) (next : N Z) : N Z :=
  '(ret, errno) ← sys c;
  if ret <? 0 then mret (- errno) else next.

Definition create_server_socket (port : Z) : N Z :=
  '(fd, errno) ← sys SocketInet;
  if fd <? 0 then mret (- errno)
  else
    or_errno (Setsockopt fd SOL_SOCKET SO_REUSEADDR 1) (
    or_errno (BindInet fd (u16 port)) (
    or_errno (Listen fd) (
    mret fd))).

Definition set_server_sockopt (fd : Z) : N Z :=
  or_errno (Setsockopt fd IPPROTO_TCP TCP_NODELAY 1) (
  or_errno (Setsockopt fd SOL_SOCKET SO_KEEPALIVE 1) (
  or_errno (Setsockopt fd IPPROTO_TCP TCP_KEEPIDLE 60) (
  or_errno (Setsockopt fd IPPROTO_TCP TCP_KEEPINTVL 10) (
  or_errno (Setsockopt fd IPPROTO_TCP TCP_KEEPCNT 3) (
  mret 0))))).

(** Returns the bus, 0 for NULL. *)
Definition init_dbus_server (event fd : Z) (sender dbus_desc : list byte) : N Z :=
  '(ret, server_id) ← sys SdId128Randomize;
  if ret <? 0 then mret 0
  else
    '(ret, dbus) ← sys SdBusNew;
    let cleanup : N Z :=
      if negb (dbus =? 0) then sys (SdBusFlushCloseUnref dbus) ;; mret 0 else mret 0 in
    if ret <? 0 then cleanup
    else
      checked (SdBusSetDescription dbus dbus_desc) cleanup (
      checked (SdBusSetTrusted dbus true) cleanup (
      checked (SdBusSetFd dbus fd) cleanup (
      checked (SdBusSetServer dbus true server_id) cleanup (
      checked (SdBusSetAnonymous dbus true) cleanup (
      checked (SdBusNegotiateCreds dbus true) cleanup (
      checked (SdBusSetSender dbus sender) cleanup (
      checked (SdBusStart dbus) cleanup (
      checked (SdBusAddObjectVtable dbus TRPC_OBJECT_PATH TRPC_OBJECT_INTERFACE) cleanup (
      checked (SdBusAttachEvent dbus event) cleanup (
      mret dbus)))))))))).

Definition server_handler (fd event : Z) : N Z :=
  '(connfd, errno) ← sys (Accept4 fd);
  if connfd <? 0 then
    if (errno =? EAGAIN) || (errno =? EINTR) || (errno =? EWOULDBLOCK) then mret 0 else mret (-1)
  else
    dbus ← init_dbus_server event connfd TRPC_SERVER_NAME TRPC_SERVER_DESC;
    if dbus =? 0 then mret (-1)
    else _ ← set_server_sockopt connfd; mret 0.

(** Returns the descriptor and the value stored in [*event_source]. *)
Definition trpc_server_create (port event : Z) (ops : option trpc_server_ops_t) : N (Z * option Z) :=
  fd ← create_server_socket port;
  if fd <? 0 then (sys (SdEventSourceUnref 0) ;; mret (-1, None) : N (Z * option Z))
  else
    modify (fun s => s <| n_server_ops := ops |>) ;;
    '(ret, source) ← sys (SdEventAddIo event fd);
    if ret <? 0 then
      (sys (SdEventSourceUnref source) ;;
       _ ← sys (Close fd);
       mret (-1, None) : N (Z * option Z))
    else mret (fd, Some source).

End server.

(** ** Answers *)

(** Messages that answer a request. *)
Definition ev_reply (e : event) : Z :=
  match e with
  | Event (SdBusReplyMethodError _) _ => 1
  | Event (SdBusReplyMethodReturn _ _) _ => 1
  | Event (SdBusMessageSend _) _ => 1
  | _ => 0
  end.

(** Reply messages made with [sd_bus_message_new_method_return], minus the
    references given back. *)
Definition ev_message (e : event) : Z :=
  match e with
  | Event (SdBusMessageNewMethodReturn _) r => if fst r <? 0 then 0 else 1
  | Event (SdBusMessageUnref _) _ => -1
  | _ => 0
  end.

Inductive callback :=
  | C_register (name : list byte)
  | C_schedinfo (name : list byte)
  | C_dmiss (name task : list byte)
  | C_sync (name : list byte).

Definition ev_callback (e : event) : option callback :=
  match e with
  | Event (CbRegister name) _ => Some (C_register name)
  | Event (CbSchedinfo name) _ => Some (C_schedinfo name)
  | Event (CbDmiss name task) _ => Some (C_dmiss name task)
  | Event (CbSync name) _ => Some (C_sync name)
  | _ => None
  end.

(** Callbacks run so far, latest first. *)
Definition callbacks (s : nstate) : list callback := omap ev_callback (n_trace s).

(** The answer of a method and its status: what was sent last. *)
Inductive answer :=
  | An_error (m : Z)
  | An_return (m : Z) (body : option (Z * Z * Z))
  | An_array (reply : Z) (bytes : list byte).

Definition last_answer (s : nstate) : option (answer * Z) :=
  match n_trace s with
  | Event (SdBusReplyMethodError m) r :: _ => Some (An_error m, r)
  | Event (SdBusReplyMethodReturn m b) r :: _ => Some (An_return m b, r)
  | Event (SdBusMessageSend p) r :: Event (SdBusMessageAppendArray q bytes) _ :: _ =>
      if p =? q then Some (An_array p bytes, r) else None
  | _ => None
  end.

Section answers.
Context {K : Kernel} {YJ : SyncJunk}.

Definition installed (f : trpc_server_ops_t -> bool) (s : nstate) : bool :=
  match n_server_ops s with Some ops => f ops | None => false end.

(** The callback a request causes: none when the message is malformed or the
    function pointer is not set. *)
Definition request_callback (member : list byte) (m : Z) (s : nstate) : list callback :=
  if bool_decide (member = TRPC_METHOD_DMISS) then
    let '(ret, (name, task)) := kresp (n_trace s) (SdBusMessageReadSS m) in
    if (0 <=? ret) && installed dmiss_cb s then [C_dmiss name task] else []
  else
    let '(ret, name) := kresp (n_trace s) (SdBusMessageReadS m) in
    if ret <? 0 then []
    else if bool_decide (member = TRPC_METHOD_REGISTER) then
      if installed register_cb s then [C_register name] else []
    else if bool_decide (member = TRPC_METHOD_SCHEDINFO) then
      if installed schedinfo_cb s then [C_schedinfo name] else []
    else if installed sync_cb s then [C_sync name] else [].

(** The request's arguments could not be read. *)
Definition malformed (member : list byte) (m : Z) (s : nstate) : bool :=
  if bool_decide (member = TRPC_METHOD_DMISS)
  then fst (kresp (n_trace s) (SdBusMessageReadSS m)) <? 0
  else fst (kresp (n_trace s) (SdBusMessageReadS m)) <? 0.

(** libsystemd could not make the reply message of a schedule. *)
Definition reply_failed (e : event) : bool :=
  match e with
  | Event (SdBusMessageNewMethodReturn _) r => fst r <? 0
  | Event (SdBusMessageAppendArray _ _) r => r <? 0
  | _ => false
  end.

(** The answer a request deserves: an error when it is malformed or when no
    reply could be made; otherwise nothing for a registration or a miss, the
    triple for a synchronisation, and for a schedule the byte array in the
    reply made for this request. *)
Definition deserved (member : list byte) (m : Z) (s : nstate) (new : list event) (a : answer) : Prop :=
  if malformed member m s then a = An_error m
  else if bool_decide (member = TRPC_METHOD_SCHEDINFO) then
    if existsb reply_failed new then a = An_error m
    else exists reply bytes r, a = An_array reply bytes /\
           Event (SdBusMessageNewMethodReturn m) (r, reply) ∈ new
  else if bool_decide (member = TRPC_METHOD_SYNC) then exists body, a = An_return m (Some body)
  else a = An_return m None.

(** What an answer carries is what the callback gave, among the events [new]. *)
Definition backed (new : list event) (s : nstate) (a : answer) : Prop :=
  match a with
  | An_error _ | An_return _ None => True
  | An_return _ (Some (ack, sec, nsec)) => installed sync_cb s = true ->
      exists name ts, Event (CbSync name) (ack, ts) ∈ new /\ sec = u64 (tv_sec ts) /\ nsec = u64 (tv_nsec ts)
  | An_array _ bytes => if installed schedinfo_cb s then exists name, Event (CbSchedinfo name) bytes ∈ new
                      else bytes = []
  end.

Definition answered (member : list byte) (m r : Z) (s s' : nstate) : Prop :=
  exists new a, n_trace s' = new ++ n_trace s /\ tally ev_reply new = 1 /\
    last_answer s' = Some (a, r) /\ deserved member m s new a /\ backed new s a /\
    omap ev_callback new = request_callback member m s /\
    n_server_ops s' = n_server_ops s /\ n_ctx s' = n_ctx s.

End answers.

Section answers_lemmas.
Context {K : Kernel} {YJ : SyncJunk}.

Lemma wp_has_cb f (Q : bool -> nstate -> Prop) s : Q (installed f s) s -> wp (has_cb f) Q s.
Proof. intros H. unfold has_cb. by apply wp_gets. Qed.

Lemma last_answer_send p bytes r r' s :
  last_answer (log (SdBusMessageSend p) r (log (SdBusMessageAppendArray p bytes) r' s)) =
  Some (An_array p bytes, r).
Proof. unfold last_answer. simpl. by rewrite Z.eqb_refl. Qed.

(** The kind of answer, once the message has been read and the reply made. *)
Ltac deserve_tac :=
  unfold deserved, malformed; cbn [existsb reply_failed fst];
  repeat match goal with
  | E : kresp _ (SdBusMessageReadS _) = _ |- _ => rewrite E; clear E
  | E : kresp _ (SdBusMessageReadSS _) = _ |- _ => rewrite E; clear E
  end; cbn [fst];
  rewrite ?(bool_decide_eq_true_2 _ eq_refl), ?bool_decide_eq_false_2 by done;
  repeat match goal with E : (?r <? 0) = ?b |- context [?r <? 0] => rewrite E end;
  cbn [orb]; first [done | by eexists | eexists _, _, _; split; [done|do 2 right; left]].

(** The answer, given the events of the request. *)
Ltac answer_tac :=
  unfold answered;
  first [ eexists [_; _], _; split; [reflexivity|] | eexists [_; _; _], _; split; [reflexivity|]
        | eexists [_; _; _; _], _; split; [reflexivity|] | eexists [_; _; _; _; _], _; split; [reflexivity|] ];
  split_and!; [reflexivity|first [reflexivity | apply last_answer_send]|deserve_tac| | |reflexivity|reflexivity].

(** The callback the request causes, once the message has been read. *)
Ltac request_tac :=
  unfold request_callback;
  match goal with
  | E : kresp _ (SdBusMessageReadS _) = _ |- _ => rewrite E
  | E : kresp _ (SdBusMessageReadSS _) = _ |- _ => rewrite E
  end;
  rewrite ?(bool_decide_eq_true_2 _ eq_refl), ?bool_decide_eq_false_2 by done;
  repeat match goal with
  | E : (?r <? 0) = ?b |- context [?r <? 0] => rewrite E
  | E : (?r <? 0) = ?b |- context [0 <=? ?r] => rewrite (Z.leb_antisym r 0), E; cbn [negb andb]
  | E : installed _ _ = _ |- _ => rewrite E
  end; done.

(** Reads the message [c] and splits on its status. *)
Ltac read_tac :=
  apply wp_bind, wp_sys; destruct (kresp _ _) as [ret arg] eqn:Eread; cbn beta iota;
  try destruct arg as [name task]; cbn beta iota;
  destruct (ret <? 0) eqn:Hret; [apply wp_sys; answer_tac; [done|request_tac]|];
  apply wp_bind, wp_has_cb; rewrite ?Eread;
  match goal with |- context [installed ?f _] =>
    match goal with s : nstate |- _ => change (installed f _) with (installed f s) end;
    destruct (installed f _) eqn:Hcb end.

Lemma trpc_method_register_answers m s :
  wp (trpc_method_register m) (fun r s' => answered TRPC_METHOD_REGISTER m r s s') s.
Proof.
  unfold trpc_method_register. read_tac; apply wp_bind; [apply wp_sys|apply wp_ret]; apply wp_sys;
    (answer_tac; [done|request_tac]).
Qed.

Lemma trpc_method_dmiss_answers m s :
  wp (trpc_method_dmiss m) (fun r s' => answered TRPC_METHOD_DMISS m r s s') s.
Proof.
  unfold trpc_method_dmiss. read_tac; apply wp_bind; [apply wp_sys|apply wp_ret]; apply wp_sys;
    (answer_tac; [done|request_tac]).
Qed.

Lemma trpc_method_sync_answers m s :
  wp (trpc_method_sync m) (fun r s' => answered TRPC_METHOD_SYNC m r s s') s.
Proof.
  unfold trpc_method_sync. read_tac; apply wp_bind, wp_get, wp_bind; [apply wp_sys|apply wp_ret];
    (destruct (kresp _ (CbSync _)) as [ack ts] || destruct (sync_junk _) as [ack ts]); apply wp_sys;
    (answer_tac; [|request_tac]); cbn [backed]; rewrite Hcb; [|done].
  intros _. exists arg, ts. split_and!; [set_solver|done|done].
Qed.

Lemma trpc_method_schedinfo_answers m s :
  wp (trpc_method_schedinfo m) (fun r s' => answered TRPC_METHOD_SCHEDINFO m r s s') s.
Proof.
  unfold trpc_method_schedinfo. read_tac; apply wp_bind; [apply wp_sys|apply wp_ret];
    apply wp_bind, wp_sys; destruct (kresp _ (SdBusMessageNewMethodReturn _)) as [rn reply];
    (destruct (rn <? 0) eqn:Hrn; [apply wp_sys; answer_tac; [done|request_tac]|]);
    apply wp_bind, wp_sys; (destruct (kresp _ _ <? 0) eqn:Happ; [apply wp_sys; answer_tac; [done|request_tac]|]);
    apply wp_sys; (answer_tac; [|request_tac]); cbn [backed]; rewrite Hcb; [|done].
  exists arg. set_solver.
Qed.

(** C29: every method of the server's vtable answers each request exactly
    once, and its result is the status of that answer, whatever libsystemd
    does.  A malformed message gets an error answer and no callback runs;
    otherwise the callback of that method runs once, if it is set, with the
    strings of the request.  A registration and a miss are then answered with
    an empty return, a synchronisation with the triple the callback returned
    (uninitialised values when no callback is set), and a schedule request
    with a reply made for this request that holds exactly the bytes the
    callback returned, or with an error if libsystemd could not make that
    reply. *)
Theorem server_methods_answer vt m s :
  vt ∈ trpc_vtable -> wp (vt_handler vt m) (fun r s' => answered (vt_member vt) m r s s') s.
Proof.
  unfold trpc_vtable. rewrite !elem_of_cons. intros [->|[->|[->|[->|H]]]]; cbn [vt_handler vt_member].
  - apply trpc_method_register_answers.
  - apply trpc_method_schedinfo_answers.
  - apply trpc_method_dmiss_answers.
  - apply trpc_method_sync_answers.
  - by apply not_elem_of_nil in H.
Qed.

End answers_lemmas.

(** ** Descriptors and buses *)

(** Accepted connections that no bus owns: [sd_bus_set_fd] makes the bus the
    owner, which closes the descriptor with the bus. *)
Definition ev_conn (e : event) : Z :=
  match e with
  | Event (Accept4 _) r => if fst r <? 0 then 0 else 1
  | Event (SdBusSetFd _ _) r => if r <? 0 then 0 else -1
  | _ => 0
  end.

Section connections.
Context {K : Kernel}.

Definition holds (n k : Z) (s : nstate) : Prop := tally_of ev_bus s = n /\ tally_of ev_conn s = k.

Lemma checked_holds {A} c (cleanup next : N A) (Q : A -> nstate -> Prop) n k s :
  (forall r, ev_bus (Event c r) = 0) -> (forall r, ev_conn (Event c r) = 0) -> holds n k s ->
  (forall s', holds n k s' -> wp cleanup Q s') -> (forall s', holds n k s' -> wp next Q s') ->
  wp (checked c cleanup next) Q s.
Proof.
  intros Hb Hc [Hn Hk] H1 H2. unfold checked. apply wp_bind, wp_sys.
  assert (holds n k (log c (kresp (n_trace s) c) s)).
  { split; [change (ev_bus (Event c (kresp (n_trace s) c)) + tally_of ev_bus s = n)|
           change (ev_conn (Event c (kresp (n_trace s) c)) + tally_of ev_conn s = k)];
      rewrite ?Hb, ?Hc; lia. }
  destruct (_ <? 0); auto.
Qed.

Definition bus_cleanup (dbus : Z) : N Z :=
  if negb (dbus =? 0) then sys (SdBusFlushCloseUnref dbus) ;; mret 0 else mret 0.

Lemma bus_cleanup_spec n k dbus s :
  holds (n + live dbus) k s -> wp (bus_cleanup dbus) (fun d s' => d = 0 /\ holds n k s') s.
Proof.
  unfold bus_cleanup, live, holds, tally_of. intros [H1 H2]. destruct (dbus =? 0); simpl.
  - apply wp_ret. lia.
  - apply wp_bind, wp_sys, wp_ret. simpl. lia.
Qed.

(** The bus is handed out or released on every path; the descriptor belongs to
    it whenever it is handed out. *)
Lemma init_dbus_server_spec event fd sender desc n k s :
  holds n k s ->
  wp (init_dbus_server event fd sender desc) (fun d s' =>
    exists c, holds (n + live d) (k - c) s' /\ 0 <= c <= 1 /\ (d <> 0 -> c = 1)) s.
Proof.
  intros Hs. unfold init_dbus_server. apply wp_bind, wp_sys.
  destruct (kresp _ SdId128Randomize) as [r0 id].
  destruct (r0 <? 0).
  { apply wp_ret. exists 0. rewrite Z.add_0_r, Z.sub_0_r. split; [exact Hs|lia]. }
  apply wp_bind, wp_sys. destruct (kresp _ SdBusNew) as [r1 dbus]. cbn zeta. fold (bus_cleanup dbus).
  set (Q := fun (d : Z) (s' : nstate) => _).
  assert (Hclean : forall c, 0 <= c <= 1 -> forall s', holds (n + live dbus) (k - c) s' ->
    wp (bus_cleanup dbus) Q s').
  { intros c Hc s' H. eapply wp_mono; [by apply bus_cleanup_spec|]. intros d s2 [-> H2]. exists c.
    unfold live. simpl. rewrite Z.add_0_r. split; [done|lia]. }
  match goal with |- wp _ _ ?s1 => assert (H0 : holds (n + live dbus) (k - 0) s1) end.
  { destruct Hs as [H1 H2]. unfold holds, tally_of, live in *. simpl. destruct (dbus =? 0); lia. }
  destruct (r1 <? 0); [by apply (Hclean 0)|].
  do 2 (eapply checked_holds; [done|done|exact H0|apply (Hclean 0); lia|clear H0; intros ? H0]).
  unfold checked at 1. apply wp_bind, wp_sys.
  destruct (kresp _ (SdBusSetFd _ _) <? 0) eqn:Ef.
  { apply (Hclean 0); [lia|]. destruct H0 as [H1 H2]. unfold holds, tally_of in *. simpl. rewrite Ef. lia. }
  match goal with |- wp _ _ ?s1 => assert (H3 : holds (n + live dbus) (k - 1) s1) end.
  { destruct H0 as [H1 H2]. unfold holds, tally_of in *. simpl. rewrite Ef. lia. }
  clear H0. do 7 (eapply checked_holds; [done|done|exact H3|apply (Hclean 1); lia|clear H3; intros ? H3]).
  apply wp_ret. by exists 1.
Qed.

Lemma or_errno_spec c next (Q : Z -> nstate -> Prop) s :
  (fst (kresp (n_trace s) c) < 0 -> Q (- snd (kresp (n_trace s) c)) (log c (kresp (n_trace s) c) s)) ->
  (0 <= fst (kresp (n_trace s) c) -> wp next Q (log c (kresp (n_trace s) c) s)) ->
  wp (or_errno c next) Q s.
Proof.
  intros H1 H2. unfold or_errno. apply wp_bind, wp_sys. destruct (kresp _ c) as [ret errno].
  destruct (Z.ltb_spec ret 0); [apply wp_ret|]; auto.
Qed.

Lemma set_server_sockopt_holds fd :
  frames (keeps (fun s => (tally_of ev_bus s, tally_of ev_conn s))) (set_server_sockopt fd).
Proof. unfold set_server_sockopt, or_errno. frames_tac. Qed.

(** A connection request is served or refused cleanly: the handler
    returns 0 or -1; on 0 either nothing was accepted or there is exactly one
    new bus and it owns the accepted descriptor; on -1 no bus remains.  An
    accepted descriptor that no bus owns is possible only on -1, when the bus
    could not be made before it took the descriptor over. *)
Theorem server_handler_accounting fd event s :
  wp (server_handler fd event) (fun r s' =>
    (r = 0 \/ r = -1) /\ exists b c, holds (tally_of ev_bus s + b) (tally_of ev_conn s + c) s' /\
      0 <= b <= 1 /\ 0 <= c <= 1 /\ (r = 0 -> c = 0) /\ (r = -1 -> b = 0)) s.
Proof.
  unfold server_handler. apply wp_bind, wp_sys. destruct (kresp _ (Accept4 fd)) as [connfd errno].
  destruct (connfd <? 0) eqn:Ec.
  - destruct (_ || _); apply wp_ret; (split; [lia|]); exists 0, 0;
      (split; [unfold holds, tally_of; simpl; rewrite Ec; lia|lia]).
  - apply wp_bind. eapply wp_mono.
    { apply (init_dbus_server_spec _ _ _ _ (tally_of ev_bus s) (tally_of ev_conn s + 1)).
      unfold holds, tally_of. simpl. rewrite Ec. lia. }
    intros d s1 (c & H1 & Hc & Hd). destruct (Z.eqb_spec d 0) as [->|Hne].
    + apply wp_ret. split; [lia|]. exists 0, (1 - c). split; [|lia].
      destruct H1 as [H1 H2]. split; rewrite ?H1, ?H2; unfold live; simpl; lia.
    + apply wp_bind. eapply wp_mono; [eapply frames_wp; [apply set_server_sockopt_holds|]|].
      { instantiate (1 := fun _ _ => True). unfold set_server_sockopt.
        repeat (apply or_errno_spec; intros _; [done|]). by apply wp_ret. }
      intros r s2 [_ [Hb Hk]%pair_equal_spec]. apply wp_ret. split; [lia|]. exists 1, 0.
      destruct H1 as [H1 H2]. unfold live in H1. rewrite (proj2 (Z.eqb_neq d 0)) in H1 by done.
      unfold holds. rewrite Hb, Hk. lia.
Qed.

End connections.

(** *** The listening socket *)

(** Sockets opened, set listening and closed. *)
Definition ev_opened (e : event) : Z :=
  match e with Event SocketInet r => if fst r <? 0 then 0 else 1 | _ => 0 end.
Definition ev_listening (e : event) : Z :=
  match e with Event (Listen _) r => if fst r <? 0 then 0 else 1 | _ => 0 end.
Definition ev_closed (e : event) : Z :=
  match e with Event (Close _) _ => 1 | _ => 0 end.

(** A failing socket call sets [errno]. *)
Class SetsErrno (K : Kernel) := {
  errno_socket : forall tr, fst (kresp tr SocketInet) < 0 -> 0 < snd (kresp tr SocketInet);
  errno_setsockopt : forall tr fd l o v, fst (kresp tr (Setsockopt fd l o v)) < 0 ->
    0 < snd (kresp tr (Setsockopt fd l o v));
  errno_bind : forall tr fd p, fst (kresp tr (BindInet fd p)) < 0 -> 0 < snd (kresp tr (BindInet fd p));
  errno_listen : forall tr fd, fst (kresp tr (Listen fd)) < 0 -> 0 < snd (kresp tr (Listen fd));
}.

Section listening.
Context {K : Kernel} {SE : SetsErrno K}.

(** Opened, listening, closed sockets and the installed operations. *)
Definition socks (s : nstate) : Z * Z * Z * option trpc_server_ops_t :=
  (tally_of ev_opened s, tally_of ev_listening s, tally_of ev_closed s, n_server_ops s).

Definition socks_plus (o l c : Z) (s s' : nstate) : Prop :=
  socks s' = (tally_of ev_opened s + o, tally_of ev_listening s + l, tally_of ev_closed s + c, n_server_ops s).

Ltac tuple_lia := repeat (apply pair_equal_spec; split); done || lia.

Lemma create_server_socket_spec port s :
  wp (create_server_socket port) (fun r s' => exists o l, socks_plus o l 0 s s' /\
    if r <? 0 then 0 <= o <= 1 /\ l = 0 else o = 1 /\ l = 1) s.
Proof.
  unfold create_server_socket. apply wp_bind, wp_sys. pose proof (errno_socket (n_trace s)) as He.
  destruct (kresp _ SocketInet) as [fd errno]. simpl in He. destruct (Z.ltb_spec fd 0) as [Hfd|Hfd].
  { apply wp_ret. specialize (He Hfd). exists 0, 0.
    rewrite (proj2 (Z.ltb_lt (- errno) 0)) by lia. split; [|lia].
    unfold socks_plus, socks, tally_of. simpl. rewrite (proj2 (Z.ltb_lt fd 0)) by done. tuple_lia. }
  assert (Ho : ev_opened (Event SocketInet (fd, errno)) = 1).
  { simpl. by rewrite (proj2 (Z.ltb_ge fd 0)) by done. }
  apply or_errno_spec.
  { intros H. pose proof (errno_setsockopt _ _ _ _ _ H). exists 1, 0.
    rewrite (proj2 (Z.ltb_lt (- _) 0)) by lia. split; [|lia].
    unfold socks_plus, socks, tally_of. simpl in *. rewrite Ho. tuple_lia. }
  intros _. apply or_errno_spec.
  { intros H. pose proof (errno_bind _ _ _ H). exists 1, 0.
    rewrite (proj2 (Z.ltb_lt (- _) 0)) by lia. split; [|lia].
    unfold socks_plus, socks, tally_of. simpl in *. rewrite Ho. tuple_lia. }
  intros _. apply or_errno_spec.
  { intros H. pose proof (errno_listen _ _ H). exists 1, 0.
    rewrite (proj2 (Z.ltb_lt (- _) 0)) by lia. split; [|lia].
    unfold socks_plus, socks, tally_of. simpl in *. rewrite Ho, (proj2 (Z.ltb_lt _ _) H). tuple_lia. }
  intros H. apply wp_ret. exists 1, 1. rewrite (proj2 (Z.ltb_ge fd 0)) by done. split; [|done].
  unfold socks_plus, socks, tally_of. simpl in *. rewrite Ho, (proj2 (Z.ltb_ge _ _) H). tuple_lia.
Qed.

(** [trpc_server_create] either returns a listening socket, open, with its
    event source stored and the operations installed, or it returns -1 with no
    event source.  In the second case it closes the socket if the socket got as
    far as listening; a socket that was opened but could not be configured,
    bound or set listening stays open. *)
Theorem trpc_server_create_sockets port event ops s :
  wp (trpc_server_create port event ops) (fun '(r, source) s' => exists o l,
    tally_of ev_opened s' = tally_of ev_opened s + o /\
    tally_of ev_listening s' = tally_of ev_listening s + l /\ 0 <= l <= o /\ o <= 1 /\
    tally_of ev_closed s' = tally_of ev_closed s + (if r <? 0 then l else 0) /\
    n_server_ops s' = (if l =? 1 then ops else n_server_ops s) /\
    if r <? 0 then r = -1 /\ source = None else l = 1 /\ source <> None) s.
Proof.
  unfold trpc_server_create. apply wp_bind. eapply wp_mono; [apply create_server_socket_spec|].
  intros fd s1 (o & l & H1 & Hfd). unfold socks_plus, socks in H1.
  apply pair_equal_spec in H1 as [[[Ho Hl]%pair_equal_spec Hc]%pair_equal_spec Hops].
  destruct (fd <? 0) eqn:Ef.
  - destruct Hfd as [Hfd ->]. apply wp_bind, wp_sys, wp_ret. exists o, 0.
    unfold tally_of in *. simpl. split_and!; done || lia.
  - destruct Hfd as [-> ->]. do 2 wp_step. apply wp_bind, wp_sys.
    destruct (kresp _ (SdEventAddIo _ _)) as [ret source]. destruct (ret <? 0).
    + do 2 (apply wp_bind, wp_sys). apply wp_ret. exists 1, 1. unfold tally_of in *. simpl.
      split_and!; done || lia.
    + apply wp_ret. exists 1, 1. rewrite Ef. unfold tally_of in *. simpl. split_and!; done || lia.
Qed.

End listening.

(** ** Witnesses *)

Definition all_ops : trpc_server_ops_t := mk_trpc_server_ops true true true true.
Definition zero_sync : SyncJunk := {| sync_junk := fun _ => (0, ts_zero) |}.

Lemma server_methods_answer_witness :
  wp (trpc_method_schedinfo (K := default_kernel) 3)
    (fun r s' => answered (K := default_kernel) TRPC_METHOD_SCHEDINFO 3 r
       (nstate_init <| n_server_ops := Some all_ops |>) s')
    (nstate_init <| n_server_ops := Some all_ops |>).
Proof.
  apply (server_methods_answer (K := default_kernel) (YJ := zero_sync)
           (mk_vtable_entry TRPC_METHOD_SCHEDINFO "s" "ay" (trpc_method_schedinfo (K := default_kernel)))).
  right. left.
Defined.

(** Another process has the port. *)
Definition busy_port : Kernel := {| kresp := fun _ _ c =>
  match c in call A return A with
  | BindInet _ _ => (-1, 98)
  | c => default_reply c
  end |}.

#[export] Instance busy_port_errno : SetsErrno busy_port.
Proof. split; simpl; lia. Qed.

(** The socket is lost. *)
Example busy_port_leak :
  wp (trpc_server_create (K := busy_port) 7777 1 (Some all_ops)) (fun '(r, source) s' =>
    r = -1 /\ tally_of ev_opened s' = 1 /\ tally_of ev_closed s' = 0) nstate_init.
Proof. vm_compute. auto. Qed.

Lemma trpc_server_create_sockets_witness :
  wp (trpc_server_create (K := busy_port) 7777 1 (Some all_ops)) (fun '(r, source) s' =>
    tally_of ev_closed s' <= tally_of ev_listening s' <= tally_of ev_opened s') nstate_init.
Proof.
  eapply wp_mono.
  - apply (trpc_server_create_sockets (K := busy_port) (SE := busy_port_errno) 7777 1 (Some all_ops)
             nstate_init).
  - intros [r source] s' (o & l & -> & -> & Hl & _ & -> & _). change (tally_of _ nstate_init) with 0.
    destruct (r <? 0); lia.
Defined.
