(* ===== verification/Trpc.v ===== *)
(** * Channel to the orchestrator (timpani-n/src/trpc.c)

    Connection set-up with retries, fetching the schedule, synchronized
    start and deadline-miss reports.  [deserialize_sched_info] is in
    SchedInfo. *)

From S2P Require Import Prelude Time Types Kernel Serialize Hyperperiod SchedInfo PeerDbus.

Section trpc.
Context {HO : Host} {K : Kernel}.

(** [snprintf(serv_addr, 128, "tcp:host=%s,port=%u", addr, port)] *)
Definition serv_addr (addr : list byte) (port : Z) : list byte :=
  take 127 (str "tcp:host=" ++ cstr addr ++ str ",port=" ++ fmt_d (u32 port)).

(** [dbus_ret] and [event_ret] are [&ctx->comm.dbus] and [&ctx->comm.event];
    libsystemd writes the handle only on success. *)
Definition init_trpc_connection (addr : list byte) (port : Z) : N Z :=
  '(ret, event) ← sys SdEventDefault;
  if ret <? 0 then mret ret
  else
    upd_comm (fun c => c <| cm_event := event |>) ;;
    '(ret, dbus) ← trpc_client_create (Some (serv_addr addr port)) event;
    match dbus with
    | Some dbus => upd_comm (fun c => c <| cm_dbus := dbus |>)
    | None => mret tt
    end ;;
    if ret <? 0 then
      sys (SdEventUnref event) ;;
      upd_comm (fun c => c <| cm_event := 0 |>) ;;
      mret ret
    else mret ret.

Definition cleanup_trpc_connection : N unit :=
  ctx ← get_ctx;
  (if negb (cm_dbus (cx_comm ctx) =? 0) then
     sys (SdBusFlushCloseUnref (cm_dbus (cx_comm ctx))) ;;
     upd_comm (fun c => c <| cm_dbus := 0 |>)
   else mret tt) ;;
  (if negb (cm_event (cx_comm ctx) =? 0) then
     sys (SdEventUnref (cm_event (cx_comm ctx))) ;;
     upd_comm (fun c => c <| cm_event := 0 |>)
   else mret tt).

(** [free_serial_buf(sbuf)]: releases the bytes and the buffer object. *)
Definition free_serial_buf (data sbuf : Z) : N unit :=
  sys (Free data) ;; sys (Free sbuf).

Definition get_sched_info : N Z :=
  ctx ← get_ctx;
  '(ret, buf) ← trpc_client_schedinfo (cm_dbus (cx_comm ctx)) (cf_node_id (cx_config ctx));
  if ret <? 0 then mret ret
  else
    match buf with
    | None => mret (-1)
    | Some (data, bytes) =>
        if blen bytes =? 0 then mret (-1)
        else
          sbuf ← alloc sizeof_serial_buf_t;
          match sbuf with
          | None => mret (-1)
          | Some sbuf =>
              '(ret, _) ← deserialize_sched_info (received bytes);
              free_serial_buf data sbuf ;;
              mret (tt_code ret)
          end
    end.

(** One attempt: [true] when the loop returns [TT_SUCCESS]. *)
Definition try_connect : N bool :=
  ctx ← get_ctx;
  ret ← init_trpc_connection (cf_addr (cx_config ctx)) (cf_port (cx_config ctx));
  if ret =? 0 then
    if cf_enable_apex (cx_config ctx) then mret true
    else
      ret ← get_sched_info;
      if ret =? 0 then mret true
      else cleanup_trpc_connection ;; mret false
  else mret false.

(** The loop with [n] attempts left. *)
Fixpoint init_trpc_loop (n : nat) : N tt_error_t :=
  match n with
  | O => mret TT_ERROR_NETWORK
  | S n =>
      ok ← try_connect;
      if ok : bool then mret TT_SUCCESS
      else
        _ ← sys (Usleep TT_RETRY_INTERVAL_US);
        init_trpc_loop n
  end.

Definition init_trpc : N tt_error_t := init_trpc_loop TT_MAX_CONNECTION_RETRIES.

(** The polling loop, for at most [fuel] polls; [None] while it has not
    returned.  [ts_ptr] is [&ctx->runtime.starttimer_ts]; [ack] is the value
    of the local variable. *)
Fixpoint sync_timer_internal (fuel : nat) (dbus : Z) (node_id : list byte) (ack : Z)
    : N (option Z) :=
  match fuel with
  | O => mret None
  | S fuel =>
      ctx ← get_ctx;
      '(ret, ack, ts) ← trpc_client_sync dbus node_id ack (rt_starttimer_ts (cx_runtime ctx));
      upd_rt (fun r => r <| rt_starttimer_ts := ts |>) ;;
      if ret <? 0 then mret (Some ret)
      else if negb (ack =? 0) then mret (Some 0)
      else
        _ ← sys (Usleep TT_POLLING_INTERVAL_US);
        sync_timer_internal fuel dbus node_id ack
  end.

Definition sync_timer_with_server (fuel : nat) : N (option tt_error_t) :=
  ctx ← get_ctx;
  if negb (cf_enable_sync (cx_config ctx)) then mret (Some TT_SUCCESS)
  else
    r ← sync_timer_internal fuel (cm_dbus (cx_comm ctx)) (cf_node_id (cx_config ctx)) 0;
    match r with
    | None => mret None
    | Some r => if r <? 0 then mret (Some TT_ERROR_NETWORK) else mret (Some TT_SUCCESS)
    end.

Definition report_deadline_miss (taskname : list byte) : N tt_error_t :=
  ctx ← get_ctx;
  result ← trpc_client_dmiss (cm_dbus (cx_comm ctx)) (cf_node_id (cx_config ctx)) taskname;
  mret (if result <? 0 then TT_ERROR_NETWORK else TT_SUCCESS).

End trpc.

(** ** What the channel holds *)

(** References to the event loop taken minus given back. *)
Definition ev_sd (e : event) : Z :=
  match e with
  | Event SdEventDefault r => if fst r <? 0 then 0 else live (snd r)
  | Event (SdEventUnref h) _ => - live h
  | _ => 0
  end.

(** Waits between connection attempts. *)
Definition ev_retry (e : event) : Z :=
  match e with
  | Event (Usleep us) _ => if us =? TT_RETRY_INTERVAL_US then 1 else 0
  | _ => 0
  end.

Definition handles (s : nstate) : Z * Z * Z * comm * config :=
  (tally_of ev_bus s, tally_of ev_sd s, tally_of ev_retry s, cx_comm (n_ctx s),
   cx_config (n_ctx s)).

Section frames_lemmas.
Context {HO : Host} {K : Kernel}.

Lemma alloc_handles n : frames (keeps handles) (alloc n).
Proof. unfold alloc. frames_tac. Qed.
#[local] Hint Resolve alloc_handles : frames.

Lemma trpc_client_schedinfo_handles dbus name :
  frames (keeps handles) (trpc_client_schedinfo dbus name).
Proof. unfold trpc_client_schedinfo, call_method, release_reply. frames_tac. Qed.
#[local] Hint Resolve trpc_client_schedinfo_handles : frames.

Lemma destroy_task_info_list_handles tasks :
  frames (keeps handles) (destroy_task_info_list tasks).
Proof. induction tasks as [|[a t] tasks IH]; simpl; frames_tac. Qed.
#[local] Hint Resolve destroy_task_info_list_handles : frames.

Lemma drop_tasks_handles : frames (keeps handles) drop_tasks.
Proof. unfold drop_tasks, get_sinfo, upd_sinfo, upd_rt, upd_ctx. frames_tac. Qed.
#[local] Hint Resolve drop_tasks_handles : frames.

Lemma deserialize_tasks_handles i b : frames (keeps handles) (deserialize_tasks i b).
Proof.
  revert b. induction i as [|i IH]; intros b; simpl; unfold upd_sinfo, upd_rt, upd_ctx; frames_tac.
Qed.
#[local] Hint Resolve deserialize_tasks_handles : frames.

Lemma deserialize_sched_info_handles b : frames (keeps handles) (deserialize_sched_info b).
Proof.
  unfold deserialize_sched_info, get_sinfo, init_hyperperiod, upd_hp, upd_sinfo, upd_rt, upd_ctx.
  frames_tac.
Qed.
#[local] Hint Resolve deserialize_sched_info_handles : frames.

Lemma get_sched_info_handles : frames (keeps handles) get_sched_info.
Proof. unfold get_sched_info, get_ctx, free_serial_buf. frames_tac. Qed.

End frames_lemmas.

(** ** Connection attempts *)

Section connect.
Context {HO : Host} {K : Kernel}.

Abbreviation dbus_of s := (cm_dbus (cx_comm (n_ctx s))).
Abbreviation event_of s := (cm_event (cx_comm (n_ctx s))).

(** The live library objects are those the context points to: [b] and [e]
    were live besides. *)
Definition balanced (b e : Z) (s : nstate) : Prop :=
  tally_of ev_bus s = b + live (dbus_of s) /\ tally_of ev_sd s = e + live (event_of s).

Definition disconnected (s : nstate) : Prop := dbus_of s = 0 /\ event_of s = 0.

Lemma handles_eq s s' : keeps handles s s' ->
  tally_of ev_bus s' = tally_of ev_bus s /\ tally_of ev_sd s' = tally_of ev_sd s /\
  tally_of ev_retry s' = tally_of ev_retry s /\ cx_comm (n_ctx s') = cx_comm (n_ctx s) /\
  cx_config (n_ctx s') = cx_config (n_ctx s).
Proof. unfold keeps, handles. intros [= ]. auto. Qed.

(** Creating the client touches neither the event loop nor the context. *)
Definition rest (s : nstate) : Z * Z * context := (tally_of ev_sd s, tally_of ev_retry s, n_ctx s).

Lemma trpc_client_create_rest addr event : frames (keeps rest) (trpc_client_create addr event).
Proof. unfold trpc_client_create, init_dbus_client, checked. frames_tac. Qed.

Lemma init_trpc_connection_spec addr port b e s :
  disconnected s -> balanced b e s ->
  wp (init_trpc_connection addr port) (fun ret s' =>
    balanced b e s' /\ tally_of ev_retry s' = tally_of ev_retry s /\
    cx_config (n_ctx s') = cx_config (n_ctx s) /\
    if ret =? 0 then dbus_of s' <> 0 else disconnected s') s.
Proof.
  unfold disconnected, balanced. intros [Hd He] [Hb Hs]. unfold init_trpc_connection.
  apply wp_bind, wp_sys. destruct (kresp _ SdEventDefault) as [ret event] eqn:Ed.
  destruct (Z.ltb_spec ret 0) as [Hlt|Hge].
  { apply wp_ret. rewrite (proj2 (Z.eqb_neq ret 0)) by lia. unfold tally_of in *. simpl.
    rewrite (proj2 (Z.ltb_lt _ _)) by lia. split_and!; done || lia. }
  apply wp_bind. unfold upd_comm, upd_ctx. wp_step. apply wp_bind.
  eapply wp_mono; [eapply frames_wp; [apply trpc_client_create_rest|apply trpc_client_create_spec]|].
  intros [ret' [d|]] s1 [[Hb1 Hr] Hrest]; injection Hrest as Hs1 Hr1 Hc1;
    unfold tally_of in *; simpl in *; rewrite (proj2 (Z.ltb_ge _ _)) in Hs1 by lia.
  - destruct Hr as [-> Hd0]. apply wp_bind. wp_step. simpl. apply wp_ret. simpl.
    rewrite Hc1. simpl. rewrite He in Hs. rewrite Hd in Hb. unfold live in Hb, Hs. simpl in *.
    split_and!; try done; lia.
  - subst ret'. apply wp_bind, wp_ret. simpl. apply wp_bind, wp_sys, wp_bind. wp_step.
    apply wp_ret. unfold tally_of. simpl. rewrite Hc1. simpl. rewrite Hd, He in *.
    unfold live in *. simpl in *. split_and!; try done; lia.
Qed.

Lemma cleanup_trpc_connection_spec b e s :
  balanced b e s ->
  wp cleanup_trpc_connection (fun _ s' =>
    balanced b e s' /\ tally_of ev_retry s' = tally_of ev_retry s /\
    cx_config (n_ctx s') = cx_config (n_ctx s) /\ disconnected s') s.
Proof.
  unfold balanced, disconnected, cleanup_trpc_connection, get_ctx, upd_comm, upd_ctx.
  intros [Hb Hs]. do 2 wp_step. unfold tally_of, live in *.
  destruct (Z.eqb_spec (dbus_of s) 0) as [Ed|Ed]; simpl; apply wp_bind;
    [apply wp_ret|apply wp_bind, wp_sys; wp_step];
    (destruct (Z.eqb_spec (event_of s) 0) as [Ee|Ee]; simpl;
      [apply wp_ret|apply wp_bind, wp_sys; wp_step]); simpl; unfold live;
    rewrite ?Ed, ?Ee, ?(proj2 (Z.eqb_neq _ _) Ee); simpl;
    split_and!; try done; simpl; lia.
Qed.

Lemma try_connect_spec b e s :
  disconnected s -> balanced b e s ->
  wlp try_connect (fun ok s' =>
    balanced b e s' /\ tally_of ev_retry s' = tally_of ev_retry s /\
    cx_config (n_ctx s') = cx_config (n_ctx s) /\
    if ok : bool then dbus_of s' <> 0 else disconnected s') s.
Proof.
  intros Hd Hb. unfold try_connect, get_ctx. apply wlp_bind, wp_wlp, wp_gets.
  apply wlp_bind, wp_wlp. eapply wp_mono; [by apply init_trpc_connection_spec|].
  intros ret s1 (Hb1 & Hr1 & Hc1 & H1). destruct (ret =? 0); [|by apply wlp_ret].
  destruct (cf_enable_apex _); [by apply wlp_ret|].
  apply wlp_bind. eapply wlp_mono; [apply get_sched_info_handles|].
  intros ret' s2 (E1 & E2 & E3 & E4 & E5)%handles_eq.
  assert (balanced b e s2) as Hb2 by (unfold balanced in *; rewrite E1, E2, E4; done).
  destruct (ret' =? 0).
  - apply wlp_ret. rewrite E3, E4, E5. done.
  - apply wlp_bind, wp_wlp. eapply wp_mono; [by apply cleanup_trpc_connection_spec|].
    intros [] s3 (Hb3 & Hr3 & Hc3 & Hd3). apply wlp_ret. split_and!; [done|lia|congruence|done..].
Qed.

Lemma init_trpc_loop_spec n b e s :
  disconnected s -> balanced b e s ->
  wlp (init_trpc_loop n) (fun r s' =>
    balanced b e s' /\
    match r with
    | TT_SUCCESS => dbus_of s' <> 0 /\
        tally_of ev_retry s <= tally_of ev_retry s' < tally_of ev_retry s + Z.of_nat n
    | TT_ERROR_NETWORK => disconnected s' /\
        tally_of ev_retry s' = tally_of ev_retry s + Z.of_nat n
    | _ => False
    end) s.
Proof.
  revert s. induction n as [|n IH]; intros s Hd Hb; simpl.
  { apply wlp_ret. split_and!; try done. lia. }
  apply wlp_bind. eapply wlp_mono; [by apply try_connect_spec|].
  intros [] s1 (Hb1 & Hr1 & _ & H1).
  { apply wlp_ret. split_and!; done || lia. }
  apply wlp_bind, wp_wlp, wp_sys. eapply wlp_mono; [apply IH; done|].
  intros r s2 (Hb2 & H2). split; [done|].
  unfold tally_of in *. simpl in H2. destruct r; try done; intuition lia.
Qed.

(** [init_trpc] makes at most 300 attempts and keeps the channel's
    resources exact whatever the server, libsystemd and the allocator do: it
    succeeds after fewer than 300 waits with a live bus in the context, or
    reports [TT_ERROR_NETWORK] after exactly 300 one-second waits with both
    handles null; in either case the buses and event-loop references made and
    not released are precisely the ones the context holds. *)
Theorem init_trpc_attempts s :
  disconnected s ->
  wlp init_trpc (fun r s' =>
    tally_of ev_bus s' - tally_of ev_bus s = live (dbus_of s') /\
    tally_of ev_sd s' - tally_of ev_sd s = live (event_of s') /\
    (r = TT_SUCCESS /\ dbus_of s' <> 0 /\ tally_of ev_retry s' - tally_of ev_retry s < 300 \/
     r = TT_ERROR_NETWORK /\ dbus_of s' = 0 /\ event_of s' = 0 /\
       tally_of ev_retry s' - tally_of ev_retry s = 300)) s.
Proof.
  intros Hd. unfold init_trpc. eapply wlp_mono.
  - apply (init_trpc_loop_spec _ (tally_of ev_bus s) (tally_of ev_sd s)); [done|].
    destruct Hd as [E1 E2]. unfold balanced. rewrite E1, E2. unfold live. simpl. lia.
  - unfold balanced, disconnected, TT_MAX_CONNECTION_RETRIES.
    intros r s' [[Hb Hs] H]. split_and!; [lia..|]. destruct r; try done; [left|right]; intuition lia.
Qed.

End connect.

(** ** Reaching a server that comes up

    The orchestrator's end as the node sees it: libsystemd's local
    operations succeed; connecting fails until [k] waits have passed and
    succeeds from then on; the reply to the request [SchedInfo] of node [name]
    carries [bytes]. *)

(** A request of node [name] to the orchestrator. *)
Definition request (d : Z) (member name : list byte) : call (Z * Z) :=
  SdBusCallMethod d TRPC_SERVER_NAME TRPC_OBJECT_PATH TRPC_OBJECT_INTERFACE member [name].

Class ServerUpAfter (K : Kernel) (k : Z) (name bytes : list byte) := {
  sv_event : forall tr, 0 <= fst (kresp tr SdEventDefault);
  sv_new : forall tr, 0 <= fst (kresp tr SdBusNew) /\ snd (kresp tr SdBusNew) <> 0;
  sv_desc : forall tr d x, 0 <= kresp tr (SdBusSetDescription d x);
  sv_trusted : forall tr d x, 0 <= kresp tr (SdBusSetTrusted d x);
  sv_address : forall tr d x, 0 <= kresp tr (SdBusSetAddress d x);
  sv_attach : forall tr d x, 0 <= kresp tr (SdBusAttachEvent d x);
  sv_start_down : forall tr d, tally ev_retry tr < k -> kresp tr (SdBusStart d) < 0;
  sv_start_up : forall tr d, k <= tally ev_retry tr -> 0 <= kresp tr (SdBusStart d);
  sv_call : forall tr d, 0 <= fst (kresp tr (request d TRPC_METHOD_SCHEDINFO name));
  sv_array : forall tr d x r,
    let tr := Event (request d TRPC_METHOD_SCHEDINFO name) x :: tr in
    0 <= fst (kresp tr (SdBusMessageReadArray r)) /\ snd (kresp tr (SdBusMessageReadArray r)) = bytes;
}.

Section reach.
Context {HO : Host} {K : Kernel} {k : Z} {name bytes : list byte} `{!ServerUpAfter K k name bytes}.

Lemma checked_ok {A} c (cleanup next : N A) (Q : A -> nstate -> Prop) s :
  0 <= kresp (n_trace s) c -> wp next Q (log c (kresp (n_trace s) c) s) ->
  wp (checked c cleanup next) Q s.
Proof.
  intros H Hn. unfold checked. apply wp_bind, wp_sys. by rewrite (proj2 (Z.ltb_ge _ _) H).
Qed.

Lemma checked_fail {A} c (cleanup next : N A) (Q : A -> nstate -> Prop) s :
  kresp (n_trace s) c < 0 -> wp cleanup Q (log c (kresp (n_trace s) c) s) ->
  wp (checked c cleanup next) Q s.
Proof.
  intros H Hn. unfold checked. apply wp_bind, wp_sys. by rewrite (proj2 (Z.ltb_lt _ _) H).
Qed.

(** Whether the client gets its bus depends on the waits so far only. *)
Lemma init_dbus_client_reach event desc addr s :
  wp (init_dbus_client event desc (Some addr))
    (fun d _ => if tally_of ev_retry s <? k then d = 0 else d <> 0) s.
Proof.
  unfold init_dbus_client. apply wp_bind, wp_sys.
  destruct (sv_new (n_trace s)) as [Hr Hd]. destruct (kresp (n_trace s) SdBusNew) as [ret dbus].
  simpl in Hr, Hd. rewrite (proj2 (Z.ltb_ge _ _) Hr).
  apply checked_ok; [apply sv_desc|]. apply checked_ok; [apply sv_trusted|].
  apply checked_ok; [apply sv_address|]. unfold tally_of.
  destruct (Z.ltb_spec (tally ev_retry (n_trace s)) k).
  - apply checked_fail; [by apply sv_start_down|].
    rewrite (proj2 (Z.eqb_neq _ _) Hd). simpl. by apply wp_bind, wp_sys, wp_ret.
  - apply checked_ok; [by apply sv_start_up|]. apply checked_ok; [apply sv_attach|].
    by apply wp_ret.
Qed.

Lemma init_trpc_connection_reach addr port s :
  wp (init_trpc_connection addr port)
    (fun ret _ => if tally_of ev_retry s <? k then ret < 0 else ret = 0) s.
Proof.
  unfold init_trpc_connection. apply wp_bind, wp_sys. pose proof (sv_event (n_trace s)) as He.
  destruct (kresp (n_trace s) SdEventDefault) as [ret event]. simpl in He.
  rewrite (proj2 (Z.ltb_ge _ _) He). apply wp_bind. unfold upd_comm, upd_ctx. wp_step.
  apply wp_bind. unfold trpc_client_create. apply wp_bind.
  eapply wp_mono; [apply init_dbus_client_reach|]. intros d s1 Hd.
  change (tally_of ev_retry (_ <| n_ctx ::= _ |>)) with (tally_of ev_retry s) in Hd.
  destruct (Z.ltb_spec (tally_of ev_retry s) k).
  - subst d. simpl. apply wp_ret, wp_bind, wp_ret. simpl.
    apply wp_bind, wp_sys, wp_bind, wp_modify, wp_ret. lia.
  - rewrite (proj2 (Z.eqb_neq _ _) Hd). apply wp_ret, wp_bind, wp_modify. simpl. by apply wp_ret.
Qed.

Abbreviation runtime_of s := (cx_runtime (n_ctx s)).
Abbreviation node_name_of s := (cstr (cf_node_id (cx_config (n_ctx s)))).

Lemma init_trpc_connection_runtime addr port :
  frames (keeps (fun s => (runtime_of s, cx_config (n_ctx s)))) (init_trpc_connection addr port).
Proof.
  unfold init_trpc_connection, trpc_client_create, init_dbus_client, checked, upd_comm, upd_ctx.
  frames_tac.
Qed.

(** The reply reaches the deserializer as it was sent. *)
Lemma trpc_client_schedinfo_reach `{!MallocOk K} dbus nm s :
  cstr nm = name ->
  wp (trpc_client_schedinfo dbus nm) (fun '(ret, buf) s' =>
    0 <= ret /\ (exists p, buf = Some (p, bytes)) /\ n_ctx s' = n_ctx s) s.
Proof.
  intros En. unfold trpc_client_schedinfo, call_method, release_reply. rewrite En. fold (request dbus TRPC_METHOD_SCHEDINFO name).
  apply wp_bind, wp_sys. pose proof (sv_call (n_trace s) dbus) as Hc. set (x := kresp (n_trace s) (request _ _ _)) in *.
  destruct x as [r rep] eqn:Ex. simpl in Hc. rewrite (proj2 (Z.ltb_ge _ _) Hc). apply wp_bind, wp_sys.
  destruct (sv_array (n_trace s) dbus (r, rep) rep) as [Ha Hb]. cbn [n_trace log upd].
  destruct (kresp (_ :: n_trace s) (SdBusMessageReadArray rep)) as [r' bs].
  simpl in Ha, Hb. subst bs. rewrite (proj2 (Z.ltb_ge _ _) Ha).
  unfold alloc. do 2 apply wp_bind. apply wp_sys. rewrite malloc_ok.
  wp_run; try apply wp_sys; wp_run; try apply wp_sys; wp_run; eauto.
Qed.

(** What unpacking the reply establishes. *)
Definition unpacks (P : nstate -> Prop) : Prop := forall s,
  length (si_workload_id (sinfo_of s)) = 64%nat ->
  wp (deserialize_sched_info (received bytes)) (fun '(r, _) s' => r = TT_SUCCESS /\ P s') s.

Lemma try_connect_reach `{!MallocOk K} (P : nstate -> Prop) s :
  bytes <> [] -> (forall s s', n_ctx s' = n_ctx s -> P s -> P s') -> unpacks P ->
  cf_enable_apex (cx_config (n_ctx s)) = false -> node_name_of s = name ->
  length (si_workload_id (sinfo_of s)) = 64%nat ->
  wp try_connect (fun ok s' =>
    if tally_of ev_retry s <? k then ok = false /\ runtime_of s' = runtime_of s
    else ok = true /\ P s') s.
Proof.
  intros Hne HP Hun Hapex Hname Hlen. unfold try_connect, get_ctx. do 2 wp_step. apply wp_bind.
  eapply wp_mono; [eapply frames_wp; [apply init_trpc_connection_runtime|
                                      apply init_trpc_connection_reach]|].
  intros ret s1 [Hret [Hrt Hcf]%pair_equal_spec]. rewrite Hapex.
  destruct (tally_of ev_retry s <? k).
  { rewrite (proj2 (Z.eqb_neq ret 0)) by lia. by apply wp_ret. }
  subst ret. simpl. unfold get_sched_info, get_ctx. apply wp_bind, wp_bind. wp_step. apply wp_bind.
  eapply wp_mono; [apply trpc_client_schedinfo_reach; by rewrite Hcf|]. intros [ret buf] s2 (Hr & [p ->] & Hc).
  rewrite (proj2 (Z.ltb_ge _ _) Hr).
  rewrite (proj2 (Z.eqb_neq (blen bytes) 0)) by (destruct bytes; [done|simpl; lia]).
  unfold alloc. do 2 apply wp_bind. apply wp_sys. rewrite malloc_ok. wp_run.
  eapply wp_mono; [apply Hun|].
  { unfold sinfo_of in *. simpl. rewrite Hc, Hrt. done. }
  intros [r b'] s3 [-> H3]. unfold free_serial_buf. do 2 apply wp_bind. apply wp_sys, wp_sys, wp_ret.
  simpl. apply wp_ret. split; [done|]. eapply HP; [|exact H3]; reflexivity.
Qed.

Lemma init_trpc_loop_reach `{!MallocOk K} (P : nstate -> Prop) n s :
  bytes <> [] -> (forall s s', n_ctx s' = n_ctx s -> P s -> P s') -> unpacks P ->
  cf_enable_apex (cx_config (n_ctx s)) = false -> node_name_of s = name ->
  length (si_workload_id (sinfo_of s)) = 64%nat -> disconnected s ->
  tally_of ev_retry s <= k < tally_of ev_retry s + Z.of_nat n ->
  wp (init_trpc_loop n) (fun r s' => r = TT_SUCCESS /\ P s' /\ tally_of ev_retry s' = k) s.
Proof.
  intros Hne HP Hun. revert s. induction n as [|n IH]; intros s Hapex Hname Hlen Hd Hk; [lia|].
  cbn [init_trpc_loop]. apply wp_bind.
  assert (Hb : balanced (tally_of ev_bus s) (tally_of ev_sd s) s).
  { destruct Hd as [E1 E2]. unfold balanced. rewrite E1, E2. unfold live. simpl. lia. }
  eapply wp_mono; [eapply wp_and; [by apply (try_connect_reach P)|by eapply try_connect_spec]|].
  intros ok s1 [H1 (_ & Hr & Hcf & Hok)].
  destruct (Z.ltb_spec (tally_of ev_retry s) k).
  - destruct H1 as [-> Hrt]. apply wp_bind, wp_sys. apply IH.
    + simpl. by rewrite Hcf.
    + simpl. by rewrite Hcf.
    + unfold sinfo_of in *. simpl. by rewrite Hrt.
    + done.
    + unfold tally_of in *. simpl. lia.
  - destruct H1 as [-> HPs]. apply wp_ret. split_and!; [done|done|lia].
Qed.

End reach.

Lemma serialized_nonempty {HO : Host} {AL : Allocator} wl hp nodes rs b :
  SerializeSchedInfo wl hp nodes = Ret (Some (rs, Some b)) -> Forall (fun r => r = 0) rs ->
  readable b <> [].
Proof.
  intros E Hrs. destruct (SerializeSchedInfo_wire wl hp nodes rs b E Hrs) as [_ Hr].
  rewrite Hr. intros H%(f_equal length). rewrite length_app, length_be_bytes in H. simpl in H. lia.
Qed.

(** Connecting and loading, with a server that comes up after [k] attempts. *)
Lemma init_trpc_loads (h1 h2 : Host) {AL : Allocator} {K : Kernel} `{!MallocOk K}
    wl hp nodes rs b k s :
  SerializeSchedInfo (HO := h1) wl hp nodes = Ret (Some (rs, Some b)) ->
  Forall (fun r => r = 0) rs ->
  let ts := concat (snd <$> nodes) in
  blen ts < 2 ^ 31 ->
  ServerUpAfter K k (cstr (cf_node_id (cx_config (n_ctx s)))) (readable b) ->
  cf_enable_apex (cx_config (n_ctx s)) = false ->
  length (si_workload_id (sinfo_of s)) = 64%nat -> disconnected s ->
  tally_of ev_retry s <= k < tally_of ev_retry s + 300 ->
  wp (init_trpc (HO := h2)) (fun r s' =>
    r = TT_SUCCESS /\
    (snd <$> si_tasks (sinfo_of s') = task_info_of <$> ts /\
     si_nr_tasks (sinfo_of s') = blen ts /\
     cstr (si_workload_id (sinfo_of s')) = substr0 wl 63 /\
     hp_hyperperiod_us (cx_hp (n_ctx s')) = u64 (default 0 hp)) /\
    tally_of ev_retry s' = k) s.
Proof.
  intros E Hrs ts Hts Hup Hapex Hlen Hd Hk. unfold init_trpc.
  apply (init_trpc_loop_reach (k := k) (name := cstr (cf_node_id (cx_config (n_ctx s)))) (bytes := readable b) (fun s' =>
     snd <$> si_tasks (sinfo_of s') = task_info_of <$> ts /\
     si_nr_tasks (sinfo_of s') = blen ts /\
     cstr (si_workload_id (sinfo_of s')) = substr0 wl 63 /\
     hp_hyperperiod_us (cx_hp (n_ctx s')) = u64 (default 0 hp))); try done.
  - exact (serialized_nonempty (HO := h1) wl hp nodes rs b E Hrs).
  - intros s1 s2 Hc H. unfold sinfo_of in *. by rewrite Hc.
  - intros s1 Hl. eapply wp_mono; [by apply (unpack_serialized h1 h2 wl hp nodes rs b s1)|].
    intros [r b'] s' (-> & _ & H). done.
Qed.

(** When the orchestrator answers the schedule it serialized and becomes
    reachable after [k] failed attempts, [k] below 300, the node's [init_trpc]
    succeeds after exactly [k] one-second waits and has loaded precisely that
    schedule: the tasks of every node in order, their count, the workload id
    and the hyperperiod. *)
Theorem init_trpc_loads_schedule (h1 h2 : Host) {AL : Allocator} {K : Kernel} `{!MallocOk K}
    wl hp nodes rs b k s :
  SerializeSchedInfo (HO := h1) wl hp nodes = Ret (Some (rs, Some b)) ->
  Forall (fun r => r = 0) rs ->
  let ts := concat (snd <$> nodes) in
  blen ts < 2 ^ 31 ->
  ServerUpAfter K k (cstr (cf_node_id (cx_config (n_ctx s)))) (readable b) ->
  cf_enable_apex (cx_config (n_ctx s)) = false ->
  length (si_workload_id (sinfo_of s)) = 64%nat -> disconnected s ->
  tally_of ev_retry s <= k < tally_of ev_retry s + 300 ->
  wp (init_trpc (HO := h2)) (fun r s' =>
    r = TT_SUCCESS /\
    (snd <$> si_tasks (sinfo_of s') = task_info_of <$> ts /\
     si_nr_tasks (sinfo_of s') = blen ts /\
     cstr (si_workload_id (sinfo_of s')) = substr0 wl 63 /\
     hp_hyperperiod_us (cx_hp (n_ctx s')) = u64 (default 0 hp)) /\
    tally_of ev_retry s' = k) s.
Proof. exact (init_trpc_loads h1 h2 wl hp nodes rs b k s). Qed.

(** ** Synchronized start *)

(** Replies to [Sync] read so far. *)
Definition ev_poll (e : event) : Z :=
  match e with Event (SdBusMessageReadBTT _) _ => 1 | _ => 0 end.
Definition ev_poll_wait (e : event) : Z :=
  match e with Event (Usleep us) _ => if us =? TT_POLLING_INTERVAL_US then 1 else 0 | _ => 0 end.

(** The server's successive answers to the [Sync] of node [name]: acknowledgement flag, seconds,
    nanoseconds. *)
Class SyncServer (K : Kernel) (name : list byte) (answer : Z -> Z * Z * Z) := {
  ss_call : forall tr d, 0 <= fst (kresp tr (request d TRPC_METHOD_SYNC name));
  ss_read : forall tr d x r, kresp (Event (request d TRPC_METHOD_SYNC name) x :: tr) (SdBusMessageReadBTT r)
                             = (0, answer (tally ev_poll tr));
}.

Section sync.
Context {K : Kernel} {name : list byte} {answer : Z -> Z * Z * Z} `{!SyncServer K name answer}.

Lemma trpc_client_sync_spec dbus nm ack ts s :
  cstr nm = name ->
  wp (trpc_client_sync dbus nm ack ts) (fun '(ret, ack', ts') s' =>
    let '(a, sec, nsec) := answer (tally_of ev_poll s) in
    ret = 0 /\ ack' = a /\ ts' = mk_timespec (i64 sec) (i64 nsec) /\
    tally_of ev_poll s' = tally_of ev_poll s + 1 /\
    tally_of ev_poll_wait s' = tally_of ev_poll_wait s /\ n_ctx s' = n_ctx s) s.
Proof.
  intros En. unfold trpc_client_sync, call_method, release_reply. rewrite En. fold (request dbus TRPC_METHOD_SYNC name).
  apply wp_bind, wp_sys. pose proof (ss_call (n_trace s) dbus) as Hc.
  destruct (kresp (n_trace s) (request dbus TRPC_METHOD_SYNC name)) as [r rep].
  simpl in Hc. rewrite (proj2 (Z.ltb_ge _ _) Hc). apply wp_bind, wp_sys. cbn [n_trace log upd]. rewrite ss_read.
  unfold tally_of. destruct (answer (tally ev_poll (n_trace s))) as [[a sec] nsec].
  simpl. do 2 apply wp_bind. apply wp_sys. destruct (rep =? 0); simpl.
  - apply wp_ret, wp_ret. simpl. split_and!; try done. lia.
  - apply wp_sys, wp_ret. simpl. split_and!; try done. lia.
Qed.

(** [n] refusals followed by an acknowledgement, from poll number [p]. *)
Definition acks_after (p : Z) (n : nat) : Prop :=
  (forall i, p <= i < p + Z.of_nat n -> fst (fst (answer i)) = 0) /\
  fst (fst (answer (p + Z.of_nat n))) <> 0.

Lemma sync_timer_internal_spec n fuel dbus nm ack s :
  cstr nm = name -> acks_after (tally_of ev_poll s) n -> (n < fuel)%nat ->
  wp (sync_timer_internal fuel dbus nm ack) (fun r s' =>
    let '(_, sec, nsec) := answer (tally_of ev_poll s + Z.of_nat n) in
    r = Some 0 /\ rt_starttimer_ts (cx_runtime (n_ctx s')) = mk_timespec (i64 sec) (i64 nsec) /\
    tally_of ev_poll_wait s' = tally_of ev_poll_wait s + Z.of_nat n) s.
Proof.
  intros En. revert n ack s. induction fuel as [|fuel IH]; intros n ack s [Hno Hyes] Hlt; [lia|].
  cbn [sync_timer_internal]. unfold get_ctx, upd_rt, upd_ctx. do 2 wp_step. apply wp_bind.
  eapply wp_mono; [by apply trpc_client_sync_spec|]. intros [[ret a'] ts'] s1 H1.
  destruct n as [|n].
  - rewrite Z.add_0_r in *. destruct (answer (tally_of ev_poll s)) as [[a sec] nsec].
    destruct H1 as (-> & -> & -> & Hp & Hw & Hc). simpl in Hyes.
    apply wp_bind. wp_step. rewrite (proj2 (Z.eqb_neq _ _) Hyes). apply wp_ret.
    split_and!; [done|done|unfold tally_of in *; simpl; lia].
  - specialize (Hno (tally_of ev_poll s) ltac:(lia)) as Ha.
    destruct (answer (tally_of ev_poll s)) as [[a sec] nsec]. simpl in Ha. subst a.
    destruct H1 as (-> & -> & -> & Hp & Hw & Hc). apply wp_bind. wp_step. apply wp_bind, wp_sys.
    eapply wp_mono; [apply (IH n)|].
    + change (tally_of ev_poll (log _ _ _)) with (tally_of ev_poll s1). rewrite Hp. split.
      * intros i Hi. apply Hno. lia.
      * replace (tally_of ev_poll s + 1 + Z.of_nat n) with (tally_of ev_poll s + Z.of_nat (S n)) by lia.
        done.
    + lia.
    + intros r s2. change (tally_of ev_poll (log _ _ _)) with (tally_of ev_poll s1). rewrite Hp.
      replace (tally_of ev_poll s + 1 + Z.of_nat n) with (tally_of ev_poll s + Z.of_nat (S n)) by lia.
      destruct (answer _) as [[? ?] ?]. intros (-> & Hts & Hw2). split_and!; [done|done|].
      unfold tally_of in *. simpl in Hw2. lia.
Qed.

(** Polling until the acknowledgement. *)
Lemma sync_timer_with_server_spec n fuel s :
  cstr (cf_node_id (cx_config (n_ctx s))) = name -> acks_after (tally_of ev_poll s) n -> (n < fuel)%nat ->
  wp (sync_timer_with_server fuel) (fun r s' =>
    r = Some TT_SUCCESS /\
    if cf_enable_sync (cx_config (n_ctx s)) then
      (let '(_, sec, nsec) := answer (tally_of ev_poll s + Z.of_nat n) in
       rt_starttimer_ts (cx_runtime (n_ctx s')) = mk_timespec (i64 sec) (i64 nsec)) /\
      tally_of ev_poll_wait s' = tally_of ev_poll_wait s + Z.of_nat n
    else s' = s) s.
Proof.
  intros En Ha Hf. unfold sync_timer_with_server, get_ctx. do 2 wp_step.
  destruct (cf_enable_sync _); simpl; [|by apply wp_ret].
  apply wp_bind. eapply wp_mono; [by apply (sync_timer_internal_spec n)|].
  intros r s'. destruct (answer _) as [[? ?] ?]. intros (-> & ? & ?). by apply wp_ret.
Qed.

(** The synchronized start terminates as soon as the server
    acknowledges: if the answers to [Sync] refuse [n] times and then
    acknowledge, the polling loop returns success after exactly [n] waits of
    100 ms, and the start time is the one sent with the acknowledgement; with
    synchronization disabled it returns at once and changes nothing. *)
Theorem sync_timer_returns n fuel s :
  cstr (cf_node_id (cx_config (n_ctx s))) = name -> acks_after (tally_of ev_poll s) n -> (n < fuel)%nat ->
  wp (sync_timer_with_server fuel) (fun r s' =>
    r = Some TT_SUCCESS /\
    if cf_enable_sync (cx_config (n_ctx s)) then
      (let '(_, sec, nsec) := answer (tally_of ev_poll s + Z.of_nat n) in
       rt_starttimer_ts (cx_runtime (n_ctx s')) = mk_timespec (i64 sec) (i64 nsec)) /\
      tally_of ev_poll_wait s' = tally_of ev_poll_wait s + Z.of_nat n
    else s' = s) s.
Proof. apply sync_timer_with_server_spec. Qed.

End sync.

(** *** Witnesses *)

(** The orchestrator comes up after two waits, answers the example schedule,
    and acknowledges the third [Sync]. *)
Definition orchestrator_kernel : Kernel :=
  {| kresp := fun _ tr c =>
       match c in call A return A with
       | SdBusStart _ => if tally ev_retry tr <? 2 then -111 else 0
       | SdBusMessageReadArray _ => (1, readable (snd ex_serialized))
       | SdBusMessageReadBTT _ => (0, (if tally ev_poll tr <? 2 then 0 else 1, 1700, 250))
       | c => default_reply c
       end |}.

#[export] Instance orchestrator_malloc : MallocOk orchestrator_kernel := fun _ _ => eq_refl.

#[export] Instance orchestrator_up name : ServerUpAfter orchestrator_kernel 2 name (readable (snd ex_serialized)).
Proof.
  split; intros; unfold kresp, orchestrator_kernel; try apply Z.le_refl.
  - split; [apply Z.le_refl|discriminate].
  - by rewrite (proj2 (Z.ltb_lt _ _)).
  - by rewrite (proj2 (Z.ltb_ge _ _)).
  - split; [apply Z.le_0_1|reflexivity].
Qed.

#[export] Instance orchestrator_sync name : SyncServer orchestrator_kernel name
  (fun p => (if p <? 2 then 0 else 1, 1700, 250)).
Proof. split; intros; unfold kresp, orchestrator_kernel; [apply Z.le_refl|reflexivity]. Qed.

Lemma init_trpc_attempts_witness :
  wlp (init_trpc (HO := le_host) (K := orchestrator_kernel)) (fun r s' =>
    r = TT_SUCCESS \/ r = TT_ERROR_NETWORK) nstate_init.
Proof.
  eapply wlp_mono.
  - apply (init_trpc_attempts (HO := le_host) (K := orchestrator_kernel) nstate_init).
    split; reflexivity.
  - intros r s' (_ & _ & [[-> _]|[-> _]]); auto.
Defined.

Lemma init_trpc_loads_schedule_witness :
  wp (init_trpc (HO := be_host) (K := orchestrator_kernel)) (fun r s' =>
    r = TT_SUCCESS /\ si_nr_tasks (sinfo_of s') = 3 /\ tally_of ev_retry s' = 2) nstate_init.
Proof.
  eapply wp_mono.
  - apply (init_trpc_loads_schedule le_host be_host (AL := small_alloc) (K := orchestrator_kernel)
             (str "wl-1") (Some 100000) ex_nodes (fst ex_serialized) (snd ex_serialized) 2 nstate_init).
    + vm_compute. reflexivity.
    + vm_compute. repeat constructor.
    + vm_compute. reflexivity.
    + apply orchestrator_up.
    + reflexivity.
    + reflexivity.
    + split; reflexivity.
    + vm_compute. intuition congruence.
  - intros r s' (-> & (_ & -> & _) & ->). auto.
Defined.

Definition sync_state : nstate :=
  nstate_init <| n_ctx ::= fun c => c <| cx_config ::= fun f =>
    f <| cf_enable_sync := true |> <| cf_node_id := in_array 64 (str "node01") |> |> |>.

Lemma sync_timer_returns_witness :
  wp (sync_timer_with_server (K := orchestrator_kernel) 3) (fun r s' =>
    r = Some TT_SUCCESS /\ rt_starttimer_ts (cx_runtime (n_ctx s')) = mk_timespec 1700 250 /\
    tally_of ev_poll_wait s' = 2) sync_state.
Proof.
  eapply wp_mono.
  - apply (sync_timer_returns (K := orchestrator_kernel) (name := str "node01") 2 3 sync_state); [reflexivity| |lia].
    split; [|vm_compute; congruence].
    intros i [_ Hi]. change (tally_of ev_poll sync_state + Z.of_nat 2) with 2 in Hi.
    cbn beta iota. cbn [fst]. by rewrite (proj2 (Z.ltb_lt i 2) Hi).
  - intros r s' (-> & Hts & ->). auto.
Defined.
