(* ===== verification/Sched.v ===== *)
(** * Scheduling and process look-up (timpani-n/src/sched.c)

    Affinity, scheduling attributes, search of threads through /proc, and
    pidfds.  A directory scan is one [Opendir] call that gives the entries, a
    file that is opened, read and closed one [ReadFile] call. *)

From S2P Require Import Prelude Time Types Kernel.

(** ** Pieces of the C library *)

Definition newline : byte := x0a.

(** The characters [fgets(_, n, f)] takes from the rest of the file. *)
Fixpoint fgets_line (n : nat) (f : list byte) : list byte :=
  match n, f with
  | S n, b :: f => if decide (b = newline) then [b] else b :: fgets_line n f
  | _, _ => []
  end.

(** [fgets(dst, |dst|, f)]: [None] at the end of the file, otherwise the
    array after the call and the rest of the file. *)
Definition fgets (dst f : list byte) : option (list byte * list byte) :=
  let l := fgets_line (length dst - 1) f in
  match l with
  | [] => None
  | _ => Some (l ++ x00 :: drop (S (length l)) dst, drop (length l) f)
  end.

(** [nl = strcspn(a, "\n"); if (a[nl] == '\n') a[nl] = 0;] *)
Fixpoint chomp (a : list byte) : list byte :=
  match a with
  | [] => []
  | b :: a =>
      if decide (b = x00) then b :: a
      else if decide (b = newline) then x00 :: a
      else b :: chomp a
  end.

(** Up to [n] characters that are not white space ([%15s]). *)
Fixpoint scan_word (n : nat) (s : list byte) : list byte :=
  match n, s with
  | S n, b :: s => if isspace b then [] else b :: scan_word n s
  | _, _ => []
  end.

(** [strtok_r] with the delimiters space, tab and newline: the token and the
    rest. *)
Definition is_delim (b : byte) : bool :=
  bool_decide (b = x20) || bool_decide (b = x09) || bool_decide (b = newline).
Fixpoint skip_delim (s : list byte) : list byte :=
  match s with
  | b :: s' => if is_delim b then skip_delim s' else s
  | [] => []
  end.
Fixpoint token (s : list byte) : list byte * list byte :=
  match s with
  | b :: s' => if is_delim b then ([], s') else let '(t, r) := token s' in (b :: t, r)
  | [] => ([], [])
  end.
Definition strtok (s : list byte) : option (list byte * list byte) :=
  match skip_delim s with
  | [] => None
  | s => Some (token s)
  end.

(** The contents of an uninitialized array on the stack: anything. *)
Class StackJunk := { sj : list event -> nat -> list byte;
                     sj_length : forall tr n, length (sj tr n) = n }.

(** [CPU_SET(cpu, &cpuset)]: bits outside the 1024-bit set are ignored. *)
Definition CPU_SETSIZE : Z := 1024.
Definition CPU_SET (cpu cpuset : Z) : Z :=
  if (0 <=? cpu) && (cpu <? CPU_SETSIZE) then Z.setbit cpuset cpu else cpuset.

Definition PROCESS_NAME_SIZE : nat := 16.

Section sched.
Context {K : Kernel} {SJ : StackJunk}.

(** ** Affinity and attributes *)

Definition set_affinity (pid cpu : Z) : N ttsched_error_t :=
  n ← sys SysconfNproc;
  let num_cpus := i32 n in
  if num_cpus <? 0 then mret TTSCHED_ERROR_SYSTEM
  else
    let cpu := if (cpu <? 0) || (num_cpus <=? cpu) then 0 else cpu in
    r ← sys (SchedSetaffinity pid (CPU_SET cpu 0));
    if r =? -1 then mret TTSCHED_ERROR_PERMISSION else mret TTSCHED_SUCCESS.

(** The loop over the 64 bits of [cpumask], from bit [i] with [n] to go. *)
Fixpoint cpumask_loop (n : nat) (i : Z) (cpumask cpuset : Z) : Z :=
  match n with
  | O => cpuset
  | S n =>
      cpumask_loop n (i + 1) cpumask
        (if negb (Z.land cpumask (u64 (Z.shiftl 1 i)) =? 0) then CPU_SET i cpuset else cpuset)
  end.

Definition set_affinity_cpumask (pid cpumask : Z) : N ttsched_error_t :=
  r ← sys (SchedSetaffinity pid (cpumask_loop 64 0 cpumask 0));
  if r <? 0 then mret TTSCHED_ERROR_PERMISSION else mret TTSCHED_SUCCESS.

(** [snprintf] of the /proc paths; they fit their arrays. *)
Definition path_task (pid : Z) : list byte := str "/proc/" ++ fmt_d pid ++ str "/task".
Definition path_comm (pid : Z) : list byte := str "/proc/" ++ fmt_d pid ++ str "/comm".
Definition path_status (pid : Z) : list byte := str "/proc/" ++ fmt_d pid ++ str "/status".
Definition path_thread_comm (pid tid : Z) : list byte :=
  str "/proc/" ++ fmt_d pid ++ str "/task/" ++ fmt_d tid ++ str "/comm".

(** The directory entries the scans look at: directories with a positive
    number as name. *)
Definition entry_id (e : dirent) : option Z :=
  if d_is_dir e then
    let id := atoi (d_name e) in
    if 0 <? id then Some id else None
  else None.

(** The scan; returns the counts of successes and failures. *)
Fixpoint all_threads_loop (entries : list dirent) (cpumask : Z) (success failure : Z)
    : N (Z * Z) :=
  match entries with
  | [] => mret (success, failure)
  | e :: entries =>
      match entry_id e with
      | None => all_threads_loop entries cpumask success failure
      | Some tid =>
          ret ← set_affinity_cpumask tid cpumask;
          if ts_ok_code ret then all_threads_loop entries cpumask (success + 1) failure
          else all_threads_loop entries cpumask success (failure + 1)
      end
  end.

Definition set_affinity_cpumask_all_threads (pid cpumask : Z) : N ttsched_error_t :=
  if pid <=? 0 then mret TTSCHED_ERROR_INVALID_ARGS
  else
    dir ← sys (Opendir (path_task pid));
    match dir with
    | None => mret TTSCHED_ERROR_SYSTEM
    | Some entries =>
        '(success_count, failure_count) ← all_threads_loop entries cpumask 0 0;
        if (success_count =? 0) && (failure_count =? 0) then mret TTSCHED_SUCCESS
        else mret (if 0 <? success_count then TTSCHED_SUCCESS else TTSCHED_ERROR_PERMISSION)
    end.

Definition sizeof_sched_attr_tt : Z := 48.

Definition set_schedattr (pid priority policy : Z) : N ttsched_error_t :=
  if 99 <? priority then mret TTSCHED_ERROR_INVALID_ARGS
  else if negb (policy =? SCHED_NORMAL) && negb (policy =? SCHED_FIFO) && negb (policy =? SCHED_RR)
  then mret TTSCHED_ERROR_INVALID_ARGS
  else
    let attr := {| sa_size := sizeof_sched_attr_tt; sa_sched_policy := policy; sa_sched_flags := 0;
                   sa_sched_nice := 0; sa_sched_priority := priority; sa_sched_runtime := 0;
                   sa_sched_deadline := 0; sa_sched_period := 0 |} in
    r ← sys (SchedSetattr pid attr);
    if r =? -1 then mret TTSCHED_ERROR_PERMISSION else mret TTSCHED_SUCCESS.

(** ** Names of processes and threads *)

(** [name] is the caller's array, [None] the null pointer; returns it as it
    is after the call. *)
Definition get_process_name_by_pid (pid : Z) (name : option (list byte))
    : N (ttsched_error_t * list byte) :=
  match name with
  | None => mret (TTSCHED_ERROR_INVALID_ARGS, [])
  | Some name =>
      if pid <=? 0 then mret (TTSCHED_ERROR_INVALID_ARGS, name)
      else
        f ← sys (ReadFile (path_comm pid));
        match f with
        | None => mret (TTSCHED_ERROR_SYSTEM, name)
        | Some f =>
            let rd := take PROCESS_NAME_SIZE f in
            name ← lift (memcpy_to name 0 rd);
            let name :=
              match last rd with
              | Some b => if decide (b = newline) then set_char name (length rd - 1) x00 else name
              | None => name
              end in
            mret (TTSCHED_SUCCESS, name)
        end
  end.

(** [name] is the caller's array, returned as it is after the call. *)
Definition get_thread_name (pid tid : Z) (name : list byte) : N (list byte) :=
  file ← sys (ReadFile (path_thread_comm pid tid));
  match file with
  | None => mret name
  | Some file =>
      let name := match fgets name file with
                  | None => set_char name 0 x00
                  | Some (name, _) => name
                  end in
      mret (chomp name)
  end.

Definition find_threads_by_name (name : list byte) (pid : Z) : N Z :=
  dir ← sys (Opendir (path_task pid));
  match dir with
  | None => mret (-1)
  | Some entries =>
      r ← for_each entries (fun entry =>
        match entry_id entry with
        | None => mret None
        | Some tid =>
            s ← get_st;
            tname ← get_thread_name pid tid (sj (n_trace s) 256);
            if strcmp_eq name tname then mret (Some tid) else mret None
        end);
      mret (default (-1) r)
  end.

(** Returns the status and [*pid]; null arguments are [None]/[false]. *)
Definition get_pid_by_name (name : option (list byte)) (pid : bool) : N (ttsched_error_t * Z) :=
  match name, pid with
  | Some name, true =>
      dir ← sys (Opendir (str "/proc"));
      match dir with
      | None => mret (TTSCHED_ERROR_SYSTEM, -1)
      | Some entries =>
          r ← for_each entries (fun entry =>
            match entry_id entry with
            | None => mret None
            | Some current_pid =>
                tid ← find_threads_by_name name current_pid;
                if negb (tid =? -1) then mret (Some tid) else mret None
            end);
          let pid := default (-1) r in
          if pid =? -1 then mret (TTSCHED_ERROR_SYSTEM, pid) else mret (TTSCHED_SUCCESS, pid)
      end
  | _, _ => mret (TTSCHED_ERROR_INVALID_ARGS, -1)
  end.

(** ** Processes by their pid in a namespace *)

(** The lines of a status file as [fgets] with a 256-byte array delivers
    them; one per character is enough. *)
Fixpoint status_lines (fuel : nat) (f : list byte) : list (list byte) :=
  match fuel with
  | O => []
  | S fuel =>
      match fgets_line 255 f with
      | [] => []
      | l => l :: status_lines fuel (drop (length l) f)
      end
  end.

(** The loop over the lines; [proc_name] is the array of that name, as the
    previous contents of the stack when [sscanf] finds no word. *)
Fixpoint nspid_lines (lines : list (list byte)) (proc_name name : list byte) (nspid : Z) : Z :=
  match lines with
  | [] => -1
  | line :: lines =>
      let line := cstr line in
      if strncmp_eq line (str "Name:") 5 then
        let w := scan_word 15 (skip_spaces (drop 5 line)) in
        let proc_name := match w with [] => proc_name | _ => w end in
        if negb (strncmp_eq proc_name name 15) then -1
        else nspid_lines lines proc_name name nspid
      else if strncmp_eq line (str "NSpid:") 6 then
        match strtok (drop 6 line) with
        | None => -1
        | Some (t, rest) =>
            let pid := atoi t in
            match strtok rest with
            | None => -1
            | Some (t, _) => if atoi t =? nspid then pid else -1
            end
        end
      else nspid_lines lines proc_name name nspid
  end.

Definition _get_pid_by_nspid (current_pid : Z) (name : list byte) (nspid : Z) : N Z :=
  s ← get_st;
  f ← sys (ReadFile (path_status current_pid));
  match f with
  | None => mret (-1)
  | Some f => mret (nspid_lines (status_lines (length f) f) (sj (n_trace s) 16) name nspid)
  end.

Definition get_pid_by_nspid (name : option (list byte)) (nspid : Z) (pid : bool)
    : N (ttsched_error_t * Z) :=
  match name, pid with
  | Some name, true =>
      dir ← sys (Opendir (str "/proc"));
      match dir with
      | None => mret (TTSCHED_ERROR_SYSTEM, -1)
      | Some entries =>
          r ← for_each entries (fun entry =>
            match entry_id entry with
            | None => mret None
            | Some current_pid =>
                pid ← _get_pid_by_nspid current_pid name nspid;
                if negb (pid =? -1) then mret (Some pid) else mret None
            end);
          let pid := default (-1) r in
          if pid =? -1 then mret (TTSCHED_ERROR_SYSTEM, pid) else mret (TTSCHED_SUCCESS, pid)
      end
  | _, _ => mret (TTSCHED_ERROR_INVALID_ARGS, -1)
  end.

(** ** pidfds *)

(** [pidfd] is the value of the caller's variable, [None] the null pointer;
    returns it as it is after the call. *)
Definition create_pidfd (pid : Z) (pidfd : option Z) : N (ttsched_error_t * Z) :=
  match pidfd with
  | None => mret (TTSCHED_ERROR_INVALID_ARGS, -1)
  | Some pidfd =>
      if pid <=? 0 then mret (TTSCHED_ERROR_INVALID_ARGS, pidfd)
      else
        r ← sys (PidfdOpen pid);
        let pidfd := i32 r in
        if pidfd <? 0 then mret (TTSCHED_ERROR_PERMISSION, pidfd) else mret (TTSCHED_SUCCESS, pidfd)
  end.

Definition send_signal_pidfd (pidfd signal : Z) : N ttsched_error_t :=
  if pidfd <? 0 then mret TTSCHED_ERROR_INVALID_ARGS
  else
    ret ← sys (PidfdSendSignal pidfd signal);
    if ret <? 0 then mret TTSCHED_ERROR_PERMISSION else mret TTSCHED_SUCCESS.

(** Returns the status and [*alive]. *)
Definition is_process_alive (pidfd : Z) (alive : bool) : N (ttsched_error_t * Z) :=
  if negb alive then mret (TTSCHED_ERROR_INVALID_ARGS, 0)
  else if pidfd <? 0 then mret (TTSCHED_SUCCESS, 0)
  else
    ret ← sys (PidfdSendSignal pidfd 0);
    mret (TTSCHED_SUCCESS, if ret =? 0 then 1 else 0).

(** The look-up of a thread only adds to the trace. *)
Abbreviation grows := (emits (fun _ => True)).

Lemma find_threads_by_name_grows name p : frames grows (find_threads_by_name name p).
Proof. unfold find_threads_by_name, get_thread_name. frames_tac. Qed.
#[local] Hint Resolve find_threads_by_name_grows : frames.

Lemma get_pid_by_name_grows name b : frames grows (get_pid_by_name name b).
Proof. unfold get_pid_by_name. frames_tac. Qed.

End sched.

(** ** CPU masks *)

Lemma land_bit m i : 0 <= i -> negb (Z.land m (Z.shiftl 1 i) =? 0) = Z.testbit m i.
Proof.
  intros Hi. destruct (Z.testbit m i) eqn:E.
  - destruct (Z.eqb_spec (Z.land m (Z.shiftl 1 i)) 0) as [H|]; [|done].
    apply (f_equal (fun z => Z.testbit z i)) in H.
    rewrite Z.land_spec, E, Z.shiftl_spec, Z.sub_diag, Z.bits_0 in H by lia. done.
  - destruct (Z.eqb_spec (Z.land m (Z.shiftl 1 i)) 0) as [|H]; [done|]. destruct H.
    apply Z.bits_inj'. intros j Hj. rewrite Z.land_spec, Z.shiftl_spec, Z.bits_0 by lia.
    destruct (Z.eq_dec j i) as [->|Hne]; [by rewrite E|].
    destruct (Z.lt_ge_cases j i); [rewrite (Z.testbit_neg_r 1 (j - i)) by lia; apply andb_false_r|].
    assert (Z.testbit 1 (j - i) = false) as ->; [|apply andb_false_r].
    change 1 with (2 ^ 0). apply Z.pow2_bits_false. lia.
Qed.

Lemma cpumask_loop_bits n i m s j :
  0 <= i -> i + Z.of_nat n <= 64 -> 0 <= j ->
  Z.testbit (cpumask_loop n i m s) j =
    if (i <=? j) && (j <? i + Z.of_nat n) then Z.testbit m j || Z.testbit s j else Z.testbit s j.
Proof.
  revert i s. induction n as [|n IH]; intros i s Hi Hn Hj; cbn [cpumask_loop].
  { destruct (_ && _) eqn:E; [|done]. apply andb_true_iff in E as [?%Z.leb_le ?%Z.ltb_lt]. lia. }
  rewrite IH by lia.
  rewrite wrapu_id by (rewrite Z.shiftl_1_l; split; [lia|apply Z.pow_lt_mono_r; lia]).
  rewrite land_bit by lia. unfold CPU_SET, CPU_SETSIZE.
  rewrite (proj2 (Z.leb_le 0 i)), (proj2 (Z.ltb_lt i 1024)) by lia. simpl.
  assert (Hs : Z.testbit (if Z.testbit m i then Z.setbit s i else s) j
               = if i =? j then Z.testbit m j || Z.testbit s j else Z.testbit s j).
  { destruct (Z.eqb_spec i j) as [->|Hne].
    - destruct (Z.testbit m j); rewrite ?Z.setbit_eq by lia; done.
    - destruct (Z.testbit m i); rewrite ?Z.setbit_neq by lia; done. }
  rewrite Hs. destruct (Z.eqb_spec i j) as [->|Hne].
  - rewrite (proj2 (Z.leb_gt (j + 1) j)), (proj2 (Z.leb_le j j)) by lia. simpl.
    by rewrite (proj2 (Z.ltb_lt j _)) by lia.
  - replace (i + 1 + Z.of_nat n) with (i + Z.of_nat (S n)) by lia.
    destruct (Z.leb_spec (i + 1) j), (Z.leb_spec i j); simpl; done || lia.
Qed.

(** The mask handed to the kernel is the mask asked for. *)
Lemma cpumask_loop_id m : in_u 64 m -> cpumask_loop 64 0 m 0 = m.
Proof.
  intros Hm. apply Z.bits_inj'. intros j Hj. rewrite cpumask_loop_bits by lia. rewrite Z.bits_0, orb_false_r.
  destruct (Z.leb_spec 0 j), (Z.ltb_spec j (0 + Z.of_nat 64)); simpl; try done; try lia.
  symmetry. destruct (Z.eq_dec m 0) as [->|]; [apply Z.bits_0|].
  apply Z.bits_above_log2; [range|]. apply Z.log2_lt_pow2; [range|].
  eapply Z.lt_le_trans; [apply Hm|]. apply Z.pow_le_mono_r; lia.
Qed.

#[global] Arguments cpumask_loop : simpl never.

(** ** Reading /proc *)

(** The name a comm file gives: its first line without the newline. *)
Definition comm_name (f : list byte) : list byte := cstr (chomp (fgets_line 255 f)).

Lemma cstr_chomp_app l r : cstr (chomp (l ++ x00 :: r)) = cstr (chomp l).
Proof.
  induction l as [|b l IH]; simpl; [done|]. do 2 (case_decide; simpl; [by rewrite ?decide_True|]).
  rewrite !decide_False by done. by rewrite IH.
Qed.

Lemma fgets_name dst f :
  length dst = 256%nat ->
  cstr (chomp (match fgets dst f with None => set_char dst 0 x00 | Some (a, _) => a end))
  = comm_name f.
Proof.
  intros Hl. unfold comm_name, fgets. rewrite Hl. change (256 - 1)%nat with 255%nat.
  destruct (fgets_line 255 f) as [|b l] eqn:E.
  - destruct dst as [|c dst]; done.
  - by rewrite cstr_chomp_app.
Qed.

(** A /proc whose contents do not change during the scan. *)
Class ProcFs (K : Kernel) (dirs : list byte -> option (list dirent))
    (files : list byte -> option (list byte)) := {
  proc_dir : forall tr p, kresp tr (Opendir p) = dirs p;
  proc_file : forall tr p, kresp tr (ReadFile p) = files p;
}.

Section proc.
Context {K : Kernel} {SJ : StackJunk} {dirs : list byte -> option (list dirent)}
  {files : list byte -> option (list byte)} `{!ProcFs K dirs files}.

(** Threads of process [p] and the processes, as listed. *)
Definition ids (entries : option (list dirent)) : list Z := omap entry_id (default [] entries).
Definition threads (p : Z) : list Z := ids (dirs (path_task p)).
Definition processes : list Z := ids (dirs (str "/proc")).

(** The threads of [p], of any process, whose comm is [name]. *)
Definition named (name : list byte) (p : Z) (t : Z) : bool :=
  match files (path_thread_comm p t) with
  | Some f => bool_decide (cstr name = comm_name f)
  | None => false
  end.
Definition named_threads (name : list byte) (p : Z) : list Z :=
  filter (fun t => named name p t = true) (threads p).

Definition readable_threads : Prop :=
  forall p t, p ∈ processes -> t ∈ threads p -> files (path_thread_comm p t) <> None.

Lemma named_threads_pos name p t : t ∈ named_threads name p -> 0 < t.
Proof.
  unfold named_threads, threads, ids. rewrite list_elem_of_filter, list_elem_of_omap.
  intros [_ (e & _ & He)]. unfold entry_id in He. destruct (d_is_dir e); [|done].
  destruct (Z.ltb_spec 0 (atoi (d_name e))); simplify_eq. done.
Qed.

Lemma get_thread_name_spec pid tid a f s :
  files (path_thread_comm pid tid) = Some f -> length a = 256%nat ->
  wp (get_thread_name pid tid a) (fun n s' => cstr n = comm_name f /\ n_ctx s' = n_ctx s) s.
Proof.
  intros Hf Hl. unfold get_thread_name. apply wp_bind, wp_sys. rewrite proc_file, Hf.
  apply wp_ret. split; [by apply fgets_name|done].
Qed.

Lemma find_threads_by_name_spec name p s :
  (forall t, t ∈ threads p -> files (path_thread_comm p t) <> None) ->
  wp (find_threads_by_name name p) (fun r s' =>
    r = default (-1) (head (named_threads name p)) /\ n_ctx s' = n_ctx s) s.
Proof.
  intros Hr. unfold find_threads_by_name, named_threads, threads, ids in *.
  apply wp_bind, wp_sys. rewrite proc_dir. destruct (dirs (path_task p)) as [es|]; [|by apply wp_ret].
  apply wp_bind. simpl in *. set (l0 := es) in *.
  apply (wp_for_each _ _ (fun es s' => n_ctx s' = n_ctx s /\
    (forall t, t ∈ omap entry_id es -> files (path_thread_comm p t) <> None) /\
    head (filter (fun t => named name p t = true) (omap entry_id l0)) =
    head (filter (fun t => named name p t = true) (omap entry_id es)))); [done| |].
  2:{ intros s' (Hc & _ & Hh). apply wp_ret. by rewrite Hh. }
  intros e es' s' (Hc & Hrd & Hh). simpl in Hh, Hrd. destruct (entry_id e) as [t|]; [|by apply wp_ret].
  destruct (files (path_thread_comm p t)) as [f|] eqn:Ef; [|by destruct (Hrd t); [set_solver|]].
  apply wp_bind, wp_get, wp_bind. eapply wp_mono; [apply (get_thread_name_spec _ _ _ f); [done|apply sj_length]|].
  intros n s2 [Hn Hc2]. rewrite filter_cons in Hh. unfold strcmp_eq. rewrite Hn.
  assert (named name p t = bool_decide (cstr name = comm_name f)) as En by (unfold named; by rewrite Ef).
  rewrite En in Hh. case_bool_decide; simpl in Hh.
  - do 2 apply wp_ret. rewrite Hh. simpl. by rewrite Hc2.
  - apply wp_ret. rewrite Hc2. split_and!; [done|set_solver|done].
Qed.

(** [get_pid_by_name] is the first thread, in the order /proc lists
    processes and threads, whose comm is the name asked for, and reports
    [TTSCHED_ERROR_SYSTEM] with -1 exactly when there is none; provided the
    comm files of the listed threads can be read. *)
Theorem get_pid_by_name_first name s :
  readable_threads ->
  wp (get_pid_by_name (Some name) true) (fun r s' =>
    r = (match concat (named_threads name <$> processes) with
         | t :: _ => (TTSCHED_SUCCESS, t)
         | [] => (TTSCHED_ERROR_SYSTEM, -1)
         end) /\ n_ctx s' = n_ctx s) s.
Proof.
  unfold readable_threads, processes, ids. intros Hr. unfold get_pid_by_name.
  apply wp_bind, wp_sys. rewrite proc_dir. destruct (dirs (str "/proc")) as [es|]; [|by apply wp_ret].
  apply wp_bind. simpl in *. set (l0 := es) in *.
  apply (wp_for_each _ _ (fun es s' => n_ctx s' = n_ctx s /\
    (forall p t, p ∈ omap entry_id es -> t ∈ threads p -> files (path_thread_comm p t) <> None) /\
    concat (named_threads name <$> omap entry_id l0) =
    concat (named_threads name <$> omap entry_id es))); [done| |].
  2:{ intros s' (Hc & _ & ->). by apply wp_ret. }
  intros e es' s' (Hc & Hrd & Hh). simpl in Hh, Hrd. destruct (entry_id e) as [p|]; [|by apply wp_ret].
  apply wp_bind. eapply wp_mono; [apply find_threads_by_name_spec; intros; apply Hrd; [set_solver|done]|].
  intros r s2 [-> Hc2]. simpl in Hh. rewrite Hh.
  destruct (named_threads name p) as [|t ts] eqn:E; simpl.
  - apply wp_ret. rewrite Hc2. split_and!; [done|set_solver|done].
  - assert (0 < t) by (apply (named_threads_pos name p); rewrite E; set_solver).
    rewrite (proj2 (Z.eqb_neq t (-1))) by lia. apply wp_ret. simpl.
    rewrite (proj2 (Z.eqb_neq t (-1))) by lia. apply wp_ret. by rewrite Hc2.
Qed.

End proc.

(** ** Affinity of processes and threads *)

Section affinity.
Context {K : Kernel}.

(** [set_affinity] binds to one existing CPU: the one asked for when the
    machine has it, CPU 0 otherwise (negative and too large numbers included);
    the only failures are those of the two system calls. *)
Theorem set_affinity_valid_cpu pid cpu s :
  let num := i32 (kresp (n_trace s) SysconfNproc) in
  num <= 1024 ->
  wp (set_affinity pid cpu) (fun r s' =>
    if num <? 0 then r = TTSCHED_ERROR_SYSTEM /\ n_trace s' = Event SysconfNproc (kresp (n_trace s) SysconfNproc) :: n_trace s
    else exists c rc,
      (if (0 <=? cpu) && (cpu <? num) then c = cpu else c = 0) /\
      n_trace s' = Event (SchedSetaffinity pid (2 ^ c)) rc
                   :: Event SysconfNproc (kresp (n_trace s) SysconfNproc) :: n_trace s /\
      r = (if rc =? -1 then TTSCHED_ERROR_PERMISSION else TTSCHED_SUCCESS)) s.
Proof.
  intros num Hnum. unfold set_affinity. apply wp_bind, wp_sys. fold num.
  destruct (Z.ltb_spec num 0); [by apply wp_ret|]. apply wp_bind, wp_sys.
  set (c := if (cpu <? 0) || (num <=? cpu) then 0 else cpu).
  assert (Hc : CPU_SET c 0 = 2 ^ c).
  { unfold CPU_SET, CPU_SETSIZE. subst c.
    destruct (Z.ltb_spec cpu 0), (Z.leb_spec num cpu); simpl; try done.
    rewrite (proj2 (Z.leb_le 0 cpu)), (proj2 (Z.ltb_lt cpu 1024)) by lia. simpl.
    unfold Z.setbit. by rewrite Z.shiftl_1_l, Z.lor_0_l. }
  rewrite Hc. set (rc := kresp _ (SchedSetaffinity _ _)).
  assert (Hs : if (0 <=? cpu) && (cpu <? num) then c = cpu else c = 0).
  { subst c. destruct (Z.ltb_spec cpu 0), (Z.leb_spec num cpu), (Z.leb_spec 0 cpu), (Z.ltb_spec cpu num);
      simpl; done || lia. }
  destruct (rc =? -1) eqn:E; apply wp_ret; exists c, rc; rewrite E; done.
Qed.

(** The calls made for a list of thread ids and their results. *)
Definition affinity_events (m : Z) (l : list (Z * Z)) : list event :=
  (fun '(tid, rc) => Event (SchedSetaffinity tid m) rc) <$> reverse l.

Lemma all_threads_loop_spec entries m ok ko s :
  in_u 64 m ->
  wp (all_threads_loop entries m ok ko) (fun '(ok', ko') s' => exists l,
    l.*1 = omap entry_id entries /\
    n_trace s' = affinity_events m l ++ n_trace s /\ n_ctx s' = n_ctx s /\
    ok' = ok + blen (filter (fun x => 0 <= snd x) l) /\
    ko' = ko + blen (filter (fun x => snd x < 0) l)) s.
Proof.
  intros Hm. revert ok ko s. induction entries as [|e es IH]; intros ok ko s; simpl.
  { apply wp_ret. exists []. simpl. split_and!; done || lia. }
  destruct (entry_id e) as [tid|]; [|apply IH].
  unfold set_affinity_cpumask. rewrite (cpumask_loop_id m Hm). do 2 apply wp_bind. apply wp_sys.
  set (rc := kresp _ _).
  assert (H : forall ok1 ko1, ok1 = ok + blen (filter (fun x : Z * Z => 0 <= snd x) [(tid, rc)]) ->
    ko1 = ko + blen (filter (fun x : Z * Z => snd x < 0) [(tid, rc)]) ->
    wp (all_threads_loop es m ok1 ko1) (fun '(ok', ko') s' => exists l,
    l.*1 = tid :: omap entry_id es /\
    n_trace s' = affinity_events m l ++ n_trace s /\ n_ctx s' = n_ctx s /\
    ok' = ok + blen (filter (fun x => 0 <= snd x) l) /\
    ko' = ko + blen (filter (fun x => snd x < 0) l)) (log (SchedSetaffinity tid m) rc s)).
  { intros ok1 ko1 -> ->. eapply wp_mono; [apply IH|].
    intros [ok' ko'] s' (l & Hl & Ht & Hc & -> & ->). exists ((tid, rc) :: l).
    rewrite !(filter_app _ [(tid, rc)] l : filter _ ((tid, rc) :: l) = _), !length_app.
    split_and!; [by rewrite fmap_cons, Hl| |done|lia|lia].
    unfold affinity_events in *. rewrite reverse_cons, fmap_app, <- app_assoc. exact Ht. }
  destruct (Z.ltb_spec rc 0); apply wp_ret; simpl; apply H; rewrite filter_cons, filter_nil;
    case_decide; simpl in *; lia.
Qed.

(** [set_affinity_cpumask_all_threads] asks the kernel to apply exactly
    the given mask, once, to every thread the process directory lists, in
    order; it succeeds when at least one request did (or no thread was
    listed), is [TTSCHED_ERROR_PERMISSION] when all failed, and rejects an
    invalid pid without any call. *)
Theorem affinity_all_threads pid m s :
  in_u 64 m ->
  wp (set_affinity_cpumask_all_threads pid m) (fun r s' =>
    if pid <=? 0 then r = TTSCHED_ERROR_INVALID_ARGS /\ s' = s
    else match kresp (n_trace s) (Opendir (path_task pid)) with
         | None => r = TTSCHED_ERROR_SYSTEM
         | Some entries => exists l,
             l.*1 = omap entry_id entries /\
             n_trace s' = affinity_events m l ++
               Event (Opendir (path_task pid)) (Some entries) :: n_trace s /\
             r = (if bool_decide (l = [] \/ Exists (fun x => 0 <= snd x) l)
                  then TTSCHED_SUCCESS else TTSCHED_ERROR_PERMISSION)
         end) s.
Proof.
  intros Hm. unfold set_affinity_cpumask_all_threads. destruct (pid <=? 0); [by apply wp_ret|].
  apply wp_bind, wp_sys. destruct (kresp _ (Opendir _)) as [entries|]; [|by apply wp_ret].
  apply wp_bind. eapply wp_mono; [by apply all_threads_loop_spec|].
  intros [ok ko] s' (l & Hl & Ht & _ & -> & ->).
  set (a := filter (fun x => 0 <= snd x) l). set (b := filter (fun x => snd x < 0) l).
  assert (Hab : (length a + length b = length l)%nat)
    by (apply length_filter_split; intros; simpl; lia).
  pose proof (Exists_filter (fun x => 0 <= snd x) l) as Ha. fold a in Ha.
  assert (Hr : (if (0 + blen a =? 0) && (0 + blen b =? 0) then TTSCHED_SUCCESS
     else if 0 <? 0 + blen a then TTSCHED_SUCCESS else TTSCHED_ERROR_PERMISSION) =
    if bool_decide (l = [] \/ Exists (fun x => 0 <= snd x) l)
    then TTSCHED_SUCCESS else TTSCHED_ERROR_PERMISSION).
  { case_bool_decide as H.
    - destruct H as [->|H]; [done|]. apply Ha in H. destruct a; [done|].
      rewrite (proj2 (Z.ltb_lt _ _)) by (simpl; lia). by destruct (_ && _).
    - destruct a as [|x a]; [|destruct H; right; by apply Ha].
      destruct b as [|x b]; [|done]. simpl in Hab. destruct l; [|done]. by destruct H; left. }
  destruct (_ && _) in *; apply wp_ret; exists l; rewrite <- Hr; done.
Qed.

End affinity.

(** *** Witnesses *)

(** A machine with a fixed /proc. *)
Definition proc_kernel (dirs : list byte -> option (list dirent))
    (files : list byte -> option (list byte)) : Kernel :=
  {| kresp := fun _ _ c =>
       match c in call A return A with
       | Opendir p => dirs p
       | ReadFile p => files p
       | c => default_reply c
       end |}.

#[export] Instance proc_kernel_fs dirs files : ProcFs (proc_kernel dirs files) dirs files.
Proof. split; intros; reflexivity. Qed.

Definition zero_stack : StackJunk := {| sj := fun _ n => zeros n; sj_length := fun _ => length_zeros |}.

Definition ex_dirs (p : list byte) : option (list dirent) :=
  if decide (p = str "/proc") then
    Some [mk_dirent true (str "."); mk_dirent true (str "1"); mk_dirent true (str "42");
          mk_dirent false (str "uptime")]
  else if decide (p = str "/proc/1/task") then Some [mk_dirent true (str "1")]
  else if decide (p = str "/proc/42/task") then
    Some [mk_dirent true (str ".."); mk_dirent true (str "42"); mk_dirent true (str "43")]
  else None.
Definition ex_files (p : list byte) : option (list byte) :=
  if decide (p = str "/proc/1/task/1/comm") then Some (str "init" ++ [newline])
  else if decide (p = str "/proc/42/task/42/comm") then Some (str "app" ++ [newline])
  else if decide (p = str "/proc/42/task/43/comm") then Some (str "control" ++ [newline])
  else None.

Lemma get_pid_by_name_first_witness :
  wp (get_pid_by_name (K := proc_kernel ex_dirs ex_files) (SJ := zero_stack)
        (Some (str "control")) true)
    (fun r _ => r = (TTSCHED_SUCCESS, 43)) nstate_init.
Proof.
  eapply wp_mono.
  - apply (get_pid_by_name_first (K := proc_kernel ex_dirs ex_files) (SJ := zero_stack)
             (dirs := ex_dirs) (files := ex_files) (str "control") nstate_init).
    intros p t Hp Ht.
    change (processes (dirs := ex_dirs)) with [1; 42] in Hp.
    apply elem_of_cons in Hp as [->|Hp%list_elem_of_singleton].
    + change (threads (dirs := ex_dirs) 1) with [1] in Ht.
      apply list_elem_of_singleton in Ht as ->. vm_compute. discriminate.
    + subst p. change (threads (dirs := ex_dirs) 42) with [42; 43] in Ht.
      apply elem_of_cons in Ht as [->|Ht%list_elem_of_singleton]; [|subst t]; vm_compute; discriminate.
  - intros r s' [-> _]. vm_compute. reflexivity.
Defined.

Lemma set_affinity_valid_cpu_witness :
  wp (set_affinity (K := default_kernel) 10 7) (fun r s' =>
    exists c rc, c = 0 /\ r = (if rc =? -1 then TTSCHED_ERROR_PERMISSION else TTSCHED_SUCCESS) /\
      n_trace s' = [Event (SchedSetaffinity 10 (2 ^ c)) rc; Event SysconfNproc 4]) nstate_init.
Proof.
  eapply wp_mono.
  - apply (set_affinity_valid_cpu (K := default_kernel) 10 7 nstate_init). vm_compute. discriminate.
  - intros r s' (c & rc & Hc & Ht & Hr). exists c, rc. auto.
Defined.

Lemma affinity_all_threads_witness :
  wp (set_affinity_cpumask_all_threads (K := proc_kernel ex_dirs ex_files) 42 5)
    (fun r s' => exists l, l.*1 = [42; 43] /\
      n_trace s' = affinity_events 5 l ++ [Event (Opendir (path_task 42)) (ex_dirs (path_task 42))])
    nstate_init.
Proof.
  eapply wp_mono.
  - apply (affinity_all_threads (K := proc_kernel ex_dirs ex_files) 42 5 nstate_init).
    vm_compute. split; [discriminate|reflexivity].
  - intros r s' (l & Hl & Ht & _). exists l. split; [exact Hl|exact Ht].
Defined.
