(* ===== verification/TraceBpf.v ===== *)
(** * Loading the BPF programs (timpani-n/src/trace_bpf.c)

    The two blocks of the source for the programs [sigwait] and [schedstat]
    are the same up to names, so each operation takes the program; the
    compile-time option CONFIG_TRACE_BPF_EVENT is a parameter (CONFIG_TRACE_BPF
    is on, the default).  The ring-buffer thread is [rb_thread_step], one turn
    of its loop; the callbacks that a poll runs are in Core. *)

From S2P Require Import Prelude Time Types Kernel.

Class BuildConfig := { CONFIG_TRACE_BPF_EVENT : bool }.

(** The value of an uninitialized [int]: anything. *)
Class IntJunk := { ij : list event -> Z; ij_range : forall tr, in_s 32 (ij tr) }.

Definition RB_TIMEOUT_MS : Z := 100.

Section trace_bpf.
Context {K : Kernel} {BC : BuildConfig} {IJ : IntJunk}.

Definition set_skel (p : bpf_prog) (b : bool) : N unit :=
  modify (fun s => s <| n_bpf_skel ::= set_prog p b |>).
Definition set_rb (p : bpf_prog) (b : bool) : N unit :=
  modify (fun s => s <| n_bpf_rb ::= set_prog p b |>).

(** One turn of [rb_thread_func]: [true] to go on, [false] when the thread
    ends. *)
Definition rb_thread_step (p : bpf_prog) : N bool :=
  s ← get_st;
  if negb (n_bpf_need_exit s p =? 0) then mret false
  else
    ret ← sys (RingBufferPoll p RB_TIMEOUT_MS);
    mret (negb ((ret <? 0) && negb (ret =? - EINTR))).

(** The code after the label [fail]. *)
Definition bpf_fail (p : bpf_prog) (ret : Z) : N Z :=
  s ← get_st;
  (if n_bpf_rb s p then sys (RingBufferFree p) ;; set_rb p false else mret tt) ;;
  (if n_bpf_skel s p then sys (BpfDestroy p) ;; set_skel p false else mret tt) ;;
  mret ret.

(** [start_sigwait_bpf] and [start_schedstat_bpf]; [ret] is the value of the
    local variable, uninitialized at first. *)
Definition start_bpf (p : bpf_prog) : N Z :=
  s ← get_st;
  let ret := ij (n_trace s) in
  opened ← sys (BpfOpen p);
  set_skel p opened ;;
  if negb opened then bpf_fail p ret
  else
    ret ← sys (BpfLoad p);
    if ret <? 0 then bpf_fail p ret
    else
      rb ← sys (RingBufferNew p);
      set_rb p rb ;;
      if negb rb then bpf_fail p ret
      else
        ret ← sys (BpfAttach p);
        if ret <? 0 then bpf_fail p ret
        else
          r ← sys (PthreadCreate p);
          if negb (r =? 0) then bpf_fail p ret else mret 0.

Definition bpf_on : N Z :=
  ret ← start_bpf P_sigwait;
  if ret <? 0 then mret 0
  else if CONFIG_TRACE_BPF_EVENT then
    _ ← start_bpf P_schedstat;
    mret 0
  else mret 0.

(** One of the two blocks of [bpf_off]. *)
Definition stop_bpf (p : bpf_prog) : N unit :=
  s ← get_st;
  if n_bpf_skel s p then
    modify (fun s => s <| n_bpf_need_exit ::= set_prog p 1 |>) ;;
    _ ← sys (PthreadJoin p);
    (if n_bpf_rb s p then sys (RingBufferFree p) ;; set_rb p false else mret tt) ;;
    sys (BpfDestroy p) ;;
    set_skel p false
  else mret tt.

Definition bpf_off : N unit :=
  stop_bpf P_sigwait ;;
  if CONFIG_TRACE_BPF_EVENT then stop_bpf P_schedstat else mret tt.

Definition bpf_add_pid (pid : Z) : N Z :=
  s ← get_st;
  if negb (n_bpf_skel s P_sigwait) then mret 0
  else
    r ← sys (BpfMapUpdate P_sigwait pid);
    if negb (r =? 0) then mret 0
    else if CONFIG_TRACE_BPF_EVENT && n_bpf_skel s P_schedstat then
      _ ← sys (BpfMapUpdate P_schedstat pid);
      mret 0
    else mret 0.

Definition bpf_del_pid (pid : Z) : N Z :=
  s ← get_st;
  if negb (n_bpf_skel s P_sigwait) then mret 0
  else
    r ← sys (BpfMapDelete P_sigwait pid);
    if negb (r =? 0) then mret 0
    else if CONFIG_TRACE_BPF_EVENT && n_bpf_skel s P_schedstat then
      _ ← sys (BpfMapDelete P_schedstat pid);
      mret 0
    else mret 0.

End trace_bpf.

(** ** Resources of a program *)

#[export] Instance bpf_prog_eq_dec : EqDecision bpf_prog.
Proof. solve_decision. Defined.

Definition b2z (b : bool) : Z := if b then 1 else 0.

(** Skeletons opened, ring buffers made and threads started for [p], minus
    those destroyed, freed and joined. *)
Definition ev_skel (p : bpf_prog) (e : event) : Z :=
  match e with
  | Event (BpfOpen q) r => if decide (q = p) then b2z r else 0
  | Event (BpfDestroy q) _ => if decide (q = p) then -1 else 0
  | _ => 0
  end.
Definition ev_rb (p : bpf_prog) (e : event) : Z :=
  match e with
  | Event (RingBufferNew q) r => if decide (q = p) then b2z r else 0
  | Event (RingBufferFree q) _ => if decide (q = p) then -1 else 0
  | _ => 0
  end.
Definition ev_thread (p : bpf_prog) (e : event) : Z :=
  match e with
  | Event (PthreadCreate q) r => if decide (q = p) then (if r =? 0 then 1 else 0) else 0
  | Event (PthreadJoin q) _ => if decide (q = p) then -1 else 0
  | _ => 0
  end.

(** What the process holds of [p] and what the environment gave and took
    back. *)
Definition view (p : bpf_prog) (s : nstate) : bool * bool * Z * Z * Z :=
  (n_bpf_skel s p, n_bpf_rb s p, tally_of (ev_skel p) s, tally_of (ev_rb p) s,
   tally_of (ev_thread p) s).

(** Loaded with its ring buffer and its thread, or nothing of it, beyond what
    was live before. *)
Definition up_or_down (before : Z * Z * Z) (l : bool) : bool * bool * Z * Z * Z :=
  let '(x, y, z) := before in (l, l, x + b2z l, y + b2z l, z + b2z l).

Section bpf_props.
Context {K : Kernel} {BC : BuildConfig} {IJ : IntJunk}.

Ltac view_solve :=
  unfold view, tally_of, up_or_down, b2z, set_prog in *; simpl in *;
  rewrite !pair_equal_spec in *; destruct_and?; simpl; split_and!; try done; try lia.

Lemma bpf_fail_spec p ret b rb sk s :
  (let '(x, y, z) := b in view p s = (sk, rb, x + b2z sk, y + b2z rb, z)) ->
  wp (bpf_fail p ret) (fun r s' => r = ret /\ view p s' = up_or_down b false) s.
Proof.
  destruct b as [[x y] z]. intros H. unfold bpf_fail, set_rb, set_skel. do 2 wp_step.
  pose proof H as [= Hsk Hrb _ _ _]. rewrite Hsk, Hrb.
  apply wp_bind. destruct rb; [apply wp_bind, wp_sys, wp_modify|apply wp_ret];
    (apply wp_bind; destruct sk; [apply wp_bind, wp_sys, wp_modify|apply wp_ret]);
    apply wp_ret; (split; [done|]); destruct p; view_solve.
Qed.

(** Starting one program: everything of it is live, or nothing. *)
Lemma start_bpf_spec p b s :
  view p s = up_or_down b false ->
  wp (start_bpf p) (fun r s' => exists l, view p s' = up_or_down b l /\ (l = true -> r = 0)) s.
Proof.
  intros H. destruct b as [[x y] z]. unfold start_bpf, set_skel, set_rb. do 2 wp_step.
  assert (Hfail : forall ret s' sk rb, view p s' = (sk, rb, x + b2z sk, y + b2z rb, z) ->
    wp (bpf_fail p ret) (fun r s' => exists l, view p s' = up_or_down (x, y, z) l /\
      (l = true -> r = 0)) s').
  { intros ret s' sk rb Hv. eapply wp_mono; [apply (bpf_fail_spec p ret (x, y, z) rb sk); exact Hv|].
    intros r s2 [-> Hv2]. exists false. split; [done|discriminate]. }
  apply wp_bind, wp_sys. destruct (kresp _ (BpfOpen p)); apply wp_bind, wp_modify; simpl.
  2:{ apply (Hfail _ _ false false). destruct p; view_solve. }
  apply wp_bind, wp_sys. destruct (_ <? 0).
  { apply (Hfail _ _ true false). destruct p; view_solve. }
  apply wp_bind, wp_sys. destruct (kresp _ (RingBufferNew p)); apply wp_bind, wp_modify; simpl.
  2:{ apply (Hfail _ _ true false). destruct p; view_solve. }
  apply wp_bind, wp_sys. destruct (_ <? 0).
  { apply (Hfail _ _ true true). destruct p; view_solve. }
  apply wp_bind, wp_sys. destruct (kresp _ (PthreadCreate p) =? 0) eqn:E; simpl.
  - apply wp_ret. exists true. split; [|done]. destruct p; unfold view, tally_of in *; simpl in *; rewrite E; view_solve.
  - apply (Hfail _ _ true true). destruct p; unfold view, tally_of in *; simpl in *; rewrite E; view_solve.
Qed.

Lemma stop_bpf_spec p b l s :
  view p s = up_or_down b l -> wp (stop_bpf p) (fun _ s' => view p s' = up_or_down b false) s.
Proof.
  intros H. destruct b as [[x y] z]. unfold stop_bpf, set_rb, set_skel. do 2 wp_step.
  pose proof H as [= Hsk Hrb _ _ _]. rewrite Hsk, Hrb. destruct l; [|by apply wp_ret].
  apply wp_bind, wp_modify, wp_bind, wp_sys, wp_bind, wp_bind, wp_sys, wp_modify, wp_bind, wp_sys,
    wp_modify. destruct p; view_solve.
Qed.

(** The operations of one program leave the other alone. *)
Lemma start_bpf_other p q : p <> q -> frames (keeps (view q)) (start_bpf p).
Proof.
  intros Hne. unfold start_bpf, bpf_fail, set_skel, set_rb.
  destruct p, q; try done; frames_tac.
Qed.

Lemma stop_bpf_other p q : p <> q -> frames (keeps (view q)) (stop_bpf p).
Proof.
  intros Hne. unfold stop_bpf, set_skel, set_rb. destruct p, q; try done; frames_tac.
Qed.

(** [bpf_on] always reports success, whatever fails inside; each program
    is then completely up (skeleton, ring buffer and polling thread) or
    completely down, and the program schedstat is touched only when the build
    option is on.  [bpf_off] after it leaves nothing: every skeleton, ring
    buffer and thread obtained in between has been given back exactly once. *)
Theorem bpf_on_off b s :
  (forall p, view p s = up_or_down (b p) false) ->
  wp bpf_on (fun r s' => r = 0 /\
    (forall p, exists l, view p s' = up_or_down (b p) l) /\
    (CONFIG_TRACE_BPF_EVENT = false -> view P_schedstat s' = view P_schedstat s) /\
    wp bpf_off (fun _ s2 => forall p, view p s2 = up_or_down (b p) false) s') s.
Proof.
  intros H. unfold bpf_on. apply wp_bind.
  assert (Hoff : forall s' l1 l2, view P_sigwait s' = up_or_down (b P_sigwait) l1 ->
    view P_schedstat s' = up_or_down (b P_schedstat) l2 -> (CONFIG_TRACE_BPF_EVENT = false -> l2 = false) ->
    wp bpf_off (fun _ s2 => forall p, view p s2 = up_or_down (b p) false) s').
  { intros s' l1 l2 H1 H2 Hc. unfold bpf_off. apply wp_bind.
    eapply wp_mono; [eapply (frames_wp (keeps (view P_schedstat)));
      [by apply stop_bpf_other|by eapply stop_bpf_spec]|].
    intros [] s1 [Hs1 Hk1]. unfold keeps in Hk1. destruct CONFIG_TRACE_BPF_EVENT.
    - eapply wp_mono; [eapply (frames_wp (keeps (view P_sigwait)));
        [by apply stop_bpf_other|eapply stop_bpf_spec; by rewrite Hk1]|].
      intros [] s2 [Hs2 Hk2]. unfold keeps in Hk2. intros []; congruence.
    - apply wp_ret. rewrite Hc in H2 by done. intros []; congruence. }
  eapply wp_mono; [eapply (frames_wp (keeps (view P_schedstat)));
    [by apply start_bpf_other|by apply start_bpf_spec]|].
  intros r s1 [(l1 & H1 & Hr) Hk]. unfold keeps in Hk.
  assert (Hd : view P_schedstat s1 = up_or_down (b P_schedstat) false) by (by rewrite Hk).
  destruct (r <? 0).
  { apply wp_ret. split_and!; [done| |done|by eapply Hoff].
    intros []; eauto. }
  destruct CONFIG_TRACE_BPF_EVENT eqn:Ec.
  - apply wp_bind. eapply wp_mono; [eapply (frames_wp (keeps (view P_sigwait)));
      [by apply start_bpf_other|by apply start_bpf_spec]|].
    intros r2 s2 [(l2 & H2 & _) Hk2]. unfold keeps in Hk2. apply wp_ret. rewrite H1 in Hk2.
    split_and!; [done| |done|by eapply Hoff]. intros []; eauto.
  - apply wp_ret. split_and!; [done| |done|by eapply Hoff]. intros []; eauto.
Qed.

End bpf_props.

(** *** Witness *)

(** A kernel that cannot start the polling thread of schedstat. *)
Definition no_thread_kernel : Kernel :=
  {| kresp := fun _ _ c =>
       match c in call A return A with
       | PthreadCreate P_schedstat => 11
       | c => default_reply c
       end |}.
Definition zero_ints : IntJunk.
Proof. refine {| ij := fun _ => 0 |}. intros _. split; [discriminate|reflexivity]. Defined.

Lemma bpf_on_off_witness :
  wp (bpf_on (K := no_thread_kernel) (BC := {| CONFIG_TRACE_BPF_EVENT := true |}) (IJ := zero_ints))
    (fun r s' => r = 0 /\ exists l, view P_schedstat s' = up_or_down (0, 0, 0) l) nstate_init.
Proof.
  eapply wp_mono.
  - apply (bpf_on_off (K := no_thread_kernel) (BC := {| CONFIG_TRACE_BPF_EVENT := true |})
             (IJ := zero_ints) (fun _ => (0, 0, 0)) nstate_init).
    intros []; reflexivity.
  - intros r s' (-> & H & _). split; [done|]. apply H.
Defined.
