(* ===== verification/BpfProgs.v ===== *)
(** * The BPF programs (timpani-n/src/sigwait.bpf.c, schedstat.bpf.c)

    The programs run in the kernel at tracepoints.  Their maps are finite maps
    with the declared capacity; the ring buffer is the list of events
    submitted, oldest first.  Whether a reservation in the ring buffer
    succeeds is part of the input of a run.  The same sigwait program is
    shipped again under timpani_rust/timpani-n/src/bpf. *)

From S2P Require Import Prelude Time Types.

(** ** Maps *)

Definition map_max_entries : nat := 1024.

Definition bpf_map_lookup_elem {V} (m : gmap Z V) (k : Z) : option V := m !! k.

(** [BPF_ANY]; inserting a new key into a full map fails. *)
Definition bpf_map_update_elem {V} (m : gmap Z V) (k : Z) (v : V) : gmap Z V :=
  match m !! k with
  | Some _ => <[k := v]> m
  | None => if (size m <? map_max_entries)%nat then <[k := v]> m else m
  end.

Definition bpf_map_delete_elem {V} (m : gmap Z V) (k : Z) : gmap Z V := delete k m.

(** ** sigwait.bpf.c *)

Record sigwait_prog := mk_sigwait_prog {
  sw_pid_filter_map : gmap Z Z;
  sw_buffer : list sigwait_event;
}.
#[export] Instance eta_sigwait_prog : Eta sigwait_prog := fun r =>
  mk_sigwait_prog (sw_pid_filter_map r) (sw_buffer r).

(** A tracepoint hit: clock, [bpf_get_current_pid_tgid()] and whether
    [bpf_ringbuf_reserve] finds room. *)
Record tp_hit := mk_tp_hit { tp_now : Z; tp_pid_tgid : Z; tp_room : bool }.

(** Common body of the two handlers; [enter] is the constant each stores. *)
Definition handle_sigtimedwait (enter : Z) (h : tp_hit) (p : sigwait_prog) : Z * sigwait_prog :=
  let pid := i32 (tp_pid_tgid h) in
  let tgid := i32 (Z.shiftr (tp_pid_tgid h) 32) in
  match bpf_map_lookup_elem (sw_pid_filter_map p) pid with
  | Some _ =>
      if tp_room h then
        (0, p <| sw_buffer ::= fun b => b ++ [mk_sigwait_event pid tgid (tp_now h) enter] |>)
      else (1, p)
  | None => (0, p)
  end.

Definition handle_sys_enter_rt_sigtimedwait : tp_hit -> sigwait_prog -> Z * sigwait_prog :=
  handle_sigtimedwait 1.
Definition handle_sys_exit_rt_sigtimedwait : tp_hit -> sigwait_prog -> Z * sigwait_prog :=
  handle_sigtimedwait 0.

(** ** schedstat.bpf.c *)

Record sched_time := mk_sched_time { sm_ts_wakeup : Z; sm_ts_start : Z }.

Record schedstat_prog := mk_schedstat_prog {
  sp_pid_filter_map : gmap Z Z;
  sp_buffer : list schedstat_event;
  sp_sched_waking_map : gmap Z sched_time;
  sp_sched_switch_map : gmap Z sched_time;
}.
#[export] Instance eta_schedstat_prog : Eta schedstat_prog := fun r =>
  mk_schedstat_prog (sp_pid_filter_map r) (sp_buffer r) (sp_sched_waking_map r)
    (sp_sched_switch_map r).

Definition TASK_RUNNING : Z := 0.

(** [junk] is the value of the member the program leaves uninitialized. *)
Definition sched_waking (now pid junk : Z) (p : schedstat_prog) : Z * schedstat_prog :=
  match bpf_map_lookup_elem (sp_pid_filter_map p) pid with
  | None => (0, p)
  | Some _ =>
      (0, p <| sp_sched_waking_map ::= fun m => bpf_map_update_elem m pid (mk_sched_time now junk) |>)
  end.

(** The part of [sched_switch] for the task that is scheduled out; [None]
    when it returns early. *)
Definition switch_out (now cpu prev prev_state junk : Z) (room : bool) (p : schedstat_prog)
    : option schedstat_prog :=
  match bpf_map_lookup_elem (sp_sched_switch_map p) prev with
  | None => Some p
  | Some pdata =>
      if room then
        let p := p <| sp_buffer ::= fun b =>
          b ++ [mk_schedstat_event prev cpu (sm_ts_wakeup pdata) (sm_ts_start pdata) now] |> in
        let p := if prev_state =? TASK_RUNNING
                 then p <| sp_sched_waking_map ::= fun m =>
                        bpf_map_update_elem m prev (mk_sched_time (sm_ts_wakeup pdata) junk) |>
                 else p in
        Some (p <| sp_sched_switch_map ::= fun m => bpf_map_delete_elem m prev |>)
      else None
  end.

(** The part for the task that is scheduled in. *)
Definition switch_in (now next : Z) (p : schedstat_prog) : schedstat_prog :=
  match bpf_map_lookup_elem (sp_pid_filter_map p) next with
  | None => p
  | Some _ =>
      match bpf_map_lookup_elem (sp_sched_waking_map p) next with
      | None => p
      | Some pdata =>
          p <| sp_sched_switch_map ::= fun m =>
                 bpf_map_update_elem m next (mk_sched_time (sm_ts_wakeup pdata) now) |>
            <| sp_sched_waking_map ::= fun m => bpf_map_delete_elem m next |>
      end
  end.

Definition sched_switch (now cpu prev prev_state next junk : Z) (room : bool) (p : schedstat_prog)
    : Z * schedstat_prog :=
  match switch_out now cpu prev prev_state junk room p with
  | None => (1, p)
  | Some p => (0, switch_in now next p)
  end.

(** ** The sigwait program *)

(** The sigwait program reports exactly the hits of registered threads
    for which the ring buffer has room, one event per hit and in order, with
    the thread id, the process id, the time of the hit and whether the thread
    entered or left the wait; unregistered threads leave no trace. *)
Theorem sigwait_events (hits : list (bool * tp_hit)) p :
  let handle (h : bool * tp_hit) := if fst h then handle_sys_enter_rt_sigtimedwait (snd h)
                                    else handle_sys_exit_rt_sigtimedwait (snd h) in
  let p' := foldl (fun p h => snd (handle h p)) p hits in
  sw_pid_filter_map p' = sw_pid_filter_map p /\
  sw_buffer p' = sw_buffer p ++
    omap (fun '(enter, h) =>
      if bool_decide (is_Some (sw_pid_filter_map p !! i32 (tp_pid_tgid h))) && tp_room h
      then Some (mk_sigwait_event (i32 (tp_pid_tgid h)) (i32 (Z.shiftr (tp_pid_tgid h) 32))
                   (tp_now h) (if enter : bool then 1 else 0))
      else None) hits.
Proof.
  intros handle. simpl. revert p. induction hits as [|[enter h] hits IH]; intros p; simpl.
  { by rewrite app_nil_r. }
  destruct (IH (snd (handle (enter, h) p))) as [Hm Hb]. rewrite Hm, Hb.
  assert (E : handle (enter, h) p = handle_sigtimedwait (if enter then 1 else 0) h p)
    by (by destruct enter). rewrite E. unfold handle_sigtimedwait, bpf_map_lookup_elem.
  destruct (sw_pid_filter_map p !! i32 (tp_pid_tgid h)) as [v|] eqn:El; simpl.
  - destruct (tp_room h); simpl; [|done]. split; [done|]. by rewrite <- app_assoc.
  - done.
Qed.

(** ** The schedstat programs on several CPUs

    A run of a program reads the clock when it is entered and uses the maps
    afterwards, while programs run on other CPUs and user space adds and
    removes threads.  A run is therefore a list of accesses; a value in a
    constructor is one the run has looked up. *)

(** The arguments of a switch; [sw_room]: the ring buffer has room. *)
Record switch_args := mk_switch_args {
  sw_cpu : Z; sw_prev : Z; sw_state : Z; sw_next : Z; sw_junk : Z; sw_room : bool
}.

(** The next access of a run. *)
Inductive ipc :=
  | W_filter (pid junk : Z)                      (** [sched_waking]: look the thread up *)
  | W_store (pid junk : Z)                       (** store the time of the wake-up *)
  | S_out (a : switch_args)                      (** [sched_switch]: look [prev] up, submit the event *)
  | S_waking (a : switch_args) (d : sched_time)  (** preempted: [prev] is awake since then *)
  | S_clear (a : switch_args)                    (** forget the start of [prev] *)
  | S_filter (a : switch_args)                   (** look [next] up *)
  | S_lookup (a : switch_args)                   (** look its wake-up up *)
  | S_store (a : switch_args) (d : sched_time)   (** store its start *)
  | S_drop (a : switch_args)                     (** forget its wake-up *)
  | I_done.

(** One access of a run that read the clock at [now]; [None] at the end. *)
Definition istep (now : Z) (pc : ipc) (p : schedstat_prog) : option (schedstat_prog * ipc) :=
  match pc with
  | W_filter pid junk =>
      Some (p, match bpf_map_lookup_elem (sp_pid_filter_map p) pid with None => I_done | Some _ => W_store pid junk end)
  | W_store pid junk =>
      Some (p <| sp_sched_waking_map ::= fun m => bpf_map_update_elem m pid (mk_sched_time now junk) |>, I_done)
  | S_out a =>
      match bpf_map_lookup_elem (sp_sched_switch_map p) (sw_prev a) with
      | None => Some (p, S_filter a)
      | Some d =>
          if sw_room a then
            Some (p <| sp_buffer ::= fun b =>
                    b ++ [mk_schedstat_event (sw_prev a) (sw_cpu a) (sm_ts_wakeup d) (sm_ts_start d) now] |>,
                  if sw_state a =? TASK_RUNNING then S_waking a d else S_clear a)
          else Some (p, I_done)
      end
  | S_waking a d =>
      Some (p <| sp_sched_waking_map ::= fun m =>
              bpf_map_update_elem m (sw_prev a) (mk_sched_time (sm_ts_wakeup d) (sw_junk a)) |>, S_clear a)
  | S_clear a => Some (p <| sp_sched_switch_map ::= fun m => bpf_map_delete_elem m (sw_prev a) |>, S_filter a)
  | S_filter a =>
      Some (p, match bpf_map_lookup_elem (sp_pid_filter_map p) (sw_next a) with None => I_done | Some _ => S_lookup a end)
  | S_lookup a =>
      Some (p, match bpf_map_lookup_elem (sp_sched_waking_map p) (sw_next a) with None => I_done | Some d => S_store a d end)
  | S_store a d =>
      Some (p <| sp_sched_switch_map ::= fun m =>
              bpf_map_update_elem m (sw_next a) (mk_sched_time (sm_ts_wakeup d) now) |>, S_drop a)
  | S_drop a => Some (p <| sp_sched_waking_map ::= fun m => bpf_map_delete_elem m (sw_next a) |>, I_done)
  | I_done => None
  end.

Fixpoint irun (fuel : nat) (now : Z) (pc : ipc) (p : schedstat_prog) : schedstat_prog * ipc :=
  match fuel with
  | O => (p, pc)
  | S fuel => match istep now pc p with None => (p, pc) | Some (p, pc) => irun fuel now pc p end
  end.

(** Alone, a run does what the program text says, within nine accesses. *)
Lemma irun_waking now pid junk p : irun 9 now (W_filter pid junk) p = (snd (sched_waking now pid junk p), I_done).
Proof. unfold sched_waking. cbn. by destruct (bpf_map_lookup_elem (sp_pid_filter_map p) pid). Qed.

Lemma irun_S n now pc p :
  irun (S n) now pc p = match istep now pc p with None => (p, pc) | Some (p, pc) => irun n now pc p end.
Proof. done. Qed.

Lemma irun_switch_in n now a p :
  (4 <= n)%nat -> irun n now (S_filter a) p = (switch_in now (sw_next a) p, I_done).
Proof.
  intros Hn. destruct n as [|[|[|[|n]]]]; try lia. unfold switch_in. cbn [irun istep].
  destruct (bpf_map_lookup_elem (sp_pid_filter_map p) (sw_next a)); [|by destruct n].
  cbn [irun istep]. destruct (bpf_map_lookup_elem (sp_sched_waking_map p) (sw_next a)); by destruct n.
Qed.

Lemma irun_switch now a p :
  irun 9 now (S_out a) p =
    (snd (sched_switch now (sw_cpu a) (sw_prev a) (sw_state a) (sw_next a) (sw_junk a) (sw_room a) p), I_done).
Proof.
  unfold sched_switch, switch_out. destruct a as [cpu prev state next junk room].
  cbn [sw_cpu sw_prev sw_state sw_next sw_junk sw_room].
  rewrite irun_S. cbn [istep sw_prev sw_room sw_state sw_cpu].
  destruct (bpf_map_lookup_elem (sp_sched_switch_map p) prev) as [d|]; [|apply irun_switch_in; lia].
  destruct room; [|done].
  destruct (state =? TASK_RUNNING).
  - do 2 (rewrite irun_S; cbn [istep sw_prev sw_junk]). apply irun_switch_in. lia.
  - rewrite irun_S. cbn [istep sw_prev]. apply irun_switch_in. lia.
Qed.

(** The threads a run switches, and the one it wakes. *)
Definition sw_keys (pc : ipc) : list Z :=
  match pc with
  | S_out a | S_waking a _ | S_clear a | S_filter a | S_lookup a | S_store a _ | S_drop a => [sw_prev a; sw_next a]
  | _ => []
  end.
Definition wk_keys (pc : ipc) : list Z := match pc with W_filter pid _ | W_store pid _ => [pid] | _ => [] end.

Record inst := mk_inst { in_now : Z; in_pc : ipc }.

(** The clock, the maps, and the runs that have been entered. *)
Record sched_state := mk_sched_state { sc_clock : Z; sc_prog : schedstat_prog; sc_runs : list inst }.

(** The kernel switches a thread in and out one at a time: no two runs switch
    the same thread, apart from the idle threads, which all have number 0.
    [serial]: moreover no thread is woken while a run that switches it is
    under way. *)
Definition compatible (serial : bool) (x y : ipc) : Prop :=
  forall k, k <> 0 -> k ∈ sw_keys x -> (k ∉ sw_keys y) /\ (serial = true -> k ∉ wk_keys y).

Definition may_enter (serial : bool) (pc : ipc) (l : list inst) : Prop :=
  Forall (fun y => compatible serial pc (in_pc y) /\ compatible serial (in_pc y) pc) l.

Inductive sched_step (serial : bool) : sched_state -> sched_state -> Prop :=
  | step_tick c c' p l : c <= c' -> sched_step serial (mk_sched_state c p l) (mk_sched_state c' p l)
  | step_waking c p l pid junk :
      may_enter serial (W_filter pid junk) l ->
      sched_step serial (mk_sched_state c p l) (mk_sched_state c p (l ++ [mk_inst c (W_filter pid junk)]))
  | step_switch c p l a :
      may_enter serial (S_out a) l ->
      sched_step serial (mk_sched_state c p l) (mk_sched_state c p (l ++ [mk_inst c (S_out a)]))
  | step_access c p l i x p' pc' :
      l !! i = Some x -> istep (in_now x) (in_pc x) p = Some (p', pc') ->
      sched_step serial (mk_sched_state c p l) (mk_sched_state c p' (<[i := mk_inst (in_now x) pc']> l))
  | step_add c p l pid :
      pid <> 0 ->
      sched_step serial (mk_sched_state c p l)
        (mk_sched_state c (p <| sp_pid_filter_map ::= fun m => bpf_map_update_elem m pid 1 |>) l)
  | step_del c p l pid :
      sched_step serial (mk_sched_state c p l)
        (mk_sched_state c (p <| sp_pid_filter_map ::= fun m => bpf_map_delete_elem m pid |>) l).

(** ** Invariant *)

(** What is in the maps: threads other than 0, starts in the past, and in a
    serial run wake-ups before the starts. *)
Record maps_ok (serial : bool) (c : Z) (p : schedstat_prog) : Prop := {
  mo_filter : forall k v, sp_pid_filter_map p !! k = Some v -> k <> 0;
  mo_waking : forall k d, sp_sched_waking_map p !! k = Some d -> k <> 0 /\ (serial = true -> sm_ts_wakeup d <= c);
  mo_switch : forall k d, sp_sched_switch_map p !! k = Some d ->
    k <> 0 /\ sm_ts_start d <= c /\ (serial = true -> sm_ts_wakeup d <= sm_ts_start d);
  mo_buffer : Forall (fun e => ss_ts_start e <= ss_ts_stop e /\ (serial = true -> ss_ts_wakeup e <= ss_ts_start e))
    (sp_buffer p);
}.

(** [next] has still to be looked up. *)
Definition early (pc : ipc) : option Z :=
  match pc with
  | S_out a | S_waking a _ | S_clear a | S_filter a | S_lookup a => Some (sw_next a)
  | _ => None
  end.

(** What a run at [pc], entered at [now], relies on. *)
Record inst_ok (serial : bool) (c : Z) (p : schedstat_prog) (now : Z) (pc : ipc) : Prop := {
  io_now : now <= c;
  io_pc : match pc with
          | W_store pid _ => pid <> 0
          | S_out a => forall d, sp_sched_switch_map p !! sw_prev a = Some d -> sm_ts_start d <= now
          | S_waking a d => sw_prev a <> 0 /\ sm_ts_start d <= now /\ (serial = true -> sm_ts_wakeup d <= sm_ts_start d)
          | S_clear a => sw_prev a <> 0
          | S_lookup a | S_drop a => sw_next a <> 0
          | S_store a d => sw_next a <> 0 /\ (serial = true -> sm_ts_wakeup d <= now)
          | _ => True
          end;
  io_early : forall k d, serial = true -> early pc = Some k -> sp_sched_waking_map p !! k = Some d ->
    sm_ts_wakeup d <= now;
}.

Record sched_inv (serial : bool) (st : sched_state) : Prop := {
  si_maps : maps_ok serial (sc_clock st) (sc_prog st);
  si_runs : forall i x, sc_runs st !! i = Some x -> inst_ok serial (sc_clock st) (sc_prog st) (in_now x) (in_pc x);
  si_apart : forall i j x y, i <> j -> sc_runs st !! i = Some x -> sc_runs st !! j = Some y ->
    compatible serial (in_pc x) (in_pc y);
}.

Lemma lookup_update {V} (m : gmap Z V) k v j d :
  bpf_map_update_elem m k v !! j = Some d -> m !! j = Some d \/ j = k /\ d = v.
Proof.
  unfold bpf_map_update_elem. destruct (m !! k); [|destruct (_ <? _)%nat; [|auto]];
    (destruct (decide (j = k)) as [->|]; [rewrite lookup_insert_eq; intros [= <-]; auto|
      rewrite lookup_insert_ne by done; auto]).
Qed.

Lemma lookup_delete_inv {V} (m : gmap Z V) k j d : bpf_map_delete_elem m k !! j = Some d -> m !! j = Some d.
Proof. unfold bpf_map_delete_elem. intros [_ H]%lookup_delete_Some. exact H. Qed.

(** The keys an access may write with a value that is not there yet. *)
Definition new_switch (pc : ipc) (p p' : schedstat_prog) : Prop := forall k d,
  sp_sched_switch_map p' !! k = Some d -> sp_sched_switch_map p !! k = Some d \/ k <> 0 /\ k ∈ sw_keys pc.
Definition new_waking (pc : ipc) (p p' : schedstat_prog) : Prop := forall k d,
  sp_sched_waking_map p' !! k = Some d -> sp_sched_waking_map p !! k = Some d \/ k <> 0 /\ (k ∈ sw_keys pc \/ k ∈ wk_keys pc).

Ltac key_tac := cbn; try solve [auto | clear; set_solver].

(** An access keeps the maps in order and leaves the run in order. *)
Lemma istep_ok serial c p now pc p' pc' :
  maps_ok serial c p -> inst_ok serial c p now pc -> istep now pc p = Some (p', pc') ->
  maps_ok serial c p' /\ inst_ok serial c p' now pc' /\ new_switch pc p p' /\ new_waking pc p p' /\
  (forall k, k ∈ sw_keys pc' -> k ∈ sw_keys pc) /\ (forall k, k ∈ wk_keys pc' -> k ∈ wk_keys pc).
Proof.
  intros [Mf Mw Ms Mb] [In Ip Ie]. unfold new_switch, new_waking.
  destruct pc as [pid junk|pid junk|a|a d|a|a|a|a d|a|]; cbn [istep]; unfold bpf_map_lookup_elem.
  - destruct (sp_pid_filter_map p !! pid) as [v|] eqn:E; intros [= <- <-]; (split; [by split|]);
      (split; [split; cbn; try done; by eapply Mf|]); split_and!; key_tac.
  - intros [= <- <-]. split; [split; cbn; try done|]; [|split; [by split|]].
    + intros k d [H|[-> ->]]%lookup_update; [by apply Mw|]. cbn. auto.
    + split_and!; key_tac. intros k d [H|[-> ->]]%lookup_update; [auto|]. right. split; [done|]. clear. set_solver.
  - destruct (sp_sched_switch_map p !! sw_prev a) as [d|] eqn:E.
    + destruct (Ms _ _ E) as (Hk & Hc & Hs). specialize (Ip d eq_refl).
      destruct (sw_room a); [|intros [= <- <-]; split; [by split|split; [by split|split_and!; key_tac]]].
      intros [= <- <-]. split; [split; cbn; try done|].
      { apply Forall_app. split; [done|]. by repeat constructor. }
      destruct (sw_state a =? TASK_RUNNING); (split; [split; cbn; done|split_and!; key_tac]).
    + intros [= <- <-]. split; [by split|]. split; [split; cbn; done|]. split_and!; key_tac.
  - intros [= <- <-]. destruct Ip as (Hk & Hst & Hs). split; [split; cbn; try done|]; [|split; [split; cbn; try done|]].
    + intros k e [H|[-> ->]]%lookup_update; [by apply Mw|]. cbn. split; [done|]. intros S. specialize (Hs S). lia.
    + intros k e S [= <-] [H|[_ ->]]%lookup_update; [by eapply Ie|]. cbn. specialize (Hs S). lia.
    + split_and!; key_tac. intros k e [H|[-> ->]]%lookup_update; [auto|]. right. split; [done|]. clear. set_solver.
  - intros [= <- <-]. split; [split; cbn; try done|]; [|split; [split; cbn; done|]].
    + intros k d H%lookup_delete_inv. by apply Ms.
    + split_and!; key_tac. intros k d H%lookup_delete_inv. auto.
  - destruct (sp_pid_filter_map p !! sw_next a) as [v|] eqn:E; intros [= <- <-]; (split; [by split|]);
      (split; [split; cbn; try done; by eapply Mf|]); split_and!; key_tac.
  - destruct (sp_sched_waking_map p !! sw_next a) as [d|] eqn:E; intros [= <- <-]; (split; [by split|]);
      [split; [split; cbn; try done|]|split; [by split|]]; try (split_and!; key_tac).
    intros S. by eapply Ie.
  - intros [= <- <-]. destruct Ip as [Hk Hs]. split; [split; cbn; try done|]; [|split; [by split|]].
    + intros k e [H|[-> ->]]%lookup_update; [by apply Ms|]. cbn. auto.
    + split_and!; key_tac. intros k e [H|[-> ->]]%lookup_update; [auto|]. right. split; [done|]. clear. set_solver.
  - intros [= <- <-]. split; [split; cbn; try done|]; [|split; [by split|]].
    + intros k d H%lookup_delete_inv. by apply Mw.
    + split_and!; key_tac. intros k d H%lookup_delete_inv. auto.
  - done.
Qed.

(** An access of another run does not disturb a run it is compatible with. *)
Lemma inst_ok_other serial c p p' now pc pc0 :
  inst_ok serial c p now pc -> compatible serial pc0 pc -> compatible serial pc pc0 ->
  new_switch pc0 p p' -> new_waking pc0 p p' -> inst_ok serial c p' now pc.
Proof.
  intros [In Ip Ie] Hc Hc' Hs Hw. split; [done| |].
  - destruct pc as [|? ?|a| | | | | | |]; try done. intros d [H|[Hk Hin]]%Hs; [by apply Ip|].
    exfalso. apply (proj1 (Hc _ Hk Hin)). cbn. set_solver.
  - intros k d S E [H|[Hk Hin]]%Hw; [by eapply Ie|]. exfalso.
    assert (k ∈ sw_keys pc) as Hp by (clear -E; destruct pc; simplify_eq/=; set_solver).
    destruct (Hc' k Hk Hp) as [H1 H2]. destruct Hin as [Hin|Hin]; [by apply H1|by apply (H2 S)].
Qed.

Lemma maps_ok_later serial c c' p : c <= c' -> maps_ok serial c p -> maps_ok serial c' p.
Proof.
  intros Hle [Mf Mw Ms Mb]. split; [done| | |done].
  - intros k d [H1 H2]%Mw. split; [done|]. intros S. specialize (H2 S). lia.
  - intros k d (H1 & H2 & H3)%Ms. split_and!; [done|lia|done].
Qed.

Lemma enter_inv serial c p l pc :
  sched_inv serial (mk_sched_state c p l) -> may_enter serial pc l -> inst_ok serial c p c pc ->
  sched_inv serial (mk_sched_state c p (l ++ [mk_inst c pc])).
Proof.
  intros [Hm Hr Ha] He Hpc. split; cbn in *; [done| |].
  - intros i x [H|[_ H]]%lookup_app_Some; [by eapply Hr|]. apply list_lookup_singleton_Some in H as [_ <-]. done.
  - unfold may_enter in He. rewrite Forall_lookup in He.
    intros i j x y Hij [Hx|[Hi Hx]]%lookup_app_Some [Hy|[Hj Hy]]%lookup_app_Some;
      rewrite ?list_lookup_singleton_Some in *.
    + by eapply Ha.
    + destruct Hy as [_ <-]. by apply (He i x).
    + destruct Hx as [_ <-]. by apply (He j y).
    + destruct Hx, Hy. lia.
Qed.

Lemma sched_step_inv serial st st' : sched_step serial st st' -> sched_inv serial st -> sched_inv serial st'.
Proof.
  intros Hs Hi. destruct Hs as [c c' p l Hle|c p l pid junk He|c p l a He|c p l i x p' pc' Hx E|c p l pid Hp|c p l pid].
  - destruct Hi as [Hm Hr Ha]. split; cbn in *; [by eapply maps_ok_later| |done].
    intros i x Hx. destruct (Hr i x Hx) as [H1 H2 H3]. split; [lia|done|done].
  - eapply enter_inv; [done|done|]. by split.
  - eapply enter_inv; [done|done|]. destruct Hi as [Hm _ _]. cbn in Hm. split; [lia| |].
    + intros d Hd. apply (mo_switch _ _ _ Hm _ _ Hd).
    + intros k d S _ Hd. by apply (mo_waking _ _ _ Hm _ _ Hd).
  - destruct Hi as [Hm Hr Ha]. cbn in *.
    destruct (istep_ok serial c p _ _ p' pc' Hm (Hr i x Hx) E) as (Hm' & Hx' & Hs & Hw & Hk & Hk'). split; cbn; [done| |].
    + intros j y [(-> & <- & _)|[Hne Hy]]%list_lookup_insert_Some; [done|].
      apply (inst_ok_other serial c p p' _ _ (in_pc x) (Hr j y Hy) (Ha i j x y Hne Hx Hy) (Ha j i y x (not_eq_sym Hne) Hy Hx) Hs Hw).
    + assert (forall j y, i <> j -> l !! j = Some y ->
        compatible serial pc' (in_pc y) /\ compatible serial (in_pc y) pc') as Hp.
      { intros j y Hne Hy. split.
        - intros k Hk0 Hin. by apply (Ha i j x y Hne Hx Hy k Hk0), Hk.
        - intros k Hk0 Hin. destruct (Ha j i y x (not_eq_sym Hne) Hy Hx k Hk0 Hin) as [H1 H2]. split; [auto|].
          intros S Hin'. by apply (H2 S), Hk'. }
      intros j1 j2 y1 y2 Hne [(-> & <- & _)|[H1 Hy1]]%list_lookup_insert_Some
        [(-> & <- & _)|[H2 Hy2]]%list_lookup_insert_Some; cbn; [done| | |by apply (Ha j1 j2)].
      * by apply (Hp j2).
      * by apply (Hp j1).
  - destruct Hi as [[Mf Mw Ms Mb] Hr Ha]. split; cbn in *; [split; cbn; try done| |done].
    + intros k v [H|[-> _]]%lookup_update; [by eapply Mf|done].
    + intros i x Hx. destruct (Hr i x Hx). by split.
  - destruct Hi as [[Mf Mw Ms Mb] Hr Ha]. split; cbn in *; [split; cbn; try done| |done].
    + intros k v H%lookup_delete_inv. by eapply Mf.
    + intros i x Hx. destruct (Hr i x Hx). by split.
Qed.

Definition schedstat_init : schedstat_prog := mk_schedstat_prog ∅ [] ∅ ∅.

(** The programs are loaded at time [c]. *)
Definition loaded (c : Z) : sched_state := mk_sched_state c schedstat_init [].

Lemma reachable_inv serial c st : rtc (sched_step serial) (loaded c) st -> sched_inv serial st.
Proof.
  intros Hr. refine (rtc_ind_r (fun st => sched_inv serial st) (loaded c) _ _ st Hr).
  - by split; cbn.
  - intros y z _ Hyz Hy. by eapply sched_step_inv.
Qed.

(** ** A wake-up that overtakes a switch *)

Lemma one_access serial c p l i x p' pc' st :
  l !! i = Some x -> istep (in_now x) (in_pc x) p = Some (p', pc') ->
  rtc (sched_step serial) (mk_sched_state c p' (<[i := mk_inst (in_now x) pc']> l)) st ->
  rtc (sched_step serial) (mk_sched_state c p l) st.
Proof. intros Hx E. apply rtc_l. by apply (step_access serial c p l i x). Qed.

Lemma update_first {V} k (v : V) : bpf_map_update_elem ∅ k v = {[k := v]}.
Proof. unfold bpf_map_update_elem. by rewrite lookup_empty. Qed.

Lemma lookup_first {V} k (v : V) : bpf_map_lookup_elem {[k := v]} k = Some v.
Proof. apply lookup_singleton_eq. Qed.

Lemma lookup_nothing {V} k : bpf_map_lookup_elem (∅ : gmap Z V) k = None.
Proof. apply lookup_empty. Qed.

#[local] Arguments bpf_map_lookup_elem : simpl never.
#[local] Arguments bpf_map_update_elem : simpl never.

Ltac access i := eapply (one_access _ _ _ _ i);
  [reflexivity|cbn; rewrite ?update_first, ?lookup_first, ?lookup_nothing; reflexivity|]; cbn.

(** Thread [k] is switched in at [t0]; on another CPU it is woken at [t1]
    before the switch has looked the wake-up up; it is switched out at [t2]. *)
Lemma wakeup_overtakes k t0 t1 t2 :
  k <> 0 -> t0 <= t1 -> t1 <= t2 ->
  exists st, rtc (sched_step false) (loaded t0) st /\
    sp_buffer (sc_prog st) = [mk_schedstat_event k 0 t1 t0 t2].
Proof.
  intros Hk H1 H2. set (a := mk_switch_args 0 0 0 k 0 true). set (b := mk_switch_args 0 k 1 0 0 true).
  eexists. split.
  { eapply rtc_l; [apply (step_add _ _ _ _ k Hk)|].
    eapply rtc_l; [apply (step_switch _ _ _ _ a); constructor|].
    eapply rtc_l; [by apply (step_tick _ t0 t1)|].
    eapply rtc_l; [apply (step_waking _ _ _ _ k 0); repeat constructor; cbn; set_solver|].
    cbn. access 0%nat. access 1%nat. access 1%nat. access 0%nat. access 0%nat. access 0%nat. access 0%nat.
    eapply rtc_l; [by apply (step_tick _ t1 t2)|].
    eapply rtc_l; [apply (step_switch _ _ _ _ b); repeat constructor; cbn; set_solver|].
    cbn. access 2%nat. reflexivity. }
  done.
Qed.

(** C33: The schedstat programs run on several CPUs; each reads the clock when it
    is entered and uses the maps afterwards, access by access, while others run
    and user space adds and removes threads (never thread 0); undisturbed, the
    accesses do what the program does as a whole.  The kernel switches a thread
    in and out one at a time.  Then, with any losses in the ring buffer and the
    maps, every statistics event has its start not after its stop, so the run
    time that user space derives by unsigned subtraction never wraps around.
    If moreover no thread is woken while a run that switches it is under way,
    the wake-up is not after the start, so the latency does not wrap around
    either.  Without that, it can: for any thread and times c < t1 <= t2 there
    is a run in which the wake-up of t1 overtakes the switch of c, and the event
    says woken at t1, started at c, stopped at t2. *)
Theorem schedstat_times_ordered c :
  (forall now pid junk p, irun 9 now (W_filter pid junk) p = (snd (sched_waking now pid junk p), I_done)) /\
  (forall now a p, irun 9 now (S_out a) p =
     (snd (sched_switch now (sw_cpu a) (sw_prev a) (sw_state a) (sw_next a) (sw_junk a) (sw_room a) p), I_done)) /\
  (forall st, rtc (sched_step false) (loaded c) st ->
     Forall (fun e => ss_ts_start e <= ss_ts_stop e) (sp_buffer (sc_prog st))) /\
  (forall st, rtc (sched_step true) (loaded c) st ->
     Forall (fun e => ss_ts_wakeup e <= ss_ts_start e <= ss_ts_stop e) (sp_buffer (sc_prog st))) /\
  (forall k t1 t2, k <> 0 -> c < t1 <= t2 ->
     exists st, rtc (sched_step false) (loaded c) st /\
       sp_buffer (sc_prog st) = [mk_schedstat_event k 0 t1 c t2]).
Proof.
  split_and!; [apply irun_waking|apply irun_switch| | |].
  - intros st [Hm _ _]%reachable_inv. eapply Forall_impl; [apply (mo_buffer _ _ _ Hm)|]. by intros e [? _].
  - intros st [Hm _ _]%reachable_inv. eapply Forall_impl; [apply (mo_buffer _ _ _ Hm)|].
    intros e [? Hs]. split; [by apply Hs|done].
  - intros k t1 t2 Hk Ht. apply wakeup_overtakes; [done|lia|lia].
Qed.

(** *** Witness *)

(** Thread 7 is registered, woken at 10, runs from 12 to 30 and is preempted,
    one program after the other. *)
Definition ex_sched : schedstat_prog :=
  snd (sched_switch 30 0 7 TASK_RUNNING 0 0 true
    (snd (sched_switch 12 0 0 TASK_RUNNING 7 0 true
      (snd (sched_waking 10 7 0
        (schedstat_init <| sp_pid_filter_map ::= fun m => bpf_map_update_elem m 7 1 |>)))))).

Example ex_sched_event : sp_buffer ex_sched = [mk_schedstat_event 7 0 10 12 30].
Proof. vm_compute. reflexivity. Qed.

Lemma schedstat_times_ordered_witness :
  exists st, rtc (sched_step false) (loaded 10) st /\ sp_buffer (sc_prog st) = [mk_schedstat_event 7 0 12 10 30] /\
    Forall (fun e => ss_ts_start e <= ss_ts_stop e) (sp_buffer (sc_prog st)).
Proof.
  destruct (schedstat_times_ordered 10) as (_ & _ & H1 & _ & H3).
  destruct (H3 7 12 30) as (st & Hr & E); [lia|lia|].
  exists st. split_and!; [exact Hr|exact E|exact (H1 st Hr)].
Defined.
