(* ===== verification/Task.v ===== *)
(** * Time-triggered task list (timpani-n/src/task.c)

    Turns the tasks of the schedule that belong to this node into the list
    [ctx->runtime.tt_list]: look up the process, set its affinity and
    scheduling, open its pidfd, register it with the BPF programs.
    [destroy_task_info_list] is in SchedInfo. *)

From S2P Require Import Prelude Time Types Kernel Sched TraceBpf SchedInfo.

Definition sizeof_time_trigger : Z := 208.

Section task.
Context {K : Kernel} {SJ : StackJunk} {BC : BuildConfig}.

(** A zeroed node with the task copied in; [None] for NULL. *)
Definition task_create_node (ti : task_info) : N (option time_trigger) :=
  p ← alloc sizeof_time_trigger;
  match p with
  | None => mret None
  | Some p => mret (Some (mk_time_trigger p 0 ti 0 0 0 ts_zero true))
  end.

(** Returns the status and the node as it is after the call. *)
Definition task_setup_process (tt_node : time_trigger) : N (tt_error_t * time_trigger) :=
  let task := tt_task tt_node in
  '(pid_result, pid) ← get_pid_by_name (Some (ti_name task)) true;
  if negb (ts_ok_code pid_result) then mret (TT_ERROR_CONFIG, tt_node)
  else
    _ ← set_affinity pid (i32 (ti_cpu_affinity task));
    _ ← set_schedattr pid (ti_sched_priority task) (ti_sched_policy task);
    let tt_node := tt_node <| tt_task ::= fun t => t <| ti_pid := u32 pid |> |> in
    '(pidfd_result, pidfd) ← create_pidfd pid (Some (ti_pidfd task));
    let tt_node := tt_node <| tt_task ::= fun t => t <| ti_pidfd := pidfd |> |> in
    if negb (ts_ok_code pidfd_result) then mret (TT_ERROR_CONFIG, tt_node)
    else
      _ ← bpf_add_pid pid;
      mret (TT_SUCCESS, tt_node).

(** The loop over the schedule; returns [success_count]. *)
Fixpoint task_list_loop (tasks : list (Z * task_info)) (success_count : Z) : N Z :=
  match tasks with
  | [] => mret success_count
  | (_, ti) :: tasks =>
      ctx ← get_ctx;
      if negb (strcmp_eq (cf_node_id (cx_config ctx)) (ti_node_id ti))
      then task_list_loop tasks success_count
      else
        n ← task_create_node ti;
        match n with
        | None => task_list_loop tasks success_count
        | Some tt_node =>
            '(r, tt_node) ← task_setup_process tt_node;
            if negb (tt_ok_code r) then
              sys (Free (tt_addr tt_node)) ;;
              task_list_loop tasks success_count
            else
              upd_rt (fun r => r <| rt_tt_list ::= cons tt_node |>) ;;
              upd_hp (fun h => h <| hp_tasks_in_hyperperiod ::= fun n => u32 (n + 1) |>) ;;
              task_list_loop tasks (success_count + 1)
        end
  end.

Definition init_task_list : N tt_error_t :=
  ctx ← get_ctx;
  success_count ← task_list_loop (si_tasks (rt_sched_info (cx_runtime ctx))) 0;
  mret (if success_count =? 0 then TT_ERROR_CONFIG else TT_SUCCESS).

End task.

(** ** Well-formed lists of nodes *)

(** pidfds opened minus closed. *)
Definition ev_pidfd (e : event) : Z :=
  match e with
  | Event (PidfdOpen _) r => if i32 r <? 0 then 0 else 1
  | Event (Close _) _ => -1
  | _ => 0
  end.

(** A node the program has set up: positive address and pid, an open pidfd,
    the context linked. *)
Definition node_ready (n : time_trigger) : Prop :=
  0 < tt_addr n /\ 0 < ti_pid (tt_task n) < 2 ^ 31 /\ 0 <= ti_pidfd (tt_task n) /\ tt_ctx n = true.

(** Nodes at distinct addresses below the next free one. *)
Definition nodes_wf (s : nstate) : Prop :=
  let l := rt_tt_list (cx_runtime (n_ctx s)) in
  0 < n_brk s /\ NoDup (tt_addr <$> l) /\ Forall (fun n => tt_addr n < n_brk s) l /\
  Forall node_ready l.

(** The task a node was made from, without what the set-up filled in. *)
Definition bare (t : task_info) : task_info := t <| ti_pid := 0 |> <| ti_pidfd := 0 |>.

Section task_lemmas.
Context {K : Kernel} {SJ : StackJunk} {BC : BuildConfig}.

(** Setting up a process touches no memory of the program but the node, and
    opens a pidfd exactly when it succeeds. *)
Definition outside (s : nstate) : context * Z * Z := (n_ctx s, n_brk s, tally_of ev_alloc s).
Definition outside_fd (s : nstate) : context * Z * Z * Z := (outside s, tally_of ev_pidfd s).

Lemma find_threads_by_name_outside name p : frames (keeps outside_fd) (find_threads_by_name name p).
Proof. unfold find_threads_by_name, get_thread_name. frames_tac. Qed.
#[local] Hint Resolve find_threads_by_name_outside : frames.

Lemma get_pid_by_name_outside name b : frames (keeps outside_fd) (get_pid_by_name name b).
Proof. unfold get_pid_by_name. frames_tac. Qed.

Lemma set_affinity_outside p c : frames (keeps outside_fd) (set_affinity p c).
Proof. unfold set_affinity. frames_tac. Qed.

Lemma set_schedattr_outside p a b : frames (keeps outside_fd) (set_schedattr p a b).
Proof. unfold set_schedattr. frames_tac. Qed.

Lemma bpf_add_pid_outside p : frames (keeps outside_fd) (bpf_add_pid p).
Proof. unfold bpf_add_pid. frames_tac. Qed.

(** Each of them only adds to the trace. *)
Abbreviation grows := (emits (fun _ => True)).

Lemma set_affinity_grows p c : frames grows (set_affinity p c).
Proof. unfold set_affinity. frames_tac. Qed.

Lemma set_schedattr_grows p a b : frames grows (set_schedattr p a b).
Proof. unfold set_schedattr. frames_tac. Qed.

Lemma bpf_add_pid_grows p : frames grows (bpf_add_pid p).
Proof. unfold bpf_add_pid. frames_tac. Qed.

(** None of them has undefined behaviour. *)
Lemma set_affinity_total p c s : wp (set_affinity p c) (fun _ _ => True) s.
Proof. unfold set_affinity. repeat first [wp_step | apply wp_sys]; done. Qed.

Lemma set_schedattr_total p a b s : wp (set_schedattr p a b) (fun _ _ => True) s.
Proof. unfold set_schedattr. repeat first [wp_step | apply wp_sys]; done. Qed.

Lemma bpf_add_pid_total p s : wp (bpf_add_pid p) (fun _ _ => True) s.
Proof. unfold bpf_add_pid. repeat first [wp_step | apply wp_sys]; done. Qed.

(** A pid the look-up reports is the number of a /proc entry. *)
Lemma entry_id_range e t : entry_id e = Some t -> 0 < t < 2 ^ 31.
Proof.
  unfold entry_id. destruct (d_is_dir e); [|done].
  destruct (Z.ltb_spec 0 (atoi (d_name e))); [|done]. intros [= <-].
  pose proof (atoi_range (d_name e)). range.
Qed.

Lemma find_threads_by_name_range name p s :
  wp (find_threads_by_name name p) (fun r _ => r = -1 \/ 0 < r < 2 ^ 31) s.
Proof.
  unfold find_threads_by_name, get_thread_name. apply wp_bind, wp_sys.
  destruct (kresp _ _) as [es|]; [|apply wp_ret; auto]. apply wp_bind.
  apply (wp_for_each _ _ (fun _ _ => True)); [done| |intros; apply wp_ret; auto].
  intros e l s1 _. destruct (entry_id e) as [t|] eqn:E; [|by apply wp_ret].
  apply entry_id_range in E. apply wp_bind, wp_get, wp_bind, wp_bind, wp_sys.
  destruct (kresp _ _); apply wp_ret; (destruct (strcmp_eq _ _); [|by apply wp_ret]);
    do 2 apply wp_ret; auto.
Qed.

Lemma get_pid_by_name_range name b s :
  wp (get_pid_by_name name b) (fun '(r, pid) _ => ts_ok_code r = true -> 0 < pid < 2 ^ 31) s.
Proof.
  unfold get_pid_by_name. destruct name as [name|], b; try by apply wp_ret.
  apply wp_bind, wp_sys. destruct (kresp _ _) as [es|]; [|by apply wp_ret]. apply wp_bind.
  apply (wp_for_each _ _ (fun _ _ => True)); [done| |by intros; apply wp_ret].
  intros e l s1 _. destruct (entry_id e) as [t|]; [|by apply wp_ret]. apply wp_bind.
  eapply wp_mono; [apply find_threads_by_name_range|]. intros r s2 Hr.
  destruct (Z.eqb_spec r (-1)) as [->|Hne]; simpl; [by apply wp_ret|].
  apply wp_ret. simpl. rewrite (proj2 (Z.eqb_neq _ _) Hne). apply wp_ret. by destruct Hr.
Qed.

(** What the set-up of one process gives. *)
Lemma task_setup_process_spec n s :
  0 < tt_addr n -> tt_ctx n = true ->
  wp (task_setup_process n) (fun '(r, n') s' =>
    outside s' = outside s /\ tt_addr n' = tt_addr n /\
    if tt_ok_code r then
      node_ready n' /\ bare (tt_task n') = bare (tt_task n) /\
      tally_of ev_pidfd s' = tally_of ev_pidfd s + 1
    else tally_of ev_pidfd s' = tally_of ev_pidfd s) s.
Proof.
  intros Ha Hctx. unfold task_setup_process. apply wp_bind.
  eapply wp_mono; [eapply frames_wp; [apply get_pid_by_name_outside|apply get_pid_by_name_range]|].
  intros [r pid] s1 [Hr [= Hc1 Hk1 Ho1 Hf1]].
  destruct (ts_ok_code r); simpl.
  2:{ apply wp_ret. unfold outside. simpl. split_and!; congruence. }
  specialize (Hr eq_refl). apply wp_bind.
  eapply wp_mono; [eapply frames_wp; [apply set_affinity_outside|apply set_affinity_total]|].
  intros _ s2 [_ [= Hc2 Hk2 Ho2 Hf2]]. apply wp_bind.
  eapply wp_mono; [eapply frames_wp; [apply set_schedattr_outside|apply set_schedattr_total]|].
  intros _ s3 [_ [= Hc3 Hk3 Ho3 Hf3]]. unfold create_pidfd. simpl.
  rewrite (proj2 (Z.leb_gt pid 0)) by lia. do 2 apply wp_bind. apply wp_sys.
  set (fd := kresp _ (PidfdOpen pid)). destruct (Z.ltb_spec (i32 fd) 0) as [Hlt|Hge]; apply wp_ret; simpl.
  - apply wp_ret. unfold outside, tally_of in *. simpl. rewrite (proj2 (Z.ltb_lt _ _) Hlt), ?Z.add_0_l.
    split_and!; [congruence|done|lia].
  - apply wp_bind. eapply wp_mono; [eapply frames_wp; [apply bpf_add_pid_outside|apply bpf_add_pid_total]|].
    intros _ s4 [_ [= Hc4 Hk4 Ho4 Hf4]]. apply wp_ret. simpl.
    unfold outside, node_ready, tally_of in *. simpl in *.
    rewrite (proj2 (Z.ltb_ge _ _) Hge) in Hf4. rewrite wrapu_id by range.
    rewrite ?Z.add_0_l in *. split_and!; try done; try lia; congruence.
Qed.

End task_lemmas.

(** ** The list that results *)

Section task_props.
Context {K : Kernel} {SJ : StackJunk} {BC : BuildConfig}.

Abbreviation tt_list_of s := (rt_tt_list (cx_runtime (n_ctx s))).
Abbreviation tasks_in s := (hp_tasks_in_hyperperiod (cx_hp (n_ctx s))).

(** The tasks of the schedule for this node. *)
Definition belongs (c : config) (ti : task_info) : Prop := cstr (cf_node_id c) = cstr (ti_node_id ti).
#[global] Instance belongs_dec c ti : Decision (belongs c ti).
Proof. unfold belongs. apply _. Defined.
Definition own_tasks (c : config) (tasks : list (Z * task_info)) : list task_info :=
  filter (belongs c) (tasks.*2).

(** The effect of adding the nodes [new]. *)
Definition added (new : list time_trigger) (s s' : nstate) : Prop :=
  tt_list_of s' = new ++ tt_list_of s /\ nodes_wf s' /\
  u32 (tasks_in s') = u32 (tasks_in s + blen new) /\
  tally_of ev_alloc s' = tally_of ev_alloc s + blen new /\
  tally_of ev_pidfd s' = tally_of ev_pidfd s + blen new /\
  cx_config (n_ctx s') = cx_config (n_ctx s) /\ cx_comm (n_ctx s') = cx_comm (n_ctx s) /\
  rt_sched_info (cx_runtime (n_ctx s')) = rt_sched_info (cx_runtime (n_ctx s)).

Lemma added_nil s s' : nodes_wf s -> n_ctx s' = n_ctx s -> n_brk s <= n_brk s' ->
  tally_of ev_alloc s' = tally_of ev_alloc s -> tally_of ev_pidfd s' = tally_of ev_pidfd s ->
  added [] s s'.
Proof.
  intros (Hb & Hd & Ha & Hr) Hc Hle H1 H2. unfold added, nodes_wf. rewrite Hc. simpl.
  split_and!; try done; try lia; [|f_equal; lia]. eapply Forall_impl; [exact Ha|]. simpl. lia.
Qed.

Lemma added_trans new1 new2 s1 s2 s3 :
  added new1 s1 s2 -> added new2 s2 s3 -> added (new2 ++ new1) s1 s3.
Proof.
  intros (A1 & _ & A3 & A4 & A5 & A6 & A7 & A8) (B1 & B2 & B3 & B4 & B5 & B6 & B7 & B8).
  unfold added. rewrite length_app. split_and!; try congruence; try lia.
  - by rewrite B1, A1, app_assoc.
  - rewrite B3, <- wrapu_add_l, A3, wrapu_add_l. f_equal. lia.
Qed.

Lemma added_one n s s1 s2 :
  nodes_wf s -> outside s1 = (n_ctx s, n_brk s + 1, tally_of ev_alloc s + 1) ->
  tally_of ev_pidfd s1 = tally_of ev_pidfd s + 1 -> tt_addr n = n_brk s -> node_ready n ->
  s2 = s1 <| n_ctx ::= fun c => c <| cx_runtime ::= fun r => r <| rt_tt_list ::= cons n |> |>
                                  <| cx_hp ::= fun h => h <| hp_tasks_in_hyperperiod ::= fun x => u32 (x + 1) |> |> |> ->
  added [n] s s2.
Proof.
  intros (Hb & Hd & Ha & Hr) [= Hc Hk Ho] Hf Hn Hready ->. unfold added, nodes_wf. simpl.
  rewrite Hc, Hk. unfold tally_of in *. simpl. split_and!; try done; try lia.
  - constructor; [|done]. rewrite Hn. intros (m & Hm1 & Hm2)%list_elem_of_fmap.
    rewrite Forall_forall in Ha. specialize (Ha m Hm2). simpl in Ha. lia.
  - constructor; [lia|]. eapply Forall_impl; [exact Ha|]. simpl. lia.
  - by constructor.
  - by rewrite wrapu_idemp.
Qed.

(** The node of a task before its process is set up. *)
Definition fresh_node (a : Z) (ti : task_info) : time_trigger := mk_time_trigger a 0 ti 0 0 0 ts_zero true.

(** The tasks of this node are taken one after the other: [o] came of [ti], with the events
    between the two traces; [P] is what is known of the set-up of one task. *)
Inductive attempts (P : task_info -> option time_trigger -> list event -> list event -> Prop) :
    list task_info -> list (option time_trigger) -> list event -> list event -> Prop :=
  | attempts_nil tr : attempts P [] [] tr tr
  | attempts_cons ti o own outs tr tr1 tr2 :
      P ti o tr tr1 -> attempts P own outs tr1 tr2 -> attempts P (ti :: own) (o :: outs) tr tr2.

Lemma attempts_Forall2 P Q own outs tr tr' :
  (forall ti o tr tr', P ti o tr tr' -> Q ti o) -> attempts P own outs tr tr' -> Forall2 Q own outs.
Proof. intros H. induction 1; constructor; eauto. Qed.

Abbreviation calloc_node := (Malloc sizeof_time_trigger).

Lemma task_list_loop_outcomes P tasks k s :
  (forall ti tr, kresp tr calloc_node = false -> P ti None tr (Event calloc_node false :: tr)) ->
  (forall ti a tr s, 0 < a -> kresp tr calloc_node = true -> n_trace s = Event calloc_node true :: tr ->
     wp (task_setup_process (fresh_node a ti)) (fun '(r, n) s' =>
       if tt_ok_code r then P ti (Some n) tr (n_trace s')
       else P ti None tr (Event (Free a) tt :: n_trace s')) s) ->
  nodes_wf s ->
  wp (task_list_loop tasks k) (fun k' s' => exists outs,
    attempts P (own_tasks (cx_config (n_ctx s)) tasks) outs (n_trace s) (n_trace s') /\
    added (reverse (omap id outs)) s s' /\ k' = k + blen (omap id outs)) s.
Proof.
  intros Hmem Hset. revert k s. induction tasks as [|[a ti] tasks IH]; intros k s Hwf; cbn [task_list_loop].
  { apply wp_ret. exists []. split_and!; [constructor|by apply added_nil|simpl; lia]. }
  unfold get_ctx. do 2 wp_step. unfold strcmp_eq, own_tasks in *. simpl. rewrite filter_cons.
  unfold belongs at 1. case_bool_decide as Hb; simpl;
    [rewrite decide_True by done|rewrite decide_False by done; by apply IH].
  (* the outcome [o] of this task, and the rest *)
  assert (Hrest : forall o s1 k1, P ti o (n_trace s) (n_trace s1) -> added (option_list o) s s1 ->
    k1 = k + blen (option_list o) ->
    wp (task_list_loop tasks k1) (fun k' s' => exists outs,
      attempts P (ti :: filter (belongs (cx_config (n_ctx s))) tasks.*2) outs (n_trace s) (n_trace s') /\
      added (reverse (omap id outs)) s s' /\ k' = k + blen (omap id outs)) s1).
  { intros o s1 k1 Ho H1 ->. pose proof H1 as (_ & Hwf1 & _ & _ & _ & Hcf & _).
    eapply wp_mono; [by apply IH|]. rewrite Hcf. intros k' s' (outs & Hf & Hn & ->). exists (o :: outs).
    assert (omap id (o :: outs) = option_list o ++ omap id outs) as -> by (by destruct o).
    assert (reverse (option_list o ++ omap id outs) = reverse (omap id outs) ++ option_list o) as ->.
    { rewrite reverse_app. by destruct o. }
    split_and!; [by econstructor|by eapply added_trans|rewrite length_app; lia]. }
  unfold task_create_node, alloc. do 3 apply wp_bind. apply wp_sys.
  destruct (kresp _ calloc_node) eqn:Em.
  2:{ do 2 apply wp_ret. apply (Hrest None); [by apply Hmem|by apply added_nil|simpl; lia]. }
  apply wp_bind, wp_get, wp_bind, wp_modify, wp_ret, wp_ret, wp_bind.
  eapply wp_mono; [eapply wp_and; [apply task_setup_process_spec; simpl; [apply Hwf|done]|
    apply wp_wlp, (Hset ti (n_brk s) (n_trace s)); [apply Hwf|done|done]]|].
  intros [r n] s1 [(Ho & Hna & Hr) HP]. unfold outside, tally_of in Ho. simpl in Ho, Hna.
  injection Ho as Hc Hk Hal. cbn beta iota in HP. destruct (tt_ok_code r); simpl.
  - destruct Hr as (Hready & _ & Hfd). apply wp_bind. unfold upd_rt, upd_hp, upd_ctx.
    wp_step. apply wp_bind. wp_step. apply (Hrest (Some n)); [exact HP| |simpl; lia].
    eapply (added_one n s s1); try done. unfold outside, tally_of. simpl. rewrite Hc, Hk, Hal. f_equal; lia.
  - apply wp_bind, wp_sys. apply (Hrest None); [simpl; rewrite Hna; by destruct (kresp _ (Free _))| |simpl; lia].
    apply added_nil; try done; unfold tally_of in *; simpl in *; lia.
Qed.

(** Looking the name of [ti] up after the events [tr] gives [r] and, when it succeeds, [pid]. *)
Definition looks_up (ti : task_info) (tr : list event) (r : ttsched_error_t) (pid : Z) : Prop :=
  exists s s', n_trace s = tr /\ get_pid_by_name (Some (ti_name ti)) true s = Ret ((r, pid), s').

(** How one task of this node comes to its outcome: memory is asked for; the task becomes a node
    when there is memory, a thread of its name is found and a pidfd of that thread is opened, and
    the node holds the task with that thread and that pidfd; it is left out, and the memory given
    back, only when one of the three fails. *)
Definition attempted (ti : task_info) (o : option time_trigger) (tr tr' : list event) : Prop :=
  let ok := kresp tr calloc_node in
  let tr0 := Event calloc_node ok :: tr in
  exists seg, tr' = seg ++ tr0 /\
  match o with
  | Some n => ok = true /\ bare (tt_task n) = bare ti /\
      exists r pid fd, looks_up ti tr0 r pid /\ ts_ok_code r = true /\ Event (PidfdOpen pid) fd ∈ seg /\
        0 <= i32 fd /\ ti_pid (tt_task n) = u32 pid /\ ti_pidfd (tt_task n) = i32 fd
  | None => ok = false /\ seg = [] \/
      ok = true /\ exists a r pid, head seg = Some (Event (Free a) tt) /\ looks_up ti tr0 r pid /\
        (ts_ok_code r = false \/ exists fd, Event (PidfdOpen pid) fd ∈ seg /\ i32 fd < 0)
  end.

Lemma task_setup_process_attempted ti a tr s :
  0 < a -> kresp tr calloc_node = true -> n_trace s = Event calloc_node true :: tr ->
  wp (task_setup_process (fresh_node a ti)) (fun '(r, n) s' =>
    if tt_ok_code r then attempted ti (Some n) tr (n_trace s')
    else attempted ti None tr (Event (Free a) tt :: n_trace s')) s.
Proof.
  intros Ha Hok Htr. unfold task_setup_process, attempted. rewrite Hok, <- Htr. cbn [tt_task fresh_node].
  apply wp_bind. pose proof (get_pid_by_name_range (Some (ti_name ti)) true s) as Hr.
  pose proof (get_pid_by_name_grows (Some (ti_name ti)) true s) as Hg. unfold wp, wlp in Hr, Hg |- *.
  destruct (get_pid_by_name (Some (ti_name ti)) true s) as [[[r pid] s1]|] eqn:El; [|done].
  assert (Hl : looks_up ti (n_trace s) r pid) by (by exists s, s1).
  destruct Hg as (seg1 & E1 & _). destruct (ts_ok_code r) eqn:Er; cbn [negb].
  2:{ apply wp_ret. simpl. exists (Event (Free a) tt :: seg1). rewrite E1. split; [done|].
      right. split; [done|]. exists a, r, pid. eauto. }
  specialize (Hr eq_refl). apply wp_bind.
  eapply wp_mono; [eapply frames_wp; [apply (set_affinity_grows _ _)|apply set_affinity_total]|].
  intros _ s2 [_ (seg2 & E2 & _)]. apply wp_bind.
  eapply wp_mono; [eapply frames_wp; [apply (set_schedattr_grows _ _ _)|apply set_schedattr_total]|].
  intros _ s3 [_ (seg3 & E3 & _)]. unfold create_pidfd. simpl.
  rewrite (proj2 (Z.leb_gt pid 0)) by lia. do 2 apply wp_bind. apply wp_sys.
  set (fd := kresp _ (PidfdOpen pid)). destruct (Z.ltb_spec (i32 fd) 0) as [Hlt|Hge]; apply wp_ret; simpl.
  - apply wp_ret. simpl. exists (Event (Free a) tt :: Event (PidfdOpen pid) fd :: seg3 ++ seg2 ++ seg1).
    rewrite E3, E2, E1. simpl. rewrite <- ?app_assoc. split; [done|]. right. split; [done|]. exists a, r, pid.
    split_and!; [done|done|]. right. exists fd. split; [right; left|done].
  - apply wp_bind. eapply wp_mono; [eapply frames_wp; [apply bpf_add_pid_grows|apply bpf_add_pid_total]|].
    intros _ s4 [_ (seg4 & E4 & _)]. apply wp_ret. simpl.
    exists (seg4 ++ Event (PidfdOpen pid) fd :: seg3 ++ seg2 ++ seg1). simpl in E4.
    rewrite E4, E3, E2, E1, <- ?app_assoc. simpl. rewrite <- ?app_assoc. split_and!; [done..|].
    exists r, pid, fd. split_and!; try done. set_solver.
Qed.

(** In any case a node is made from its task. *)
Definition made_from (ti : task_info) (o : option time_trigger) : Prop :=
  forall n, o = Some n -> bare (tt_task n) = bare ti.

Lemma attempted_made ti o tr tr' : attempted ti o tr tr' -> made_from ti o.
Proof. intros (seg & _ & H) n ->. apply H. Qed.

Lemma made_sublist own outs : Forall2 made_from own outs ->
  sublist ((fun n => bare (tt_task n)) <$> omap id outs) (bare <$> own).
Proof.
  induction 1 as [|ti [n|] own outs Ho _ IH]; simpl; [constructor| |by constructor].
  rewrite (Ho n eq_refl). by constructor.
Qed.

Lemma init_task_list_outcomes s :
  nodes_wf s ->
  wp init_task_list (fun r s' => exists outs,
    attempts attempted (own_tasks (cx_config (n_ctx s)) (si_tasks (sinfo_of s))) outs (n_trace s) (n_trace s') /\
    added (reverse (omap id outs)) s s' /\
    r = match omap id outs with [] => TT_ERROR_CONFIG | _ => TT_SUCCESS end) s.
Proof.
  intros Hwf. unfold init_task_list, get_ctx. do 2 wp_step. apply wp_bind.
  eapply wp_mono; [apply (task_list_loop_outcomes attempted); [| |done]|].
  - intros ti tr E. exists []. rewrite E. auto.
  - intros. by apply task_setup_process_attempted.
  - intros k s' (outs & Hf & Ha & ->). apply wp_ret. exists outs. split_and!; [done|done|].
    destruct (omap id outs); [done|]. by rewrite (proj2 (Z.eqb_neq _ _)) by (simpl; lia).
Qed.

Lemma init_task_list_effect s :
  nodes_wf s ->
  wp init_task_list (fun r s' => exists new,
    added new s s' /\
    sublist (reverse ((fun n => bare (tt_task n)) <$> new))
            (bare <$> own_tasks (cx_config (n_ctx s)) (si_tasks (sinfo_of s))) /\
    r = match new with [] => TT_ERROR_CONFIG | _ => TT_SUCCESS end) s.
Proof.
  intros Hwf. eapply wp_mono; [by apply init_task_list_outcomes|]. intros r s' (outs & Hf & Ha & ->).
  exists (reverse (omap id outs)). rewrite <- fmap_reverse, reverse_involutive. split_and!; [done| |].
  - eapply made_sublist, attempts_Forall2, Hf. apply attempted_made.
  - destruct (omap id outs) as [|x l]; [done|]. rewrite reverse_cons. by destruct (reverse l).
Qed.

Lemma no_outcome {A} (outs : list (option A)) : omap id outs = [] <-> Forall (eq None) outs.
Proof.
  induction outs as [|[x|] outs IH]; [done|split; [done|by intros [? _]%Forall_cons]|].
  rewrite Forall_cons. simpl. rewrite IH. tauto.
Qed.

(** C26: [init_task_list] builds the task list of this node, whatever the
    environment answers: it takes every task of the schedule with this node's
    id, in the order of the schedule, and no other.  For each it asks for
    memory, looks the task's name up and opens a pidfd of the thread found;
    when all three succeed the list has a node for the task with that thread's
    pid and that pidfd, and otherwise none and the memory is given back.  The
    nodes are in reverse order of the schedule, at distinct addresses and with
    positive pids; the hyperperiod's task counter grows by their number; nodes
    and pidfds allocated are exactly those in the list; and the result is
    [TT_ERROR_CONFIG] when no task of this node could be set up, [TT_SUCCESS]
    when one could. *)
Theorem init_task_list_nodes s :
  nodes_wf s ->
  wp init_task_list (fun r s' => exists outs,
    attempts attempted (own_tasks (cx_config (n_ctx s)) (si_tasks (sinfo_of s))) outs (n_trace s) (n_trace s') /\
    added (reverse (omap id outs)) s s' /\
    (Forall (eq None) outs /\ r = TT_ERROR_CONFIG \/ ~ Forall (eq None) outs /\ r = TT_SUCCESS)) s.
Proof.
  intros Hwf. eapply wp_mono; [by apply init_task_list_outcomes|]. intros r s' (outs & Hf & Ha & ->).
  exists outs. rewrite <- no_outcome. split_and!; [done|done|]. destruct (omap id outs); auto.
Qed.

End task_props.

(** *** Exactly the tasks that run *)

(** [pidfd_open] succeeds for the processes that are found. *)
Class PidfdOk (K : Kernel) := pidfd_ok : forall tr p, 0 <= i32 (kresp tr (PidfdOpen p)).

Section exact.
Context {K : Kernel} {SJ : StackJunk} {BC : BuildConfig} {dirs : list byte -> option (list dirent)}
  {files : list byte -> option (list byte)} `{!ProcFs K dirs files} `{!MallocOk K} `{!PidfdOk K}.

(** The threads with the name of a task, in the order of /proc. *)
Definition threads_named_as (t : task_info) : list Z :=
  concat (named_threads (dirs := dirs) (files := files) (ti_name t) <$> processes (dirs := dirs)).
Definition is_running (t : task_info) : Prop := threads_named_as t <> [].
#[export] Instance is_running_dec t : Decision (is_running t).
Proof. unfold is_running. apply _. Defined.

(** [n] is the node of [t] with the first such thread. *)
Definition runs_as (n : time_trigger) (t : task_info) : Prop :=
  bare (tt_task n) = bare t /\ exists pid, head (threads_named_as t) = Some pid /\ ti_pid (tt_task n) = u32 pid.

Definition set_up (t : task_info) (o : option time_trigger) : Prop :=
  if decide (is_running t) then exists n, o = Some n /\ runs_as n t else o = None.

Lemma task_setup_process_exact a ti s :
  readable_threads (dirs := dirs) (files := files) -> 0 < a ->
  wp (task_setup_process (fresh_node a ti))
    (fun '(r, n) _ => if tt_ok_code r then set_up ti (Some n) else set_up ti None) s.
Proof.
  intros Hr Ha. eapply wp_mono; [eapply wp_and; [by apply task_setup_process_spec|]|].
  - apply wp_wlp. unfold task_setup_process. apply wp_bind.
    eapply wp_mono; [by apply (get_pid_by_name_first (dirs := dirs) (files := files))|].
    intros [r pid] s1 [E _]. cbn [tt_task fresh_node] in E. fold (threads_named_as ti) in E.
    destruct (threads_named_as ti) as [|p l] eqn:El; injection E as -> ->; simpl.
    + apply wp_ret. instantiate (1 := fun '(r, n) _ => match threads_named_as ti with
        | [] => tt_ok_code r = false | p :: _ => tt_ok_code r = true /\ ti_pid (tt_task n) = u32 p end).
      simpl. by rewrite El.
    + apply wp_bind. eapply wp_mono; [apply set_affinity_total|]. intros _ s2 _.
      apply wp_bind. eapply wp_mono; [apply set_schedattr_total|]. intros _ s3 _.
      assert (0 < p) as Hp.
      { assert (p ∈ threads_named_as ti) as Hin by (rewrite El; left). unfold threads_named_as in Hin.
        apply list_elem_of_In, in_concat in Hin as (ts & Hts%list_elem_of_In & Hp%list_elem_of_In).
        apply list_elem_of_fmap in Hts as (q & -> & _). by eapply named_threads_pos. }
      unfold create_pidfd. rewrite (proj2 (Z.leb_gt p 0)) by lia. do 2 apply wp_bind. apply wp_sys.
      rewrite (proj2 (Z.ltb_ge _ _) (pidfd_ok _ p)). apply wp_ret. simpl. apply wp_bind.
      eapply wp_mono; [apply bpf_add_pid_total|]. intros _ s4 _. apply wp_ret. simpl. by rewrite El.
  - intros [r n] s1 [(_ & _ & H1) H2]. cbn beta iota in H2. unfold set_up.
    case_decide as Hrun; unfold is_running in Hrun.
    + destruct (threads_named_as ti) as [|p l] eqn:El; [done|]. destruct H2 as [E Hpid]. rewrite E in H1 |- *.
      exists n. split; [done|]. split; [apply H1|]. exists p. by rewrite El.
    + destruct (threads_named_as ti); [by rewrite H2|by destruct Hrun].
Qed.

Lemma set_up_outcomes own outs : Forall2 set_up own outs -> Forall2 runs_as (omap id outs) (filter is_running own).
Proof.
  induction 1 as [|t o own outs Ho _ IH]; [constructor|]. rewrite filter_cons. unfold set_up in Ho.
  case_decide; [|by subst o]. destruct Ho as (n & -> & Hn). simpl. by constructor.
Qed.

(** When /proc can be read and the calls succeed, the list has the tasks of this
    node that have a thread of their name, each with the first such thread. *)
Lemma init_task_list_exact s :
  readable_threads (dirs := dirs) (files := files) -> nodes_wf s ->
  let mine := filter is_running (own_tasks (cx_config (n_ctx s)) (si_tasks (sinfo_of s))) in
  wp init_task_list (fun r s' => exists new,
    added new s s' /\ Forall2 runs_as (reverse new) mine /\
    r = match mine with [] => TT_ERROR_CONFIG | _ => TT_SUCCESS end) s.
Proof.
  intros Hr Hwf mine. unfold init_task_list, get_ctx. do 2 wp_step. apply wp_bind.
  eapply wp_mono; [apply (task_list_loop_outcomes (fun ti o _ _ => set_up ti o)); [| |done]|].
  - intros ti tr E. by rewrite malloc_ok in E.
  - intros. by apply task_setup_process_exact.
  - intros k s' (outs & Hf%(attempts_Forall2 _ set_up) & Ha & ->); [|done]. apply wp_ret. exists (reverse (omap id outs)). rewrite reverse_involutive.
    pose proof (set_up_outcomes _ _ Hf : Forall2 runs_as (omap id outs) mine) as Hm. split_and!; [done|done|].
    apply Forall2_length in Hm. rewrite Hm. destruct mine; [done|]. by rewrite (proj2 (Z.eqb_neq _ _)) by (simpl; lia).
Qed.

End exact.

(** *** Witness *)

(** Thread "control" of the example /proc is the task of node 1. *)
Definition ex_task_state : nstate :=
  nstate_init <| n_ctx ::= fun c =>
    c <| cx_config ::= fun f => f <| cf_node_id := in_array 64 (str "1") |> |>
      <| cx_runtime ::= fun r => r <| rt_sched_info ::= fun i => i <| si_tasks :=
           [(90, task_info_zero <| ti_name := in_array 16 (str "control") |> <| ti_node_id := in_array 64 (str "1") |>);
            (91, task_info_zero <| ti_name := in_array 16 (str "other") |> <| ti_node_id := in_array 64 (str "2") |>)] |> |> |> |>.

Lemma init_task_list_nodes_witness :
  wp (init_task_list (K := proc_kernel ex_dirs ex_files) (SJ := zero_stack)
        (BC := {| CONFIG_TRACE_BPF_EVENT := false |})) (fun r s' =>
    exists o, added (option_list o) ex_task_state s' /\
      (o = None /\ r = TT_ERROR_CONFIG \/ o <> None /\ r = TT_SUCCESS)) ex_task_state.
Proof.
  eapply wp_mono.
  - apply (init_task_list_nodes (K := proc_kernel ex_dirs ex_files) (SJ := zero_stack)
             (BC := {| CONFIG_TRACE_BPF_EVENT := false |}) ex_task_state).
    split_and!; [reflexivity|constructor|constructor|constructor].
  - intros r s' (outs & Hf & Ha & Hr). change (own_tasks _ _) with
      [task_info_zero <| ti_name := in_array 16 (str "control") |> <| ti_node_id := in_array 64 (str "1") |>] in Hf.
    inversion Hf as [|ti o own outs' tr tr1 tr2 _ Hf']; subst. inversion Hf'; subst. exists o.
    rewrite <- no_outcome in Hr. destruct o; simpl in *; split; naive_solver.
Defined.

Example init_task_list_ex :
  match init_task_list (K := proc_kernel ex_dirs ex_files) (SJ := zero_stack)
          (BC := {| CONFIG_TRACE_BPF_EVENT := false |}) ex_task_state with
  | Ret (r, s') => (r, (fun n => ti_pid (tt_task n)) <$> rt_tt_list (cx_runtime (n_ctx s')))
                   = (TT_SUCCESS, [43])
  | UB => False
  end.
Proof. vm_compute. reflexivity. Qed.
