(* ===== verification/Config.v ===== *)
(** * Configuration (timpani-n/src/config.c)

    Defaults, command line and validation.  [getopt] is glibc's: options may
    follow operands, several option letters share one argument, "--" ends
    the options. *)

From S2P Require Import Prelude Time Types Kernel.

(** ** getopt *)

(** What one call of [getopt] reports: an option letter with its argument,
    or '?' for an unknown letter or a missing argument. *)
Inductive opt_event :=
  | Opt (c : byte) (optarg : list byte)
  | OptError.

Inductive opt_kind := NoArg | WithArg | Unknown.

(** The option string "hc:P:p:n:l:sga". *)
Definition opt_kind_of (c : byte) : opt_kind :=
  if bool_decide (c ∈ [ "h"; "s"; "g"; "a" ]%byte) then NoArg
  else if bool_decide (c ∈ [ "c"; "P"; "p"; "n"; "l" ]%byte) then WithArg
  else Unknown.

Definition dash : byte := "-"%byte.

(** The options in [args], in order, and the operands. *)
Fixpoint getopt (args : list (list byte)) : list opt_event * list (list byte) :=
  match args with
  | [] => ([], [])
  | a :: rest =>
      let cluster := fix cluster (cs : list byte) : list opt_event * list (list byte) :=
        match cs with
        | [] => getopt rest
        | c :: cs =>
            match opt_kind_of c with
            | NoArg => let '(e, o) := cluster cs in (Opt c [] :: e, o)
            | Unknown => let '(e, o) := cluster cs in (OptError :: e, o)
            | WithArg =>
                match cs with
                | _ :: _ => let '(e, o) := getopt rest in (Opt c cs :: e, o)
                | [] =>
                    match rest with
                    | [] => ([OptError], [])
                    | b :: rest => let '(e, o) := getopt rest in (Opt c b :: e, o)
                    end
                end
            end
        end in
      if decide (a = [dash; dash]) then ([], rest)
      else
        match a with
        | d :: c :: cs =>
            if decide (d = dash) then cluster (c :: cs)
            else let '(e, o) := getopt rest in (e, a :: o)
        | _ => let '(e, o) := getopt rest in (e, a :: o)
        end
  end.

(** ** config.c *)

Definition upd_cfg (f : config -> config) : N unit := upd_ctx (fun c => c <| cx_config ::= f |>).

(** [strncpy(node_id, s, 63); node_id[63] = 0;] *)
Definition set_node_id (s : list byte) (c : config) : config :=
  c <| cf_node_id ::= fun a => set_char (strncpy a s (TINFO_NODEID_MAX - 1)) (TINFO_NODEID_MAX - 1) x00 |>.

Definition config_set_defaults : N unit :=
  upd_rt (fun r => r <| rt_shutdown_requested := 0 |> <| rt_tt_list := [] |> <| rt_apex_list := [] |>) ;;
  upd_cfg (fun c =>
    (set_node_id (str "1")
      (c <| cf_cpu := -1 |> <| cf_prio := -1 |> <| cf_port := 7777 |> <| cf_addr := str "127.0.0.1" |>))
      <| cf_enable_sync := false |> <| cf_enable_plot := false |> <| cf_enable_apex := false |>
      <| cf_clockid := CLOCK_REALTIME |> <| cf_log_level := TT_LOG_LEVEL_INFO |>).

(** The body of the [switch]; [None] for the branch that prints the usage. *)
Definition apply_opt (e : opt_event) (c : config) : option config :=
  match e with
  | OptError => None
  | Opt o optarg =>
      if decide (o = "c"%byte) then Some (c <| cf_cpu := atoi optarg |>)
      else if decide (o = "P"%byte) then Some (c <| cf_prio := atoi optarg |>)
      else if decide (o = "p"%byte) then Some (c <| cf_port := atoi optarg |>)
      else if decide (o = "n"%byte) then Some (set_node_id optarg c)
      else if decide (o = "l"%byte) then Some (c <| cf_log_level := u32 (atoi optarg) |>)
      else if decide (o = "s"%byte) then Some (c <| cf_enable_sync := true |>)
      else if decide (o = "g"%byte) then Some (c <| cf_enable_plot := true |>)
      else if decide (o = "a"%byte) then Some (c <| cf_enable_apex := true |>)
      else None
  end.

(** internal.h *)
Definition tt_set_log_level (level : Z) : N unit := modify (fun s => s <| n_log_level := level |>).

Definition validate_config : N tt_error_t :=
  ctx ← get_ctx;
  let c := cx_config ctx in
  if (cf_prio c <? -1) || (99 <? cf_prio c) then mret TT_ERROR_CONFIG
  else if (cf_port c <=? 0) || (65535 <? cf_port c) then mret TT_ERROR_CONFIG
  else if (cf_cpu c <? -1) || (1024 <? cf_cpu c) then mret TT_ERROR_CONFIG
  else if strlen (cf_node_id c) =? 0 then mret TT_ERROR_CONFIG
  else if (cf_log_level c <? TT_LOG_LEVEL_SILENT) || (TT_LOG_LEVEL_VERBOSE <? cf_log_level c)
  then mret TT_ERROR_CONFIG
  else
    tt_set_log_level (cf_log_level c) ;;
    mret TT_SUCCESS.

(** The option loop; [false] when it returns [TT_ERROR_CONFIG]. *)
Fixpoint opt_loop (evs : list opt_event) : N bool :=
  match evs with
  | [] => mret true
  | e :: evs =>
      ctx ← get_ctx;
      match apply_opt e (cx_config ctx) with
      | None => mret false
      | Some c => upd_cfg (fun _ => c) ;; opt_loop evs
      end
  end.

(** [args] is [argv] without the program name. *)
Definition parse_config (args : list (list byte)) : N tt_error_t :=
  config_set_defaults ;;
  let '(evs, operands) := getopt args in
  ok ← opt_loop evs;
  if negb ok then mret TT_ERROR_CONFIG
  else
    match operands with
    | [] => mret tt
    | a :: _ => upd_cfg (fun c => c <| cf_addr := a |>)
    end ;;
    validate_config.

(** ** What a configuration that was accepted looks like *)

Definition config_valid (c : config) : Prop :=
  -1 <= cf_prio c <= 99 /\ 1 <= cf_port c <= 65535 /\ -1 <= cf_cpu c <= 1024 /\
  cstr (cf_node_id c) <> [] /\ length (cf_node_id c) = 64%nat /\ nul_terminated (cf_node_id c) /\
  0 <= cf_log_level c <= 5 /\ cf_clockid c = CLOCK_REALTIME.

(** The argument of the last occurrence of option [o]. *)
Fixpoint last_arg (o : byte) (evs : list opt_event) : option (list byte) :=
  match evs with
  | [] => None
  | Opt c a :: evs =>
      match last_arg o evs with
      | Some x => Some x
      | None => if decide (c = o) then Some a else None
      end
  | OptError :: evs => last_arg o evs
  end.

(** The configuration after applying [evs] to [c]. *)
Definition applied (evs : list opt_event) (c : config) : config :=
  mk_config
    (default (cf_cpu c) (atoi <$> last_arg "c" evs))
    (default (cf_prio c) (atoi <$> last_arg "P" evs))
    (default (cf_port c) (atoi <$> last_arg "p" evs))
    (cf_addr c)
    (match last_arg "n" evs with Some a => cf_node_id (set_node_id a c) | None => cf_node_id c end)
    (bool_decide (is_Some (last_arg "s" evs)) || cf_enable_sync c)
    (bool_decide (is_Some (last_arg "g" evs)) || cf_enable_plot c)
    (bool_decide (is_Some (last_arg "a" evs)) || cf_enable_apex c)
    (cf_clockid c)
    (default (cf_log_level c) (u32 ∘ atoi <$> last_arg "l" evs)).

(** Options other than 'h', an unknown letter or a missing argument. *)
Definition acceptable (e : opt_event) : bool :=
  match e with
  | OptError => false
  | Opt o _ => bool_decide (o ∈ ["c"; "P"; "p"; "n"; "l"; "s"; "g"; "a"]%byte)
  end.

Lemma set_node_id_length a c :
  length (cf_node_id c) = 64%nat -> length (cf_node_id (set_node_id a c)) = 64%nat.
Proof.
  intros H. unfold set_node_id, set_char. simpl. rewrite length_insert, length_strncpy; [done|].
  unfold TINFO_NODEID_MAX. lia.
Qed.

(** What the copy leaves in the array, whatever was there. *)
Lemma set_node_id_eq a c :
  length (cf_node_id c) = 64%nat ->
  let p := take 63 (cstr a) in
  cf_node_id (set_node_id a c) = (p ++ zeros (63 - length p)) ++ [x00].
Proof.
  intros H p. unfold set_node_id, set_char, strncpy, TINFO_NODEID_MAX. simpl.
  change (64 - 1)%nat with 63%nat. fold p.
  assert (Hp : (length p <= 63)%nat) by (subst p; rewrite length_take; lia).
  assert (Hl : length (drop 63 (cf_node_id c)) = 1%nat) by (rewrite length_drop; lia).
  destruct (drop 63 (cf_node_id c)) as [|x [|]]; try (simpl in Hl; lia).
  rewrite app_assoc. assert (Hn : length (p ++ zeros (63 - length p)) = 63%nat)
    by (rewrite length_app, length_zeros; lia).
  rewrite insert_app_r_alt by lia. by rewrite Hn.
Qed.

(** The last name given is the one that counts. *)
Lemma set_node_id_twice a b c :
  length (cf_node_id c) = 64%nat ->
  cf_node_id (set_node_id a (set_node_id b c)) = cf_node_id (set_node_id a c).
Proof. intros H. rewrite !set_node_id_eq; auto using set_node_id_length. Qed.

(** The name array: cut to 63 characters, always terminated. *)
Lemma set_node_id_cstr a c :
  length (cf_node_id c) = 64%nat ->
  cstr (cf_node_id (set_node_id a c)) = take 63 (cstr a) /\
  nul_terminated (cf_node_id (set_node_id a c)).
Proof.
  intros H. rewrite set_node_id_eq by done. split; [|unfold nul_terminated; set_solver].
  rewrite <- app_assoc. destruct (63 - _)%nat; simpl;
    apply cstr_app_nul, no_nul_take, cstr_no_nul.
Qed.

Lemma apply_opt_acceptable e c : is_Some (apply_opt e c) <-> acceptable e = true.
Proof.
  destruct e as [o a|]; simpl; [|split; [intros [? ?]; done|done]].
  rewrite bool_decide_eq_true.
  repeat match goal with |- context [decide (o = ?b)] =>
    destruct (decide (o = b)) as [->|?]; [split; [set_solver|by eexists]|] end.
  split; [by intros [? ?]|]. intros Hin. exfalso.
  repeat (apply elem_of_cons in Hin as [Hin|Hin]; [done|]). by apply not_elem_of_nil in Hin.
Qed.

Lemma applied_cons e evs c c1 :
  length (cf_node_id c) = 64%nat -> apply_opt e c = Some c1 ->
  applied (e :: evs) c = applied evs c1 /\ length (cf_node_id c1) = 64%nat.
Proof.
  intros Hl. destruct e as [o a|]; [|done]. simpl.
  pose proof (set_node_id_length a c Hl) as Hl'.
  repeat case_decide; intros [= <-]; subst; (split; [|done]); unfold applied; cbn [last_arg];
    repeat rewrite ?decide_True, ?decide_False by done; f_equal;
    lazymatch goal with |- context [last_arg ?o evs] => destruct (last_arg o evs) end;
    try done; symmetry; by apply set_node_id_twice.
Qed.

(** ** Properties *)

(** The configuration before any option. *)
Definition default_config : config :=
  mk_config (-1) (-1) 7777 (str "127.0.0.1") (str "1" ++ zeros 63) false false false
    CLOCK_REALTIME TT_LOG_LEVEL_INFO.

(** The configuration a command line asks for. *)
Definition requested (args : list (list byte)) : config :=
  let '(evs, operands) := getopt args in
  (applied evs default_config) <| cf_addr := default (str "127.0.0.1") (head operands) |>.

Definition ranges_ok (c : config) : bool :=
  (-1 <=? cf_prio c) && (cf_prio c <=? 99) && (0 <? cf_port c) && (cf_port c <=? 65535) &&
  (-1 <=? cf_cpu c) && (cf_cpu c <=? 1024) && negb (strlen (cf_node_id c) =? 0) &&
  (0 <=? cf_log_level c) && (cf_log_level c <=? 5).

Lemma config_set_defaults_spec s :
  length (cf_node_id (cx_config (n_ctx s))) = 64%nat ->
  wp config_set_defaults (fun _ s' => cx_config (n_ctx s') = default_config /\
    n_log_level s' = n_log_level s /\ n_trace s' = n_trace s) s.
Proof.
  intros H. unfold config_set_defaults, upd_cfg, upd_rt, upd_ctx. apply wp_bind. do 2 wp_step.
  split_and!; [|done|done]. cbn -[set_node_id zeros]. unfold default_config. f_equal.
  rewrite set_node_id_eq by done. reflexivity.
Qed.

Lemma opt_loop_spec evs s :
  length (cf_node_id (cx_config (n_ctx s))) = 64%nat ->
  wp (opt_loop evs) (fun ok s' =>
    ok = forallb acceptable evs /\
    (ok = true -> cx_config (n_ctx s') = applied evs (cx_config (n_ctx s)) /\
                  length (cf_node_id (cx_config (n_ctx s'))) = 64%nat) /\
    n_log_level s' = n_log_level s /\ n_trace s' = n_trace s) s.
Proof.
  revert s. induction evs as [|e evs IH]; intros s Hl; cbn [opt_loop forallb].
  { apply wp_ret. split_and!; try done. intros _. split; [|done].
    unfold applied. simpl. by destruct (cx_config (n_ctx s)). }
  unfold get_ctx. do 2 wp_step. destruct (apply_opt e _) as [c1|] eqn:E.
  - assert (acceptable e = true) as -> by (apply (apply_opt_acceptable _ (cx_config (n_ctx s))); by eexists).
    destruct (applied_cons e evs _ _ Hl E) as [Ha Hl1].
    apply wp_bind. unfold upd_cfg, upd_ctx. wp_step. simpl.
    eapply wp_mono; [by apply IH|]. intros ok s' (-> & Hc & Hg & Ht). simpl in *.
    rewrite Ha. split_and!; try done.
  - apply wp_ret. destruct (acceptable e) eqn:Ea; simpl; [|done].
    apply (apply_opt_acceptable e (cx_config (n_ctx s))) in Ea as [? ?]. congruence.
Qed.

Lemma validate_config_spec s :
  wp validate_config (fun r s' =>
    let c := cx_config (n_ctx s) in
    r = (if ranges_ok c then TT_SUCCESS else TT_ERROR_CONFIG) /\
    s' = if ranges_ok c then s <| n_log_level := cf_log_level c |> else s) s.
Proof.
  unfold validate_config, tt_set_log_level, get_ctx, ranges_ok, TT_LOG_LEVEL_SILENT, TT_LOG_LEVEL_VERBOSE.
  do 2 wp_step. set (c := cx_config (n_ctx s)). rewrite (Z.ltb_antisym (cf_port c) 0),
    (Z.leb_antisym (cf_prio c) (-1)), (Z.leb_antisym 99 (cf_prio c)), (Z.leb_antisym 65535 (cf_port c)),
    (Z.leb_antisym (cf_cpu c) (-1)), (Z.leb_antisym 1024 (cf_cpu c)),
    (Z.leb_antisym (cf_log_level c) 0), (Z.leb_antisym 5 (cf_log_level c)).
  destruct (cf_prio c <? -1); [by apply wp_ret|]. destruct (99 <? cf_prio c); [by apply wp_ret|].
  destruct (cf_port c <=? 0); [by apply wp_ret|]. destruct (65535 <? cf_port c); [by apply wp_ret|].
  destruct (cf_cpu c <? -1); [by apply wp_ret|]. destruct (1024 <? cf_cpu c); [by apply wp_ret|].
  destruct (strlen (cf_node_id c) =? 0); [by apply wp_ret|].
  destruct (cf_log_level c <? 0); [by apply wp_ret|]. destruct (5 <? cf_log_level c); [by apply wp_ret|].
  apply wp_bind. by wp_step.
Qed.

(** [parse_config] accepts a command line exactly when every option is
    known, has its argument and is not the help option, and the values asked
    for are in range; the configuration is then the defaults with the last
    occurrence of each option applied and the first operand as address, the
    node id is a terminated string in its array, and the log level is in
    force.  Otherwise the result is [TT_ERROR_CONFIG] and the log level is
    untouched.  No system call is made in either case. *)
Theorem parse_config_spec args s :
  length (cf_node_id (cx_config (n_ctx s))) = 64%nat ->
  wp (parse_config args) (fun r s' =>
    n_trace s' = n_trace s /\
    if forallb acceptable (fst (getopt args)) && ranges_ok (requested args) then
      r = TT_SUCCESS /\ cx_config (n_ctx s') = requested args /\ config_valid (requested args) /\
      n_log_level s' = cf_log_level (requested args)
    else r = TT_ERROR_CONFIG /\ n_log_level s' = n_log_level s) s.
Proof.
  intros Hl. unfold parse_config, requested. apply wp_bind.
  eapply wp_mono; [by apply config_set_defaults_spec|]. intros [] s0 (Hc0 & Hg0 & Ht0).
  destruct (getopt args) as [evs ops]. cbn [fst].
  set (c := (applied evs default_config) <| cf_addr := default (str "127.0.0.1") (head ops) |>).
  assert (Hl0 : length (cf_node_id (cx_config (n_ctx s0))) = 64%nat) by (rewrite Hc0; done).
  apply wp_bind. eapply wp_mono; [by apply opt_loop_spec|]. intros ok s1 (-> & Hc1 & Hg1 & Ht1).
  destruct (forallb acceptable evs); cbn [negb andb]; [|apply wp_ret; split_and!; congruence].
  destruct (Hc1 eq_refl) as [Hcfg Hl1]. rewrite Hc0 in Hcfg. apply wp_bind.
  assert (Hva : wp (match ops with [] => mret tt | a :: _ => upd_cfg (fun c => c <| cf_addr := a |>) end)
    (fun _ s2 => cx_config (n_ctx s2) = c /\ n_log_level s2 = n_log_level s /\ n_trace s2 = n_trace s) s1).
  { destruct ops as [|a ops]; unfold upd_cfg, upd_ctx; wp_step;
      (split_and!; [subst c; cbn [n_ctx cx_config upd]; rewrite Hcfg; done|simpl; congruence..]). }
  eapply wp_mono; [exact Hva|]. intros [] s2 (Hc2 & Hg2 & Ht2).
  eapply wp_mono; [apply validate_config_spec|]. intros r s3 [-> ->]. rewrite Hc2.
  destruct (ranges_ok c) eqn:Er; [|done]. cbn [n_ctx n_trace n_log_level upd]. rewrite Hc2.
  enough (config_valid c) by auto. unfold ranges_ok in Er. rewrite !andb_true_iff, !Z.leb_le, Z.ltb_lt, negb_true_iff, Z.eqb_neq in Er.
  assert (Hn : cf_node_id c = cf_node_id (applied evs default_config)) by done.
  rewrite Hcfg, <- Hn in Hl1. unfold config_valid. split_and!; try lia; try done.
  - intros E. unfold strlen in Er. rewrite E in Er. simpl in Er. lia.
  - rewrite Hn. unfold applied. cbn [cf_node_id]. destruct (last_arg "n" evs) as [a|].
    + by apply (set_node_id_cstr a default_config).
    + unfold nul_terminated. simpl. set_solver.
Qed.

(** *** Witness *)

Definition ex_args : list (list byte) :=
  [str "-s"; str "-P50"; str "host"; str "-p"; str "8000"; str "-gn"; str "node7"; str "-p9000"].

Lemma parse_config_spec_witness :
  wp (parse_config ex_args) (fun r s' =>
    r = TT_SUCCESS /\ cf_port (cx_config (n_ctx s')) = 9000 /\ cf_prio (cx_config (n_ctx s')) = 50 /\
    cf_addr (cx_config (n_ctx s')) = str "host" /\ config_valid (cx_config (n_ctx s')))
    nstate_init.
Proof.
  eapply wp_mono.
  - apply (parse_config_spec ex_args nstate_init). reflexivity.
  - intros r s' [_ H].
    change (forallb acceptable (fst (getopt ex_args)) && ranges_ok (requested ex_args)) with true in H.
    destruct H as (-> & -> & Hv & _). split_and!; done.
Defined.
