(* ===== verification/ApexMonitor.v ===== *)
(** * Apex.OS monitor (timpani-n/src/apex_monitor.c)

    The Unix socket on which Apex.OS applications report themselves, the list
    of the applications of this node, and the reports to the coredata
    provider. *)

From S2P Require Import Prelude Time Types Kernel Serialize Sched SchedInfo.

Definition SOCKET_DIR : list byte := str "/tmp/timpani/".
Definition SOCKET_PATH : list byte := str "/tmp/timpani/timpani.sock".
Definition COREDATA_SOCKET_PATH : list byte := str "/tmp/appdata/appdata.sock".

Definition APEX_FAULT : Z := 0.
Definition APEX_UP : Z := 1.
Definition APEX_DOWN : Z := 2.
Definition APEX_RESET : Z := 3.

Definition sizeof_timpani_msg_t : nat := 264.
Definition sizeof_apex_info : Z := 440.

Section apex_monitor.
Context {HO : Host} {K : Kernel} {SJ : StackJunk}.

Definition apex_monitor_init : N tt_error_t :=
  server_fd ← sys Socket;
  if server_fd =? -1 then mret TT_ERROR_NETWORK
  else
    a ← sys (Access SOCKET_PATH);
    _ ← (if a =? 0 then sys (Unlink SOCKET_PATH) else sys (Mkdir SOCKET_DIR 493));
    b ← sys (Bind server_fd SOCKET_PATH);
    if b <? 0 then
      _ ← sys (Close server_fd);
      mret TT_ERROR_NETWORK
    else
      c ← sys (Chmod SOCKET_PATH 402);
      if c <? 0 then
        _ ← sys (Close server_fd);
        _ ← sys (Unlink SOCKET_PATH);
        mret TT_ERROR_NETWORK
      else
        upd_comm (fun c => c <| cm_apex_fd := server_fd |>) ;;
        mret TT_SUCCESS.

Definition apex_monitor_cleanup : N unit :=
  ctx ← get_ctx;
  let server_fd := cm_apex_fd (cx_comm ctx) in
  if negb (server_fd =? -1) then
    upd_comm (fun c => c <| cm_apex_fd := -1 |>) ;;
    _ ← sys (Close server_fd);
    _ ← sys (Unlink SOCKET_PATH);
    mret tt
  else mret tt.

(** The members of [timpani_msg_t] in its bytes. *)
Definition msg_int (off : nat) (msg : list byte) : Z := i32 (host_load (take 4 (drop off msg))).
Definition msg_type (msg : list byte) : Z := msg_int 0 msg.
Definition msg_name (msg : list byte) : list byte := take MAX_APEX_NAME_LEN (drop 4 msg).
Definition msg_up_pid (msg : list byte) : Z := msg_int 260 msg.
Definition msg_down_pid (msg : list byte) : Z := msg_int 4 msg.

(** What [apex_monitor_recv] hands back: status, [name], [*pid], [*type].
    The caller passes an array of [MAX_APEX_NAME_LEN] bytes and non-null
    pointers; the bytes of [msg] a short datagram does not fill are the
    previous contents of the stack. *)
Definition apex_monitor_recv (name : list byte) (pid type : Z)
    : N (tt_error_t * list byte * Z * Z) :=
  ctx ← get_ctx;
  s ← get_st;
  '(ret, errno, data) ← sys (Recvfrom (cm_apex_fd (cx_comm ctx)) (Z.of_nat sizeof_timpani_msg_t));
  if ret <? 0 then
    if errno =? EAGAIN then mret (TT_ERROR_IO, name, pid, type)
    else mret (TT_ERROR_NETWORK, name, pid, type)
  else if ret =? 0 then mret (TT_ERROR_IO, name, pid, type)
  else
    let data := take (Z.to_nat ret) data in
    let msg := data ++ drop (length data) (sj (n_trace s) sizeof_timpani_msg_t) in
    let copied := set_char (strncpy name (msg_name msg) (MAX_APEX_NAME_LEN - 1)) (MAX_APEX_NAME_LEN - 1) x00 in
    if msg_type msg =? APEX_FAULT then mret (TT_SUCCESS, copied, pid, msg_type msg)
    else if msg_type msg =? APEX_UP then mret (TT_SUCCESS, copied, msg_up_pid msg, msg_type msg)
    else if msg_type msg =? APEX_DOWN then mret (TT_SUCCESS, name, msg_down_pid msg, msg_type msg)
    else if msg_type msg =? APEX_RESET then mret (TT_SUCCESS, name, pid, msg_type msg)
    else mret (TT_ERROR_IO, name, pid, type).

Definition apex_info_zero (addr : Z) : apex_info :=
  mk_apex_info addr task_info_zero (zeros MAX_APEX_NAME_LEN) 0 0 0 0.

(** The loop over the schedule; returns [success_count]. *)
Fixpoint apex_list_loop (tasks : list (Z * task_info)) (success_count : Z) : N Z :=
  match tasks with
  | [] => mret success_count
  | (_, ti) :: tasks =>
      ctx ← get_ctx;
      if negb (strcmp_eq (cf_node_id (cx_config ctx)) (ti_node_id ti))
      then apex_list_loop tasks success_count
      else
        p ← alloc sizeof_apex_info;
        match p with
        | None => apex_list_loop tasks success_count
        | Some p =>
            upd_rt (fun r => r <| rt_apex_list ::= cons ((apex_info_zero p) <| ai_task := ti |>) |>) ;;
            apex_list_loop tasks (success_count + 1)
        end
  end.

Definition init_apex_list : N tt_error_t :=
  ctx ← get_ctx;
  success_count ← apex_list_loop (si_tasks (rt_sched_info (cx_runtime ctx))) 0;
  mret (if success_count =? 0 then TT_ERROR_CONFIG else TT_SUCCESS).

(** ** Coredata provider *)

Definition coredata_client_init : N Z :=
  fd ← sys Socket;
  if fd =? -1 then mret (-1) else mret fd.

(** The message for [app]. *)
Definition dmiss_msg (app : apex_info) (junk : list byte) : dmiss_status :=
  {| ds_name := set_char (strncpy junk (ai_name app) 255) 255 x00;
     ds_pid := ai_nspid app;
     ds_dmiss_max := i32 (ti_allowable_deadline_misses (ai_task app));
     ds_dmiss_count := ai_dmiss_count app;
     ds_period_us := ti_period (ai_task app) |}.

(** [app] is the address of the list node. *)
Definition coredata_client_send (app : Z) : N tt_error_t :=
  s ← get_st;
  (if n_coredata_fd s =? -1 then
     ret ← coredata_client_init;
     if ret =? -1 then mret false
     else modify (fun s => s <| n_coredata_fd := ret |>) ;; mret true
   else mret true) ≫= fun ok : bool =>
  if negb ok then mret TT_ERROR_IO
  else
    s ← get_st;
    a ← read_apex app;
    ret ← sys (Sendto (n_coredata_fd s) (dmiss_msg a (sj (n_trace s) 256)) COREDATA_SOCKET_PATH);
    if ret =? -1 then mret TT_ERROR_IO else mret TT_SUCCESS.

Definition coredata_timer_handler (app : Z) : N unit :=
  a ← read_apex app;
  let dmiss_time_us := ai_dmiss_time_us a in
  (if negb (dmiss_time_us =? 0) then
     '(_, now) ← sys (ClockGettime CLOCK_MONOTONIC);
     let delta := u64 (tt_timespec_to_us now - dmiss_time_us) in
     if ti_period (ai_task a) <? delta then
       write_apex app (fun a => a <| ai_dmiss_count := 0 |> <| ai_dmiss_time_us := 0 |>)
     else mret tt
   else mret tt) ;;
  _ ← coredata_client_send app;
  mret tt.

Definition coredata_its : itimerspec :=
  mk_itimerspec (mk_timespec 0 500000000) (mk_timespec 0 1000).

(** [app] is 0 for the null pointer. *)
Definition coredata_create_timer (app : Z) : N tt_error_t :=
  if app =? 0 then mret TT_ERROR_INVALID_ARGS
  else
    '(r, timer) ← sys (TimerCreate CLOCK_REALTIME (H_coredata_timer app));
    if r =? -1 then mret TT_ERROR_TIMER
    else
      write_apex app (fun a => a <| ai_coredata_timer := timer |>) ;;
      r ← sys (TimerSettime timer 0 coredata_its);
      if r =? -1 then
        _ ← sys (TimerDelete timer);
        mret TT_ERROR_TIMER
      else mret TT_SUCCESS.

Definition coredata_delete_timer (app : Z) : N unit :=
  if app =? 0 then mret tt
  else
    a ← read_apex app;
    if negb (ai_coredata_timer a =? 0) then
      _ ← sys (TimerDelete (ai_coredata_timer a));
      mret tt
    else mret tt.

End apex_monitor.

(** ** Messages *)

(** What an application can tell, and the bytes of the [timpani_msg_t] that
    says so on the same host. *)
Inductive apex_msg :=
  | M_fault (name : list byte) (type : Z)
  | M_up (name : list byte) (pid : Z)
  | M_down (pid : Z)
  | M_reset.

Section messages.
Context {HO : Host}.

Definition encode_msg (m : apex_msg) : list byte :=
  match m with
  | M_fault name type => host_store 4 APEX_FAULT ++ in_array MAX_APEX_NAME_LEN name ++ host_store 4 type
  | M_up name pid => host_store 4 APEX_UP ++ in_array MAX_APEX_NAME_LEN name ++ host_store 4 pid
  | M_down pid => host_store 4 APEX_DOWN ++ host_store 4 pid ++ zeros 256
  | M_reset => host_store 4 APEX_RESET ++ zeros 260
  end.

(** Names that fit the array and 32-bit pids. *)
Definition msg_ok (m : apex_msg) : Prop :=
  match m with
  | M_fault name type => no_nul name /\ blen name < 256
  | M_up name pid => no_nul name /\ blen name < 256 /\ in_s 32 pid
  | M_down pid => in_s 32 pid
  | M_reset => True
  end.

(** What the receiver has to see: name (if the message has one), pid, type;
    the others keep their values. *)
Definition msg_fields (m : apex_msg) (name : list byte) (pid : Z) : list byte * Z * Z :=
  match m with
  | M_fault n _ => (n, pid, APEX_FAULT)
  | M_up n p => (n, p, APEX_UP)
  | M_down p => (cstr name, p, APEX_DOWN)
  | M_reset => (cstr name, pid, APEX_RESET)
  end.

Lemma length_host_store n x : length (host_store n x) = n.
Proof. unfold host_store. destruct host_le; [apply length_le_bytes|apply length_be_bytes]. Qed.

(** An [int] at offset [off] of the message. *)
Lemma msg_int_at off a x b : length a = off -> msg_int off (a ++ host_store 4 x ++ b) = i32 x.
Proof.
  intros <-. unfold msg_int. rewrite drop_app_length, take_app_length' by (by rewrite length_host_store).
  unfold host_load, host_store. destruct host_le; rewrite ?le_val_le_bytes, ?be_val_be_bytes;
    apply (wraps_wrapu 32); lia.
Qed.

Lemma length_in_array n w : (length w <= n)%nat -> length (in_array n w) = n.
Proof. intros H. unfold in_array. rewrite length_app, length_zeros. lia. Qed.

Lemma cstr_in_array n w : no_nul w -> (length w < n)%nat -> cstr (in_array n w) = w.
Proof.
  intros Hw Hl. unfold in_array. destruct (n - length w)%nat eqn:E; [lia|]. by apply cstr_app_nul.
Qed.

Lemma msg_name_at x w b :
  length w = MAX_APEX_NAME_LEN -> msg_name (host_store 4 x ++ w ++ b) = w.
Proof.
  intros H. unfold msg_name. rewrite drop_app_length' by (by rewrite length_host_store). by apply take_app_length'.
Qed.

Lemma length_encode_msg m : msg_ok m -> length (encode_msg m) = sizeof_timpani_msg_t.
Proof.
  destruct m; cbn [msg_ok encode_msg]; intros; rewrite !length_app, ?length_host_store, ?length_in_array,
    ?length_zeros; unfold MAX_APEX_NAME_LEN; try done; lia.
Qed.

(** A copied name ends inside the array. *)
Lemma cstr_copied dst src n :
  (n < length dst)%nat -> cstr (set_char (strncpy dst src n) n x00) = take n (cstr src).
Proof.
  intros H. unfold set_char.
  assert (E : <[n:=x00]> (strncpy dst src n) = strncpy (<[n:=x00]> dst) src n).
  { unfold strncpy. rewrite !app_assoc. pose proof (length_take (cstr src) n).
    rewrite insert_app_r_alt by (rewrite length_app, length_zeros; lia).
    rewrite drop_insert_ge by lia. do 2 f_equal. rewrite length_app, length_zeros. lia. }
  rewrite E. apply cstr_strncpy. by apply list_lookup_insert_eq.
Qed.

Context {K : Kernel} {SJ : StackJunk}.

(** C31: every message an application can send on the monitor socket is
    received as it was sent: [apex_monitor_recv] succeeds, the name (up to 255
    characters), the pid and the type are those of the message, what the
    message does not carry keeps its value, and the name stays a terminated
    string inside its array. *)
Theorem apex_message_roundtrip m name pid type errno s :
  msg_ok m -> length name = MAX_APEX_NAME_LEN -> nul_terminated name ->
  kresp (n_trace s) (Recvfrom (cm_apex_fd (cx_comm (n_ctx s))) (Z.of_nat sizeof_timpani_msg_t)) =
    (Z.of_nat sizeof_timpani_msg_t, errno, encode_msg m) ->
  wp (apex_monitor_recv name pid type) (fun '(r, name', pid', type') s' =>
    r = TT_SUCCESS /\ (cstr name', pid', type') = msg_fields m name pid /\
    length name' = MAX_APEX_NAME_LEN /\ n_ctx s' = n_ctx s) s.
Proof.
  intros Hm Hn Ht Hr. unfold apex_monitor_recv, get_ctx. do 2 wp_step. apply wp_bind, wp_get, wp_bind, wp_sys.
  rewrite Hr. cbn beta iota. change (Z.of_nat sizeof_timpani_msg_t <? 0) with false.
  change (Z.of_nat sizeof_timpani_msg_t =? 0) with false. cbn beta iota zeta.
  pose proof (length_encode_msg m Hm) as Hlm. rewrite Nat2Z.id, take_ge, Hlm by lia.
  rewrite (drop_ge (sj _ _)) by (rewrite sj_length; lia). rewrite app_nil_r.
  assert (Hcopy : forall w, no_nul w -> (length w < 256)%nat ->
    cstr (set_char (strncpy name (in_array MAX_APEX_NAME_LEN w) (MAX_APEX_NAME_LEN - 1)) (MAX_APEX_NAME_LEN - 1) x00) = w).
  { intros w Hw Hl. rewrite cstr_copied by (rewrite Hn; unfold MAX_APEX_NAME_LEN; lia).
    rewrite cstr_in_array by done. apply take_ge. unfold MAX_APEX_NAME_LEN. lia. }
  assert (Hlen : forall src, length (set_char (strncpy name src (MAX_APEX_NAME_LEN - 1)) (MAX_APEX_NAME_LEN - 1) x00) =
    MAX_APEX_NAME_LEN).
  { intros src. unfold set_char. rewrite length_insert, length_strncpy; rewrite Hn; [done|unfold MAX_APEX_NAME_LEN; lia]. }
  assert (Ha : forall w, (length w < 256)%nat -> length (in_array MAX_APEX_NAME_LEN w) = MAX_APEX_NAME_LEN).
  { intros w Hw. apply length_in_array. unfold MAX_APEX_NAME_LEN. lia. }
  assert (Hty : forall x b, in_s 32 x -> msg_type (host_store 4 x ++ b) = x).
  { intros x b Hx. rewrite <- (wraps_id 32 x) at 2 by (done || lia). by apply (msg_int_at 0 []). }
  destruct m as [w ty|w p|p|]; cbn [encode_msg msg_ok msg_fields] in *; rewrite Hty by done; 
    cbn -[set_char strncpy msg_name msg_up_pid msg_down_pid MAX_APEX_NAME_LEN host_store in_array zeros Nat.sub];
    apply wp_ret; rewrite ?msg_name_at by (apply Ha; lia); split_and!; try done; f_equal; f_equal.
  - apply Hcopy; [apply Hm|lia].
  - apply Hcopy; [apply Hm|lia].
  - rewrite <- (wraps_id 32 p) at 2 by (lia || apply Hm). rewrite app_assoc, <- (app_nil_r (host_store 4 p)).
    apply msg_int_at. rewrite length_app, length_host_store, Ha by lia. done.
  - rewrite <- (wraps_id 32 p) at 2 by (lia || apply Hm). apply msg_int_at, length_host_store.
Qed.

End messages.

(** *** Witness *)

Definition apex_up_kernel : Kernel := {| kresp := fun _ _ c =>
  match c in call A return A with
  | Recvfrom _ _ => (264, 0, encode_msg (HO := le_host) (M_up (str "camera") 77))
  | c => default_reply c
  end |}.

Lemma apex_message_roundtrip_witness :
  wp (apex_monitor_recv (HO := le_host) (K := apex_up_kernel) (SJ := zero_stack) (zeros 256) 0 0)
    (fun '(r, name, pid, type) _ => r = TT_SUCCESS /\ cstr name = str "camera" /\ pid = 77 /\ type = APEX_UP)
    nstate_init.
Proof.
  eapply wp_mono.
  - apply (apex_message_roundtrip (HO := le_host) (K := apex_up_kernel) (SJ := zero_stack)
             (M_up (str "camera") 77) (zeros 256) 0 0 0 nstate_init).
    + cbn [msg_ok]. split_and!; [|vm_compute; reflexivity|unfold in_s; lia].
      apply (bool_decide_unpack (no_nul (str "camera"))). vm_compute. exact I.
    + reflexivity.
    + left.
    + reflexivity.
  - intros [[[r name] pid] type] s' (-> & [= -> -> ->] & _). auto.
Defined.
