(* ===== verification/Core.v ===== *)
(** * Core engine (timpani-n/src/core.c)

    Clock calibration, the BPF callbacks, the timer handler that detects
    deadline misses and triggers the tasks, the start of the timers and the
    Apex.OS events.  The event loop [epoll_loop] is in Main. *)

From S2P Require Import Prelude Time Types Kernel Serialize Hyperperiod.
From S2P Require Import SchedInfo PeerDbus Trpc Sched TraceBpf ApexMonitor.

Section core.
Context {HO : Host} {K : Kernel} {SJ : StackJunk} {BC : BuildConfig}.

(** ** Clock calibration *)

Definition UINT64_MAX : Z := 2 ^ 64 - 1.

(** The loop with [n] rounds to go. *)
Fixpoint calibrate_loop (n : nat) (best_delta : Z) : N tt_error_t :=
  match n with
  | O => mret TT_SUCCESS
  | S n =>
      '(r, t1) ← sys (ClockGettime CLOCK_REALTIME);
      if r <? 0 then mret TT_ERROR_TIMER
      else
        '(r, t2) ← sys (ClockGettime CLOCK_MONOTONIC);
        if r <? 0 then mret TT_ERROR_TIMER
        else
          '(r, t3) ← sys (ClockGettime CLOCK_REALTIME);
          if r <? 0 then mret TT_ERROR_TIMER
          else
            let delta := u64 (tt_timespec_to_ns t3 - tt_timespec_to_ns t1) in
            let ts := u64 (tt_timespec_to_ns t3 + tt_timespec_to_ns t1) / 2 in
            if delta <? best_delta then
              modify (fun s => s <| n_bpf_ktime_off := u64 (ts - tt_timespec_to_ns t2) |>) ;;
              calibrate_loop n delta
            else calibrate_loop n best_delta
  end.

Definition calibrate_bpf_ktime_offset_internal : N tt_error_t := calibrate_loop 20 UINT64_MAX.
Definition calibrate_bpf_time_offset : N tt_error_t := calibrate_bpf_ktime_offset_internal.

Definition bpf_ktime_to_real (off bpf_ts : Z) : Z := u64 (off + bpf_ts).

(** ** Callbacks of the ring buffers *)

Definition sizeof_sigwait_event : Z := 24.

(** [tt_p->task.pid == e->pid]: the [int] is converted to [uint32_t]. *)
Definition pid_matches (n : time_trigger) (pid : Z) : bool := ti_pid (tt_task n) =? u32 pid.

Definition handle_sigwait_bpf_event (ctx : bool) (data : option sigwait_event) (len : Z) : N tt_error_t :=
  match ctx, data with
  | true, Some e =>
      if len <? sizeof_sigwait_event then mret TT_ERROR_BPF
      else
        s ← get_st;
        _ ← for_each (rt_tt_list (cx_runtime (n_ctx s))) (fun n =>
          if pid_matches n (se_pid e) then
            write_node (tt_addr n) (fun n =>
              n <| tt_sigwait_ts := bpf_ktime_to_real (n_bpf_ktime_off s) (se_timestamp e) |>
                <| tt_sigwait_enter := se_enter e |>) ;;
            mret (Some tt)
          else mret None);
        mret TT_SUCCESS
  | _, _ => mret TT_ERROR_BPF
  end.

(** [((ns) + (1000 - 1)) / 1000] on [uint64_t] *)
Definition SCHEDSTAT_NS_TO_US (ns : Z) : Z := u64 (ns + (1000 - 1)) / 1000.

(** [%-16s] *)
Definition fmt_s16 (s : list byte) : list byte :=
  let s := cstr s in s ++ replicate (16 - length s) x20.

Definition schedstat_line (tname node_id : list byte) (cpu wakeup start stop : Z) : list byte :=
  fmt_s16 tname ++ str " 0 0 " ++ cstr node_id ++ str "-C" ++ fmt_d cpu ++ str " 0 "
  ++ fmt_d wakeup ++ str " " ++ fmt_d start ++ str " " ++ fmt_d stop ++ str " 0" ++ [newline].

(** The static [FILE] pointer is [n_plot_file]. *)
Definition write_schedstat (e : schedstat_event) (tname : list byte) : N unit :=
  s ← get_st;
  let cfg := cx_config (n_ctx s) in
  if negb (cf_enable_plot cfg) then
    if n_plot_file s then
      sys Fclose ;;
      modify (fun s => s <| n_plot_file := false |>)
    else mret tt
  else
    (if negb (n_plot_file s) then
       ok ← sys (FopenWrite (cstr (cf_node_id cfg) ++ str ".gpdata"));
       modify (fun s => s <| n_plot_file := ok |>) ;;
       mret ok
     else mret true) ≫= fun ok : bool =>
    if negb ok then upd_ctx (fun c => c <| cx_config ::= fun f => f <| cf_enable_plot := false |> |>)
    else
      let us t := SCHEDSTAT_NS_TO_US (bpf_ktime_to_real (n_bpf_ktime_off s) t) in
      sys (FputLine (schedstat_line tname (cf_node_id cfg) (ss_cpu e)
                       (us (ss_ts_wakeup e)) (us (ss_ts_start e)) (us (ss_ts_stop e)))).

(** With CONFIG_TRACE_BPF_EVENT; the run time and latency are only logged. *)
Definition handle_schedstat_bpf_event (ctx : bool) (data : option schedstat_event) (len : Z)
    : N tt_error_t :=
  if CONFIG_TRACE_BPF_EVENT then
    match ctx, data with
    | true, Some e =>
        if len =? 0 then mret TT_ERROR_BPF
        else
          s ← get_st;
          let tt_p := list_find (fun n => pid_matches n (ss_pid e) = true)
                        (rt_tt_list (cx_runtime (n_ctx s))) in
          match tt_p with
          | Some (_, n) =>
              if cf_enable_plot (cx_config (n_ctx s))
              then write_schedstat e (ti_name (tt_task n)) ;; mret TT_SUCCESS
              else mret TT_SUCCESS
          | None => mret TT_SUCCESS
          end
    | _, _ => mret TT_ERROR_BPF
    end
  else mret TT_SUCCESS.

(** ** Timer expiry *)

(** [total_deadline_misses++; cycle_deadline_misses++; report_deadline_miss] *)
Definition count_and_report (name : list byte) : N unit :=
  upd_hp (fun h => h <| hp_total_deadline_misses ::= fun n => u32 (n + 1) |>) ;;
  upd_hp (fun h => h <| hp_cycle_deadline_misses ::= fun n => u32 (n + 1) |>) ;;
  _ ← report_deadline_miss name;
  mret tt.

(** The deadline check, for a node as it is after the sleep. *)
Definition check_deadline (p : Z) (before : timespec) : N unit :=
  n ← read_node p;
  if negb (tt_sigwait_ts n =? 0) then
    let deadline_ns := tt_timespec_to_ns before in
    (if tt_sigwait_enter n =? 0 then count_and_report (ti_name (tt_task n))
     else if deadline_ns <? tt_sigwait_ts n then count_and_report (ti_name (tt_task n))
     else if tt_sigwait_ts n =? tt_sigwait_ts_prev n then count_and_report (ti_name (tt_task n))
     else mret tt) ;;
    write_node p (fun n => n <| tt_sigwait_ts_prev := tt_sigwait_ts n |>)
  else mret tt.

(** [tt_node] is the pointer stored in the timer, 0 for NULL. *)
Definition timer_expired_handler (tt_node : Z) : N unit :=
  if tt_node =? 0 then mret tt
  else
    n ← read_node tt_node;
    if negb (tt_ctx n) then mret tt
    else
      ctx ← get_ctx;
      let clockid := cf_clockid (cx_config ctx) in
      '(_, before) ← sys (ClockGettime clockid);
      _ ← get_hyperperiod_relative_time;
      (if negb (ti_release_time (tt_task n) =? 0) then
         _ ← sys (ClockNanosleep clockid (tt_us_to_timespec (ti_release_time (tt_task n))));
         mret tt
       else mret tt) ;;
      check_deadline tt_node before ;;
      _ ← sys (ClockGettime clockid);
      _ ← send_signal_pidfd (ti_pidfd (tt_task n)) SIGNO_TT;
      write_node tt_node (fun n => n <| tt_prev_timer := before |>).

(** ** Starting the timers *)

Definition task_its (start : timespec) (period : Z) : itimerspec :=
  mk_itimerspec (mk_timespec (i64 (period / USEC_PER_SEC))
                   (i64 (u64 (period mod USEC_PER_SEC * NSEC_PER_USEC))))
    start.

Definition start_timers : N tt_error_t :=
  ctx ← get_ctx;
  let clockid := cf_clockid (cx_config ctx) in
  (if negb (cf_enable_sync (cx_config ctx)) then
     '(_, now) ← sys (ClockGettime clockid);
     upd_rt (fun r => r <| rt_starttimer_ts :=
       now <| tv_nsec ::= fun n => i64 (n + TT_TIMER_INCREMENT_NS) |> |>)
   else mret tt) ;;
  ctx ← get_ctx;
  let start := rt_starttimer_ts (cx_runtime ctx) in
  r ← for_each (rt_tt_list (cx_runtime ctx)) (fun n =>
    '(r, timer) ← sys (TimerCreate clockid (H_timer_expired (tt_addr n)));
    if negb (r =? 0) then mret (Some TT_ERROR_TIMER)
    else
      write_node (tt_addr n) (fun n => n <| tt_timer := timer |>) ;;
      r ← sys (TimerSettime timer TIMER_ABSTIME (task_its start (ti_period (tt_task n))));
      if negb (r =? 0) then mret (Some TT_ERROR_TIMER) else mret None);
  mret (default TT_SUCCESS r).

(** ** Apex.OS events *)

Definition handle_apex_fault_event (name : list byte) : N tt_error_t :=
  ctx ← get_ctx;
  r ← for_each (rt_apex_list (cx_runtime ctx)) (fun apex =>
    if negb (strncmp_eq (ti_name (ai_task apex)) name 15) then mret None
    else
      let p := ai_addr apex in
      (if ti_pid (ai_task apex) =? 0 then
         '(r, pid) ← get_pid_by_name (Some name) true;
         write_apex p (fun a => a <| ai_task ::= fun t => t <| ti_pid := u32 pid |> |>) ;;
         mret (ts_ok_code r)
       else mret true) ≫= fun ok : bool =>
      if negb ok then mret (Some TT_ERROR_INVALID_ARGS)
      else
        '(_, now) ← sys (ClockGettime CLOCK_MONOTONIC);
        let now_us := tt_timespec_to_us now in
        a ← read_apex p;
        let dmiss_time_us := ai_dmiss_time_us a in
        let delta := u64 (now_us - dmiss_time_us) in
        (if (dmiss_time_us =? 0) || (ti_period (ai_task a) <? delta) then
           write_apex p (fun a => a <| ai_dmiss_count := 1 |> <| ai_dmiss_time_us := now_us |>)
         else write_apex p (fun a => a <| ai_dmiss_count ::= fun c => i32 (c + 1) |>)) ;;
        _ ← coredata_client_send p;
        a ← read_apex p;
        if ti_allowable_deadline_misses (ai_task a) <=? u32 (ai_dmiss_count a) then
          _ ← report_deadline_miss name;
          write_apex p (fun a => a <| ai_dmiss_count := 0 |> <| ai_dmiss_time_us := 0 |>) ;;
          let cpu_affinity := Z.shiftr (Z.land (ti_cpu_affinity (ai_task a)) 0xFFFFFFFF00000000) 32 in
          r ← set_affinity_cpumask_all_threads (i32 (ti_pid (ai_task a))) cpu_affinity;
          if negb (ts_ok_code r) then mret (Some TT_ERROR_PERMISSION) else mret (Some TT_SUCCESS)
        else mret (Some TT_SUCCESS));
  mret (default TT_ERROR_INVALID_ARGS r).

Definition handle_apex_up_event (name : list byte) (nspid : Z) : N tt_error_t :=
  '(r, pid) ← get_pid_by_nspid (Some name) nspid true;
  let pid := if ts_ok_code r then pid else nspid in
  ctx ← get_ctx;
  r ← for_each (rt_apex_list (cx_runtime ctx)) (fun apex =>
    if strncmp_eq (ti_name (ai_task apex)) name 15 then
      write_apex (ai_addr apex) (fun a =>
        a <| ai_task ::= fun t => t <| ti_pid := u32 pid |> |>
          <| ai_nspid := nspid |>
          <| ai_name ::= fun n => set_char (strncpy n name (MAX_APEX_NAME_LEN - 1)) (MAX_APEX_NAME_LEN - 1) x00 |>) ;;
      r ← set_affinity_cpumask_all_threads pid (Z.land (ti_cpu_affinity (ai_task apex)) 0xFFFFFFFF);
      if negb (ts_ok_code r) then mret (Some TT_ERROR_PERMISSION)
      else
        _ ← coredata_create_timer (ai_addr apex);
        mret (Some TT_SUCCESS)
    else mret None);
  mret (default TT_ERROR_INVALID_ARGS r).

Definition handle_apex_down_event (nspid : Z) : N tt_error_t :=
  ctx ← get_ctx;
  r ← for_each (rt_apex_list (cx_runtime ctx)) (fun apex =>
    if ai_nspid apex =? nspid then
      coredata_delete_timer (ai_addr apex) ;;
      write_apex (ai_addr apex) (fun a =>
        a <| ai_task ::= fun t => t <| ti_pid := 0 |> |> <| ai_nspid := 0 |>) ;;
      mret (Some TT_SUCCESS)
    else mret None);
  mret (default TT_ERROR_INVALID_ARGS r).

Definition handle_apex_reset_event : N tt_error_t :=
  ctx ← get_ctx;
  r ← for_each (rt_apex_list (cx_runtime ctx)) (fun apex =>
    let pid := i32 (ti_pid (ai_task apex)) in
    if negb (pid =? 0) then
      r ← set_affinity_cpumask_all_threads pid (Z.land (ti_cpu_affinity (ai_task apex)) 0xFFFFFFFF);
      if negb (ts_ok_code r) then mret (Some TT_ERROR_PERMISSION)
      else
        write_apex (ai_addr apex) (fun a => a <| ai_dmiss_count := 0 |> <| ai_dmiss_time_us := 0 |>) ;;
        _ ← coredata_client_send (ai_addr apex);
        mret None
    else mret None);
  mret (default TT_ERROR_INVALID_ARGS r).

Definition handle_apex_events : N tt_error_t :=
  s ← get_st;
  '(ret, name, nspid, type) ← apex_monitor_recv (sj (n_trace s) MAX_APEX_NAME_LEN) 0 0;
  if negb (tt_ok_code ret) then mret ret
  else
    (if type =? APEX_FAULT then _ ← handle_apex_fault_event name; mret tt
     else if type =? APEX_UP then _ ← handle_apex_up_event name nspid; mret tt
     else if type =? APEX_DOWN then _ ← handle_apex_down_event nspid; mret tt
     else if type =? APEX_RESET then _ ← handle_apex_reset_event; mret tt
     else mret tt) ;;
    mret TT_SUCCESS.

End core.

(** ** What the handlers ask of the outside world *)

(** Deadline-miss reports: bus, node id, task name. *)
Definition ev_report (e : event) : option (Z * list byte * list byte) :=
  match e with
  | Event (SdBusCallMethod bus _ _ _ member [node; name]) _ =>
      if decide (member = TRPC_METHOD_DMISS) then Some (bus, node, name) else None
  | _ => None
  end.
Definition reports (s : nstate) : list (Z * list byte * list byte) := omap ev_report (n_trace s).

(** Signals sent: pidfd and number. *)
Definition ev_signal (e : event) : option (Z * Z) :=
  match e with
  | Event (PidfdSendSignal fd sig) _ => Some (fd, sig)
  | _ => None
  end.
Definition signals (s : nstate) : list (Z * Z) := omap ev_signal (n_trace s).

(** ** The timer handler *)

(** The test of the deadline check: the task has been seen, and it is still
    running, or went to wait too late, or has not moved since last time. *)
Definition missed (n : time_trigger) (deadline_ns : Z) : bool :=
  negb (tt_sigwait_ts n =? 0) &&
  ((tt_sigwait_enter n =? 0) || (deadline_ns <? tt_sigwait_ts n) ||
   (tt_sigwait_ts n =? tt_sigwait_ts_prev n)).

Definition count_miss (m : bool) (h : hyperperiod_manager) : hyperperiod_manager :=
  if m then h <| hp_total_deadline_misses ::= fun n => u32 (n + 1) |>
              <| hp_cycle_deadline_misses ::= fun n => u32 (n + 1) |>
  else h.

(** [seen]: a wait of the task has been recorded. *)
Definition mark_seen (seen : bool) (n : time_trigger) : time_trigger :=
  if seen then n <| tt_sigwait_ts_prev := tt_sigwait_ts n |> else n.
Definition expire_node (seen : bool) (before : timespec) (n : time_trigger) : time_trigger :=
  (mark_seen seen n) <| tt_prev_timer := before |>.

Lemma mark_seen_addr seen n : tt_addr (mark_seen seen n) = tt_addr n.
Proof. by destruct seen. Qed.

(** The context after the timer of node [n] at [p] expired at [before]. *)
Definition expire_ctx (p : Z) (n : time_trigger) (before : timespec) (c : context) : context :=
  c <| cx_hp ::= count_miss (missed n (tt_timespec_to_ns before)) |>
    <| cx_runtime ::= fun r => r <| rt_tt_list ::=
         upd_node p (expire_node (negb (tt_sigwait_ts n =? 0)) before) |> |>.

(** The manager's context pointer is set once a start time is. *)
Definition hp_linked (s : nstate) : Prop :=
  hp_hyperperiod_start_time_us (cx_hp (n_ctx s)) <> 0 -> hp_ctx (cx_hp (n_ctx s)) = true.

Section timer.
Context {HO : Host} {K : Kernel} {SJ : StackJunk} {BC : BuildConfig}.

(** The context, the reports and the signals. *)
Definition io (s : nstate) : context * list (Z * list byte * list byte) * list (Z * Z) :=
  (n_ctx s, reports s, signals s).

Lemma io_inv s c r g : io s = (c, r, g) -> n_ctx s = c /\ reports s = r /\ signals s = g.
Proof. unfold io. by intros [[? ?]%pair_equal_spec ?]%pair_equal_spec. Qed.

Lemma relative_time_io s : hp_linked s -> wp get_hyperperiod_relative_time (fun _ s' => io s' = io s) s.
Proof.
  intros Hl. unfold get_hyperperiod_relative_time, get_ctx. do 2 wp_step.
  destruct (Z.eqb_spec (hp_hyperperiod_start_time_us (cx_hp (n_ctx s))) 0); [by apply wp_ret|].
  rewrite Hl by done. apply wp_bind, wp_sys. destruct (kresp _ _) as [r now].
  destruct (negb _); by apply wp_ret.
Qed.

Lemma report_deadline_miss_spec name s :
  wp (report_deadline_miss name) (fun r s' =>
    (r = TT_SUCCESS \/ r = TT_ERROR_NETWORK) /\
    io s' = (n_ctx s, (cm_dbus (cx_comm (n_ctx s)), cstr (cf_node_id (cx_config (n_ctx s))), cstr name) :: reports s,
             signals s)) s.
Proof.
  unfold report_deadline_miss, trpc_client_dmiss, call_method, release_reply, get_ctx.
  repeat first [wp_step | apply wp_sys]; (split; [destruct (_ <? 0); auto|done]).
Qed.

Lemma count_and_report_spec name s :
  wp (count_and_report name) (fun _ s' =>
    io s' = ((n_ctx s) <| cx_hp ::= count_miss true |>,
             (cm_dbus (cx_comm (n_ctx s)), cstr (cf_node_id (cx_config (n_ctx s))), cstr name) :: reports s,
             signals s)) s.
Proof.
  unfold count_and_report, upd_hp, upd_ctx. do 2 (apply wp_bind; wp_step). apply wp_bind.
  eapply wp_mono; [apply report_deadline_miss_spec|]. intros r s' [_ H]. by apply wp_ret.
Qed.

Definition reports_if (m : bool) (n : time_trigger) (c : context) : list (Z * list byte * list byte) :=
  if m then [(cm_dbus (cx_comm c), cstr (cf_node_id (cx_config c)), cstr (ti_name (tt_task n)))] else [].

Lemma check_deadline_spec p n before s :
  find_node p (rt_tt_list (cx_runtime (n_ctx s))) = Some n ->
  let m := missed n (tt_timespec_to_ns before) in
  wp (check_deadline p before) (fun _ s' =>
    io s' = ((n_ctx s) <| cx_hp ::= count_miss m |>
      <| cx_runtime ::= fun r => r <| rt_tt_list ::=
           upd_node p (mark_seen (negb (tt_sigwait_ts n =? 0))) |> |>,
      reports_if m n (n_ctx s) ++ reports s, signals s)) s.
Proof.
  intros Hn m. unfold check_deadline. apply wp_bind. eapply wp_read_node; [exact Hn|].
  subst m. unfold missed. destruct (tt_sigwait_ts n =? 0) eqn:E0; cbn [negb andb mark_seen].
  { apply wp_ret. unfold io. simpl. rewrite upd_by_id by done.
    by destruct (n_ctx s) as [? [] ? ?]. }
  apply wp_bind.
  assert (Hwrite : forall c rs s1, io s1 = (c, rs, signals s) -> cx_runtime c = cx_runtime (n_ctx s) ->
    wp (write_node p (fun n => n <| tt_sigwait_ts_prev := tt_sigwait_ts n |>)) (fun _ s' =>
      io s' = (c <| cx_runtime ::= fun r => r <| rt_tt_list ::= upd_node p (mark_seen true) |> |>, rs, signals s)) s1).
  { intros c rs s1 [= Hc Hrs Hsg] Hrt. eapply wp_write_node; [rewrite Hc, Hrt; exact Hn|].
    unfold io, reports, signals in *. simpl. by rewrite Hc, Hrs, Hsg. }
  destruct (tt_sigwait_enter n =? 0); [|destruct (tt_timespec_to_ns before <? tt_sigwait_ts n);
    [|destruct (tt_sigwait_ts n =? tt_sigwait_ts_prev n)]]; cbn [orb];
    try (eapply wp_mono; [apply count_and_report_spec|]; intros [] s1 H1; by eapply Hwrite).
  apply wp_ret. eapply wp_mono; [by eapply (Hwrite (n_ctx s) (reports s))|]. intros [] s' H.
  rewrite H. simpl. by destruct (n_ctx s) as [? [] ? ?].
Qed.

(** The effect of one expiry. *)
Lemma timer_expired_effect p n s :
  p <> 0 -> find_node p (rt_tt_list (cx_runtime (n_ctx s))) = Some n ->
  tt_ctx n = true -> 0 <= ti_pidfd (tt_task n) -> hp_linked s ->
  let before := snd (kresp (n_trace s) (ClockGettime (cf_clockid (cx_config (n_ctx s))))) in
  wp (timer_expired_handler p) (fun _ s' =>
    n_ctx s' = expire_ctx p n before (n_ctx s) /\
    reports s' = reports_if (missed n (tt_timespec_to_ns before)) n (n_ctx s) ++ reports s /\
    signals s' = (ti_pidfd (tt_task n), SIGNO_TT) :: signals s) s.
Proof.
  intros Hp Hn Hctx Hfd Hl before. unfold timer_expired_handler.
  rewrite (proj2 (Z.eqb_neq _ _) Hp). apply wp_bind. eapply wp_read_node; [exact Hn|].
  rewrite Hctx. simpl. unfold get_ctx. do 2 wp_step. apply wp_bind, wp_sys. subst before.
  destruct (kresp (n_trace s) (ClockGettime _)) as [r before] eqn:Ek. simpl.
  apply wp_bind. eapply wp_mono; [by apply relative_time_io|]. intros a1 s1 H1. cbn beta in H1.
  change (io (log _ _ s)) with (io s) in H1. apply wp_bind.
  assert (Hsleep : forall Q, (forall s2, io s2 = io s -> Q tt s2) ->
    wp (if negb (ti_release_time (tt_task n) =? 0) then
         _ ← sys (ClockNanosleep (cf_clockid (cx_config (n_ctx s))) (tt_us_to_timespec (ti_release_time (tt_task n))));
         mret tt else mret tt) Q s1).
  { intros Q HQ. destruct (negb _); [apply wp_bind, wp_sys|]; apply wp_ret, HQ;
      (transitivity (io s1); [reflexivity|exact H1]). }
  apply Hsleep. intros s2 (Hc2 & Hr2 & Hs2)%io_inv. apply wp_bind.
  eapply wp_mono; [apply (check_deadline_spec p n); by rewrite Hc2|]. cbv zeta.
  intros [] s3 (Hc3 & Hr3 & Hs3)%io_inv. apply wp_bind, wp_sys, wp_bind. unfold send_signal_pidfd.
  rewrite (proj2 (Z.ltb_ge _ _) Hfd). apply wp_bind, wp_sys. destruct (_ <? 0); apply wp_ret;
    (eapply wp_write_node;
      [simpl; rewrite Hc3, Hc2; simpl; by rewrite find_by_upd, Hn by apply mark_seen_addr|]);
    (split_and!; [|by rewrite <- Hr2, <- Hc2, <- Hr3|by rewrite <- Hs2, <- Hs3]);
    unfold expire_ctx; simpl; rewrite Hc3, Hc2; simpl; by rewrite upd_by_compose by apply mark_seen_addr.
Qed.

(** C2: when the timer of a task expires, the handler reports a deadline miss
    for that task, and adds one to the total and per-cycle counters, exactly
    when the task has been seen and is still running, or entered its wait after
    the expiry, or has not waited again since the previous expiry; in every
    case it then sends the trigger signal once, to this task's pidfd only, and
    records the expiry and the last wait in the node.  Nothing else of the
    context changes. *)
Theorem timer_expired_handler_spec p n s :
  p <> 0 -> find_node p (rt_tt_list (cx_runtime (n_ctx s))) = Some n ->
  tt_ctx n = true -> 0 <= ti_pidfd (tt_task n) -> hp_linked s ->
  let before := snd (kresp (n_trace s) (ClockGettime (cf_clockid (cx_config (n_ctx s))))) in
  wp (timer_expired_handler p) (fun _ s' =>
    n_ctx s' = expire_ctx p n before (n_ctx s) /\
    reports s' = reports_if (missed n (tt_timespec_to_ns before)) n (n_ctx s) ++ reports s /\
    signals s' = (ti_pidfd (tt_task n), SIGNO_TT) :: signals s) s.
Proof. intros. by apply timer_expired_effect. Qed.

End timer.

(** ** Starting the timers *)

(** Timers created and armed, latest first. *)
Inductive timer_op :=
  | T_create (clk : Z) (h : handler) (timer : Z)
  | T_arm (timer flags : Z) (its : itimerspec).
Definition ev_timer_op (e : event) : option timer_op :=
  match e with
  | Event (TimerCreate clk h) r => if fst r =? 0 then Some (T_create clk h (snd r)) else None
  | Event (TimerSettime t f its) r => if r =? 0 then Some (T_arm t f its) else None
  | _ => None
  end.
Definition timer_ops (s : nstate) : list timer_op := omap ev_timer_op (n_trace s).

(** What starting the timer [t] of node [n] takes, latest first. *)
Definition start_ops (clk : Z) (start : timespec) (x : time_trigger * Z) : list timer_op :=
  let '(n, t) := x in
  [T_arm t TIMER_ABSTIME (task_its start (ti_period (tt_task n)));
   T_create clk (H_timer_expired (tt_addr n)) t].

Definition with_timer (x : time_trigger * Z) : time_trigger := (fst x) <| tt_timer := snd x |>.

Lemma task_its_spec start period :
  in_u 32 period ->
  it_value (task_its start period) = start /\ ts_norm (it_interval (task_its start period)) /\ ts_total_ns (it_interval (task_its start period)) = period * 1000.
Proof.
  intros Hp. unfold task_its, ts_norm, ts_total_ns, TT_USEC_PER_SEC, TT_NSEC_PER_USEC. simpl.
  pose proof (Z.mod_pos_bound period 1000000 ltac:(lia)). pose proof (Z.div_mod period 1000000 ltac:(lia)).
  assert (0 <= period / 1000000) by (apply Z.div_pos; range).
  rewrite (wrapu_id 64) by range. rewrite !(wraps_id 64) by range. split_and!; [done|lia..].
Qed.

Section start.
Context {K : Kernel}.

Abbreviation list_of s := (rt_tt_list (cx_runtime (n_ctx s))).

(** The loop, at the point where the timers [ts] of the nodes [done] run and
    [rest] is to come. *)
Definition started (clk : Z) (start : timespec) (s0 : nstate) (done : list time_trigger) (ts : list Z)
    (rest : list time_trigger) (s : nstate) : Prop :=
  length ts = length done /\ list_of s0 = done ++ rest /\
  n_ctx s = (n_ctx s0) <| cx_runtime ::= fun r => r <| rt_tt_list := (with_timer <$> zip done ts) ++ rest |> |> /\
  timer_ops s = concat (start_ops clk start <$> reverse (zip done ts)) ++ timer_ops s0.

Lemma with_timer_addrs l ts : length ts = length l -> tt_addr <$> (with_timer <$> zip l ts) = tt_addr <$> l.
Proof.
  revert ts. induction l as [|n l IH]; intros [|t ts] H; try done. simpl in *. f_equal. apply IH. lia.
Qed.

Lemma start_loop_spec clk start l s0 s :
  NoDup (tt_addr <$> l) -> started clk start s0 [] [] l s -> list_of s0 = l ->
  wp (for_each l (fun n =>
    '(r, timer) ← sys (TimerCreate clk (H_timer_expired (tt_addr n)));
    if negb (r =? 0) then mret (Some TT_ERROR_TIMER)
    else
      write_node (tt_addr n) (fun n => n <| tt_timer := timer |>) ;;
      r ← sys (TimerSettime timer TIMER_ABSTIME (task_its start (ti_period (tt_task n))));
      if negb (r =? 0) then mret (Some TT_ERROR_TIMER) else mret None))
    (fun r s' => match r with
                 | None => exists ts, started clk start s0 l ts [] s'
                 | Some e => e = TT_ERROR_TIMER
                 end) s.
Proof.
  intros Hd Hs0 Hl.
  apply (wp_for_each _ _ (fun rest s => exists done ts, started clk start s0 done ts rest s)).
  - by exists [], [].
  - intros n rest s1 (done & ts & Hlen & Hsplit & Hc & Hops).
    apply wp_bind, wp_sys. destruct (kresp _ (TimerCreate _ _)) as [r t] eqn:Er.
    destruct (Z.eqb_spec r 0) as [->|]; simpl; [|by apply wp_ret].
    assert (Hd1 : NoDup (tt_addr <$> (with_timer <$> zip done ts) ++ n :: rest)).
    { rewrite fmap_app, with_timer_addrs, <- fmap_app, <- Hsplit, Hl by done. done. }
    assert (Hin : find_node (tt_addr n) (list_of s1) = Some n).
    { rewrite Hc. apply find_by_in; [done|]. simpl. apply elem_of_app. right. apply list_elem_of_here. }
    apply wp_bind. eapply wp_write_node; [exact Hin|]. apply wp_bind, wp_sys.
    set (r2 := kresp _ (TimerSettime _ _ _)).
    destruct (r2 =? 0) eqn:E2; simpl; apply wp_ret; [|done].
    exists (done ++ [n]), (ts ++ [t]). split_and!.
    + rewrite !length_app. simpl. lia.
    + rewrite Hsplit. by rewrite <- app_assoc.
    + simpl. rewrite Hc. simpl. rewrite upd_by_middle by exact Hd1.
      rewrite zip_with_app, fmap_app, <- app_assoc by done. done.
    + rewrite zip_with_app, reverse_app, fmap_app, concat_app, <- app_assoc, <- Hops by done.
      unfold timer_ops. simpl. by rewrite E2.
  - intros s1 (done & ts & H). pose proof H as (_ & Hsplit & _). rewrite app_nil_r, Hl in Hsplit.
    subst done. by exists ts.
Qed.

(** The common start time and the timers. *)
Definition start_time (s : nstate) : timespec :=
  if cf_enable_sync (cx_config (n_ctx s)) then rt_starttimer_ts (cx_runtime (n_ctx s))
  else (snd (kresp (n_trace s) (ClockGettime (cf_clockid (cx_config (n_ctx s))))))
         <| tv_nsec ::= fun n => i64 (n + 5000000) |>.

Lemma start_timers_effect s :
  NoDup (tt_addr <$> list_of s) ->
  wp start_timers (fun r s' =>
    match r with
    | TT_SUCCESS => exists ts, length ts = length (list_of s) /\
        n_ctx s' = (n_ctx s) <| cx_runtime ::= fun r =>
          r <| rt_starttimer_ts := start_time s |> <| rt_tt_list := with_timer <$> zip (list_of s) ts |> |> /\
        timer_ops s' = concat (start_ops (cf_clockid (cx_config (n_ctx s))) (start_time s)
                                 <$> reverse (zip (list_of s) ts)) ++ timer_ops s
    | _ => r = TT_ERROR_TIMER
    end) s.
Proof.
  intros Hd. set (clk := cf_clockid (cx_config (n_ctx s))). set (start := start_time s).
  unfold start_timers, get_ctx. do 2 wp_step. apply wp_bind.
  set (s1 := s <| n_ctx ::= fun c => c <| cx_runtime ::= fun r => r <| rt_starttimer_ts := start |> |> |>).
  assert (Hpre : forall Q, (forall s2, n_ctx s2 = n_ctx s1 -> timer_ops s2 = timer_ops s -> Q tt s2) ->
    wp (if negb (cf_enable_sync (cx_config (n_ctx s))) then
          '(_, now) ← sys (ClockGettime (cf_clockid (cx_config (n_ctx s))));
          upd_rt (fun r => r <| rt_starttimer_ts :=
            now <| tv_nsec ::= fun n => i64 (n + TT_TIMER_INCREMENT_NS) |> |>)
        else mret tt) Q s).
  { intros Q HQ. subst s1 start. unfold start_time in HQ. destruct (cf_enable_sync _); simpl.
    - apply wp_ret, HQ; [|done]. simpl. by destruct (n_ctx s) as [? [] ? ?].
    - apply wp_bind, wp_sys. fold clk in HQ |- *. destruct (kresp (n_trace s) (ClockGettime clk)) as [r now].
      unfold upd_rt, upd_ctx. apply wp_modify, HQ; done. }
  apply Hpre. intros s2 Hc2 Ht2. do 2 wp_step. apply wp_bind. rewrite Hc2. simpl.
  eapply wp_mono; [apply (start_loop_spec clk start (list_of s) s2 s2); rewrite ?Hc2; try done|].
  { split_and!; try done; [by rewrite Hc2|]. rewrite Hc2. subst s1. simpl. by destruct (n_ctx s) as [? [] ? ?]. }
  intros r s3 Hr. apply wp_ret. destruct r as [e|]; simpl; [subst; done|].
  destruct Hr as (ts & Hlen & _ & Hc & Hops).
  exists ts. split_and!; [done| |by rewrite Hops, Ht2]. rewrite Hc, Hc2. simpl. by rewrite app_nil_r.
Qed.

(** C16: [start_timers] starts the timer of every task of the list: on success
    each task has its own timer, created for the handler with the task's node,
    armed absolutely at one common start time and repeating with exactly the
    task's period; the handles are recorded in the nodes and nothing else of
    the context changes but the start time, which without synchronization is
    the current time plus 5 ms and with it the one agreed with the server.
    Any other result is [TT_ERROR_TIMER]. *)
Theorem start_timers_arms_all s :
  NoDup (tt_addr <$> list_of s) -> Forall (fun n => in_u 32 (ti_period (tt_task n))) (list_of s) ->
  let clk := cf_clockid (cx_config (n_ctx s)) in
  let now := snd (kresp (n_trace s) (ClockGettime clk)) in
  let start := if cf_enable_sync (cx_config (n_ctx s)) then rt_starttimer_ts (cx_runtime (n_ctx s))
               else now <| tv_nsec ::= fun n => i64 (n + 5000000) |> in
  wp start_timers (fun r s' =>
    match r with
    | TT_SUCCESS => exists ts, length ts = length (list_of s) /\
        n_ctx s' = (n_ctx s) <| cx_runtime ::= fun r =>
          r <| rt_starttimer_ts := start |> <| rt_tt_list := with_timer <$> zip (list_of s) ts |> |> /\
        timer_ops s' = concat (start_ops clk start <$> reverse (zip (list_of s) ts)) ++ timer_ops s
    | _ => r = TT_ERROR_TIMER
    end /\
    Forall (fun n => let its := task_its start (ti_period (tt_task n)) in
      it_value its = start /\ ts_norm (it_interval its) /\
      ts_total_ns (it_interval its) = ti_period (tt_task n) * 1000) (list_of s)) s.
Proof.
  intros Hd Hper clk now start. eapply wp_mono; [by apply start_timers_effect|]. intros r s' H. split; [exact H|].
  eapply Forall_impl; [exact Hper|]. intros n Hn. by apply task_its_spec.
Qed.

(** A kernel that rejects unnormalized times, as timer_settime(2) says. *)
Class RejectsUnnormalized := reject : forall tr t f its,
  ~ ts_norm (it_value its) -> kresp tr (TimerSettime t f its) <> 0.

(** Without synchronization the common start time is built by adding
    5 ms to the nanoseconds of the current time without carrying into the
    seconds.  In the last 5 ms of every second the result is not a normalized
    time, the kernel rejects it, and [start_timers] fails with
    [TT_ERROR_TIMER] although nothing is wrong. *)
Theorem start_timers_end_of_second `{!RejectsUnnormalized} n l s :
  cf_enable_sync (cx_config (n_ctx s)) = false -> list_of s = n :: l ->
  let now := snd (kresp (n_trace s) (ClockGettime (cf_clockid (cx_config (n_ctx s))))) in
  995000000 <= tv_nsec now < 1000000000 ->
  wp start_timers (fun r _ => r = TT_ERROR_TIMER) s.
Proof.
  intros Hsync Hl now Hnow. unfold start_timers, get_ctx. do 2 wp_step. rewrite Hsync. simpl.
  apply wp_bind, wp_bind, wp_sys. subst now. destruct (kresp (n_trace s) (ClockGettime _)) as [r t].
  unfold upd_rt, upd_ctx. wp_step. do 2 wp_step. simpl. rewrite Hl. simpl. apply wp_bind.
  apply wp_bind, wp_bind, wp_sys. destruct (kresp _ (TimerCreate _ _)) as [rc timer].
  destruct (rc =? 0); simpl; [|by do 2 apply wp_ret].
  apply wp_bind. eapply wp_write_node; [simpl; rewrite ?Hl; simpl; by rewrite decide_True|].
  apply wp_bind, wp_sys. rewrite (proj2 (Z.eqb_neq _ _)); [by do 2 apply wp_ret|].
  apply reject. unfold ts_norm, TT_TIMER_INCREMENT_NS in *. simpl in *. rewrite wraps_id by range. lia.
Qed.

End start.

(** ** Calibration *)

(** Clock readings, latest first: clock and nanoseconds. *)
Definition ev_clock (e : event) : option (Z * Z) :=
  match e with
  | Event (ClockGettime clk) r => Some (clk, ts_total_ns (snd r))
  | _ => None
  end.
Definition readings (s : nstate) : list (Z * Z) := omap ev_clock (n_trace s).

(** Clocks that work: both are normalized and agree up to the constant [D];
    the time [t] of the world never goes back. *)
Class Clocks (K : Kernel) (D : Z) (t : list event -> Z) := {
  ck_real : forall tr, exists ts, kresp tr (ClockGettime CLOCK_REALTIME) = (0, ts) /\ ts_ok ts /\
              ts_total_ns ts = t tr + D;
  ck_mono : forall tr, exists ts, kresp tr (ClockGettime CLOCK_MONOTONIC) = (0, ts) /\ ts_ok ts /\
              ts_total_ns ts = t tr;
  ck_forward : forall e tr, t tr <= t (e :: tr);
  ck_range : forall tr, t tr + D < 2 ^ 63;
}.

(** A round: the three readings, in nanoseconds. *)
Definition round_readings (x : Z * Z * Z) : list (Z * Z) :=
  let '(t1, t2, t3) := x in
  [(CLOCK_REALTIME, t3); (CLOCK_MONOTONIC, t2); (CLOCK_REALTIME, t1)].
Definition window (x : Z * Z * Z) : Z := let '(t1, _, t3) := x in t3 - t1.

Section calibrate.
Context {K : Kernel} {D : Z} {t : list event -> Z} `{!Clocks K D t}.

(** [off] is the offset of the clocks up to half of [w]. *)
Definition accurate (w off : Z) : Prop := exists err, off = u64 (D + err) /\ 2 * Z.abs err <= w + 1.

Lemma round_accurate a b c :
  a <= b <= c -> 0 <= a + D -> c + D < 2 ^ 63 ->
  accurate (c - a) (u64 (u64 (c + D + (a + D)) / 2 - b)).
Proof.
  intros Habc Ha Hc. exists ((c + D + (a + D)) / 2 - D - b).
  rewrite (wrapu_id 64 (c + D + (a + D))) by range.
  split; [f_equal; lia|].
  pose proof (Z.div_mod (c + D + (a + D)) 2 ltac:(lia)).
  pose proof (Z.mod_pos_bound (c + D + (a + D)) 2 ltac:(lia)). lia.
Qed.

(** What the loop has found so far. *)
Definition found (best : Z) (s : nstate) : Prop :=
  best = UINT64_MAX \/ accurate best (n_bpf_ktime_off s).

Lemma calibrate_loop_spec n best s :
  best <= UINT64_MAX -> found best s ->
  wp (calibrate_loop n best) (fun r s' => r = TT_SUCCESS /\ exists rounds best',
    length rounds = n /\ readings s' = concat (round_readings <$> rounds) ++ readings s /\
    best' <= best /\ Forall (fun x => best' <= window x < UINT64_MAX) rounds /\ found best' s' /\
    n_ctx s' = n_ctx s) s.
Proof.
  revert best s. induction n as [|n IH]; intros best s Hb Hf; cbn [calibrate_loop].
  { apply wp_ret. split; [done|]. exists [], best. split_and!; done. }
  destruct (ck_real (n_trace s)) as (t1 & E1 & Ok1 & T1).
  apply wp_bind, wp_sys. rewrite E1. cbn -[n_trace]. set (s1 := log _ _ s).
  destruct (ck_mono (n_trace s1)) as (t2 & E2 & Ok2 & T2).
  apply wp_bind, wp_sys. rewrite E2. cbn -[n_trace]. set (s2 := log _ _ s1).
  destruct (ck_real (n_trace s2)) as (t3 & E3 & Ok3 & T3).
  apply wp_bind, wp_sys. rewrite E3. cbn -[n_trace]. set (s3 := log _ _ s2).
  pose proof (ck_forward (Event (ClockGettime CLOCK_REALTIME) (0, t1)) (n_trace s)) as F1.
  pose proof (ck_forward (Event (ClockGettime CLOCK_MONOTONIC) (0, t2)) (n_trace s1)) as F2.
  change (t (n_trace s) <= t (n_trace s1)) in F1. change (t (n_trace s1) <= t (n_trace s2)) in F2.
  pose proof (ck_range (n_trace s)) as R1. pose proof (ck_range (n_trace s1)) as R2.
  pose proof (ck_range (n_trace s2)) as R3.
  set (a := t (n_trace s)) in *. set (b := t (n_trace s1)) in *. set (c := t (n_trace s2)) in *.
  rewrite (to_ns_ok t1), (to_ns_ok t2), (to_ns_ok t3), T1, T2, T3 by done.
  assert (Ha : 0 <= a + D) by (rewrite <- T1; unfold ts_ok, ts_norm, ts_total_ns in *; lia).
  assert (Hw : u64 (c + D - (a + D)) = c - a) by (rewrite wrapu_id by range; lia).
  rewrite Hw. pose proof (round_accurate a b c ltac:(lia) Ha R3) as Hacc.
  assert (Hlt : c - a < UINT64_MAX) by (change UINT64_MAX with 18446744073709551615; range).
  assert (Hrd : forall s4, readings s4 = readings s3 ->
    readings s4 = round_readings (a + D, b, c + D) ++ readings s).
  { intros s4 ->. unfold readings. subst s3 s2 s1. simpl. by rewrite T1, T2, T3. }
  (* the rest of the loop, with the better of the two *)
  assert (Hrest : forall best1 s4, best1 <= best -> best1 <= c - a -> found best1 s4 ->
    n_ctx s4 = n_ctx s -> readings s4 = readings s3 ->
    wp (calibrate_loop n best1) (fun r s' => r = TT_SUCCESS /\ exists rounds best',
      length rounds = S n /\ readings s' = concat (round_readings <$> rounds) ++ readings s /\
      best' <= best /\ Forall (fun x => best' <= window x < UINT64_MAX) rounds /\ found best' s' /\
      n_ctx s' = n_ctx s) s4).
  { intros best1 s4 H1 H2 Hf4 Hc4 Hr4. eapply wp_mono; [apply IH; [lia|done]|].
    intros r s' (-> & rounds & best' & Hlen & Hr & Hb' & Hall & Hf' & Hc'). split; [done|].
    exists (rounds ++ [(a + D, b, c + D)]), best'.
    split_and!; [rewrite length_app; simpl; lia| |lia| |done|congruence].
    - rewrite Hr, (Hrd s4 Hr4), fmap_app, concat_app, <- app_assoc. simpl. by rewrite ?app_nil_r.
    - apply Forall_app. split; [done|]. constructor; [|constructor]. unfold window. lia. }
  destruct (Z.ltb_spec (c - a) best).
  - apply wp_bind. wp_step. apply Hrest; try done; [lia|by right].
  - apply Hrest; try done; lia.
Qed.

(** C17: the calibration takes 20 rounds of three readings and keeps the
    offset of the round with the narrowest window: the stored offset differs
    from the true difference of the two clocks by at most half of the smallest
    of the 20 windows (rounded up), for clocks that never go back. *)
Theorem calibrate_accurate s :
  wp calibrate_bpf_time_offset (fun r s' => r = TT_SUCCESS /\ exists rounds,
    length rounds = 20%nat /\ readings s' = concat (round_readings <$> rounds) ++ readings s /\
    Forall (fun x => accurate (window x) (n_bpf_ktime_off s')) rounds /\ n_ctx s' = n_ctx s) s.
Proof.
  unfold calibrate_bpf_time_offset, calibrate_bpf_ktime_offset_internal.
  eapply wp_mono; [apply calibrate_loop_spec; [done|by left]|].
  intros r s' (-> & rounds & best' & Hlen & Hr & _ & Hall & Hf & Hc). split; [done|].
  exists rounds. split_and!; try done.
  assert (accurate best' (n_bpf_ktime_off s')) as (err & He & Hle).
  { destruct Hf as [->|]; [|done]. destruct rounds as [|x rounds]; [done|].
    apply Forall_cons in Hall as [Hx _]. lia. }
  eapply Forall_impl; [exact Hall|]. intros x Hx. cbn beta in Hx. exists err. split; [done|lia].
Qed.

End calibrate.

(** ** Wait events from the ring buffer *)

Definition record_wait (off : Z) (e : sigwait_event) (n : time_trigger) : time_trigger :=
  n <| tt_sigwait_ts := bpf_ktime_to_real off (se_timestamp e) |> <| tt_sigwait_enter := se_enter e |>.

Section sigwait.
Context {K : Kernel}.

Abbreviation list_of s := (rt_tt_list (cx_runtime (n_ctx s))).

(** The callback run on a sequence of samples. *)
Fixpoint deliver (evs : list sigwait_event) : N unit :=
  match evs with
  | [] => mret tt
  | e :: evs => _ ← handle_sigwait_bpf_event true (Some e) sizeof_sigwait_event; deliver evs
  end.

(** The callback changes the first node with the pid of the event. *)
Definition waited (off : Z) (e : sigwait_event) (l : list time_trigger) : list time_trigger :=
  match list_find (fun n => pid_matches n (se_pid e) = true) l with
  | Some (_, n) => upd_node (tt_addr n) (record_wait off e) l
  | None => l
  end.

Lemma for_each_find {A} (P : A -> bool) (f : A -> N unit) (l : list A) (Q : option unit -> nstate -> Prop) s :
  match list_find (fun x => P x = true) l with
  | Some (_, x) => wp (f x) (fun _ s' => Q (Some tt) s') s
  | None => Q None s
  end ->
  wp (for_each l (fun x => if P x then f x ;; mret (Some tt) else mret None)) Q s.
Proof.
  induction l as [|x l IH]; simpl; [by intros; apply wp_ret|]. intros H.
  destruct (P x) eqn:E.
  - rewrite decide_True in H by done. do 2 apply wp_bind. eapply wp_mono; [exact H|].
    intros [] s' HQ. do 2 apply wp_ret. exact HQ.
  - rewrite decide_False in H by congruence. apply wp_bind, wp_ret, IH.
    destruct (list_find _ l) as [[i y]|]; done.
Qed.

Lemma handle_sigwait_spec e s :
  NoDup (tt_addr <$> list_of s) ->
  wp (handle_sigwait_bpf_event true (Some e) sizeof_sigwait_event) (fun r s' =>
    r = TT_SUCCESS /\ n_trace s' = n_trace s /\ n_bpf_ktime_off s' = n_bpf_ktime_off s /\
    n_ctx s' = (n_ctx s) <| cx_runtime ::= fun r => r <| rt_tt_list ::= waited (n_bpf_ktime_off s) e |> |>) s.
Proof.
  intros Hd. unfold handle_sigwait_bpf_event. simpl. apply wp_bind, wp_get, wp_bind.
  apply for_each_find. unfold waited.
  destruct (list_find _ (list_of s)) as [[i n]|] eqn:E.
  - apply list_find_Some in E as (Hi & _ & _).
    eapply wp_write_node; [apply find_by_in; [done|by eapply list_elem_of_lookup_2]|].
    by apply wp_ret.
  - apply wp_ret. split_and!; try done. by destruct (n_ctx s) as [? [] ? ?].
Qed.

(** The state of one task: what the callback has recorded. *)
Definition wait_state (n : time_trigger) : Z * Z := (tt_sigwait_ts n, tt_sigwait_enter n).

Lemma waited_pids off e l :
  ti_pid ∘ tt_task <$> waited off e l = ti_pid ∘ tt_task <$> l /\
  tt_addr <$> waited off e l = tt_addr <$> l.
Proof.
  unfold waited. destruct (list_find _ l) as [[i n]|]; [|done]. split; [|by apply upd_by_addrs].
  unfold upd_by. rewrite <- list_fmap_compose. apply list_fmap_ext. intros j m _. simpl. by case_decide.
Qed.

(** On a list with distinct pids an event reaches the task it is about and no
    other. *)
Lemma waited_lookup off e l i n :
  NoDup (tt_addr <$> l) -> NoDup (ti_pid ∘ tt_task <$> l) -> l !! i = Some n ->
  exists n', waited off e l !! i = Some n' /\ ti_pid (tt_task n') = ti_pid (tt_task n) /\
    wait_state n' = if pid_matches n (se_pid e)
                    then (bpf_ktime_to_real off (se_timestamp e), se_enter e) else wait_state n.
Proof.
  intros Ha Hp Hi. unfold waited. destruct (list_find _ l) as [[j m]|] eqn:E.
  - apply list_find_Some in E as (Hj & Hm & _). unfold upd_by. rewrite list_lookup_fmap, Hi. simpl.
    eexists. split; [reflexivity|]. case_decide as Hd.
    + assert (i = j) as ->.
      { apply (NoDup_lookup (tt_addr <$> l) i j (tt_addr n)); [done|..]; rewrite list_lookup_fmap, ?Hi, ?Hj;
          simpl; congruence. }
      rewrite Hi in Hj. injection Hj as ->. by rewrite Hm.
    + split; [done|]. destruct (pid_matches n (se_pid e)) eqn:En; [|done]. destruct Hd.
      unfold pid_matches in *. rewrite Z.eqb_eq in *.
      assert (i = j) as ->; [|congruence].
      apply (NoDup_lookup (ti_pid ∘ tt_task <$> l) i j (u32 (se_pid e))); [done|..];
        rewrite list_lookup_fmap, ?Hi, ?Hj; simpl; congruence.
  - exists n. split_and!; try done. apply list_find_None in E. rewrite Forall_forall in E.
    destruct (pid_matches n (se_pid e)) eqn:En; [|done]. exfalso.
    apply (E n); [by eapply list_elem_of_lookup_2|done].
Qed.

(** After any sequence of wait events has been delivered, each task of the
    list is in the state of the last event about its pid (time converted to
    real time, entered or left), and in its former state when there was none:
    events about other threads never touch it. *)
Theorem deliver_last_event evs s i n :
  NoDup (tt_addr <$> list_of s) -> NoDup (ti_pid ∘ tt_task <$> list_of s) ->
  list_of s !! i = Some n ->
  wp (deliver evs) (fun _ s' => n_trace s' = n_trace s /\
    exists n', list_of s' !! i = Some n' /\
      wait_state n' = match last (filter (fun e => pid_matches n (se_pid e) = true) evs) with
                      | Some e => (bpf_ktime_to_real (n_bpf_ktime_off s) (se_timestamp e), se_enter e)
                      | None => wait_state n
                      end) s.
Proof.
  revert s n. induction evs as [|e evs IH]; intros s n Ha Hp Hi; cbn [deliver].
  { apply wp_ret. split; [done|]. by exists n. }
  apply wp_bind. eapply wp_mono; [by apply handle_sigwait_spec|].
  intros r s1 (-> & Ht & Hoff & Hc).
  destruct (waited_lookup (n_bpf_ktime_off s) e (list_of s) i n Ha Hp Hi) as (n1 & Hi1 & Hpid & Hw).
  destruct (waited_pids (n_bpf_ktime_off s) e (list_of s)) as [Hpids Haddrs].
  eapply wp_mono; [apply (IH s1 n1); rewrite Hc; simpl; congruence|].
  intros [] s2 (Ht2 & n2 & Hi2 & Hw2). split; [congruence|]. exists n2. split; [done|].
  rewrite Hw2, Hoff, filter_cons. unfold pid_matches in *. rewrite Hpid.
  set (f := filter _ evs). case_decide as Hm.
  - rewrite Hm in Hw. rewrite last_cons. destruct (last f); [done|]. by rewrite Hw.
  - apply not_true_is_false in Hm. rewrite Hm in Hw. destruct (last f); [done|]. done.
Qed.

End sigwait.

(** ** Apex.OS faults *)

Section apex_fault.
Context {HO : Host} {K : Kernel} {SJ : StackJunk} {BC : BuildConfig}.

Abbreviation apex_of s := (rt_apex_list (cx_runtime (n_ctx s))).

(** Context and reports. *)
Definition aio (s : nstate) : context * list (Z * list byte * list byte) := (n_ctx s, reports s).

Lemma coredata_client_send_aio p a s :
  find_apex p (apex_of s) = Some a -> wp (coredata_client_send p) (fun _ s' => aio s' = aio s) s.
Proof.
  intros Ha. unfold coredata_client_send, coredata_client_init. apply wp_bind, wp_get, wp_bind.
  destruct (n_coredata_fd s =? -1).
  - do 2 apply wp_bind. apply wp_sys. destruct (kresp _ Socket =? -1); apply wp_ret.
    + simpl. apply wp_ret. simpl. by apply wp_ret.
    + destruct (_ =? -1); [apply wp_ret; by apply wp_ret|]. apply wp_bind, wp_modify, wp_ret. simpl.
      apply wp_bind, wp_get, wp_bind. eapply wp_read_apex; [exact Ha|]. apply wp_bind, wp_sys.
      destruct (_ =? -1); by apply wp_ret.
  - apply wp_ret. simpl. apply wp_bind, wp_get, wp_bind. eapply wp_read_apex; [exact Ha|].
    apply wp_bind, wp_sys. destruct (_ =? -1); by apply wp_ret.
Qed.

Lemma all_threads_loop_aio es m a b : frames (keeps aio) (all_threads_loop es m a b).
Proof.
  revert a b. induction es as [|e es IH]; intros a b; simpl; unfold set_affinity_cpumask; frames_tac.
Qed.
#[local] Hint Resolve all_threads_loop_aio : frames.

Lemma set_all_threads_aio pid m : frames (keeps aio) (set_affinity_cpumask_all_threads pid m).
Proof. unfold set_affinity_cpumask_all_threads. frames_tac. Qed.

Lemma all_threads_loop_total es m a b s : wp (all_threads_loop es m a b) (fun _ _ => True) s.
Proof.
  revert a b s. induction es as [|e es IH]; intros a b s; simpl; [by apply wp_ret|].
  destruct (entry_id e); [|apply IH]. unfold set_affinity_cpumask. apply wp_bind, wp_bind, wp_sys.
  destruct (_ <? 0); apply wp_ret; simpl; apply IH.
Qed.

Lemma set_all_threads_total pid m s :
  wp (set_affinity_cpumask_all_threads pid m) (fun _ _ => True) s.
Proof.
  unfold set_affinity_cpumask_all_threads. destruct (pid <=? 0); [by apply wp_ret|].
  apply wp_bind, wp_sys. destruct (kresp _ _); [|by apply wp_ret]. apply wp_bind.
  eapply wp_mono; [apply all_threads_loop_total|]. intros [a b] s' _.
  destruct (_ && _); by apply wp_ret.
Qed.

(** The counter of one application as the design has it: a fault opens a
    window of one period or counts in the open one; when the count reaches the
    allowed number the fault is reported and the window closed. *)
Definition fault_step (period allowed now : Z) (x : Z * Z) : Z * Z * bool :=
  let '(count, start) := x in
  let '(count, start) :=
    if (start =? 0) || (period <? u64 (now - start)) then (1, now) else (i32 (count + 1), start) in
  if allowed <=? u32 count then (0, 0, true) else (count, start, false).

Definition counter (a : apex_info) : Z * Z := (ai_dmiss_count a, ai_dmiss_time_us a).
Definition with_counter (x : Z * Z) (a : apex_info) : apex_info :=
  a <| ai_dmiss_count := fst x |> <| ai_dmiss_time_us := snd x |>.

(** [name] selects the application [a]: the handler compares 15 characters. *)
Definition selects (name : list byte) (a : apex_info) : Prop :=
  strncmp_eq (ti_name (ai_task a)) name 15 = true.

(** The application list is [pre], then [a] with counter [x], then [post];
    [a] is the first one [name] selects; the reports are [R]. *)
Definition app_is (name : list byte) (pre : list apex_info) (a : apex_info) (post : list apex_info) (x : Z * Z)
    (c : context) (R : list (Z * list byte * list byte)) (s : nstate) : Prop :=
  apex_of s = pre ++ with_counter x a :: post /\ NoDup (ai_addr <$> apex_of s) /\
  selects name a /\ Forall (fun b => ~ selects name b) pre /\
  cx_config (n_ctx s) = cx_config c /\ cx_comm (n_ctx s) = cx_comm c /\ reports s = R.

Section one_app.
Context (name : list byte) (pre : list apex_info) (a : apex_info) (post : list apex_info).
Abbreviation is_app := (app_is name pre a post).

Lemma app_is_aio x c R s s' : aio s' = aio s -> is_app x c R s -> is_app x c R s'.
Proof. intros [Hc Hr]%pair_equal_spec. unfold app_is. by rewrite Hc, Hr. Qed.

Lemma app_is_find x c R s :
  is_app x c R s -> find_apex (ai_addr a) (apex_of s) = Some (with_counter x a).
Proof.
  intros (Hl & Hd & _). change (ai_addr a) with (ai_addr (with_counter x a)).
  apply find_by_in; [done|]. rewrite Hl. set_solver.
Qed.

Lemma app_is_write x y f c R s :
  is_app x c R s -> f (with_counter x a) = with_counter y a ->
  wp (write_apex (ai_addr a) f) (fun _ s' => is_app y c R s') s.
Proof.
  intros H Hf. eapply wp_write_apex; [by eapply app_is_find|].
  destruct H as (Hl & Hd & Hs & Hp & Hcf & Hcm & Hr). unfold app_is. simpl.
  assert (E : upd_by ai_addr (ai_addr a) f (apex_of s) = pre ++ with_counter y a :: post).
  { rewrite Hl in Hd |- *. change (ai_addr a) with (ai_addr (with_counter x a)).
    by rewrite upd_by_middle, Hf. }
  fold (upd_by ai_addr (ai_addr a) f (apex_of s)). rewrite E. split_and!; try done.
  rewrite Hl, fmap_app, fmap_cons in Hd. by rewrite fmap_app, fmap_cons.
Qed.

(** The step of the handler for that application. *)
Lemma handle_apex_fault_spec x y rep c R s :
  is_app x c R s -> ti_pid (ai_task a) <> 0 ->
  fault_step (ti_period (ai_task a)) (ti_allowable_deadline_misses (ai_task a))
    (clock_us (n_trace s) CLOCK_MONOTONIC) x = (y, rep) ->
  wp (handle_apex_fault_event name) (fun r s' =>
    (r = TT_SUCCESS \/ r = TT_ERROR_PERMISSION) /\
    is_app y c ((if rep : bool then [(cm_dbus (cx_comm c), cstr (cf_node_id (cx_config c)), cstr name)]
                     else []) ++ R) s') s.
Proof.
  intros H Hpid Hstep. pose proof H as (Hl & _ & Hname & Hpre & _).
  destruct x as [count start]. unfold fault_step in Hstep.
  unfold handle_apex_fault_event, get_ctx. do 2 wp_step. rewrite Hl. apply wp_bind, wp_for_each_skip.
  { eapply Forall_impl; [exact Hpre|]. intros b Hb s'. unfold selects in Hb.
    by rewrite (not_true_is_false _ Hb). }
  cbn [for_each].
  change (ti_name (ai_task (with_counter (count, start) a))) with (ti_name (ai_task a)).
  change (ti_pid (ai_task (with_counter (count, start) a))) with (ti_pid (ai_task a)).
  change (ai_addr (with_counter (count, start) a)) with (ai_addr a).
  rewrite Hname, (proj2 (Z.eqb_neq _ _) Hpid). cbn [negb]. apply wp_bind, wp_bind, wp_ret.
  cbn [negb]. apply wp_bind, wp_sys. unfold clock_us in Hstep.
  destruct (kresp (n_trace s) (ClockGettime CLOCK_MONOTONIC)) as [rc t]. cbn [fst snd] in Hstep.
  set (now := tt_timespec_to_us t) in *. set (s1 := log _ _ s).
  assert (H1 : is_app (count, start) c R s1) by (by eapply app_is_aio).
  apply wp_bind. eapply wp_read_apex; [by eapply app_is_find|].
  cbn [ai_dmiss_time_us with_counter upd fst snd ai_task].
  set (z := if (start =? 0) || (ti_period (ai_task a) <? u64 (now - start)) then (1, now) else _) in Hstep.
  apply wp_bind.
  assert (Hcount : wp (if (start =? 0) || (ti_period (ai_task a) <? u64 (now - start)) then
      write_apex (ai_addr a) (fun a => a <| ai_dmiss_count := 1 |> <| ai_dmiss_time_us := now |>)
    else write_apex (ai_addr a) (fun a => a <| ai_dmiss_count ::= fun c => i32 (c + 1) |>))
    (fun _ s2 => is_app z c R s2) s1).
  { subst z. destruct (_ || _); (eapply app_is_write; [exact H1|done]). }
  eapply wp_mono; [exact Hcount|]. intros [] s2 H2. apply wp_bind.
  eapply wp_mono; [eapply coredata_client_send_aio; by eapply app_is_find|]. intros r3 s3 Ha3.
  pose proof (app_is_aio _ _ _ _ _ Ha3 H2) as H3.
  apply wp_bind. eapply wp_read_apex; [by eapply app_is_find|]. destruct z as [cnt st].
  cbn [ai_dmiss_count with_counter upd fst snd ai_task].
  destruct (ti_allowable_deadline_misses (ai_task a) <=? u32 cnt); injection Hstep as <- <-;
    [|do 3 apply wp_ret; split; [by left|exact H3]].
  apply wp_bind. eapply wp_mono; [apply report_deadline_miss_spec|].
  intros r4 s4 [_ (Hc4 & Hr4 & _)%io_inv].
  assert (H4 : is_app (cnt, st) c ((cm_dbus (cx_comm c), cstr (cf_node_id (cx_config c)), cstr name) :: R) s4).
  { destruct H3 as (? & ? & ? & ? & Hcf & Hcm & Hr3). unfold app_is. rewrite Hc4, Hr4, Hcf, Hcm, Hr3. done. }
  apply wp_bind. eapply wp_mono; [eapply (app_is_write _ (0, 0)); [exact H4|done]|]. intros [] s5 H5.
  apply wp_bind. eapply wp_mono; [eapply frames_wp; [apply set_all_threads_aio|apply set_all_threads_total]|].
  intros r6 s6 [_ Ha6]. pose proof (app_is_aio _ _ _ _ _ Ha6 H5) as H6.
  destruct (ts_ok_code r6); do 3 apply wp_ret; (split; [|exact H6]); [by left|by right].
Qed.

End one_app.

(** Every function only adds to the trace. *)
Abbreviation grows := (emits (fun _ => True)).

Lemma read_apex_grows p : frames grows (read_apex p).
Proof. unfold read_apex, get_ctx. frames_tac. Qed.
Lemma write_apex_grows p f : frames grows (write_apex p f).
Proof. unfold write_apex, get_ctx, upd_rt, upd_ctx. frames_tac. Qed.
#[local] Hint Resolve read_apex_grows write_apex_grows : frames.

#[local] Hint Resolve get_pid_by_name_grows : frames.

Lemma coredata_client_send_grows p : frames grows (coredata_client_send p).
Proof. unfold coredata_client_send, coredata_client_init. frames_tac. Qed.
#[local] Hint Resolve coredata_client_send_grows : frames.

Lemma all_threads_loop_grows es m a b : frames grows (all_threads_loop es m a b).
Proof.
  revert a b. induction es as [|e es IH]; intros a b; simpl; unfold set_affinity_cpumask; frames_tac.
Qed.
#[local] Hint Resolve all_threads_loop_grows : frames.

Lemma handle_apex_fault_grows name : frames grows (handle_apex_fault_event name).
Proof.
  unfold handle_apex_fault_event, report_deadline_miss, trpc_client_dmiss, call_method, release_reply,
    set_affinity_cpumask_all_threads, get_ctx. frames_tac.
Qed.

(** A sequence of [k] fault events. *)
Fixpoint faults (k : nat) (name : list byte) : N unit :=
  match k with
  | O => mret tt
  | S k => _ ← handle_apex_fault_event name; faults k name
  end.

(** The monotonic clock, in microseconds, never goes back and stays within
    [[lo, hi]]. *)
Class SteadyClock (lo hi : Z) := {
  sc_range : forall tr, lo <= clock_us tr CLOCK_MONOTONIC <= hi;
  sc_forward : forall evs tr, clock_us tr CLOCK_MONOTONIC <= clock_us (evs ++ tr) CLOCK_MONOTONIC;
}.

(** Within one period each fault adds one until the allowed number. *)
Lemma fault_step_in_window period allowed now j st :
  0 < allowed < 2 ^ 31 -> 0 <= j < allowed -> 0 < now < 2 ^ 64 ->
  (if j =? 0 then st = 0 else 0 < st <= now /\ now - st <= period) ->
  fault_step period allowed now (j, st) =
    if j + 1 =? allowed then (0, 0, true) else (j + 1, if j =? 0 then now else st, false).
Proof.
  intros Ha Hj Hn. unfold fault_step. destruct (Z.eqb_spec j 0) as [->|Hj0]; intros Hst.
  - subst st. cbn [orb Z.eqb]. change (u32 1) with 1. change (0 + 1) with 1.
    destruct (Z.leb_spec allowed 1), (Z.eqb_spec 1 allowed); done || lia.
  - rewrite (proj2 (Z.eqb_neq st 0)) by lia. rewrite (wrapu_id 64 (now - st)) by range.
    rewrite (proj2 (Z.ltb_ge period (now - st))) by lia. simpl. rewrite wraps_id, wrapu_id by range.
    destruct (Z.leb_spec allowed (j + 1)), (Z.eqb_spec (j + 1) allowed); done || lia.
Qed.

Lemma faults_spec k name pre a post c R j st s lo :
  ti_pid (ai_task a) <> 0 ->
  let allowed := ti_allowable_deadline_misses (ai_task a) in
  let period := ti_period (ai_task a) in
  let report := (cm_dbus (cx_comm c), cstr (cf_node_id (cx_config c)), cstr name) in
  0 < allowed < 2 ^ 31 -> 0 < lo -> lo + period < 2 ^ 64 -> SteadyClock lo (lo + period) ->
  0 <= j < allowed -> (if j =? 0 then st = 0 else lo <= st <= clock_us (n_trace s) CLOCK_MONOTONIC) ->
  app_is name pre a post (j, st) c R s ->
  wp (faults k name) (fun _ s' => exists st',
    app_is name pre a post ((j + Z.of_nat k) mod allowed, st') c
      (replicate (Z.to_nat ((j + Z.of_nat k) / allowed)) report ++ R) s') s.
Proof.
  intros Hpid allowed period report Ha Hlo Hhi Hck. revert j st R s.
  induction k as [|k IH]; intros j st R s Hj Hst H; cbn [faults].
  { apply wp_ret. exists st. rewrite Z.add_0_r, Z.mod_small, Z.div_small by lia. done. }
  pose proof (sc_range (n_trace s)) as Hnow. set (now := clock_us (n_trace s) CLOCK_MONOTONIC) in *.
  assert (Hstep : fault_step period allowed now (j, st) =
    if j + 1 =? allowed then (0, 0, true) else (j + 1, if j =? 0 then now else st, false)).
  { apply fault_step_in_window; [lia|lia|range|]. destruct (j =? 0); [done|]. lia. }
  apply wp_bind.
  destruct (Z.eqb_spec (j + 1) allowed) as [E|E].
  - eapply wp_mono; [by eapply handle_apex_fault_spec|]. intros r s1 [_ H1].
    eapply wp_mono; [apply (IH 0 0 (report :: R) s1); [lia|done|exact H1]|].
    intros [] s2 (st' & H2). exists st'.
    replace (j + Z.of_nat (S k)) with (0 + Z.of_nat k + 1 * allowed) by lia.
    rewrite Z_mod_plus_full, Z_div_plus_full by lia.
    assert (0 <= (0 + Z.of_nat k) / allowed) by (apply Z.div_pos; lia).
    replace (Z.to_nat ((0 + Z.of_nat k) / allowed + 1)) with (Z.to_nat ((0 + Z.of_nat k) / allowed) + 1)%nat by lia.
    rewrite replicate_add, <- app_assoc. exact H2.
  - eapply wp_mono; [eapply frames_wp; [apply handle_apex_fault_grows|by eapply handle_apex_fault_spec]|].
    intros r s1 [[_ H1] (evs & Ht1 & _)].
    eapply wp_mono; [apply (IH (j + 1) (if j =? 0 then now else st) R s1); [lia| |exact H1]|].
    + pose proof (sc_forward evs (n_trace s)) as Hf. rewrite Ht1.
      rewrite (proj2 (Z.eqb_neq (j + 1) 0)) by lia. destruct (j =? 0); lia.
    + intros [] s2 (st' & H2). exists st'.
      by replace (j + Z.of_nat (S k)) with (j + 1 + Z.of_nat k) by lia.
Qed.

(** C19: an Apex.OS application whose process is known, wherever it stands in
    the list, that faults [k] times while its window of one period is open is
    reported to the orchestrator exactly once for every
    [allowable_deadline_misses] faults: with [j] faults already counted in the
    window, [(j + k) / allowed] reports with the name of the event are added
    and nothing else is reported, and [(j + k) mod allowed] faults are left in
    the counter; the other applications, the configuration and the connection
    are as before.  It holds whatever the other system calls return; the
    readings of the monotonic clock never go back and stay within one period
    of [lo], and the allowed number is between 1 and 2^31 - 1. *)
Theorem apex_faults_reported k name pre a post c R j st s lo :
  ti_pid (ai_task a) <> 0 ->
  let allowed := ti_allowable_deadline_misses (ai_task a) in
  0 < allowed < 2 ^ 31 -> 0 < lo -> lo + ti_period (ai_task a) < 2 ^ 64 ->
  SteadyClock lo (lo + ti_period (ai_task a)) ->
  0 <= j < allowed -> (if j =? 0 then st = 0 else lo <= st <= clock_us (n_trace s) CLOCK_MONOTONIC) ->
  app_is name pre a post (j, st) c R s ->
  wp (faults k name) (fun _ s' => exists st',
    app_is name pre a post ((j + Z.of_nat k) mod allowed, st') c
      (replicate (Z.to_nat ((j + Z.of_nat k) / allowed))
         (cm_dbus (cx_comm c), cstr (cf_node_id (cx_config c)), cstr name) ++ R) s') s.
Proof. intros. by eapply faults_spec. Qed.

End apex_fault.

(** *** Witnesses *)

Definition ex_node (addr pid fd ts enter : Z) : time_trigger :=
  mk_time_trigger addr 0
    (task_info_zero <| ti_pid := pid |> <| ti_pidfd := fd |> <| ti_name := in_array 16 (str "control") |>
                    <| ti_period := 10000 |>) ts 0 enter ts_zero true.

Definition core_state (l : list time_trigger) (apps : list apex_info) : nstate :=
  nstate_init <| n_ctx ::= fun c =>
    c <| cx_runtime ::= fun r => r <| rt_tt_list := l |> <| rt_apex_list := apps |> |> |>.

(** The task is still running when its timer expires. *)
Lemma timer_expired_handler_spec_witness :
  wp (timer_expired_handler (K := clock_kernel (mk_timespec 7 500)) 11) (fun _ s' =>
    hp_total_deadline_misses (cx_hp (n_ctx s')) = 1 /\ length (reports s') = 1%nat /\
    signals s' = [(6, SIGNO_TT)]) (core_state [ex_node 10 41 5 9 1; ex_node 11 42 6 9 0] []).
Proof.
  eapply wp_mono.
  - apply (timer_expired_handler_spec (K := clock_kernel (mk_timespec 7 500)) 11 (ex_node 11 42 6 9 0)
             (core_state [ex_node 10 41 5 9 1; ex_node 11 42 6 9 0] [])).
    + discriminate.
    + reflexivity.
    + reflexivity.
    + vm_compute. discriminate.
    + intros H. vm_compute in H. congruence.
  - intros [] s' (Hc & Hr & Hs). rewrite Hc, Hr, Hs. vm_compute. auto.
Defined.

Lemma start_timers_arms_all_witness :
  wp (start_timers (K := clock_kernel (mk_timespec 7 500))) (fun r s' =>
    r = TT_ERROR_TIMER \/ exists ts, length ts = 2%nat /\
      timer_ops s' = concat (start_ops 0 (mk_timespec 7 5000500) <$>
        reverse (zip [ex_node 10 41 5 9 1; ex_node 11 42 6 9 0] ts)))
    (core_state [ex_node 10 41 5 9 1; ex_node 11 42 6 9 0] []).
Proof.
  eapply wp_mono.
  - apply (start_timers_arms_all (K := clock_kernel (mk_timespec 7 500))
             (core_state [ex_node 10 41 5 9 1; ex_node 11 42 6 9 0] [])).
    + vm_compute. apply NoDup_ListNoDup. repeat constructor; simpl; intuition congruence.
    + repeat constructor; vm_compute; congruence.
  - intros r s' [H _]. destruct r; try (by left). right. destruct H as (ts & Hl & _ & Ht).
    exists ts. split; [exact Hl|]. rewrite Ht. apply app_nil_r.
Defined.

(** A kernel at 0.1 ms before the end of a second that checks its arguments. *)
Definition strict_kernel : Kernel :=
  {| kresp := fun _ _ c =>
       match c in call A return A with
       | ClockGettime _ => (0, mk_timespec 7 999900000)
       | TimerSettime _ _ its =>
           if (0 <=? tv_nsec (it_value its)) && (tv_nsec (it_value its) <? 1000000000) then 0 else -1
       | c => default_reply c
       end |}.

#[export] Instance strict_rejects : RejectsUnnormalized (K := strict_kernel).
Proof.
  intros tr t f its H. unfold kresp, strict_kernel.
  destruct (Z.leb_spec 0 (tv_nsec (it_value its))), (Z.ltb_spec (tv_nsec (it_value its)) 1000000000);
    simpl; try done. by destruct H.
Qed.

Lemma start_timers_end_of_second_witness :
  wp (start_timers (K := strict_kernel)) (fun r _ => r = TT_ERROR_TIMER)
    (core_state [ex_node 10 41 5 9 1] []).
Proof.
  apply (start_timers_end_of_second (K := strict_kernel) (ex_node 10 41 5 9 1) []).
  - reflexivity.
  - reflexivity.
  - vm_compute. split; [discriminate|reflexivity].
Defined.

(** Clocks that tick once per call. *)
Definition tick (tr : list event) : Z := Z.min (blen tr) 1000.
Definition ns_ts (ns : Z) : timespec := mk_timespec (ns / 1000000000) (ns mod 1000000000).
Definition tick_kernel : Kernel :=
  {| kresp := fun _ tr c =>
       match c in call A return A with
       | ClockGettime clk => (0, ns_ts (if clk =? CLOCK_REALTIME then tick tr + 1700000000000000000 else tick tr))
       | c => default_reply c
       end |}.

Lemma ns_ts_ok ns : 0 <= ns < 2 ^ 63 -> ts_ok (ns_ts ns) /\ ts_total_ns (ns_ts ns) = ns.
Proof.
  intros H. unfold ts_ok, ts_norm, ts_total_ns, ns_ts. simpl. unfold_range.
  pose proof (Z.div_mod ns 1000000000 ltac:(lia)). pose proof (Z.mod_pos_bound ns 1000000000 ltac:(lia)).
  assert (0 <= ns / 1000000000) by (apply Z.div_pos; lia). lia.
Qed.

#[export] Instance tick_clocks : Clocks tick_kernel 1700000000000000000 tick.
Proof.
  assert (Ht : forall tr, 0 <= tick tr <= 1000) by (intros tr; unfold tick; lia).
  split.
  - intros tr. eexists. split; [reflexivity|]. apply ns_ts_ok. specialize (Ht tr). range.
  - intros tr. eexists. split; [reflexivity|]. apply ns_ts_ok. specialize (Ht tr). range.
  - intros e tr. unfold tick. simpl length. lia.
  - intros tr. specialize (Ht tr). range.
Qed.

Lemma calibrate_accurate_witness :
  wp (calibrate_bpf_time_offset (K := tick_kernel)) (fun r s' => r = TT_SUCCESS) nstate_init.
Proof.
  eapply wp_mono.
  - apply (calibrate_accurate (K := tick_kernel) (D := 1700000000000000000) (t := tick) nstate_init).
  - intros r s' [-> _]. reflexivity.
Defined.

Lemma deliver_last_event_witness :
  wp (deliver [mk_sigwait_event 42 42 100 1; mk_sigwait_event 41 41 150 1; mk_sigwait_event 42 42 200 0])
    (fun _ s' => exists n', rt_tt_list (cx_runtime (n_ctx s')) !! 1%nat = Some n' /\ wait_state n' = (200, 0))
    (core_state [ex_node 10 41 5 9 1; ex_node 11 42 6 9 0] []).
Proof.
  eapply wp_mono.
  - apply (deliver_last_event
             [mk_sigwait_event 42 42 100 1; mk_sigwait_event 41 41 150 1; mk_sigwait_event 42 42 200 0]
             (core_state [ex_node 10 41 5 9 1; ex_node 11 42 6 9 0] []) 1 (ex_node 11 42 6 9 0)).
    + vm_compute. apply NoDup_ListNoDup. repeat constructor; simpl; intuition congruence.
    + vm_compute. apply NoDup_ListNoDup. repeat constructor; simpl; intuition congruence.
    + reflexivity.
  - intros [] s' (_ & n' & Hn & Hw). exists n'. split; [exact Hn|]. rewrite Hw. vm_compute. reflexivity.
Defined.

Definition ex_apex : apex_info :=
  mk_apex_info 20 (task_info_zero <| ti_pid := 77 |> <| ti_name := in_array 16 (str "camera") |>
    <| ti_period := 1000000 |> <| ti_allowable_deadline_misses := 3 |>) (zeros 256) 7 0 0 0.

#[export] Instance steady : SteadyClock (K := clock_kernel (mk_timespec 1 0)) 1000000 2000000.
Proof. split; intros; vm_compute; intuition congruence. Qed.

(** The second application of the list. *)
Definition ex_apps : list apex_info :=
  [ex_apex <| ai_addr := 19 |> <| ai_task ::= fun t => t <| ti_name := in_array 16 (str "lidar") |> |>; ex_apex].

Lemma apex_faults_reported_witness :
  wp (faults (K := clock_kernel (mk_timespec 1 0)) (SJ := zero_stack) 7 (str "camera"))
    (fun _ s' => length (reports s') = 2%nat) (core_state [] ex_apps).
Proof.
  eapply wp_mono.
  - apply (apex_faults_reported (K := clock_kernel (mk_timespec 1 0)) (SJ := zero_stack) 7 (str "camera")
             (take 1 ex_apps) ex_apex [] (n_ctx (core_state [] ex_apps)) [] 0 0 (core_state [] ex_apps) 1000000).
    + discriminate.
    + vm_compute. split; reflexivity.
    + reflexivity.
    + vm_compute. reflexivity.
    + exact steady.
    + vm_compute. split; [discriminate|reflexivity].
    + reflexivity.
    + split_and!; [reflexivity| |reflexivity| |reflexivity..].
      * vm_compute. apply NoDup_ListNoDup. repeat constructor; simpl; intuition congruence.
      * constructor; [|constructor]. vm_compute. discriminate.
  - intros [] s' (st' & H). destruct H as (_ & _ & _ & _ & _ & _ & ->). vm_compute. reflexivity.
Defined.
