(* ===== verification/Main.v ===== *)
(** * The program (timpani-n/src/main.c, signal.c, cleanup.c, globals.c, and
    the event loop of core.c)

    Handlers that run on other threads (timer threads, the ring-buffer
    threads) and the signal handler are [async] actions; the event loop is
    given, for each turn, the actions that happen while it waits.  A handler
    runs to completion before the next one starts. *)

From S2P Require Import Prelude Time Types Kernel Serialize Hyperperiod SchedInfo.
From S2P Require Import PeerDbus Trpc Sched TraceBpf Task Config ApexMonitor Core.

Section main.
Context {HO : Host} {K : Kernel} {SJ : StackJunk} {BC : BuildConfig} {IJ : IntJunk}.

(** ** signal.c *)

Definition signal_handler (signo : Z) : N unit :=
  s ← get_st;
  if n_g_ctx s then upd_rt (fun r => r <| rt_shutdown_requested := 1 |>) else mret tt.

Definition setup_signal_handlers : N tt_error_t :=
  modify (fun s => s <| n_g_ctx := true |>) ;;
  r ← sys (Sigaction SIGINT);
  if r <? 0 then mret TT_ERROR_SIGNAL
  else
    r ← sys (Sigaction SIGTERM);
    if r <? 0 then mret TT_ERROR_SIGNAL else mret TT_SUCCESS.

(** ** What runs beside the main thread *)

Inductive async :=
  | A_timer (node : Z)
  | A_cycle
  | A_coredata (app : Z)
  | A_sigwait (e : sigwait_event)
  | A_schedstat (e : schedstat_event)
  | A_signal (signo : Z).

Definition sizeof_schedstat_event : Z := 32.

Definition run_async (a : async) : N unit :=
  match a with
  | A_timer node => timer_expired_handler node
  | A_cycle => hyperperiod_cycle_handler
  | A_coredata app => coredata_timer_handler app
  | A_sigwait e => _ ← handle_sigwait_bpf_event true (Some e) sizeof_sigwait_event; mret tt
  | A_schedstat e => _ ← handle_schedstat_bpf_event true (Some e) sizeof_schedstat_event; mret tt
  | A_signal signo => signal_handler signo
  end.

Fixpoint run_asyncs (l : list async) : N unit :=
  match l with
  | [] => mret tt
  | a :: l => run_async a ;; run_asyncs l
  end.

(** ** core.c: the event loop *)

(** One turn of the loop; [Some r] when the function returns. *)
Definition epoll_turn (efd : Z) (acts : list async) : N (option tt_error_t) :=
  ctx ← get_ctx;
  if negb (rt_shutdown_requested (cx_runtime ctx) =? 0) then
    _ ← sys (Close efd);
    mret (Some TT_SUCCESS)
  else
    run_asyncs acts ;;
    '(count, errno, fd) ← sys (EpollWait efd);
    if count <? 0 then
      if errno =? EINTR then mret None
      else
        _ ← sys (Close efd);
        mret (Some TT_ERROR_TIMER)
    else
      ctx ← get_ctx;
      if fd =? cm_apex_fd (cx_comm ctx) then
        _ ← handle_apex_events;
        mret None
      else
        _ ← for_each (rt_tt_list (cx_runtime ctx)) (fun n =>
          if ti_pidfd (tt_task n) =? fd then
            _ ← sys (EpollCtl efd EPOLL_CTL_DEL (ti_pidfd (tt_task n)));
            mret (Some tt)
          else mret None);
        mret None.

(** The loop for the turns given; [None] when it is still running. *)
Fixpoint epoll_turns (efd : Z) (turns : list (list async)) : N (option tt_error_t) :=
  match turns with
  | [] => mret None
  | acts :: turns =>
      r ← epoll_turn efd acts;
      match r with
      | Some r => mret (Some r)
      | None => epoll_turns efd turns
      end
  end.

Definition epoll_loop (turns : list (list async)) : N (option tt_error_t) :=
  efd ← sys EpollCreate1;
  if efd <? 0 then mret (Some TT_ERROR_TIMER)
  else
    ctx ← get_ctx;
    r ← for_each (rt_tt_list (cx_runtime ctx)) (fun n =>
      r ← sys (EpollCtl efd EPOLL_CTL_ADD (ti_pidfd (tt_task n)));
      if r <? 0 then
        _ ← sys (Close efd);
        mret (Some TT_ERROR_TIMER)
      else mret None);
    match r with
    | Some r => mret (Some r)
    | None =>
        r ← sys (EpollCtl efd EPOLL_CTL_ADD (cm_apex_fd (cx_comm ctx)));
        if r =? -1 then
          _ ← sys (Close efd);
          mret (Some TT_ERROR_TIMER)
        else epoll_turns efd turns
    end.

(** ** cleanup.c *)

(** The loop empties the list from its head. *)
Fixpoint cleanup_nodes (l : list time_trigger) : N unit :=
  match l with
  | [] => mret tt
  | n :: l =>
      _ ← bpf_del_pid (i32 (ti_pid (tt_task n)));
      (if 0 <=? ti_pidfd (tt_task n) then _ ← sys (Close (ti_pidfd (tt_task n))); mret tt
       else mret tt) ;;
      _ ← sys (TimerDelete (tt_timer n));
      upd_rt (fun r => r <| rt_tt_list := l |>) ;;
      sys (Free (tt_addr n)) ;;
      cleanup_nodes l
  end.

Definition cleanup_tasks : N unit :=
  ctx ← get_ctx;
  cleanup_nodes (rt_tt_list (cx_runtime ctx)) ;;
  drop_tasks.

Definition cleanup_communication : N unit :=
  ctx ← get_ctx;
  (if negb (cm_dbus (cx_comm ctx) =? 0) then
     sys (SdBusUnref (cm_dbus (cx_comm ctx))) ;;
     upd_comm (fun c => c <| cm_dbus := 0 |>)
   else mret tt) ;;
  (if negb (cm_event (cx_comm ctx) =? 0) then
     sys (SdEventUnref (cm_event (cx_comm ctx))) ;;
     upd_comm (fun c => c <| cm_event := 0 |>)
   else mret tt).

(** [log_hyperperiod_statistics] only prints. *)
Definition cleanup_hyperperiod : N unit :=
  ctx ← get_ctx;
  if 0 <? hp_hyperperiod_us (cx_hp ctx) then
    _ ← sys (TimerDelete (hp_hyperperiod_timer (cx_hp ctx)));
    mret tt
  else mret tt.

Definition cleanup_bpf_trace : N unit := bpf_off.

(** [ctx] tells whether the pointer is not null. *)
Definition cleanup_context (ctx : bool) : N unit :=
  if negb ctx then mret tt
  else
    cleanup_tasks ;;
    cleanup_communication ;;
    cleanup_hyperperiod ;;
    cleanup_bpf_trace.

(** ** main.c *)

Definition initialize : N tt_error_t :=
  pid ← sys Getpid;
  r ← setup_signal_handlers;
  if negb (tt_ok_code r) then mret TT_ERROR_SIGNAL
  else
    ctx ← get_ctx;
    let cfg := cx_config ctx in
    (if negb (cf_cpu cfg =? -1) then _ ← set_affinity pid (cf_cpu cfg); mret tt else mret tt) ;;
    (if (0 <? cf_prio cfg) && (cf_prio cfg <=? 99) then
       _ ← set_schedattr pid (cf_prio cfg) SCHED_FIFO; mret tt
     else mret tt) ;;
    r ← calibrate_bpf_time_offset;
    if negb (tt_ok_code r) then mret TT_ERROR_BPF
    else
      r ← init_trpc;
      if negb (tt_ok_code r) then mret TT_ERROR_NETWORK
      else
        ctx ← get_ctx;
        (if negb (cf_enable_apex (cx_config ctx)) then
           if strcmp_eq (hp_workload_id (cx_hp ctx)) (str "Apex.OS") then
             r ← init_apex_list;
             mret (tt_ok_code r)
           else
             _ ← bpf_on;
             r ← init_task_list;
             mret (tt_ok_code r)
         else mret true) ≫= fun ok : bool =>
        if negb ok then mret TT_ERROR_CONFIG
        else
          r ← apex_monitor_init;
          if negb (tt_ok_code r) then mret TT_ERROR_NETWORK else mret TT_SUCCESS.

(** [fuel] bounds the polls of the synchronization, [turns] those of the event
    loop; [None] when one of them is still running. *)
Definition run (fuel : nat) (turns : list (list async)) : N (option tt_error_t) :=
  r ← sync_timer_with_server fuel;
  match r with
  | None => mret None
  | Some r =>
      if negb (tt_ok_code r) then mret (Some TT_ERROR_NETWORK)
      else
        r ← start_timers;
        if negb (tt_ok_code r) then mret (Some TT_ERROR_TIMER)
        else
          r ← start_hyperperiod_timer;
          if negb (tt_ok_code r) then mret (Some TT_ERROR_TIMER)
          else epoll_loop turns
  end.

Definition EXIT_SUCCESS : Z := 0.
Definition EXIT_FAILURE : Z := 1.

(** The exit code. *)
Definition main (args : list (list byte)) (fuel : nat) (turns : list (list async)) : N (option Z) :=
  modify (fun s => s <| n_ctx := context_zero |>) ;;
  ret ← parse_config args;
  if negb (tt_ok_code ret) then mret (Some EXIT_FAILURE)
  else
    ret ← initialize;
    (if negb (tt_ok_code ret) then mret (Some ret) else run fuel turns) ≫= fun ret =>
    match ret with
    | None => mret None
    | Some ret =>
        cleanup_context true ;;
        mret (Some (if tt_ok_code ret then EXIT_SUCCESS else EXIT_FAILURE))
    end.

End main.
