(* ===== verification/Safety.v ===== *)
(** * The running executor: safety, accounting and shutdown

    Properties of the handlers and the event loop together.  The states the
    executor runs in are [wf A B]: the nodes of the task list have the
    distinct addresses [A], those of the application list the distinct
    addresses [B], and the pointers the handlers follow are set. *)

From S2P Require Import Prelude Time Types Kernel Serialize Hyperperiod SchedInfo PeerDbus.
From S2P Require Import Trpc Sched TraceBpf Task Config ApexMonitor Core Main.

(** ** Well-formed states *)

Definition node_ok (n : time_trigger) : Prop := tt_addr n <> 0 /\ tt_ctx n = true /\ 0 <= ti_pidfd (tt_task n).

Record wf (A B : list Z) (s : nstate) : Prop := mk_wf {
  wf_nodes : tt_addr <$> rt_tt_list (cx_runtime (n_ctx s)) = A;
  wf_apps : ai_addr <$> rt_apex_list (cx_runtime (n_ctx s)) = B;
  wf_node_ok : Forall node_ok (rt_tt_list (cx_runtime (n_ctx s)));
  wf_hp : hp_ctx (cx_hp (n_ctx s)) = true;
}.

(** [safe A B m]: no undefined behaviour in well-formed states, which it
    preserves. *)
Section safe.
Context {K : Kernel} (A B : list Z).
Hypothesis HA : NoDup A.
Hypothesis HB : NoDup B.

Definition safe {X} (m : N X) : Prop := forall s, wf A B s -> wp m (fun _ s' => wf A B s') s.

Lemma safe_ret {X} (x : X) : safe (mret x).
Proof. intros s H. by apply wp_ret. Qed.

Lemma safe_bind {X Y} (m : N X) (k : X -> N Y) : safe m -> (forall x, safe (k x)) -> safe (m ≫= k).
Proof.
  intros Hm Hk s Hs. apply wp_bind. eapply wp_mono; [by apply Hm|]. intros x s1 H1. by apply Hk.
Qed.

(** What was read is known to come from a well-formed state. *)
Lemma safe_gets_bind {X Y} (f : nstate -> X) (k : X -> N Y) :
  (forall s, wf A B s -> safe (k (f s))) -> safe (gets f ≫= k).
Proof. intros H s Hs. apply wp_bind, wp_gets. by apply H. Qed.

Lemma safe_get_bind {Y} (k : nstate -> N Y) : (forall s, wf A B s -> safe (k s)) -> safe (get_st ≫= k).
Proof. intros H s Hs. apply wp_bind, wp_get. by apply H. Qed.

Lemma safe_sys {X : Set} (c : call X) : safe (sys c).
Proof. intros s [? ? ? ?]. apply wp_sys. by split. Qed.

Lemma safe_modify f : (forall s, wf A B s -> wf A B (f s)) -> safe (modify f).
Proof. intros H s Hs. apply wp_modify. by apply H. Qed.

Lemma safe_for_each {X Y} (l : list X) (body : X -> N (option Y)) :
  (forall x, x ∈ l -> safe (body x)) -> safe (for_each l body).
Proof.
  induction l as [|x l IH]; intros H; simpl; [apply safe_ret|].
  apply safe_bind; [apply H, list_elem_of_here|]. intros [y|]; [apply safe_ret|].
  apply IH. intros z Hz. by apply H, list_elem_of_further.
Qed.

Lemma safe_read_node p : p ∈ A -> safe (read_node p).
Proof.
  intros Hp s Hs. rewrite <- (wf_nodes A B s Hs) in Hp.
  apply list_elem_of_fmap in Hp as (n & -> & Hn). eapply wp_read_node; [|exact Hs].
  apply find_by_in; [|done]. by rewrite (wf_nodes A B s Hs).
Qed.

Lemma safe_read_node_bind {Y} p (k : time_trigger -> N Y) :
  p ∈ A -> (forall n, node_ok n -> tt_addr n = p -> safe (k n)) -> safe (read_node p ≫= k).
Proof.
  intros Hp Hk s Hs. rewrite <- (wf_nodes A B s Hs) in Hp.
  apply list_elem_of_fmap in Hp as (n & -> & Hn). apply wp_bind. eapply wp_read_node.
  - apply find_by_in; [|done]. by rewrite (wf_nodes A B s Hs).
  - apply Hk; [|done|done]. by apply (proj1 (Forall_forall _ _) (wf_node_ok A B s Hs)).
Qed.

Lemma safe_write_node p f :
  p ∈ A -> (forall n, tt_addr (f n) = tt_addr n) -> (forall n, node_ok n -> node_ok (f n)) ->
  safe (write_node p f).
Proof.
  intros Hp Hf Hok s Hs. rewrite <- (wf_nodes A B s Hs) in Hp.
  apply list_elem_of_fmap in Hp as (n & -> & Hn). eapply wp_write_node.
  - apply find_by_in; [|done]. by rewrite (wf_nodes A B s Hs).
  - destruct Hs as [H1 H2 H3 H4]. split; simpl; [by rewrite upd_by_addrs|done| |done].
    unfold upd_by. apply Forall_fmap. eapply Forall_impl; [exact H3|]. intros m Hm. simpl.
    case_decide; auto.
Qed.

Lemma safe_read_apex p : p ∈ B -> safe (read_apex p).
Proof.
  intros Hp s Hs. rewrite <- (wf_apps A B s Hs) in Hp.
  apply list_elem_of_fmap in Hp as (n & -> & Hn). eapply wp_read_apex; [|exact Hs].
  apply find_by_in; [|done]. by rewrite (wf_apps A B s Hs).
Qed.

Lemma safe_write_apex p f : p ∈ B -> (forall n, ai_addr (f n) = ai_addr n) -> safe (write_apex p f).
Proof.
  intros Hp Hf s Hs. rewrite <- (wf_apps A B s Hs) in Hp.
  apply list_elem_of_fmap in Hp as (n & -> & Hn). eapply wp_write_apex.
  - apply find_by_in; [|done]. by rewrite (wf_apps A B s Hs).
  - destruct Hs as [H1 H2 H3 H4]. split; simpl; [done|by rewrite upd_by_addrs|done|done].
Qed.

End safe.

Create HintDb safe.
#[export] Hint Resolve safe_ret safe_sys safe_read_node safe_read_apex : safe.

Ltac safe_step :=
  lazymatch goal with
  | |- safe _ _ (mbind _ (gets _)) => apply safe_gets_bind; intros ? ?
  | |- safe _ _ (mbind _ get_st) => apply safe_get_bind; intros ? ?
  | |- safe _ _ (mbind _ _) => apply safe_bind; [|intros ?]
  | |- safe _ _ (mret _) => apply safe_ret
  | |- safe _ _ (sys _) => apply safe_sys
  | |- safe _ _ (modify _) => apply safe_modify; by intros ? []; split
  | |- safe _ _ (for_each _ _) => apply safe_for_each; intros ? ?
  | |- safe _ _ (read_apex _) => apply safe_read_apex; [done|try done]
  | |- safe _ _ (write_apex _ _) => apply safe_write_apex; [done|try done|done]
  | |- safe _ _ (match ?x with _ => _ end) => destruct x eqn:?
  | |- safe _ _ _ => solve [eauto with safe]
  end.
Ltac safe_tac := repeat (cbn beta iota; safe_step).

(** ** Every handler is safe *)

Section handlers_safe.
Context {HO : Host} {K : Kernel} {SJ : StackJunk} {BC : BuildConfig} {IJ : IntJunk} (A B : list Z).
Hypothesis HA : NoDup A.
Hypothesis HB : NoDup B.

Abbreviation safe := (safe A B).

Lemma get_hyperperiod_relative_time_safe : safe get_hyperperiod_relative_time.
Proof.
  unfold get_hyperperiod_relative_time, get_ctx. apply safe_gets_bind. intros s Hs.
  rewrite (wf_hp A B s Hs). safe_tac.
Qed.
#[local] Hint Resolve get_hyperperiod_relative_time_safe : safe.

Lemma hyperperiod_cycle_handler_safe : safe hyperperiod_cycle_handler.
Proof.
  unfold hyperperiod_cycle_handler, get_ctx, upd_hp, upd_ctx. apply safe_gets_bind. intros s Hs.
  rewrite (wf_hp A B s Hs). safe_tac.
Qed.

Lemma report_deadline_miss_safe name : safe (report_deadline_miss name).
Proof. unfold report_deadline_miss, trpc_client_dmiss, call_method, release_reply, get_ctx. safe_tac. Qed.
#[local] Hint Resolve report_deadline_miss_safe : safe.

Lemma check_deadline_safe p before : p ∈ A -> safe (check_deadline p before).
Proof.
  intros Hp. unfold check_deadline, count_and_report, upd_hp, upd_ctx.
  apply safe_read_node_bind; [done|done|]. intros n Hn _. safe_tac;
    (apply safe_write_node; [done|done|done|by intros ? [? ?]; split]).
Qed.
#[local] Hint Resolve check_deadline_safe : safe.

Lemma timer_expired_handler_safe p : p ∈ A -> safe (timer_expired_handler p).
Proof.
  intros Hp. unfold timer_expired_handler, get_ctx, send_signal_pidfd.
  destruct (p =? 0); [apply safe_ret|]. apply safe_read_node_bind; [done|done|]. intros n Hn _.
  safe_tac; (apply safe_write_node; [done|done|done|by intros ? [? ?]; split]).
Qed.

Lemma handle_sigwait_bpf_event_safe c e l : safe (handle_sigwait_bpf_event c e l).
Proof.
  unfold handle_sigwait_bpf_event. destruct c, e as [ev|]; try apply safe_ret.
  destruct (l <? sizeof_sigwait_event); [apply safe_ret|]. apply safe_get_bind. intros s Hs. safe_tac.
  apply safe_write_node; [done| |done|by intros ? [? ?]; split].
  rewrite <- (wf_nodes A B s Hs). by apply list_elem_of_fmap_2.
Qed.

Lemma handle_schedstat_bpf_event_safe c e l : safe (handle_schedstat_bpf_event c e l).
Proof. unfold handle_schedstat_bpf_event, write_schedstat, upd_ctx. safe_tac. Qed.

Lemma signal_handler_safe n : safe (signal_handler n).
Proof. unfold signal_handler, upd_rt, upd_ctx. safe_tac. Qed.

Lemma coredata_client_send_safe p : p ∈ B -> safe (coredata_client_send p).
Proof. intros Hp. unfold coredata_client_send, coredata_client_init. safe_tac. Qed.
#[local] Hint Resolve coredata_client_send_safe : safe.

Lemma coredata_timer_handler_safe p : p ∈ B -> safe (coredata_timer_handler p).
Proof. intros Hp. unfold coredata_timer_handler. safe_tac. Qed.

(** *** Applications *)

Lemma all_threads_loop_safe es m a b : safe (all_threads_loop es m a b).
Proof.
  revert a b. induction es as [|e es IH]; intros a b; simpl; unfold set_affinity_cpumask; safe_tac.
Qed.
#[local] Hint Resolve all_threads_loop_safe : safe.

Lemma set_all_threads_safe pid m : safe (set_affinity_cpumask_all_threads pid m).
Proof. unfold set_affinity_cpumask_all_threads. safe_tac. Qed.
#[local] Hint Resolve set_all_threads_safe : safe.

Lemma find_threads_by_name_safe name p : safe (find_threads_by_name name p).
Proof. unfold find_threads_by_name, get_thread_name. safe_tac. Qed.
#[local] Hint Resolve find_threads_by_name_safe : safe.

Lemma get_pid_by_name_safe name b : safe (get_pid_by_name name b).
Proof. unfold get_pid_by_name. safe_tac. Qed.
#[local] Hint Resolve get_pid_by_name_safe : safe.

Lemma get_pid_by_nspid_safe name n b : safe (get_pid_by_nspid name n b).
Proof. unfold get_pid_by_nspid, _get_pid_by_nspid. safe_tac. Qed.
#[local] Hint Resolve get_pid_by_nspid_safe : safe.

(** An application taken from the list has its address in [B]. *)
Lemma app_in s a : wf A B s -> a ∈ rt_apex_list (cx_runtime (n_ctx s)) -> ai_addr a ∈ B.
Proof. intros Hs Ha. rewrite <- (wf_apps A B s Hs). by apply list_elem_of_fmap_2. Qed.

Lemma handle_apex_fault_event_safe name : safe (handle_apex_fault_event name).
Proof.
  unfold handle_apex_fault_event, get_ctx. apply safe_gets_bind. intros s Hs.
  apply safe_bind; [|intros; apply safe_ret]. apply safe_for_each. intros a Ha.
  pose proof (app_in s a Hs Ha) as Hp. safe_tac.
Qed.
#[local] Hint Resolve handle_apex_fault_event_safe : safe.

Lemma handle_apex_up_event_safe name n : safe (handle_apex_up_event name n).
Proof.
  unfold handle_apex_up_event, get_ctx, coredata_create_timer. apply safe_bind; [apply get_pid_by_nspid_safe|].
  intros [r pid]. apply safe_gets_bind. intros s Hs.
  apply safe_bind; [|intros; apply safe_ret]. apply safe_for_each. intros a Ha.
  pose proof (app_in s a Hs Ha) as Hp. safe_tac.
Qed.
#[local] Hint Resolve handle_apex_up_event_safe : safe.

Lemma handle_apex_down_event_safe n : safe (handle_apex_down_event n).
Proof.
  unfold handle_apex_down_event, get_ctx, coredata_delete_timer. apply safe_gets_bind. intros s Hs.
  apply safe_bind; [|intros; apply safe_ret]. apply safe_for_each. intros a Ha.
  pose proof (app_in s a Hs Ha) as Hp. safe_tac.
Qed.
#[local] Hint Resolve handle_apex_down_event_safe : safe.

Lemma handle_apex_reset_event_safe : safe handle_apex_reset_event.
Proof.
  unfold handle_apex_reset_event, get_ctx. apply safe_gets_bind. intros s Hs.
  apply safe_bind; [|intros; apply safe_ret]. apply safe_for_each. intros a Ha.
  pose proof (app_in s a Hs Ha) as Hp. safe_tac.
Qed.
#[local] Hint Resolve handle_apex_reset_event_safe : safe.

Lemma handle_apex_events_safe : safe handle_apex_events.
Proof. unfold handle_apex_events, apex_monitor_recv, get_ctx. safe_tac. Qed.
#[local] Hint Resolve handle_apex_events_safe : safe.

(** *** The loop *)

(** Actions of timers that were created for nodes of the lists. *)
Definition async_ok (a : async) : Prop :=
  match a with
  | A_timer p => p ∈ A
  | A_coredata p => p ∈ B
  | _ => True
  end.

Lemma run_async_safe a : async_ok a -> safe (run_async a).
Proof.
  destruct a; cbn [run_async async_ok]; intros Ha.
  - by apply timer_expired_handler_safe.
  - apply hyperperiod_cycle_handler_safe.
  - by apply coredata_timer_handler_safe.
  - apply safe_bind; [apply handle_sigwait_bpf_event_safe|intros; apply safe_ret].
  - apply safe_bind; [apply handle_schedstat_bpf_event_safe|intros; apply safe_ret].
  - apply signal_handler_safe.
Qed.

Lemma run_asyncs_safe l : Forall async_ok l -> safe (run_asyncs l).
Proof.
  induction 1 as [|a l Ha Hl IH]; simpl; [apply safe_ret|].
  apply safe_bind; [by apply run_async_safe|]. intros _. exact IH.
Qed.

Lemma epoll_turn_safe efd acts : Forall async_ok acts -> safe (epoll_turn efd acts).
Proof.
  intros H. unfold epoll_turn, get_ctx. pose proof (run_asyncs_safe acts H). safe_tac.
Qed.

End handlers_safe.

(** ** Accounting *)

Section accounting.
Context {HO : Host} {K : Kernel} {SJ : StackJunk} {BC : BuildConfig} {IJ : IntJunk} (A B : list Z).
Hypothesis HA : NoDup A.
Hypothesis HB : NoDup B.

Abbreviation total s := (hp_total_deadline_misses (cx_hp (n_ctx s))).
Abbreviation in_cycle s := (hp_cycle_deadline_misses (cx_hp (n_ctx s))).
Abbreviation completed s := (hp_completed_cycles (cx_hp (n_ctx s))).

(** The manager and the reports, which most handlers leave alone. *)
Definition books (s : nstate) : hyperperiod_manager * list (Z * list byte * list byte) :=
  (cx_hp (n_ctx s), reports s).

Lemma write_node_books p f : frames (keeps books) (write_node p f).
Proof. unfold write_node, get_ctx, upd_rt, upd_ctx. frames_tac. Qed.
Lemma read_apex_books p : frames (keeps books) (read_apex p).
Proof. unfold read_apex, get_ctx. frames_tac. Qed.
Lemma write_apex_books p f : frames (keeps books) (write_apex p f).
Proof. unfold write_apex, get_ctx, upd_rt, upd_ctx. frames_tac. Qed.
#[local] Hint Resolve write_node_books read_apex_books write_apex_books : frames.

Lemma coredata_client_send_books p : frames (keeps books) (coredata_client_send p).
Proof. unfold coredata_client_send, coredata_client_init. frames_tac. Qed.
#[local] Hint Resolve coredata_client_send_books : frames.

Definition is_cycle (a : async) : bool := match a with A_cycle => true | _ => false end.
Definition is_timer (a : async) : bool := match a with A_timer _ => true | _ => false end.

Lemma quiet_async_books a :
  is_cycle a = false -> is_timer a = false -> frames (keeps books) (run_async a).
Proof.
  destruct a; intros; try done; cbn [run_async];
    unfold coredata_timer_handler, handle_sigwait_bpf_event, handle_schedstat_bpf_event,
      write_schedstat, signal_handler, upd_rt, upd_ctx; frames_tac.
Qed.

(** What a piece of the run with [c] cycle expiries does to the books: [k]
    reports, all of them counted, [j] of them since the last cycle expiry. *)
Definition booked (c k j : Z) (s s' : nstate) : Prop :=
  blen (reports s') = blen (reports s) + k /\ 0 <= j <= k /\ (c = 0 -> j = k) /\
  u32 (total s') = u32 (total s + k) /\
  u64 (completed s') = u64 (completed s + c) /\
  u32 (in_cycle s') = u32 ((if c =? 0 then in_cycle s else 0) + j).

Lemma run_async_books a s :
  wf A B s -> async_ok A B a ->
  wp (run_async a) (fun _ s' => exists k j, booked (if is_cycle a then 1 else 0) k j s s') s.
Proof.
  intros Hs Ha. destruct (is_timer a) eqn:Et; [|destruct (is_cycle a) eqn:Ec].
  - destruct a as [p| | | | |]; try done. simpl in Ha. rewrite <- (wf_nodes A B s Hs) in Ha.
    apply list_elem_of_fmap in Ha as (n & -> & Hn).
    destruct (proj1 (Forall_forall _ _) (wf_node_ok A B s Hs) n Hn) as (Hne & Hctx & Hfd).
    cbn [run_async is_cycle]. eapply wp_mono; [apply (timer_expired_effect (tt_addr n) n)|]; try done.
    { apply find_by_in; [|done]. by rewrite (wf_nodes A B s Hs). }
    { intros _. apply (wf_hp A B s Hs). }
    intros [] s' (Hc & Hr & _). unfold booked. rewrite Hc, Hr. unfold expire_ctx, reports_if, count_miss.
    destruct (missed _ _); [exists 1, 1|exists 0, 0]; simpl; rewrite ?wrapu_idemp, ?Z.add_0_r; split_and!; done || lia.
  - destruct a; try done. simpl. unfold hyperperiod_cycle_handler, get_ctx, upd_hp, upd_ctx.
    do 2 wp_step. rewrite (wf_hp A B s Hs). apply wp_bind, wp_sys. destruct (kresp _ _) as [r now].
    do 2 (apply wp_bind; wp_step). wp_step. exists 0, 0. unfold booked. simpl.
    rewrite ?wrapu_idemp, ?Z.add_0_r. split_and!; done || lia.
  - eapply wp_mono; [eapply frames_wp; [by apply quiet_async_books|by apply (run_async_safe A B)]|].
    intros [] s' [_ [Hh Hr]%pair_equal_spec]. exists 0, 0. unfold booked. rewrite Hh, Hr, !Z.add_0_r.
    split_and!; done || lia.
Qed.

Lemma booked_trans c1 c2 k1 k2 j1 j2 s1 s2 s3 :
  0 <= c1 -> 0 <= c2 -> booked c1 k1 j1 s1 s2 -> booked c2 k2 j2 s2 s3 ->
  booked (c1 + c2) (k1 + k2) (if c2 =? 0 then j1 + j2 else j2) s1 s3.
Proof.
  intros H1 H2 (A1 & A2 & A3 & A4 & A5 & A6) (B1 & B2 & B3 & B4 & B5 & B6).
  assert (u32 (total s3) = u32 (total s1 + (k1 + k2))).
  { rewrite B4, <- wrapu_add_l, A4, wrapu_add_l. f_equal. lia. }
  assert (u64 (completed s3) = u64 (completed s1 + (c1 + c2))).
  { rewrite B5, <- wrapu_add_l, A5, wrapu_add_l. f_equal. lia. }
  unfold booked. destruct (Z.eqb_spec c2 0) as [->|Hc2].
  - rewrite Z.add_0_r in *. split_and!; try done; try lia.
    rewrite B6, <- wrapu_add_l, A6, wrapu_add_l. f_equal. lia.
  - rewrite (proj2 (Z.eqb_neq (c1 + c2) 0)) by lia. split_and!; try done; lia.
Qed.

Definition cycles (acts : list async) : Z := blen (filter (fun a => is_cycle a = true) acts).

(** C1: for any sequence of timer expiries, cycle expiries, BPF events,
    coredata timers and signals whose handlers do not overlap (each runs to
    completion before the next starts), no handler touches a dangling pointer,
    and the books are exact: the total of deadline misses grows by the number of
    reports sent to the orchestrator (modulo 2^32), the completed cycles by the
    number of cycle expiries (modulo 2^64), and the misses of the current cycle
    by the reports when no cycle expiry occurs; a cycle expiry restarts that
    count, which then has at most the reports of the run.  When handlers overlap,
    which their threads allow, counts can be lost: that case is the subject of
    Races. *)
Theorem deadline_accounting acts s :
  wf A B s -> Forall (async_ok A B) acts ->
  wp (run_asyncs acts) (fun _ s' => wf A B s' /\ exists k j, booked (cycles acts) k j s s') s.
Proof.
  intros Hs Hok. revert s Hs. induction Hok as [|a acts Ha Hok IH]; intros s Hs; cbn [run_asyncs].
  { apply wp_ret. split; [done|]. exists 0, 0. unfold booked, cycles. simpl.
    rewrite !Z.add_0_r. split_and!; done || lia. }
  apply wp_bind. eapply wp_mono; [eapply wp_and; [by apply run_async_books|
    apply wp_wlp; by apply (run_async_safe A B HA HB)]|].
  intros [] s1 [(k1 & j1 & H1) Hs1]. eapply wp_mono; [by apply IH|].
  intros [] s2 [Hs2 (k2 & j2 & H2)]. split; [done|].
  exists (k1 + k2), (if cycles acts =? 0 then j1 + j2 else j2).
  replace (cycles (a :: acts)) with ((if is_cycle a then 1 else 0) + cycles acts).
  - eapply booked_trans; [by destruct (is_cycle a)|unfold cycles; lia|done|done].
  - unfold cycles. rewrite filter_cons. destruct (is_cycle a); simpl; lia.
Qed.

End accounting.

(** ** Shutdown *)

Section shutdown.
Context {HO : Host} {K : Kernel} {SJ : StackJunk} {BC : BuildConfig} {IJ : IntJunk} (A B : list Z).
Hypothesis HA : NoDup A.
Hypothesis HB : NoDup B.

Abbreviation down s := (rt_shutdown_requested (cx_runtime (n_ctx s))).

(** The shutdown request and the pointer of the signal handler. *)
Definition flags (s : nstate) : Z * bool := (down s, n_g_ctx s).

Lemma read_node_flags p : frames (keeps flags) (read_node p).
Proof. unfold read_node, get_ctx. frames_tac. Qed.
Lemma write_node_flags p f : frames (keeps flags) (write_node p f).
Proof. unfold write_node, get_ctx, upd_rt, upd_ctx. frames_tac. Qed.
Lemma read_apex_flags p : frames (keeps flags) (read_apex p).
Proof. unfold read_apex, get_ctx. frames_tac. Qed.
Lemma write_apex_flags p f : frames (keeps flags) (write_apex p f).
Proof. unfold write_apex, get_ctx, upd_rt, upd_ctx. frames_tac. Qed.
#[local] Hint Resolve read_node_flags write_node_flags read_apex_flags write_apex_flags : frames.

Lemma report_deadline_miss_flags name : frames (keeps flags) (report_deadline_miss name).
Proof. unfold report_deadline_miss, trpc_client_dmiss, call_method, release_reply, get_ctx. frames_tac. Qed.
Lemma coredata_client_send_flags p : frames (keeps flags) (coredata_client_send p).
Proof. unfold coredata_client_send, coredata_client_init. frames_tac. Qed.
Lemma find_threads_by_name_flags name p : frames (keeps flags) (find_threads_by_name name p).
Proof. unfold find_threads_by_name, get_thread_name. frames_tac. Qed.
Lemma all_threads_loop_flags es m a b : frames (keeps flags) (all_threads_loop es m a b).
Proof.
  revert a b. induction es as [|e es IH]; intros a b; simpl; unfold set_affinity_cpumask; frames_tac.
Qed.
#[local] Hint Resolve report_deadline_miss_flags coredata_client_send_flags find_threads_by_name_flags
  all_threads_loop_flags : frames.

Lemma get_pid_by_name_flags name b : frames (keeps flags) (get_pid_by_name name b).
Proof. unfold get_pid_by_name. frames_tac. Qed.
Lemma get_pid_by_nspid_flags name n b : frames (keeps flags) (get_pid_by_nspid name n b).
Proof. unfold get_pid_by_nspid, _get_pid_by_nspid. frames_tac. Qed.
#[local] Hint Resolve get_pid_by_name_flags get_pid_by_nspid_flags : frames.

Lemma timer_expired_handler_flags p : frames (keeps flags) (timer_expired_handler p).
Proof.
  unfold timer_expired_handler, check_deadline, count_and_report, get_hyperperiod_relative_time,
    send_signal_pidfd, get_ctx, upd_hp, upd_ctx. frames_tac.
Qed.

Definition is_signal (a : async) : bool := match a with A_signal _ => true | _ => false end.

Lemma run_async_flags a : is_signal a = false -> frames (keeps flags) (run_async a).
Proof.
  destruct a; intros; try done; cbn [run_async]; [apply timer_expired_handler_flags|..];
    unfold hyperperiod_cycle_handler, coredata_timer_handler, handle_sigwait_bpf_event,
      handle_schedstat_bpf_event, write_schedstat, get_ctx, upd_hp, upd_ctx; frames_tac.
Qed.

Lemma handle_apex_events_flags : frames (keeps flags) handle_apex_events.
Proof.
  unfold handle_apex_events, apex_monitor_recv, handle_apex_fault_event, handle_apex_up_event,
    handle_apex_down_event, handle_apex_reset_event, coredata_create_timer, coredata_delete_timer,
    set_affinity_cpumask_all_threads, get_ctx. frames_tac.
Qed.

(** Once requested, the shutdown stays requested; a signal requests it. *)
Lemma run_asyncs_down acts s :
  wf A B s -> Forall (async_ok A B) acts -> n_g_ctx s = true ->
  wp (run_asyncs acts) (fun _ s' => wf A B s' /\ n_g_ctx s' = true /\
    (down s <> 0 \/ Exists (fun a => is_signal a = true) acts -> down s' <> 0)) s.
Proof.
  intros Hs Hok. revert s Hs. induction Hok as [|a acts Ha Hok IH]; intros s Hs Hg; cbn [run_asyncs].
  { apply wp_ret. split_and!; [done|done|]. intros [H|H]; [done|by inversion H]. }
  assert (Hone : wp (run_async a) (fun _ s1 => wf A B s1 /\ n_g_ctx s1 = true /\
    (down s <> 0 \/ is_signal a = true -> down s1 <> 0)) s).
  { destruct (is_signal a) eqn:Es.
    - destruct a; try done. eapply wp_mono; [eapply (wp_and _ (fun _ s1 => n_g_ctx s1 = true /\ down s1 = 1));
        [|apply wp_wlp; by apply (run_async_safe A B HA HB (A_signal signo))]|].
      + cbn [run_async]. unfold signal_handler, upd_rt, upd_ctx. apply wp_bind, wp_get. rewrite Hg.
        by apply wp_modify.
      + intros [] s1 [[Hg1 Hd1] Hw1]. split_and!; [done|done|lia].
    - eapply wp_mono; [eapply frames_wp; [by apply run_async_flags|by apply (run_async_safe A B HA HB)]|].
      intros [] s1 [Hw [Hd Hg1]%pair_equal_spec]. rewrite Hd, Hg1. split_and!; [done|done|].
      intros [?|?]; done. }
  apply wp_bind. eapply wp_mono; [exact Hone|]. intros [] s1 (Hw1 & Hg1 & Hd1).
  eapply wp_mono; [by apply IH|]. intros [] s2 (Hw2 & Hg2 & Hd2). split_and!; [done|done|].
  intros [H|H]; [by apply Hd2; left; apply Hd1; left|]. inversion H; subst; [|by apply Hd2; right].
  apply Hd2. left. apply Hd1. by right.
Qed.

(** How the loop ends: its descriptor is closed; with [TT_SUCCESS] a shutdown
    was requested, with [TT_ERROR_TIMER] the last [epoll_wait] failed for another
    reason than a signal. *)
Definition loop_ended (efd : Z) (r : tt_error_t) (s : nstate) : Prop :=
  match r with
  | TT_SUCCESS => down s <> 0 /\ exists x tr, n_trace s = Event (Close efd) x :: tr
  | TT_ERROR_TIMER => exists x count errno fd tr,
      n_trace s = Event (Close efd) x :: Event (EpollWait efd) (count, errno, fd) :: tr /\ count < 0 /\ errno <> EINTR
  | _ => False
  end.

Lemma epoll_turn_down efd acts s :
  wf A B s -> Forall (async_ok A B) acts -> n_g_ctx s = true ->
  wp (epoll_turn efd acts) (fun r s' => wf A B s' /\ n_g_ctx s' = true /\
    match r with
    | None => down s = 0 /\ (Exists (fun a => is_signal a = true) acts -> down s' <> 0)
    | Some r => loop_ended efd r s'
    end) s.
Proof.
  intros Hs Hok Hg. unfold epoll_turn, get_ctx. do 2 wp_step.
  destruct (Z.eqb_spec (down s) 0) as [Hd|Hd]; simpl.
  2:{ apply wp_bind, wp_sys, wp_ret. split_and!; [by destruct Hs|done|]. split; [done|by do 2 eexists]. }
  apply wp_bind. eapply wp_mono; [by apply run_asyncs_down|]. intros [] s1 (Hw1 & Hg1 & Hd1).
  apply wp_bind, wp_sys. destruct (kresp _ (EpollWait efd)) as [[count errno] fd].
  assert (Hlog : forall r, wf A B (log (EpollWait efd) r s1)) by (intros; by destruct Hw1).
  destruct (Z.ltb_spec count 0) as [Hcnt|_]; [destruct (Z.eqb_spec errno EINTR)|].
  - apply wp_ret. split_and!; auto.
  - apply wp_bind, wp_sys, wp_ret. split_and!; [by destruct Hw1|done|]. by do 5 eexists.
  - do 2 wp_step. destruct (fd =? _).
    + apply wp_bind. eapply wp_mono; [eapply frames_wp; [apply handle_apex_events_flags|
        by apply (handle_apex_events_safe A B HB)]|].
      intros r s2 [Hw2 [Hd2 Hg2]%pair_equal_spec]. apply wp_ret. rewrite Hd2, Hg2. split_and!; auto.
    + apply wp_bind.
      apply (wp_for_each _ _ (fun _ s' => wf A B s' /\ flags s' = flags s1)); [by split| |].
      * intros n l s2 [Hw2 Hf2]. destruct (_ =? fd); [|by apply wp_ret].
        apply wp_bind, wp_sys, wp_ret, wp_ret. pose proof Hf2 as [Hd2 Hg2]%pair_equal_spec.
        simpl. rewrite Hd2, Hg2. split_and!; auto. by destruct Hw2.
      * intros s2 [Hw2 [Hd2 Hg2]%pair_equal_spec]. apply wp_ret. rewrite Hd2, Hg2. split_and!; auto.
Qed.

(** C11: a termination signal ends the event loop: if one arrives while the
    loop waits in some turn, then, whatever else happens before and after
    (timers, events, failing calls), the loop has returned by the end of the
    following turn and has closed its descriptor: with [TT_SUCCESS] because the
    shutdown was requested, or with [TT_ERROR_TIMER] only when its last
    [epoll_wait] failed with an error other than EINTR.  Handlers run to
    completion between the steps of the loop. *)
Theorem signal_ends_loop efd pre acts next post s :
  wf A B s -> n_g_ctx s = true ->
  Forall (Forall (async_ok A B)) (pre ++ [acts]) -> Exists (fun a => is_signal a = true) acts ->
  wp (epoll_turns efd (pre ++ acts :: next :: post)) (fun r s' =>
    exists e, r = Some e /\ loop_ended efd e s') s.
Proof.
  intros Hs Hg Hok Hsig. revert s Hs Hg. induction pre as [|a pre IH]; intros s Hs Hg; cbn [app epoll_turns];
    apply Forall_cons in Hok as [Ha Hok]; apply wp_bind;
    (eapply wp_mono; [by apply epoll_turn_down|]); intros [r|] s1 (Hw1 & Hg1 & H1).
  - apply wp_ret. eauto.
  - destruct H1 as [_ Hd1]. specialize (Hd1 Hsig). unfold epoll_turn, get_ctx. apply wp_bind.
    do 2 wp_step. rewrite (proj2 (Z.eqb_neq _ _) Hd1). simpl. apply wp_bind, wp_sys, wp_ret, wp_ret.
    exists TT_SUCCESS. split; [done|]. split; [done|by do 2 eexists].
  - apply wp_ret. eauto.
  - by apply IH.
Qed.

End shutdown.

(** ** Witnesses *)

(** Two tasks, the first of them idle, and one application. *)
Definition running : nstate :=
  (core_state [ex_node 10 41 5 9 1; ex_node 11 42 6 9 0] [ex_apex])
    <| n_ctx ::= fun c => c <| cx_hp ::= fun h => h <| hp_ctx := true |> |> |>
    <| n_g_ctx := true |>.

Lemma running_wf : wf [10; 11] [20] running.
Proof.
  split; [reflexivity|reflexivity| |reflexivity].
  repeat constructor; vm_compute; discriminate.
Qed.

Definition no_trace : BuildConfig := {| CONFIG_TRACE_BPF_EVENT := false |}.

Lemma deadline_accounting_witness :
  wp (run_asyncs (K := clock_kernel (mk_timespec 7 500)) (SJ := zero_stack) (BC := no_trace)
        [A_timer 11; A_cycle; A_coredata 20; A_timer 10; A_timer 11])
    (fun _ s' => wf [10; 11] [20] s' /\ exists k j, booked 1 k j running s') running.
Proof.
  apply (deadline_accounting (K := clock_kernel (mk_timespec 7 500)) (SJ := zero_stack) (BC := no_trace) [10; 11] [20]).
  - apply NoDup_ListNoDup. repeat constructor; simpl; intuition congruence.
  - apply NoDup_ListNoDup. repeat constructor; simpl; intuition congruence.
  - exact running_wf.
  - repeat constructor; simpl; set_solver.
Defined.

Lemma signal_ends_loop_witness :
  wp (epoll_turns (K := clock_kernel (mk_timespec 7 500)) (HO := le_host)
        (SJ := zero_stack) (BC := no_trace) 3
        [[A_timer 11]; [A_cycle; A_signal 15; A_timer 10]; []; []])
    (fun r s' => exists e, r = Some e /\ loop_ended 3 e s') running.
Proof.
  apply (signal_ends_loop (K := clock_kernel (mk_timespec 7 500)) (HO := le_host)
           (SJ := zero_stack) (BC := no_trace) [10; 11] [20] ltac:(apply NoDup_ListNoDup; repeat constructor; simpl; intuition congruence)
           ltac:(apply NoDup_ListNoDup; repeat constructor; simpl; intuition congruence) 3
           [[A_timer 11]] [A_cycle; A_signal 15; A_timer 10] [] [[]] running).
  - exact running_wf.
  - reflexivity.
  - repeat constructor; simpl; set_solver.
  - right. left. reflexivity.
Defined.
