(* ===== verification/Shutdown.v ===== *)
(** * Giving everything back (cleanup.c, main.c)

    [cleanup_context] is characterised completely: which resources are
    released, in which order, and what the context looks like afterwards; and
    [main] always goes through it once the configuration has been accepted. *)

From S2P Require Import Prelude Time Types Kernel Serialize Hyperperiod SchedInfo PeerDbus Trpc.
From S2P Require Import Sched TraceBpf Task Config ApexMonitor Core Main.

(** ** Releases *)

Inductive release :=
  | R_close (fd : Z)
  | R_timer (timer : Z)
  | R_free (addr : Z)
  | R_bus (bus : Z)
  | R_event (event : Z)
  | R_thread (p : bpf_prog)
  | R_ring (p : bpf_prog)
  | R_bpf (p : bpf_prog).

Definition ev_release (e : event) : option release :=
  match e with
  | Event (Close fd) _ => Some (R_close fd)
  | Event (TimerDelete t) _ => Some (R_timer t)
  | Event (Free a) _ => Some (R_free a)
  | Event (SdBusUnref b) _ => Some (R_bus b)
  | Event (SdEventUnref e) _ => Some (R_event e)
  | Event (PthreadJoin p) _ => Some (R_thread p)
  | Event (RingBufferFree p) _ => Some (R_ring p)
  | Event (BpfDestroy p) _ => Some (R_bpf p)
  | _ => None
  end.

(** Releases so far, oldest first. *)
Definition releases (s : nstate) : list release := omap ev_release (reverse (n_trace s)).

Lemma releases_log {A : Set} (c : call A) r s :
  releases (log c r s) = releases s ++ option_list (ev_release (Event c r)).
Proof.
  unfold releases. change (n_trace (log c r s)) with (Event c r :: n_trace s).
  rewrite reverse_cons, omap_app. done.
Qed.

Abbreviation tt_list s := (rt_tt_list (cx_runtime (n_ctx s))).
Abbreviation tasks s := (si_tasks (rt_sched_info (cx_runtime (n_ctx s)))).

(** What is released for a node of the task list. *)
Definition node_releases (n : time_trigger) : list release :=
  (if 0 <=? ti_pidfd (tt_task n) then [R_close (ti_pidfd (tt_task n))] else []) ++
  [R_timer (tt_timer n); R_free (tt_addr n)].

Definition handle_release (f : Z -> release) (h : Z) : list release := if h =? 0 then [] else [f h].

(** The polling thread, the ring buffer and the skeleton of a loaded BPF program. *)
Definition bpf_releases (s : nstate) (p : bpf_prog) : list release :=
  if n_bpf_skel s p then R_thread p :: (if n_bpf_rb s p then [R_ring p] else []) ++ [R_bpf p] else [].

(** Everything [cleanup_context] releases, in order. *)
Definition cleanup_releases {BC : BuildConfig} (s : nstate) : list release :=
  let c := n_ctx s in
  (rt_tt_list (cx_runtime c) ≫= node_releases) ++
  (R_free ∘ fst <$> si_tasks (rt_sched_info (cx_runtime c))) ++
  handle_release R_bus (cm_dbus (cx_comm c)) ++ handle_release R_event (cm_event (cx_comm c)) ++
  (if 0 <? hp_hyperperiod_us (cx_hp c) then [R_timer (hp_hyperperiod_timer (cx_hp c))] else []) ++
  bpf_releases s P_sigwait ++ (if CONFIG_TRACE_BPF_EVENT then bpf_releases s P_schedstat else []).

(** The context afterwards. *)
Definition cleaned (c : context) : context :=
  c <| cx_runtime ::= fun r => r <| rt_tt_list := [] |> <| rt_sched_info ::= fun i => i <| si_tasks := [] |> |> |>
    <| cx_comm ::= fun m => m <| cm_dbus := 0 |> <| cm_event := 0 |> |>.

Section cleanup.
Context {HO : Host} {K : Kernel} {SJ : StackJunk} {BC : BuildConfig} {IJ : IntJunk}.

(** The context and the releases. *)
Definition ledger (s : nstate) : context * list release := (n_ctx s, releases s).

Lemma sys_ledger {A : Set} (c : call A) : (forall r, ev_release (Event c r) = None) ->
  frames (keeps ledger) (sys c).
Proof.
  intros H. apply frames_sys. intros r s. unfold keeps, ledger. rewrite releases_log, H. by rewrite app_nil_r.
Qed.

Lemma bpf_del_pid_ledger pid : frames (keeps ledger) (bpf_del_pid pid).
Proof.
  unfold bpf_del_pid. apply frames_bind; [apply _|apply frames_get_st; apply _|]. intros s.
  destruct (negb _); [apply frames_ret; apply _|].
  apply frames_bind; [apply _|by apply sys_ledger|]. intros r.
  destruct (negb _); [apply frames_ret; apply _|].
  destruct (_ && _); [|apply frames_ret; apply _].
  apply frames_bind; [apply _|by apply sys_ledger|]. intros ?. apply frames_ret; apply _.
Qed.

Lemma bpf_del_pid_total pid s : wp (bpf_del_pid pid) (fun _ _ => True) s.
Proof.
  unfold bpf_del_pid. apply wp_bind, wp_get. destruct (negb _); [by apply wp_ret|].
  apply wp_bind, wp_sys. destruct (negb _); [by apply wp_ret|].
  destruct (_ && _); [apply wp_bind, wp_sys|]; by apply wp_ret.
Qed.

Lemma bpf_del_pid_spec pid (Q : Z -> nstate -> Prop) s :
  (forall r s', ledger s' = ledger s -> Q r s') -> wp (bpf_del_pid pid) Q s.
Proof.
  intros H. eapply wp_mono; [eapply frames_wp; [apply bpf_del_pid_ledger|apply bpf_del_pid_total]|].
  intros r s' [_ Hs']. by apply H.
Qed.

(** A release is recorded; the context stays. *)
Lemma sys_release {A : Set} (c : call A) x (Q : A -> nstate -> Prop) s :
  (forall r, ev_release (Event c r) = Some x) ->
  (forall r s', ledger s' = (n_ctx s, releases s ++ [x]) -> Q r s') -> wp (sys c) Q s.
Proof.
  intros Hc H. apply wp_sys, H. unfold ledger. rewrite releases_log, Hc. done.
Qed.

Lemma upd_ctx_ledger f (Q : unit -> nstate -> Prop) s :
  (forall s', ledger s' = (f (n_ctx s), releases s) -> Q tt s') -> wp (upd_ctx f) Q s.
Proof. intros H. unfold upd_ctx. by apply wp_modify, H. Qed.

Lemma cleanup_nodes_spec l s :
  wp (cleanup_nodes l) (fun _ s' => ledger s' =
    (match l with
     | [] => n_ctx s
     | _ => (n_ctx s) <| cx_runtime ::= fun r => r <| rt_tt_list := [] |> |>
     end, releases s ++ (l ≫= node_releases))) s.
Proof.
  revert s. induction l as [|n l IH]; intros s; cbn [cleanup_nodes].
  { apply wp_ret. unfold ledger. by rewrite app_nil_r. }
  apply wp_bind, bpf_del_pid_spec. intros _ s1 [Hc1 Hr1]%pair_equal_spec.
  apply wp_bind.
  apply (wp_mono _ (fun _ s2 => ledger s2 = (n_ctx s, releases s ++
    (if 0 <=? ti_pidfd (tt_task n) then [R_close (ti_pidfd (tt_task n))] else [])))).
  { destruct (0 <=? _).
    - apply wp_bind. eapply sys_release; [done|]. intros _ s2 H2. apply wp_ret. by rewrite H2, Hc1, Hr1.
    - apply wp_ret. unfold ledger. by rewrite Hc1, Hr1, app_nil_r. }
  intros _ s2 [Hc2 Hr2]%pair_equal_spec.
  apply wp_bind. eapply sys_release; [done|]. intros _ s3 [Hc3 Hr3]%pair_equal_spec.
  apply wp_bind, upd_ctx_ledger. intros s4 [Hc4 Hr4]%pair_equal_spec.
  apply wp_bind. eapply sys_release; [done|]. intros _ s5 [Hc5 Hr5]%pair_equal_spec.
  eapply wp_mono; [apply IH|]. intros _ s6 ->. rewrite Hc5, Hr5, Hc4, Hr4, Hc3, Hr3, Hc2, Hr2. cbn.
  unfold node_releases at 2. rewrite <- !app_assoc. by destruct l.
Qed.

Lemma destroy_list_spec l s :
  wp (destroy_task_info_list l) (fun _ s' => ledger s' = (n_ctx s, releases s ++ (R_free ∘ fst <$> l))) s.
Proof.
  revert s. induction l as [|[a t] l IH]; intros s; cbn [destroy_task_info_list].
  { apply wp_ret. unfold ledger. by rewrite app_nil_r. }
  apply wp_bind. eapply sys_release; [done|]. intros _ s1 [Hc Hr]%pair_equal_spec.
  eapply wp_mono; [apply IH|]. intros _ s2 ->. rewrite Hc, Hr, <- app_assoc. done.
Qed.

Definition no_tasks (c : context) : context :=
  c <| cx_runtime ::= fun r => r <| rt_tt_list := [] |> <| rt_sched_info ::= fun i => i <| si_tasks := [] |> |> |>.

Lemma cleanup_tasks_spec s :
  wp cleanup_tasks (fun _ s' => ledger s' = (no_tasks (n_ctx s),
    releases s ++ (tt_list s ≫= node_releases) ++ (R_free ∘ fst <$> tasks s))) s.
Proof.
  unfold cleanup_tasks, get_ctx. do 2 wp_step. apply wp_bind. eapply wp_mono; [apply cleanup_nodes_spec|].
  intros _ s1 [Hc1 Hr1]%pair_equal_spec.
  assert (Hc : n_ctx s1 = (n_ctx s) <| cx_runtime ::= fun r => r <| rt_tt_list := [] |> |>).
  { rewrite Hc1. destruct s as [[? [l ? ? ? ?] ? ?] ? ? ? ? ? ? ? ? ? ? ?]; simpl. by destruct l. }
  unfold drop_tasks, get_sinfo, upd_sinfo, upd_rt. do 2 wp_step. apply wp_bind.
  eapply wp_mono; [apply destroy_list_spec|]. intros _ s2 [Hc2 Hr2]%pair_equal_spec. apply upd_ctx_ledger.
  intros s3 ->. rewrite Hr2, Hr1, Hc2, Hc, <- app_assoc. done.
Qed.

Lemma cleanup_communication_spec s :
  wp cleanup_communication (fun _ s' => ledger s' =
    ((n_ctx s) <| cx_comm ::= fun m => m <| cm_dbus := 0 |> <| cm_event := 0 |> |>,
     releases s ++ handle_release R_bus (cm_dbus (cx_comm (n_ctx s))) ++
       handle_release R_event (cm_event (cx_comm (n_ctx s))))) s.
Proof.
  unfold cleanup_communication, get_ctx, upd_comm, handle_release. do 2 wp_step.
  apply wp_bind.
  apply (wp_mono _ (fun _ s1 => ledger s1 = ((n_ctx s) <| cx_comm ::= fun m => m <| cm_dbus := 0 |> |>,
    releases s ++ (if cm_dbus (cx_comm (n_ctx s)) =? 0 then [] else [R_bus (cm_dbus (cx_comm (n_ctx s)))])))).
  { destruct (Z.eqb_spec (cm_dbus (cx_comm (n_ctx s))) 0) as [E|E]; simpl.
    - apply wp_ret. rewrite app_nil_r. unfold ledger. f_equal.
      destruct s as [[? ? [? ? ?] ?] ? ? ? ? ? ? ? ? ? ? ?]; simpl in *. by subst.
    - apply wp_bind. eapply sys_release; [done|]. intros _ s1 [Hc Hr]%pair_equal_spec.
      apply upd_ctx_ledger. intros s2 ->. by rewrite Hc, Hr. }
  intros _ s1 [Hc Hr]%pair_equal_spec. destruct (Z.eqb_spec (cm_event (cx_comm (n_ctx s))) 0) as [E|E]; simpl.
  - apply wp_ret. unfold ledger. rewrite Hc, Hr, app_nil_r. f_equal.
    destruct s as [[? ? [? ? ?] ?] ? ? ? ? ? ? ? ? ? ? ?]; simpl in *. by subst.
  - apply wp_bind. eapply sys_release; [done|]. intros _ s2 [Hc2 Hr2]%pair_equal_spec.
    apply upd_ctx_ledger. intros s3 ->. by rewrite Hc2, Hr2, Hc, Hr, <- app_assoc.
Qed.

Lemma cleanup_hyperperiod_spec s :
  wp cleanup_hyperperiod (fun _ s' => ledger s' = (n_ctx s, releases s ++
    (if 0 <? hp_hyperperiod_us (cx_hp (n_ctx s)) then [R_timer (hp_hyperperiod_timer (cx_hp (n_ctx s)))] else []))) s.
Proof.
  unfold cleanup_hyperperiod, get_ctx. do 2 wp_step. destruct (0 <? _).
  - apply wp_bind. eapply sys_release; [done|]. intros _ s1 H1. by apply wp_ret.
  - apply wp_ret. unfold ledger. by rewrite app_nil_r.
Qed.

(** The parts above leave the BPF programs alone. *)
Definition bpf_of (s : nstate) : (bpf_prog -> bool) * (bpf_prog -> bool) := (n_bpf_skel s, n_bpf_rb s).

Lemma cleanup_nodes_bpf l : frames (keeps bpf_of) (cleanup_nodes l).
Proof. induction l; cbn [cleanup_nodes]; unfold bpf_del_pid, upd_rt, upd_ctx; frames_tac. Qed.

Lemma destroy_list_bpf l : frames (keeps bpf_of) (destroy_task_info_list l).
Proof. induction l as [|[a t] l IH]; cbn [destroy_task_info_list]; frames_tac. Qed.
#[local] Hint Resolve cleanup_nodes_bpf destroy_list_bpf : frames.

Lemma cleanup_tasks_bpf : frames (keeps bpf_of) cleanup_tasks.
Proof. unfold cleanup_tasks, drop_tasks, get_sinfo, upd_sinfo, upd_rt, upd_ctx, get_ctx. frames_tac. Qed.

Lemma cleanup_communication_bpf : frames (keeps bpf_of) cleanup_communication.
Proof. unfold cleanup_communication, upd_comm, upd_ctx, get_ctx. frames_tac. Qed.

Lemma cleanup_hyperperiod_bpf : frames (keeps bpf_of) cleanup_hyperperiod.
Proof. unfold cleanup_hyperperiod, get_ctx. frames_tac. Qed.

(** One program is stopped, the other one stays. *)
Lemma stop_bpf_ledger p s :
  wp (stop_bpf p) (fun _ s' => ledger s' = (n_ctx s, releases s ++ bpf_releases s p) /\ n_bpf_skel s' p = false /\
    forall q, q <> p -> n_bpf_skel s' q = n_bpf_skel s q /\ n_bpf_rb s' q = n_bpf_rb s q) s.
Proof.
  unfold stop_bpf, set_rb, set_skel, bpf_releases. apply wp_bind, wp_get. destruct (n_bpf_skel s p) eqn:E.
  2:{ apply wp_ret. unfold ledger. by rewrite app_nil_r. }
  apply wp_bind, wp_modify, wp_bind. eapply wp_sys, wp_bind.
  apply (wp_mono _ (fun _ s1 => ledger s1 = (n_ctx s, releases s ++ R_thread p :: (if n_bpf_rb s p then [R_ring p] else [])) /\
    n_bpf_skel s1 = n_bpf_skel s /\ forall q, q <> p -> n_bpf_rb s1 q = n_bpf_rb s q)).
  { destruct (n_bpf_rb s p).
    - apply wp_bind, wp_sys, wp_modify. split_and!; [|done|by intros q Hq; destruct p, q].
      unfold ledger, releases. simpl. by rewrite !reverse_cons, !omap_app, <- app_assoc.
    - apply wp_ret. split_and!; [|done|done]. unfold ledger, releases. simpl. by rewrite !reverse_cons, !omap_app. }
  intros [] s1 ([Hc Hr]%pair_equal_spec & Hk & Hq). apply wp_bind, wp_sys, wp_modify. simpl. rewrite Hk. split_and!.
  - unfold ledger. simpl. rewrite Hc. f_equal. transitivity (releases s1 ++ [R_bpf p]).
    + unfold releases. simpl. by rewrite reverse_cons, omap_app.
    + by rewrite Hr, <- app_assoc.
  - by destruct p.
  - intros q Hne. rewrite Hq by done. by destruct p, q.
Qed.

(** No BPF program is loaded; the second one is part of the program only in
    a build that traces scheduling. *)
Definition no_bpf (s : nstate) : Prop :=
  n_bpf_skel s P_sigwait = false /\ (CONFIG_TRACE_BPF_EVENT = true -> n_bpf_skel s P_schedstat = false).

Lemma bpf_off_ledger s :
  wp bpf_off (fun _ s' => ledger s' = (n_ctx s, releases s ++ bpf_releases s P_sigwait ++
      (if CONFIG_TRACE_BPF_EVENT then bpf_releases s P_schedstat else [])) /\ no_bpf s') s.
Proof.
  unfold bpf_off, no_bpf. apply wp_bind. eapply wp_mono; [apply stop_bpf_ledger|].
  intros [] s1 (Hl & Hk & Ho). destruct CONFIG_TRACE_BPF_EVENT; [|apply wp_ret; by rewrite app_nil_r].
  eapply wp_mono; [apply stop_bpf_ledger|]. intros [] s2 (Hl2 & Hk2 & Ho2).
  injection Hl as Hc Hr. destruct (Ho P_schedstat) as [E1 E2]; [done|]. destruct (Ho2 P_sigwait) as [E3 _]; [done|].
  rewrite Hl2, Hc, Hr. unfold bpf_releases at 2. rewrite E1, E2, E3, <- app_assoc. done.
Qed.

(** Between [s1] and [s'] everything [s1] held that the cleanup looks after has been released, by
    the handles [s1] had, and nothing else; afterwards the lists are empty, the handles null and
    the BPF programs unloaded. *)
Definition all_released (s1 s' : nstate) : Prop :=
  releases s' = releases s1 ++ cleanup_releases s1 /\ n_ctx s' = cleaned (n_ctx s1) /\ no_bpf s'.

Lemma cleanup_context_effect s : wp (cleanup_context true) (fun _ s' => all_released s s') s.
Proof.
  unfold cleanup_context, cleanup_bpf_trace, cleanup_releases, all_released. cbn [negb].
  apply wp_bind. eapply wp_mono; [eapply frames_wp; [apply cleanup_tasks_bpf|apply cleanup_tasks_spec]|].
  intros _ s1 [[Hc1 Hr1]%pair_equal_spec [= Ek1 Eb1]].
  apply wp_bind. eapply wp_mono; [eapply frames_wp; [apply cleanup_communication_bpf|apply cleanup_communication_spec]|].
  intros _ s2 [[Hc2 Hr2]%pair_equal_spec [= Ek2 Eb2]].
  apply wp_bind. eapply wp_mono; [eapply frames_wp; [apply cleanup_hyperperiod_bpf|apply cleanup_hyperperiod_spec]|].
  intros _ s3 [[Hc3 Hr3]%pair_equal_spec [= Ek3 Eb3]].
  eapply wp_mono; [apply bpf_off_ledger|]. intros _ s4 ([Hc4 Hr4]%pair_equal_spec & Hk).
  unfold bpf_releases in *. rewrite Ek3, Ek2, Ek1, Eb3, Eb2, Eb1 in Hr4.
  rewrite Hc4, Hr4, Hr3, Hc3, Hr2, Hc2, Hr1, Hc1, <- !app_assoc. done.
Qed.

(** C27: [cleanup_context] releases, once and in this order: for each task its
    pidfd (if it has one), its timer and its node, then the tasks of the
    received schedule, the bus, the event loop, the timer of the hyperperiod
    (if there is one), and for each loaded BPF program its thread, its ring
    buffer and the program; each by the handle the context has, and nothing
    else.  Afterwards the task lists are empty, the two handles null and the
    BPF programs unloaded, and nothing else of the context has changed: the
    list of Apex.OS applications with their timers, and the descriptor of the
    Apex.OS monitor, are still there, since the code does not release them. *)
Theorem cleanup_context_releases s :
  wp (cleanup_context true) (fun _ s' =>
    releases s' = releases s ++ cleanup_releases s /\ n_ctx s' = cleaned (n_ctx s) /\ no_bpf s' /\
    rt_apex_list (cx_runtime (n_ctx s')) = rt_apex_list (cx_runtime (n_ctx s)) /\
    cm_apex_fd (cx_comm (n_ctx s')) = cm_apex_fd (cx_comm (n_ctx s))) s.
Proof.
  eapply wp_mono; [apply cleanup_context_effect|]. intros _ s' (Hr & Hc & Hb).
  rewrite Hc. done.
Qed.

(** ** main *)

Lemma parse_config_silent args : frames (keeps n_trace) (parse_config args).
Proof.
  unfold parse_config, config_set_defaults, validate_config, tt_set_log_level, upd_cfg, upd_rt, upd_ctx, get_ctx.
  assert (forall evs, frames (keeps n_trace) (opt_loop evs)) as Hloop.
  { induction evs as [|e evs IH]; cbn [opt_loop]; unfold upd_cfg, upd_ctx, get_ctx; frames_tac. }
  frames_tac.
Qed.

(** The state [s1] in which the program has done its work, with the status [ret]: the start-up
    has failed, or it has succeeded and the run is over. *)
Definition work_over (args : list (list byte)) (fuel : nat) (turns : list (list async)) (s : nstate)
    (ret : tt_error_t) (s1 : nstate) : Prop :=
  exists r0 s0 r s2, parse_config args (s <| n_ctx := context_zero |>) = Ret (r0, s0) /\ tt_ok_code r0 = true /\
    initialize s0 = Ret (r, s2) /\
    if tt_ok_code r then run fuel turns s2 = Ret (Some ret, s1) else ret = r /\ s1 = s2.

(** C28: for any environment, command line and course of the event loop, when
    [main] returns without undefined behaviour, either it has rejected the
    command line, with code 1 and without having called anything, or the
    start-up or the run is over in some state and [main] has then been through
    the cleanup: the pidfd, the timer and the node of every task in that
    state, every received task, its bus, its event loop, its hyperperiod timer
    and its loaded BPF programs have been released, each once, and none is
    left in the context.  The code is 0 exactly when the run ended with
    success.  Apex.OS applications and the monitor's descriptor are not among
    what is released. *)
Theorem main_cleans_up args fuel turns s :
  wlp (main args fuel turns) (fun r s' => forall code, r = Some code ->
    (code = EXIT_FAILURE /\ n_trace s' = n_trace s) \/
    exists ret s1, work_over args fuel turns s ret s1 /\ all_released s1 s' /\
      code = if tt_ok_code ret then EXIT_SUCCESS else EXIT_FAILURE) s.
Proof.
  unfold main. apply wlp_bind. change (wlp (modify ?f) ?Q s) with (Q tt (f s)). cbv beta.
  set (s' := s <| n_ctx := context_zero |>). apply wlp_bind.
  pose proof (parse_config_silent args s') as Ht. unfold wlp in Ht |- * at 1.
  destruct (parse_config args s') as [[r0 s0]|] eqn:E0; [|done].
  destruct (tt_ok_code r0) eqn:Er0; cbn [negb].
  2:{ apply wlp_ret. intros code [= <-]. left. split; [done|exact Ht]. }
  apply wlp_bind. unfold wlp at 1. destruct (initialize s0) as [[r s2]|] eqn:E2; [|done].
  apply wlp_bind.
  apply (wlp_mono _ (fun o s1 => forall ret, o = Some ret -> work_over args fuel turns s ret s1)).
  { destruct (tt_ok_code r) eqn:Er; cbn [negb].
    - unfold wlp. destruct (run fuel turns s2) as [[o s1]|] eqn:E1; [|done]. intros ret ->.
      exists r0, s0, r, s2. rewrite Er. done.
    - apply wlp_ret. intros ret [= <-]. exists r0, s0, r, s2. rewrite Er. done. }
  intros [ret|] s1 Hw; [|by apply wlp_ret].
  apply wlp_bind. eapply wlp_mono; [apply wp_wlp, cleanup_context_effect|]. intros [] s4 Hall.
  apply wlp_ret. intros code [= <-]. right. exists ret, s1. auto.
Qed.

End cleanup.

(** With [-a] and a signal during the first turn, the program ends with code 0. *)
Example main_ends :
  wp (main (HO := le_host) (K := default_kernel) (SJ := zero_stack) (BC := {| CONFIG_TRACE_BPF_EVENT := true |})
        (IJ := zero_ints) [str "-a"] 1 [[A_signal SIGTERM]; []])
    (fun r s' => r = Some EXIT_SUCCESS) nstate_init.
Proof. vm_compute. reflexivity. Qed.
