(* ===== verification/CppStd.v ===== *)
(** * What the orchestrator uses of C++ and its standard library

    timpani-o is C++.  A [std::string] is the list of its bytes, a
    [std::vector] a list, an exception the value [None] of an [option].
    [std::map] and [std::set] are association lists kept in the order of their
    keys, the order in which the range-based loops of the sources visit them;
    [std::sort] is any function with the guarantee of the standard (equivalent
    elements come out in an unspecified order); [double] is IEEE 754 binary64
    as specified by the Standard Library's SpecFloat. *)

From Stdlib Require Export Sorting.Sorted SpecFloat.
From Stdlib Require Import Permutation.
From stdpp Require Import sorting.
From S2P Require Export Prelude.

(** ** Ordered keys *)

Class Ordered (K : Type) := cmp : K -> K -> comparison.

Class OrderedLaws (K : Type) `{Ordered K} : Prop := {
  cmp_eq : forall x y, cmp x y = Eq <-> x = y;
  cmp_opp : forall x y, cmp y x = CompOpp (cmp x y);
  cmp_trans : forall x y z, cmp x y = Lt -> cmp y z = Lt -> cmp x z = Lt;
}.

Definition klt {K} `{Ordered K} (x y : K) : Prop := cmp x y = Lt.

#[export] Instance Z_ordered : Ordered Z := Z.compare.
#[export] Instance Z_ordered_laws : OrderedLaws Z.
Proof.
  split; unfold cmp, Z_ordered; intros.
  - apply Z.compare_eq_iff.
  - apply Z.compare_antisym.
  - rewrite Z.compare_lt_iff in *. lia.
Qed.

#[export] Instance byte_ordered : Ordered byte := fun x y => Z.compare (byteZ x) (byteZ y).
#[export] Instance byte_ordered_laws : OrderedLaws byte.
Proof.
  split; unfold cmp, byte_ordered; intros.
  - rewrite Z.compare_eq_iff. split; [|by intros ->]. intros E.
    by rewrite <- (Zbyte_byteZ x), E, Zbyte_byteZ.
  - apply Z.compare_antisym.
  - rewrite Z.compare_lt_iff in *. lia.
Qed.

(** [std::string::operator<]: lexicographic on unsigned characters. *)
Fixpoint lex_compare {A} `{Ordered A} (x y : list A) : comparison :=
  match x with
  | [] => if y is [] then Eq else Lt
  | a :: x =>
      match y with
      | [] => Gt
      | b :: y => match cmp a b with Eq => lex_compare x y | c => c end
      end
  end.

#[export] Instance list_ordered {A} `{Ordered A} : Ordered (list A) := lex_compare.

Lemma cmp_refl {K} `{OrderedLaws K} (x : K) : cmp x x = Eq.
Proof. by apply cmp_eq. Qed.

Lemma cmp_gt {K} `{OrderedLaws K} (x y : K) : cmp x y = Gt -> cmp y x = Lt.
Proof. intros E. by rewrite cmp_opp, E. Qed.

Lemma cmp_ne {K} `{OrderedLaws K} (x y : K) : cmp x y <> Eq <-> x <> y.
Proof. by rewrite cmp_eq. Qed.

#[export] Instance list_ordered_laws {A} `{OrderedLaws A} : OrderedLaws (list A).
Proof.
  split; unfold cmp, list_ordered.
  - induction x as [|a x IH]; intros [|b y]; simpl; try done.
    destruct (cmp a b) eqn:E.
    + apply cmp_eq in E as ->. rewrite IH. split; [by intros ->|by intros [= ->]].
    + split; [done|]. intros [= -> ->]. by rewrite cmp_refl in E.
    + split; [done|]. intros [= -> ->]. by rewrite cmp_refl in E.
  - induction x as [|a x IH]; intros [|b y]; simpl; try done.
    rewrite (cmp_opp a b). destruct (cmp a b) eqn:E; simpl; auto.
  - induction x as [|a x IH]; intros [|b y] [|c z]; simpl; try done.
    destruct (cmp a b) eqn:E1, (cmp b c) eqn:E2; try done; intros H1 H2.
    + apply cmp_eq in E1 as ->. apply cmp_eq in E2 as ->. rewrite cmp_refl. eauto.
    + apply cmp_eq in E1 as ->. by rewrite E2.
    + apply cmp_eq in E2 as ->. by rewrite E1.
    + by rewrite (cmp_trans a b c).
Qed.

#[export] Instance klt_transitive {K} `{OrderedLaws K} : Transitive (@klt K _).
Proof. intros x y z. apply cmp_trans. Qed.

Lemma klt_irrefl {K} `{OrderedLaws K} (x : K) : ~ klt x x.
Proof. unfold klt. by rewrite cmp_refl. Qed.

(** ** [std::map] *)

Definition cmap (K V : Type) : Type := list (K * V).

Section cmap.
  Context {K V : Type} {O : Ordered K}.

(** [m.find(k)] *)
Fixpoint map_find (k : K) (m : cmap K V) : option V :=
  match m with
  | [] => None
  | (k', v) :: m => match cmp k k' with Eq => Some v | Lt => None | Gt => map_find k m end
  end.

(** [m[k] = v] *)
Fixpoint map_set (k : K) (v : V) (m : cmap K V) : cmap K V :=
  match m with
  | [] => [(k, v)]
  | (k', v') :: m' =>
      match cmp k k' with
      | Lt => (k, v) :: m
      | Eq => (k', v) :: m'
      | Gt => (k', v') :: map_set k v m'
      end
  end.

(** [m.erase(m.find(k))] *)
Fixpoint map_erase (k : K) (m : cmap K V) : cmap K V :=
  match m with
  | [] => []
  | (k', v') :: m' =>
      match cmp k k' with
      | Lt => m
      | Eq => m'
      | Gt => (k', v') :: map_erase k m'
      end
  end.

(** [m[k]] used as a value: an absent key is inserted with the value [d] of
    the default constructor. *)
Definition map_index (d : V) (k : K) (m : cmap K V) : V * cmap K V :=
  match map_find k m with
  | Some v => (v, m)
  | None => (d, map_set k d m)
  end.

(** The keys are in strictly increasing order. *)
Definition map_ok (m : cmap K V) : Prop := StronglySorted klt (fst <$> m).

Context {L : OrderedLaws K}.

Lemma map_ok_nil : map_ok [].
Proof. constructor. Qed.

Lemma map_ok_cons k v m :
  map_ok ((k, v) :: m) <-> Forall (klt k) (fst <$> m) /\ map_ok m.
Proof.
  unfold map_ok. cbn. split; [by intros [? ?]%StronglySorted_inv|].
  intros [? ?]. by constructor.
Qed.

Lemma map_set_keys k v m (P : K -> Prop) :
  P k -> Forall P (fst <$> m) -> Forall P (fst <$> map_set k v m).
Proof.
  intros Hk. induction m as [|[k' v'] m IH]; cbn; [auto|].
  intros [? ?]%Forall_cons. destruct (cmp k k'); cbn; auto.
Qed.

Lemma map_ok_set k v m : map_ok m -> map_ok (map_set k v m).
Proof.
  induction m as [|[k' v'] m IH]; cbn [map_set].
  { intros _. apply map_ok_cons. split; [constructor|apply map_ok_nil]. }
  intros [Hlt Hok]%map_ok_cons. destruct (cmp k k') eqn:E.
  - by apply map_ok_cons.
  - apply map_ok_cons. split; [|by apply map_ok_cons]. cbn. constructor; [done|].
    eapply Forall_impl; [exact Hlt|]. intros x. by apply klt_transitive.
  - apply map_ok_cons. split; [|by apply IH]. apply map_set_keys; [|done].
    by apply cmp_gt.
Qed.

Lemma map_find_notin k m : Forall (klt k) (fst <$> m) -> map_find k m = None.
Proof.
  destruct m as [|[k' v'] m]; cbn; [done|]. intros [Hlt _]%Forall_cons.
  unfold klt in Hlt. by rewrite Hlt.
Qed.

Lemma map_find_set k v m : map_find k (map_set k v m) = Some v.
Proof.
  induction m as [|[k' v'] m IH]; cbn [map_set map_find]; [by rewrite cmp_refl|].
  destruct (cmp k k') eqn:E; cbn [map_find]; rewrite ?E, ?cmp_refl; done.
Qed.

Lemma map_find_set_ne k k' v m : k <> k' -> map_find k (map_set k' v m) = map_find k m.
Proof.
  intros Hne%cmp_ne. induction m as [|[k1 v1] m IH]; cbn [map_set map_find].
  { by destruct (cmp k k'). }
  destruct (cmp k' k1) eqn:E; cbn [map_find].
  - apply cmp_eq in E as ->. by destruct (cmp k k1).
  - destruct (cmp k k') eqn:E1; [done| |done].
    by rewrite (cmp_trans k k' k1).
  - by rewrite IH.
Qed.

Lemma map_find_elem k v m : map_ok m -> map_find k m = Some v <-> (k, v) ∈ m.
Proof.
  induction m as [|[k' v'] m IH]; cbn [map_find].
  { intros _. by rewrite elem_of_nil. }
  intros [Hlt Hok]%map_ok_cons. rewrite elem_of_cons. specialize (IH Hok).
  rewrite Forall_forall in Hlt. assert ((k', v) ∈ m -> False) as Hno.
  { intros Hin. apply (klt_irrefl k'), Hlt. by apply (list_elem_of_fmap_2 fst) in Hin. }
  destruct (cmp k k') eqn:E.
  - apply cmp_eq in E as ->. naive_solver.
  - split; [done|]. intros [[= -> ->]|Hin]; [by rewrite cmp_refl in E|].
    apply (list_elem_of_fmap_2 fst), Hlt in Hin. exfalso. apply (klt_irrefl k').
    by apply (klt_transitive _ k).
  - rewrite IH. split; [auto|]. intros [[= -> ->]|?]; [by rewrite cmp_refl in E|done].
Qed.

Lemma map_erase_keys k m (P : K -> Prop) :
  Forall P (fst <$> m) -> Forall P (fst <$> map_erase k m).
Proof.
  induction m as [|[k' v'] m IH]; cbn; [done|]. intros [? ?]%Forall_cons.
  destruct (cmp k k'); cbn; auto.
Qed.

Lemma map_ok_erase k m : map_ok m -> map_ok (map_erase k m).
Proof.
  induction m as [|[k' v'] m IH]; cbn [map_erase]; [done|].
  intros [Hlt Hok]%map_ok_cons. destruct (cmp k k'); [done|by apply map_ok_cons|].
  apply map_ok_cons. split; [by apply map_erase_keys|by apply IH].
Qed.

Lemma map_find_erase k m : map_ok m -> map_find k (map_erase k m) = None.
Proof.
  induction m as [|[k' v'] m IH]; cbn [map_erase]; [done|].
  intros [Hlt Hok]%map_ok_cons. destruct (cmp k k') eqn:E; cbn [map_find]; rewrite ?E; auto.
  apply cmp_eq in E as ->. by apply map_find_notin.
Qed.

Lemma map_find_erase_ne k k' m : map_ok m -> k <> k' -> map_find k (map_erase k' m) = map_find k m.
Proof.
  intros Hok Hne%cmp_ne. revert Hok.
  induction m as [|[k1 v1] m IH]; cbn [map_erase]; [done|].
  intros [Hlt Hok]%map_ok_cons. destruct (cmp k' k1) eqn:E; cbn [map_find]; [|done|].
  - apply cmp_eq in E as ->. destruct (cmp k k1) eqn:E1; [done| |done].
    apply map_find_notin. eapply Forall_impl; [exact Hlt|]. intros x. by apply cmp_trans.
  - by rewrite IH.
Qed.

(** Two maps that answer every look-up alike are the same list. *)
Lemma map_ext (m1 m2 : cmap K V) :
  map_ok m1 -> map_ok m2 -> (forall k, map_find k m1 = map_find k m2) -> m1 = m2.
Proof.
  revert m2. induction m1 as [|[k1 v1] m1 IH]; intros [|[k2 v2] m2]; [done| | |].
  { intros _ _ H. specialize (H k2). cbn in H. by rewrite cmp_refl in H. }
  { intros _ _ H. specialize (H k1). cbn in H. by rewrite cmp_refl in H. }
  intros [Hl1 Ho1]%map_ok_cons [Hl2 Ho2]%map_ok_cons H.
  assert (k1 = k2 /\ v1 = v2) as [-> ->].
  { pose proof (H k1) as H1. pose proof (H k2) as H2. cbn in H1, H2.
    rewrite cmp_refl in H1, H2. rewrite (cmp_opp k1 k2) in H2.
    destruct (cmp k1 k2) eqn:E; cbn in H2; [|done|done].
    apply cmp_eq in E. by injection H1 as ->. }
  f_equal. apply IH; [done..|]. intros k. specialize (H k). cbn in H.
  destruct (cmp k k2) eqn:E; [| |done].
  - apply cmp_eq in E as ->. by rewrite !map_find_notin.
  - rewrite !map_find_notin; [done| |]; eapply Forall_impl; eauto; intros x; by apply cmp_trans.
Qed.

Lemma Forall_map_set (P : K * V -> Prop) k v m :
  P (k, v) -> Forall P m -> Forall P (map_set k v m).
Proof.
  intros Hk. induction m as [|[k' v'] m IH]; cbn [map_set]; [by constructor|].
  intros [? ?]%Forall_cons. destruct (cmp k k') eqn:E; [|by repeat constructor|by constructor; auto].
  apply cmp_eq in E as ->. by constructor.
Qed.

Lemma map_set_last k v m : Forall (fun x => klt x k) (fst <$> m) -> map_set k v m = m ++ [(k, v)].
Proof.
  induction m as [|[k' v'] m IH]; cbn; [done|]. intros [Hk Hm]%Forall_cons.
  rewrite cmp_opp, Hk. cbn. by rewrite IH.
Qed.

Lemma sorted_before (l1 : list K) k l2 :
  StronglySorted klt (l1 ++ k :: l2) -> Forall (fun x => klt x k) l1.
Proof.
  induction l1 as [|k' l1 IH]; cbn; [constructor|].
  intros Hok. apply StronglySorted_inv in Hok as [Hok Hall]. constructor; [|auto].
  rewrite Forall_app in Hall. by destruct Hall as [_ [? _]%Forall_cons].
Qed.

Lemma map_ok_app_cons m k v l : map_ok (m ++ (k, v) :: l) -> Forall (fun x => klt x k) (fst <$> m).
Proof. unfold map_ok. rewrite fmap_app. apply sorted_before. Qed.

(** Inserting the entries of a map in order rebuilds it. *)
Lemma fold_map_set l m :
  map_ok (m ++ l) -> fold_left (fun m e => map_set e.1 e.2 m) l m = m ++ l.
Proof.
  revert m. induction l as [|[k v] l IH]; intros m Hok; cbn; [by rewrite app_nil_r|].
  rewrite map_set_last by by eapply map_ok_app_cons.
  rewrite IH; by rewrite <- app_assoc.
Qed.

Lemma map_ok_NoDup m : map_ok m -> NoDup (fst <$> m).
Proof.
  unfold map_ok. induction (fst <$> m) as [|k l IH]; [constructor|]. intros Hs.
  apply StronglySorted_inv in Hs as [Hs Hall]. constructor; [|auto].
  intros Hin. rewrite Forall_forall in Hall. by apply (klt_irrefl k), Hall.
Qed.

End cmap.

Lemma map_find_fmap {K V W} `{OrderedLaws K} (f : V -> W) (k : K) (m : cmap K V) :
  map_find k ((fun e => (e.1, f e.2)) <$> m) = f <$> map_find k m.
Proof. induction m as [|[k' v'] m IH]; cbn; [done|]. by destruct (cmp k k'). Qed.

Lemma map_ok_fmap {K V W} `{OrderedLaws K} (f : V -> W) (m : cmap K V) :
  map_ok m -> map_ok ((fun e => (e.1, f e.2)) <$> m : cmap K W).
Proof. unfold map_ok. by rewrite <- list_fmap_compose. Qed.

#[export] Hint Resolve map_ok_nil map_ok_set map_ok_erase : timpani.

(** ** [std::set] *)

Section cset.
  Context {K : Type} {O : Ordered K}.

(** [s.insert(k)] *)
Fixpoint set_insert (k : K) (s : list K) : list K :=
  match s with
  | [] => [k]
  | k' :: s' =>
      match cmp k k' with Lt => k :: s | Eq => s | Gt => k' :: set_insert k s' end
  end.

Context {L : OrderedLaws K}.

Lemma elem_of_set_insert x k s : x ∈ set_insert k s <-> x = k \/ x ∈ s.
Proof.
  induction s as [|k' s IH]; cbn [set_insert]; [set_solver|].
  destruct (cmp k k') eqn:E; [apply cmp_eq in E as ->|..]; rewrite ?elem_of_cons, ?IH; set_solver.
Qed.

Lemma sorted_set_insert k s : StronglySorted klt s -> StronglySorted klt (set_insert k s).
Proof.
  induction s as [|k' s IH]; cbn [set_insert]; [by repeat constructor|].
  intros Hs. apply StronglySorted_inv in Hs as [Hs Hlt]. destruct (cmp k k') eqn:E.
  - by constructor.
  - constructor; [by constructor|]. constructor; [done|].
    eapply Forall_impl; [exact Hlt|]. intros x. by apply klt_transitive.
  - constructor; [auto|]. rewrite Forall_forall in *. intros x [->|?]%elem_of_set_insert; [|auto].
    by apply cmp_gt.
Qed.

(** The elements of a list, each once and in order. *)
Definition set_of (l : list K) : list K := foldr set_insert [] l.

Lemma sorted_set_of l : StronglySorted klt (set_of l).
Proof. induction l; cbn; [constructor|by apply sorted_set_insert]. Qed.

Lemma elem_of_set_of x l : x ∈ set_of l <-> x ∈ l.
Proof.
  induction l as [|k l IH]; [done|]. change (set_of (k :: l)) with (set_insert k (set_of l)).
  by rewrite elem_of_set_insert, IH, elem_of_cons.
Qed.

End cset.

(** ** [std::sort]

    The standard requires a strict weak ordering and promises a permutation of
    the range in which no element is before one that must precede it. *)

Record strict_weak_order {A} (lt : A -> A -> bool) : Prop := {
  swo_irrefl : forall x, lt x x = false;
  swo_trans : forall x y z, lt x y = true -> lt y z = true -> lt x z = true;
  swo_incomp : forall x y z, lt x y = false -> lt y x = false -> lt y z = false -> lt z y = false ->
    lt x z = false /\ lt z x = false;
}.

Class StdSort := {
  std_sort : forall {A}, (A -> A -> bool) -> list A -> list A;
  std_sort_perm : forall {A} (lt : A -> A -> bool) l, strict_weak_order lt -> std_sort lt l ≡ₚ l;
  std_sort_sorted : forall {A} (lt : A -> A -> bool) l, strict_weak_order lt ->
    StronglySorted (fun x y => lt y x = false) (std_sort lt l);
}.

Section insertion_sort.
  Context {A : Type} (lt : A -> A -> bool).

Fixpoint isort_insert (x : A) (l : list A) : list A :=
  match l with
  | [] => [x]
  | y :: l' => if lt y x then y :: isort_insert x l' else x :: l
  end.

Definition isort (l : list A) : list A := foldr isort_insert [] l.

Lemma isort_insert_perm x l : isort_insert x l ≡ₚ x :: l.
Proof.
  induction l as [|y l IH]; simpl; [done|]. destruct (lt y x); [|done].
  rewrite IH. apply Permutation_swap.
Qed.

Lemma isort_perm l : isort l ≡ₚ l.
Proof. induction l as [|x l IH]; simpl; [done|]. by rewrite isort_insert_perm, IH. Qed.

Lemma swo_ge_trans x y z : strict_weak_order lt -> lt y x = false -> lt z y = false -> lt z x = false.
Proof.
  intros [Hi Ht Hn] H1 H2. destruct (lt z x) eqn:E; [|done].
  destruct (lt x y) eqn:E1.
  { by rewrite (Ht z x y E E1) in H2. }
  destruct (lt y z) eqn:E2.
  { by rewrite (Ht y z x E2 E) in H1. }
  destruct (Hn x y z) as [? ?]; congruence.
Qed.

Lemma isort_insert_sorted x l : strict_weak_order lt ->
  StronglySorted (fun x y => lt y x = false) l ->
  StronglySorted (fun x y => lt y x = false) (isort_insert x l).
Proof.
  intros Hswo. induction l as [|y l IH]; cbn [isort_insert]; intros Hs; [by repeat constructor|].
  apply StronglySorted_inv in Hs as [Hs Hall]. destruct (lt y x) eqn:E.
  - constructor; [auto|]. rewrite isort_insert_perm. constructor; [|done].
    destruct (lt x y) eqn:E1; [|done].
    by rewrite <- (swo_irrefl _ Hswo x), (swo_trans _ Hswo x y x).
  - constructor; [by constructor|]. constructor; [done|].
    eapply Forall_impl; [exact Hall|]. intros z Hz. by eapply swo_ge_trans.
Qed.

Lemma isort_sorted l : strict_weak_order lt -> StronglySorted (fun x y => lt y x = false) (isort l).
Proof. intros H. induction l; simpl; [constructor|]. by apply isort_insert_sorted. Qed.

End insertion_sort.

(** A [std::sort] that meets the standard's requirements. *)
Definition insertion_StdSort : StdSort := {|
  std_sort := @isort;
  std_sort_perm := fun A lt l _ => isort_perm lt l;
  std_sort_sorted := fun A lt l H => isort_sorted lt l H;
|}.

(** [std::greater<int>] *)
Definition greater (a b : Z) : bool := b <? a.

Lemma greater_swo : strict_weak_order greater.
Proof. split; unfold greater; intros; rewrite ?Z.ltb_ge, ?Z.ltb_lt in *; lia. Qed.

(** ** [std::stoi]

    Reads the longest decimal prefix; throws when there is none or when the
    value is not an [int]. *)

Definition strtol_prefix (s : list byte) : option Z :=
  let num s := match s with b :: _ => if isdigit b then Some (digits 0 s) else None | [] => None end in
  match skip_spaces s with
  | b :: s' =>
      if decide (b = "-"%byte) then Z.opp <$> num s'
      else if decide (b = "+"%byte) then num s'
      else num (b :: s')
  | [] => None
  end.

Definition stoi (s : list byte) : option Z :=
  match strtol_prefix (cstr s) with
  | Some n => if (- 2 ^ 31 <=? n) && (n <? 2 ^ 31) then Some n else None
  | None => None
  end.

Example stoi_ex : (stoi (str "12x"), stoi (str "any"), stoi (str " -3"), stoi (str "2147483648"))
                  = (Some 12, None, Some (-3), None).
Proof. reflexivity. Qed.

Lemma stoi_range s n : stoi s = Some n -> in_s 32 n.
Proof.
  unfold stoi. repeat case_match; intros; simplify_eq.
  apply andb_true_iff in H0 as [?%Z.leb_le ?%Z.ltb_lt]. range.
Qed.

(** [std::to_string(n)] is the decimal representation [fmt_d n]; [stoi] reads
    it back. *)

Lemma digit_char n : (n < 10)%N ->
  let b := Ascii.byte_of_ascii (pretty_N_char n) in isdigit b = true /\ byteZ b = 48 + Z.of_N n.
Proof.
  intros Hn. destruct n as [|[[[p|p|]|[p|p|]|]|[[p|p|]|[p|p|]|]|]]; first [done|lia|destruct p; first [done|lia]].
Qed.

Lemma str_String c s : str (String c s) = Ascii.byte_of_ascii c :: str s.
Proof. reflexivity. Qed.

Lemma fmt_go x s : Forall (fun b => isdigit b = true) (str s) ->
  Forall (fun b => isdigit b = true) (str (pretty_N_go x s)) /\
  digits 0 (str (pretty_N_go x s)) = digits (Z.of_N x) (str s) /\
  ((0 < x)%N -> str (pretty_N_go x s) <> []).
Proof.
  revert s. induction (N.lt_wf_0 x) as [x _ IH]; intros s Hs.
  assert (x = 0 \/ 0 < x)%N as [->|Hx] by lia.
  { rewrite pretty_N_go_0. split_and!; [done|done|lia]. }
  rewrite pretty_N_go_step by done. pose proof (N.mod_lt x 10 ltac:(lia)) as Hm.
  destruct (digit_char (x mod 10) Hm) as [Hd Hv].
  destruct (IH (x / 10)%N (N.div_lt x 10 Hx eq_refl) (String (pretty_N_char (x mod 10)) s))
    as (H1 & H2 & H3).
  { rewrite str_String. by constructor. }
  split_and!; [done| |].
  - rewrite H2, str_String. cbn [digits]. rewrite Hd, Hv. f_equal.
    rewrite N2Z.inj_div, N2Z.inj_mod. pose proof (Z.div_mod (Z.of_N x) 10). lia.
  - intros _. destruct (N.eq_0_gt_0_cases (x / 10)) as [->|]; [|auto].
    by rewrite pretty_N_go_0.
Qed.

Lemma fmt_N n : Forall (fun b => isdigit b = true) (str (pretty n)) /\
  digits 0 (str (pretty n)) = Z.of_N n /\ str (pretty n) <> [].
Proof.
  unfold pretty, pretty_N. case_decide as Hn; [subst; by split_and!; repeat constructor|].
  destruct (fmt_go n EmptyString) as (H1 & H2 & H3); [constructor|]. split_and!; [done|done|].
  apply H3. lia.
Qed.

(** The bytes of a decimal representation. *)
Definition num_char (b : byte) : Prop := isdigit b = true \/ b = "-"%byte.

Lemma fmt_d_chars z : Forall num_char (fmt_d z) /\ fmt_d z <> [].
Proof.
  unfold fmt_d, num_char. destruct z as [|p|p].
  - split; [|done]. repeat constructor.
  - destruct (fmt_N (Npos p)) as (H & _ & Hne). split; [|done].
    eapply Forall_impl; [exact H|]. auto.
  - destruct (fmt_N (Npos p)) as (H & _ & Hne).
    change (str (pretty (Z.neg p))) with ("-"%byte :: str (pretty (Npos p))).
    split; [|done]. constructor; [by right|]. eapply Forall_impl; [exact H|]. auto.
Qed.

Lemma isdigit_not_space b : isdigit b = true -> isspace b = false /\ b <> "-"%byte /\ b <> "+"%byte /\ b <> x00.
Proof. by destruct b. Qed.

Lemma num_char_cstr s : Forall num_char s -> cstr s = s.
Proof.
  intros H. apply cstr_id. intros Hin. rewrite Forall_forall in H. destruct (H _ Hin); done.
Qed.

Lemma strtol_prefix_digits l : l <> [] -> Forall (fun b => isdigit b = true) l ->
  strtol_prefix l = Some (digits 0 l).
Proof.
  destruct l as [|b l]; [done|]. intros _ [Hb _]%Forall_cons.
  destruct (isdigit_not_space b Hb) as (Hs & Hm & Hp & _).
  unfold strtol_prefix. cbn [skip_spaces]. rewrite Hs, !decide_False by done. cbn. by rewrite Hb.
Qed.

Lemma stoi_fmt_d z : in_s 32 z -> stoi (fmt_d z) = Some z.
Proof.
  intros Hz. unfold stoi. rewrite num_char_cstr by apply fmt_d_chars.
  assert (strtol_prefix (fmt_d z) = Some z) as ->.
  { unfold fmt_d. destruct z as [|p|p]; [done| |].
    - destruct (fmt_N (Npos p)) as (H & Hd & Hne). change (pretty (Z.pos p)) with (pretty (Npos p)).
      by rewrite strtol_prefix_digits, Hd.
    - destruct (fmt_N (Npos p)) as (H & Hd & Hne).
      change (str (pretty (Z.neg p))) with ("-"%byte :: str (pretty (Npos p))).
      unfold strtol_prefix. cbn [skip_spaces]. change (isspace "-"%byte) with false. cbv iota.
      rewrite decide_True by done. destruct (str (pretty (Npos p))) as [|b l]; [done|].
      apply Forall_cons in H as [Hb _]. rewrite Hb. cbn [fmap option_fmap option_map]. by rewrite Hd. }
  by rewrite (proj2 (Z.leb_le _ _)), (proj2 (Z.ltb_lt _ _)) by range.
Qed.

(** ** [double] *)

Definition double : Type := spec_float.
Definition dadd : double -> double -> double := SFadd 53 1024.
Definition dsub : double -> double -> double := SFsub 53 1024.
Definition dmul : double -> double -> double := SFmul 53 1024.
Definition ddiv : double -> double -> double := SFdiv 53 1024.
Definition dleb : double -> double -> bool := SFleb.
Definition dltb : double -> double -> bool := SFltb.
(** Conversion from an integer type: rounds to nearest, ties to even. *)
Definition double_of (z : Z) : double := binary_normalize 53 1024 z 0 false.

Definition d0 : double := S754_zero false.
Definition d1 : double := double_of 1.

Lemma SFcompare_antisym a b : SFcompare b a = CompOpp <$> SFcompare a b.
Proof.
  assert (forall x y : positive, Pos.compare_cont Eq y x = CompOpp (Pos.compare_cont Eq x y)) as HP.
  { intros x y. change (Pos.compare y x = CompOpp (Pos.compare x y)). apply Pos.compare_antisym. }
  destruct a as [sa|sa| |sa ma ea], b as [sb|sb| |sb mb eb];
    try destruct sa; try destruct sb; try reflexivity; cbn;
    rewrite (Z.compare_antisym ea eb), (HP ma mb); by destruct (ea ?= eb), (Pos.compare_cont Eq ma mb).
Qed.

(** [a <= b] and [a > b] exclude each other, also for NaN. *)
Lemma dleb_not_dltb a b : dleb a b = true -> dltb b a = false.
Proof.
  unfold dleb, dltb, SFleb, SFltb. rewrite (SFcompare_antisym a b).
  by destruct (SFcompare a b) as [[]|].
Qed.
