(* ===== verification/SampleApps.v ===== *)
(** * Sample applications (sample-apps/src/sample_apps.c)

    The periodic task the samples implement: its configuration, the job it
    runs at every release with the deadline check, the run-time statistics, and
    the two workloads that check their own result (Fibonacci numbers and the
    sieve of Eratosthenes).  [int] arithmetic that overflows is undefined. *)

From S2P Require Import Prelude Time Types Kernel.
From Stdlib Require Import Znumtheory.

Definition ULONG_MAX : Z := 2 ^ 64 - 1.
Definition NSEC_PER_MSEC : Z := 1000000.

(** [int] sum and product; overflow is undefined. *)
Definition int_ok (x : Z) : bool := (- 2 ^ 31 <=? x) && (x <? 2 ^ 31).
Definition add_int (a b : Z) : outcome Z := if int_ok (a + b) then Ret (a + b) else UB.
Definition mul_int (a b : Z) : outcome Z := if int_ok (a * b) then Ret (a * b) else UB.

Lemma add_int_ok a b : - 2 ^ 31 <= a + b < 2 ^ 31 -> add_int a b = Ret (a + b).
Proof.
  intros H. unfold add_int, int_ok.
  rewrite (proj2 (Z.leb_le _ _)), (proj2 (Z.ltb_lt _ _)) by lia. done.
Qed.

Lemma mul_int_ok a b : - 2 ^ 31 <= a * b < 2 ^ 31 -> mul_int a b = Ret (a * b).
Proof.
  intros H. unfold mul_int, int_ok.
  rewrite (proj2 (Z.leb_le _ _)), (proj2 (Z.ltb_lt _ _)) by lia. done.
Qed.

(** ** Sieve of Eratosthenes *)

(** An array of [bool]; an index outside is undefined. *)
Definition arr_get (a : list bool) (i : Z) : outcome bool :=
  if 0 <=? i then match a !! Z.to_nat i with Some b => Ret b | None => UB end else UB.
Definition arr_set (a : list bool) (i : Z) (b : bool) : outcome (list bool) :=
  if (0 <=? i) && (i <? Z.of_nat (length a)) then Ret (<[Z.to_nat i := b]> a) else UB.

(** [for (int j = ...; j <= limit; j += i) is_prime[j] = false;]; [None] when
    the fuel ends first. *)
Fixpoint sieve_inner (fuel : nat) (limit i j : Z) (is_prime : list bool) : outcome (option (list bool)) :=
  match fuel with
  | O => Ret None
  | S fuel =>
      if j <=? limit then
        is_prime ← arr_set is_prime j false;
        j ← add_int j i;
        sieve_inner fuel limit i j is_prime
      else Ret (Some is_prime)
  end.

(** [for (int i = ...; i * i <= limit; i++) if (is_prime[i]) ...] *)
Fixpoint sieve_outer (fuel : nat) (limit i : Z) (is_prime : list bool) : outcome (option (list bool)) :=
  match fuel with
  | O => Ret None
  | S fuel' =>
      sq ← mul_int i i;
      if sq <=? limit then
        b ← arr_get is_prime i;
        marked ← (if b : bool then sieve_inner fuel limit i sq is_prime else Ret (Some is_prime));
        match marked with
        | None => Ret None
        | Some is_prime =>
            i ← add_int i 1;
            sieve_outer fuel' limit i is_prime
        end
      else Ret (Some is_prime)
  end.

(** [for (int i = 2; i <= limit; i++) if (is_prime[i]) prime_count++;] *)
Definition count_primes (is_prime : list bool) : Z := blen (filter (fun b => b = true) (drop 2 is_prime)).

(** Returns the exit status and the count; [alloc_ok] tells whether [malloc]
    succeeded. *)
Definition stress_cpu_prime (fuel : nat) (alloc_ok : bool) (limit : Z) : outcome (option (Z * Z)) :=
  let limit := if limit <=? 0 then 100000 else limit in
  n ← add_int limit 1;
  if negb alloc_ok then Ret (Some (1, 0))
  else
    let is_prime := replicate (Z.to_nat n) true in
    is_prime ← arr_set is_prime 1 false;
    is_prime ← arr_set is_prime 0 false;
    r ← sieve_outer fuel limit 2 is_prime;
    match r with
    | None => Ret None
    | Some is_prime =>
        let prime_count := count_primes is_prime in
        if (limit =? 100000) && negb (prime_count =? 9592) then Ret (Some (1, prime_count))
        else Ret (Some (0, prime_count))
    end.

Example prime_30 : stress_cpu_prime 40 true 30 = Ret (Some (0, 10)).
Proof. reflexivity. Qed.

(** *** Correctness of the sieve *)

(** [k] has not been crossed out by the numbers below [i]. *)
Definition survives (i k : Z) : Prop := 2 <= k /\ forall d, 2 <= d < i -> (d | k) -> k < d * d.

Section sieve.
Variable limit : Z.
(** Beyond this limit [i * i] overflows. *)
Hypothesis Hlimit : 0 < limit < 46340 * 46340.

Definition at_true (a : list bool) (k : Z) : Prop := a !! Z.to_nat k = Some true.

Definition sieved (i : Z) (a : list bool) : Prop :=
  blen a = limit + 1 /\ forall k, 0 <= k <= limit -> at_true a k <-> survives i k.

Lemma arr_set_ok a j b : 0 <= j < blen a -> arr_set a j b = Ret (<[Z.to_nat j := b]> a).
Proof. intros H. unfold arr_set. by rewrite (proj2 (Z.leb_le _ _)), (proj2 (Z.ltb_lt _ _)) by lia. Qed.

Lemma at_true_set a j k b :
  0 <= j < blen a -> 0 <= k -> at_true (<[Z.to_nat j := b]> a) k <-> (if j =? k then b = true else at_true a k).
Proof.
  intros Hj Hk. unfold at_true. destruct (Z.eqb_spec j k) as [->|Hne].
  - rewrite list_lookup_insert_eq by lia. split; congruence.
  - by rewrite list_lookup_insert_ne by lia.
Qed.

(** The inner loop crosses out the multiples of [i] from [j] on. *)
Lemma sieve_inner_spec i fuel j a :
  0 < i <= 46340 -> 0 <= j -> (i | j) -> blen a = limit + 1 -> limit + 1 - j < Z.of_nat fuel -> (fuel <> 0)%nat ->
  exists a', sieve_inner fuel limit i j a = Ret (Some a') /\ blen a' = limit + 1 /\
    forall k, 0 <= k <= limit -> at_true a' k <-> at_true a k /\ ~ ((i | k) /\ j <= k).
Proof.
  intros Hi. revert j a. induction fuel as [|fuel IH]; intros j a Hj Hd Hl Hf Hne; [done|]. cbn [sieve_inner].
  destruct (Z.leb_spec j limit) as [Hjl|Hjl].
  - rewrite arr_set_ok by lia. cbn. rewrite add_int_ok by lia. cbn.
    destruct (IH (j + i) (<[Z.to_nat j := false]> a)) as (a' & -> & Hl' & Ha'); [lia| | |lia|lia|].
    { apply Z.divide_add_r; [done|apply Z.divide_refl]. }
    { by rewrite length_insert. }
    exists a'. split_and!; [done|done|]. intros k Hk. rewrite Ha', at_true_set by lia.
    assert (Hjk : (i | k) /\ j <= k <-> k = j \/ ((i | k) /\ j + i <= k)).
    { split; [|intros [->|[? ?]]; (split; [done|lia])]. intros [[m ->] Hle]. destruct Hd as [n ->].
      destruct (Z.eq_dec m n) as [->|]; [by left|]. right. split; [apply Z.divide_factor_r|nia]. }
    rewrite Hjk. destruct (Z.eqb_spec j k) as [->|Hjk']; [intuition congruence|]. intuition congruence.
  - exists a. split_and!; [done|done|]. intros k Hk. intuition lia.
Qed.

Lemma survives_step_true i k : 2 <= i -> survives (i + 1) k <-> survives i k /\ ~ ((i | k) /\ i * i <= k).
Proof.
  intros Hi. unfold survives. split.
  - intros [Hk H]. split; [split; [done|]; intros d Hd; apply H; lia|].
    intros [Hd Hle]. specialize (H i ltac:(lia) Hd). lia.
  - intros [[Hk H] Hn]. split; [done|]. intros d Hd Hdk. destruct (Z.eq_dec d i) as [->|]; [|apply H; [lia|done]].
    destruct (Z.lt_ge_cases k (i * i)); [done|]. exfalso. auto.
Qed.

(** A number that is crossed out has no multiples left to cross out. *)
Lemma survives_step_false i k : 2 <= i -> ~ survives i i -> survives (i + 1) k <-> survives i k.
Proof.
  intros Hi Hn. rewrite survives_step_true by done. split; [by intros [? _]|]. intros Hs. split; [done|].
  intros [Hd Hle]. apply Hn. split; [done|]. intros d Hd2 Hdi. destruct Hs as [_ Hs].
  specialize (Hs d Hd2 (Z.divide_trans _ _ _ Hdi Hd)). nia.
Qed.

Lemma sieve_outer_spec fuel i a :
  2 <= i <= limit + 1 -> (i - 1) * (i - 1) <= limit -> sieved i a -> limit + 4 - i <= Z.of_nat fuel ->
  exists a' i', sieve_outer fuel limit i a = Ret (Some a') /\ sieved i' a' /\ 2 <= i' /\ limit < i' * i'.
Proof.
  revert i a. induction fuel as [|fuel IH]; intros i a Hi Hsq [Hl Ha] Hf; [lia|]. cbn [sieve_outer].
  assert (i <= 46340) by nia. rewrite mul_int_ok by nia. cbn [mbind outcome_bind].
  destruct (Z.leb_spec (i * i) limit) as [Hle|Hgt];
    [|by exists a, i; split_and!; [|split|lia|]].
  assert (i <= limit) by nia. unfold arr_get. rewrite (proj2 (Z.leb_le 0 i)) by lia.
  destruct (lookup_lt_is_Some_2 a (Z.to_nat i)) as [b Hb]; [lia|]. rewrite Hb. cbn [mbind outcome_bind].
  destruct b.
  - destruct (sieve_inner_spec i (S fuel) (i * i) a) as (a' & -> & Hl' & Ha'); [lia|nia| |done|nia|done|].
    { apply Z.divide_factor_l. }
    cbn [mbind outcome_bind]. rewrite add_int_ok by lia. cbn [mbind outcome_bind].
    apply IH; [lia|nia| |lia]. split; [done|]. intros k Hk.
    rewrite Ha', Ha, survives_step_true by (done || lia). done.
  - cbn [mbind outcome_bind]. rewrite add_int_ok by lia. cbn [mbind outcome_bind].
    apply IH; [lia|nia| |lia]. split; [done|]. intros k Hk. rewrite Ha by done. symmetry.
    apply survives_step_false; [lia|]. rewrite <- Ha by lia. unfold at_true. congruence.
Qed.

(** A composite number has a divisor up to its root. *)
Lemma composite_root k : 2 <= k -> ~ prime k -> exists d, 2 <= d /\ d * d <= k /\ (d | k).
Proof.
  intros Hk Hn. destruct (not_prime_divide k ltac:(lia) Hn) as (n & Hn1 & m & Hm).
  destruct (Z.le_gt_cases (n * n) k).
  - exists n. split_and!; [lia|lia|by exists m].
  - exists m. split_and!; [nia|nia|]. exists n. lia.
Qed.

Lemma survives_prime i k : 2 <= i -> limit < i * i -> k <= limit -> survives i k <-> prime k.
Proof.
  intros Hi Hsq Hk. split.
  - intros [H2 H]. destruct (prime_dec k) as [|Hn]; [done|]. exfalso.
    destruct (composite_root k H2 Hn) as (d & Hd & Hdd & Hdk). specialize (H d ltac:(nia) Hdk). lia.
  - intros Hp. pose proof (prime_ge_2 k Hp). split; [lia|]. intros d Hd Hdk.
    destruct (prime_divisors k Hp d Hdk) as [?|[?|[?|?]]]; nia.
Qed.

(** The array the sieve starts from: 0 and 1 are crossed out. *)
Lemma sieve_start : sieved 2 (<[Z.to_nat 0 := false]> (<[Z.to_nat 1 := false]> (replicate (Z.to_nat (limit + 1)) true))).
Proof.
  split; [rewrite !length_insert, length_replicate; lia|]. intros k Hk.
  rewrite at_true_set by (rewrite ?length_insert, ?length_replicate; lia).
  destruct (Z.eqb_spec 0 k); [split; [done|intros [? _]; exfalso; lia]|].
  rewrite at_true_set by (rewrite ?length_replicate; lia).
  destruct (Z.eqb_spec 1 k); [split; [done|intros [? _]; exfalso; lia]|].
  unfold survives, at_true. rewrite lookup_replicate. split; [intros _; split; lia|]. intros _. split; [done|lia].
Qed.

#[local] Instance prime_decision k : Decision (prime k) := prime_dec k.

(** The primes up to the limit. *)
Definition primes_upto : list Z := filter prime (seqZ 2 (limit - 1)).

Lemma count_primes_spec i a :
  sieved i a -> 2 <= i -> limit < i * i -> count_primes a = blen primes_upto.
Proof.
  intros [Hl Ha] Hi Hsq. unfold count_primes, primes_upto.
  assert (E : drop 2 a = (fun k => bool_decide (prime k)) <$> seqZ 2 (limit - 1)).
  { apply list_eq. intros n. rewrite lookup_drop, list_lookup_fmap.
    destruct (decide (Z.of_nat n < limit - 1)) as [Hn|Hn].
    - rewrite lookup_seqZ_lt by lia. simpl.
      destruct (lookup_lt_is_Some_2 a (2 + n)%nat) as [b Hb]; [lia|]. simpl in Hb. rewrite Hb. f_equal.
      pose proof (Ha (2 + Z.of_nat n) ltac:(lia)) as H. unfold at_true in H.
      replace (Z.to_nat (2 + Z.of_nat n)) with (S (S n)) in H by lia. rewrite Hb in H.
      rewrite survives_prime in H by (done || lia). destruct b.
      + symmetry. apply bool_decide_eq_true, H. done.
      + symmetry. apply bool_decide_eq_false. intros Hp. apply H in Hp. done.
    - rewrite lookup_seqZ_ge by lia. simpl. apply lookup_ge_None_2. lia. }
  rewrite E. f_equal. apply length_filter_fmap. intros k. apply bool_decide_eq_true.
Qed.

End sieve.

(** the sieve workload is the sieve of Eratosthenes: for every limit
    below 46340^2 (beyond which [i * i] overflows) it terminates within
    [limit + 2] turns of its loops, never touches memory outside its array,
    counts exactly the primes up to the limit, and fails its self-check only
    when the limit is 100000 and there are not 9592 of them. *)
Theorem sieve_counts_primes limit fuel :
  0 < limit < 46340 * 46340 -> limit + 2 <= Z.of_nat fuel ->
  let count := blen (primes_upto limit) in
  stress_cpu_prime fuel true limit =
    Ret (Some (if (limit =? 100000) && negb (count =? 9592) then 1 else 0, count)).
Proof.
  intros Hl Hf count. unfold stress_cpu_prime. rewrite (proj2 (Z.leb_gt limit 0)) by lia. cbv zeta.
  rewrite add_int_ok by lia. cbn [mbind outcome_bind negb].
  rewrite arr_set_ok by (rewrite length_replicate; lia). cbn [mbind outcome_bind].
  rewrite arr_set_ok by (rewrite length_insert, length_replicate; lia). cbn [mbind outcome_bind].
  destruct (sieve_outer_spec limit Hl fuel 2 _ ltac:(lia) ltac:(lia) (sieve_start limit Hl) ltac:(lia))
    as (a & i & Ha & Hs & Hi & Hsq).
  rewrite Ha. cbn [mbind outcome_bind].
  rewrite (count_primes_spec limit Hl i a Hs Hi Hsq). fold count. by destruct (_ && _).
Qed.

Lemma sieve_counts_primes_witness :
  stress_cpu_prime 60 true 50 = Ret (Some (0, 15)) /\ blen (primes_upto 50) = 15.
Proof.
  assert (E : stress_cpu_prime 60 true 50 = Ret (Some (0, 15))) by reflexivity.
  split; [exact E|]. pose proof (sieve_counts_primes 50 60 ltac:(lia) ltac:(lia)) as H.
  cbv zeta in H. rewrite E in H. change (50 =? 100000) with false in H. cbn [andb] in H.
  injection H as H. symmetry. exact H.
Defined.

(** ** Fibonacci numbers *)

Definition fn_res : Z := 0xa94fad42221f2702.

(** The [do ... while] loop; returns [fn] and [i], [None] when the fuel ends
    first. *)
Fixpoint fib_loop (fuel : nat) (f1 f2 i : Z) : option (Z * Z) :=
  match fuel with
  | O => None
  | S fuel =>
      let fn := u64 (f1 + f2) in
      let i := u64 (i + 1) in
      if Z.land fn 0x8000000000000000 =? 0 then fib_loop fuel f2 fn i else Some (fn, i)
  end.

(** Returns the exit status and the number of turns it prints. *)
Definition stress_cpu_fibonacci (fuel : nat) : option (Z * Z) :=
  match fib_loop fuel 0 1 0 with
  | None => None
  | Some (fn, i) => Some (if negb (fn_res =? fn) then 1 else 0, i)
  end.

(** Reference: the Fibonacci numbers, unbounded. *)
Fixpoint fib2 (n : nat) : Z * Z :=
  match n with O => (0, 1) | S n => let '(a, b) := fib2 n in (b, a + b) end.
Definition fib (n : nat) : Z := fst (fib2 n).

Lemma fib_SS n : fib (S (S n)) = fib n + fib (S n).
Proof. unfold fib. simpl. by destruct (fib2 n). Qed.

Lemma fib_loop_fuel fuel k f1 f2 i r : fib_loop fuel f1 f2 i = Some r -> fib_loop (fuel + k) f1 f2 i = Some r.
Proof.
  revert f1 f2 i. induction fuel as [|fuel IH]; intros f1 f2 i; [done|]. cbn [fib_loop Nat.add].
  destruct (_ =? 0); [apply IH|done].
Qed.

(** The Fibonacci workload terminates after 92 additions with success: the
    value it expects is the 93rd Fibonacci number, the first that has its top
    bit set, and no addition before wraps around. *)
Theorem fibonacci_terminates fuel :
  (92 <= fuel)%nat ->
  stress_cpu_fibonacci fuel = Some (0, 92) /\ fn_res = fib 93 /\
  2 ^ 63 <= fib 93 < 2 ^ 64 /\ forall n, (n <= 92)%nat -> 0 <= fib n < 2 ^ 63.
Proof.
  intros Hf. split_and!; [|vm_compute; reflexivity|vm_compute; discriminate|vm_compute; reflexivity|].
  - unfold stress_cpu_fibonacci. replace fuel with (92 + (fuel - 92))%nat by lia.
    by rewrite (fib_loop_fuel 92 _ 0 1 0 (fn_res, 92)) by (vm_compute; reflexivity).
  - assert (H : forallb (fun n => (0 <=? fib n) && (fib n <? 2 ^ 63)) (seq 0 93) = true) by (vm_compute; reflexivity).
    intros n Hn. rewrite forallb_forall in H. specialize (H n).
    rewrite andb_true_iff, Z.leb_le, Z.ltb_lt in H. apply H. apply in_seq. lia.
Qed.

Lemma fibonacci_terminates_witness : stress_cpu_fibonacci 100 = Some (0, 92).
Proof. apply (fibonacci_terminates 100). lia. Defined.

(** ** Configuration and statistics *)

Record rt_task_config_t := mk_rt_task_config {
  tc_period_ms : Z;
  tc_deadline_ms : Z;
  tc_runtime_us : Z;
  tc_priority : Z;
  tc_enable_stats : bool;
  tc_name : list byte;
}.
#[export] Instance eta_rt_task_config : Eta rt_task_config_t := fun r =>
  mk_rt_task_config (tc_period_ms r) (tc_deadline_ms r) (tc_runtime_us r) (tc_priority r) (tc_enable_stats r)
    (tc_name r).

Record rt_stats_t := mk_rt_stats {
  st_min_runtime_us : Z;
  st_max_runtime_us : Z;
  st_avg_runtime_us : Z;
  st_total_runtime_us : Z;
  st_deadline_misses : Z;
  st_iterations : Z;
  st_last_runtime_us : Z;
}.
#[export] Instance eta_rt_stats : Eta rt_stats_t := fun r =>
  mk_rt_stats (st_min_runtime_us r) (st_max_runtime_us r) (st_avg_runtime_us r) (st_total_runtime_us r)
    (st_deadline_misses r) (st_iterations r) (st_last_runtime_us r).

(** [config->name] keeps its last byte, which is 0 in the static object. *)
Definition rt_task_init (config : rt_task_config_t) : rt_task_config_t :=
  config <| tc_period_ms := 100 |> <| tc_deadline_ms := 100 |> <| tc_runtime_us := 50000 |>
    <| tc_priority := 50 |> <| tc_enable_stats := true |>
    <| tc_name := strncpy (tc_name config) (str "rt_task") 15 |>.

Definition rt_stats_init (stats : rt_stats_t) : rt_stats_t :=
  mk_rt_stats ULONG_MAX 0 0 0 0 0 0.

Definition rt_stats_update (stats : rt_stats_t) (runtime_us : Z) (deadline_miss : bool) : rt_stats_t :=
  let stats := stats <| st_last_runtime_us := runtime_us |> in
  let stats := stats <| st_total_runtime_us := u64 (st_total_runtime_us stats + runtime_us) |> in
  let stats := stats <| st_iterations := u64 (st_iterations stats + 1) |> in
  let stats := if runtime_us <? st_min_runtime_us stats
               then stats <| st_min_runtime_us := runtime_us |> else stats in
  let stats := if st_max_runtime_us stats <? runtime_us
               then stats <| st_max_runtime_us := runtime_us |> else stats in
  let stats := stats <| st_avg_runtime_us := st_total_runtime_us stats `div` st_iterations stats |> in
  if deadline_miss then stats <| st_deadline_misses := u64 (st_deadline_misses stats + 1) |> else stats.

(** The check after the options: a deadline of 100 counts as not given. *)
Definition default_deadline (config : rt_task_config_t) : rt_task_config_t :=
  if (tc_deadline_ms config =? 100) && negb (tc_period_ms config =? 100)
  then config <| tc_deadline_ms := tc_period_ms config |> else config.

(** [setup_periodic_timer]: the value and the interval of the timer. *)
Definition periodic_its (period_ms : Z) : itimerspec :=
  let v := mk_timespec (period_ms / 1000) (period_ms mod 1000 * 1000000) in
  mk_itimerspec v v.

(** ** Jobs *)

(** A [long] result: overflow is undefined. *)
Definition as_long (x : Z) : outcome Z := if (- 2 ^ 63 <=? x) && (x <? 2 ^ 63) then Ret x else UB.

(** [ts_ns] *)
Definition app_ts_ns (ts : timespec) : outcome Z :=
  x ← as_long (tv_sec ts * 1000000000);
  as_long (x + tv_nsec ts).

Definition job_deadline (deadline_ms : Z) (before : timespec) : timespec :=
  let sec := i64 (u64 (tv_sec before + deadline_ms / 1000)) in
  let nsec := i64 (u64 (tv_nsec before + u64 (deadline_ms mod 1000 * NSEC_PER_MSEC))) in
  if 1000000000 <=? nsec then mk_timespec (sec + 1) (nsec - 1000000000) else mk_timespec sec nsec.

(** Run time in microseconds and deadline check of a job that started at
    [before] and ended at [now]. *)
Definition job_result (deadline_ms : Z) (before now : timespec) : outcome (Z * bool) :=
  n ← app_ts_ns now;
  b ← app_ts_ns before;
  diff ← as_long (n - b);
  d ← app_ts_ns (job_deadline deadline_ms before);
  Ret (u64 (Z.quot diff 1000), d <? n).

(** One return of [sigwait]: its result, [errno], the signal it stores when the
    result is 0, and the clock readings around the job that follows. *)
Record wait_result := mk_wait { wr_ret : Z; wr_errno : Z; wr_signo : Z; wr_before : timespec; wr_now : timespec }.

(** [signal_received] after the call. *)
Definition stored_signal (w : wait_result) (signal_received : Z) : Z :=
  if wr_ret w =? 0 then wr_signo w else signal_received.

(** The loop of [main]; the boolean of a turn tells whether a termination
    signal is handled during it.  Returns the statistics and whether the loop
    has ended. *)
Fixpoint job_loop (config : rt_task_config_t) (turns : list (bool * wait_result)) (stats : rt_stats_t)
    (shutdown_requested : bool) (signal_received : Z) : outcome (rt_stats_t * bool) :=
  if shutdown_requested then Ret (stats, true)
  else
    match turns with
    | [] => Ret (stats, false)
    | (term, w) :: turns =>
        if wr_ret w =? -1 then
          if wr_errno w =? EINTR then job_loop config turns stats term signal_received else Ret (stats, true)
        else
          let signal_received := stored_signal w signal_received in
          if negb (signal_received =? SIGNO_TT) then job_loop config turns stats term signal_received
          else
            '(runtime_us, deadline_miss) ← job_result (tc_deadline_ms config) (wr_before w) (wr_now w);
            job_loop config turns
              (if tc_enable_stats config then rt_stats_update stats runtime_us deadline_miss else stats) term
              signal_received
    end.

(** *** What the statistics mean *)

Definition ends_turn (t : bool * wait_result) : bool :=
  fst t || (wr_ret (snd t) =? -1) && negb (wr_errno (snd t) =? EINTR).

(** The signal the task believes to have received. *)
Definition believed (w : wait_result) (signal_received : Z) : Z :=
  if decide (wr_ret w = 0) then wr_signo w else signal_received.

(** The jobs that run: releases up to the turn that ends the loop, and the
    waits that failed after a release with an error number other than -1. *)
Fixpoint served (signal_received : Z) (turns : list (bool * wait_result)) : list (timespec * timespec) :=
  match turns with
  | [] => []
  | t :: turns =>
      let w := snd t in
      let sig := believed w signal_received in
      (if decide (wr_ret w <> -1 /\ sig = SIGNO_TT) then [(wr_before w, wr_now w)] else [])
      ++ (if ends_turn t then [] else served sig turns)
  end.

(** Run time in microseconds, and whether the job took longer than the
    deadline. *)
Definition sample (deadline_ms : Z) (job : timespec * timespec) : Z * bool :=
  let took := ts_total_ns (snd job) - ts_total_ns (fst job) in
  (took / 1000, deadline_ms * NSEC_PER_MSEC <? took).

Definition total_runtime (l : list (Z * bool)) : Z := foldr (fun x t => fst x + t) 0 l.

(** Minimum, maximum, mean, sum, misses, number and last of the samples. *)
Definition summary (l : list (Z * bool)) : rt_stats_t := {|
  st_min_runtime_us := foldr (fun x m => Z.min (fst x) m) ULONG_MAX l;
  st_max_runtime_us := foldr (fun x m => Z.max (fst x) m) 0 l;
  st_avg_runtime_us := if decide (l = []) then 0 else total_runtime l / blen l;
  st_total_runtime_us := total_runtime l;
  st_deadline_misses := blen (filter (fun x => snd x = true) l);
  st_iterations := blen l;
  st_last_runtime_us := default 0 (fst <$> last l) |}.

Lemma as_long_ok x : - 2 ^ 63 <= x < 2 ^ 63 -> as_long x = Ret x.
Proof. intros H. unfold as_long. by rewrite (proj2 (Z.leb_le _ _)), (proj2 (Z.ltb_lt _ _)) by lia. Qed.

Lemma foldr_min_app l x :
  foldr (fun y m => Z.min (fst y) m) ULONG_MAX (l ++ [x]) =
  Z.min (fst x) (foldr (fun y m => Z.min (fst y) m) ULONG_MAX (l : list (Z * bool))).
Proof. induction l as [|y l IH]; simpl in *; [done|]. rewrite IH. lia. Qed.

Lemma foldr_max_app l x :
  foldr (fun y m => Z.max (fst y) m) 0 (l ++ [x]) = Z.max (fst x) (foldr (fun y m => Z.max (fst y) m) 0 (l : list (Z * bool))).
Proof. induction l as [|y l IH]; simpl in *; [done|]. rewrite IH. lia. Qed.

Lemma total_runtime_app l k : total_runtime (l ++ k) = total_runtime l + total_runtime k.
Proof. unfold total_runtime. induction l as [|y l IH]; simpl in *; [done|]. rewrite IH. lia. Qed.

Lemma total_runtime_cons x l : total_runtime (x :: l) = fst x + total_runtime l.
Proof. done. Qed.

Lemma total_runtime_nonneg l : Forall (fun x => 0 <= fst x) l -> 0 <= total_runtime l.
Proof. unfold total_runtime. induction 1; simpl in *; lia. Qed.

(** An update adds one sample. *)
Lemma rt_stats_update_summary l r m :
  0 <= total_runtime l -> 0 <= r -> total_runtime l + r < 2 ^ 64 -> blen l + 1 < 2 ^ 64 ->
  rt_stats_update (summary l) r m = summary (l ++ [(r, m)]).
Proof.
  intros Hl Hr Ht Hn. unfold summary at 2.
  assert (Hm : (length (filter (fun x => snd x = true) l) <= length l)%nat) by apply length_filter.
  assert (E1 : total_runtime [(r, m)] = r) by (unfold total_runtime; simpl; lia).
  rewrite foldr_min_app, foldr_max_app, total_runtime_app, E1, last_snoc, filter_app, !length_app.
  destruct (decide (l ++ [(r, m)] = [])) as [E%app_eq_nil|_]; [by destruct E|].
  unfold rt_stats_update, summary. cbv zeta. simpl.
  rewrite !(wrapu_id 64 (total_runtime l + r)), !(wrapu_id 64 (Z.of_nat (length l) + 1)) by (unfold in_u; lia).
  destruct (Z.ltb_spec r (foldr (fun x k => Z.min (fst x) k) ULONG_MAX l)) as [H1|H1]; simpl;
    destruct (Z.ltb_spec (foldr (fun x k => Z.max (fst x) k) 0 l) r) as [H2|H2]; simpl;
    destruct m; simpl; rewrite ?filter_cons, ?filter_nil; simpl; rewrite ?(wrapu_id 64) by (unfold in_u; lia);
    f_equal; try lia; try (f_equal; lia).
Qed.

(** Clock readings of a job: normalized, in order, and far from the end of the
    range of [long]. *)
Definition job_ok (job : timespec * timespec) : Prop :=
  ts_norm (fst job) /\ ts_norm (snd job) /\ 0 <= tv_sec (fst job) /\ 0 <= tv_sec (snd job) /\
  ts_total_ns (fst job) <= ts_total_ns (snd job) < 2 ^ 62.

Lemma app_ts_ns_ok ts : ts_norm ts -> 0 <= tv_sec ts -> ts_total_ns ts < 2 ^ 63 -> app_ts_ns ts = Ret (ts_total_ns ts).
Proof.
  unfold app_ts_ns, ts_norm, ts_total_ns. intros H1 H2 H3. rewrite as_long_ok by lia. cbn [mbind outcome_bind].
  by rewrite as_long_ok by lia.
Qed.

(** The deadline is the start plus the relative deadline, normalized. *)
Lemma job_deadline_spec d before :
  0 <= d < 2 ^ 40 -> ts_norm before -> 0 <= tv_sec before -> ts_total_ns before < 2 ^ 62 ->
  ts_norm (job_deadline d before) /\ 0 <= tv_sec (job_deadline d before) /\
  ts_total_ns (job_deadline d before) = ts_total_ns before + d * NSEC_PER_MSEC.
Proof.
  unfold job_deadline, ts_norm, ts_total_ns, NSEC_PER_MSEC. intros Hd Hn Hs Ht.
  pose proof (Z.div_mod d 1000 ltac:(lia)). pose proof (Z.mod_pos_bound d 1000 ltac:(lia)).
  rewrite !(wrapu_id 64 (d mod 1000 * 1000000)) by (unfold in_u; lia).
  rewrite !wraps_wrapu, !(wraps_id 64) by (unfold in_s; lia).
  destruct (Z.leb_spec 1000000000 (tv_nsec before + d mod 1000 * 1000000)); simpl; lia.
Qed.

Lemma job_result_spec d job :
  0 <= d < 2 ^ 40 -> job_ok job -> job_result d (fst job) (snd job) = Ret (sample d job).
Proof.
  destruct job as [before now]. intros Hd (N1 & N2 & S1 & S2 & T). simpl in *.
  destruct (job_deadline_spec d before) as (N3 & S3 & T3); [done|done|done|lia|].
  assert (0 <= ts_total_ns before) by (unfold ts_total_ns, ts_norm in *; lia).
  assert (0 <= d * NSEC_PER_MSEC < 2 ^ 62) by (unfold NSEC_PER_MSEC; lia).
  unfold job_result. rewrite !app_ts_ns_ok by (done || lia). cbn [mbind outcome_bind].
  rewrite as_long_ok by lia. cbn [mbind outcome_bind]. rewrite T3. unfold sample. simpl.
  rewrite Z.quot_div_nonneg by lia.
  pose proof (Z.div_le_upper_bound (ts_total_ns now - ts_total_ns before) 1000 (2 ^ 62) ltac:(lia) ltac:(lia)).
  pose proof (Z.div_pos (ts_total_ns now - ts_total_ns before) 1000 ltac:(lia) ltac:(lia)).
  rewrite wrapu_id by (unfold in_u; lia). do 2 f_equal.
  apply eq_true_iff_eq. rewrite !Z.ltb_lt. lia.
Qed.

Lemma sample_nonneg d job : job_ok job -> 0 <= fst (sample d job).
Proof. intros (_ & _ & _ & _ & H). simpl. apply Z.div_pos; lia. Qed.

Lemma served_cons sig t turns :
  served sig (t :: turns) =
    (if wr_ret (snd t) =? -1 then [] else
     if stored_signal (snd t) sig =? SIGNO_TT then [(wr_before (snd t), wr_now (snd t))] else [])
    ++ (if ends_turn t then [] else served (stored_signal (snd t) sig) turns).
Proof.
  cbn [served]. assert (believed (snd t) sig = stored_signal (snd t) sig) as ->.
  { unfold believed, stored_signal. by case_decide; case (Z.eqb_spec (wr_ret (snd t)) 0). }
  f_equal. case_decide as H; case (Z.eqb_spec (wr_ret (snd t)) (-1)) as [E|E]; try tauto;
    case (Z.eqb_spec (stored_signal (snd t) sig) SIGNO_TT); tauto.
Qed.

Lemma job_loop_spec config turns l sig :
  tc_enable_stats config = true -> 0 <= tc_deadline_ms config < 2 ^ 40 -> Forall job_ok (served sig turns) ->
  0 <= total_runtime l ->
  total_runtime (l ++ (sample (tc_deadline_ms config) <$> served sig turns)) < 2 ^ 64 ->
  blen l + blen turns < 2 ^ 64 ->
  job_loop config turns (summary l) false sig =
    Ret (summary (l ++ (sample (tc_deadline_ms config) <$> served sig turns)), existsb ends_turn turns).
Proof.
  intros He Hd. revert l sig. induction turns as [|[term w] turns IH]; intros l sig Hok Hl Ht Hn.
  { simpl. by rewrite app_nil_r. }
  assert (Hstop : forall st sg, job_loop config turns st true sg = Ret (st, true)) by (intros; by destruct turns).
  rewrite served_cons in *. cbn [job_loop snd existsb] in *. unfold ends_turn in Hok, Ht |- * at 1 2.
  cbn [fst snd] in *.
  assert (stored_signal w sig = sig \/ (wr_ret w =? -1) = false) as Hsig.
  { unfold stored_signal. destruct (Z.eqb_spec (wr_ret w) 0) as [->|]; auto. }
  destruct (wr_ret w =? -1); cbn [andb app] in *.
  - destruct Hsig as [Hsig|]; [|done]. rewrite Hsig in *. rewrite orb_comm in *. destruct (wr_errno w =? EINTR); simpl in *; [|by rewrite app_nil_r].
    destruct term; simpl in *; [by rewrite Hstop, app_nil_r|]. apply IH; try done; lia.
  - clear Hsig. set (sg := stored_signal w sig) in *. rewrite orb_false_r in *. destruct (sg =? SIGNO_TT); simpl in *.
    + apply Forall_cons in Hok as [Hj Hok].
      rewrite (job_result_spec _ (wr_before w, wr_now w)) by done. cbn [mbind outcome_bind].
      destruct (sample (tc_deadline_ms config) (wr_before w, wr_now w)) as [r m] eqn:Es.
      pose proof (sample_nonneg (tc_deadline_ms config) _ Hj) as Hr. rewrite Es in Hr. simpl in Hr.
      assert (Hrest : 0 <= total_runtime (sample (tc_deadline_ms config) <$> (if term then [] else served sg turns))).
      { apply total_runtime_nonneg, Forall_fmap. eapply Forall_impl; [exact Hok|]. intros j ?. by apply sample_nonneg. }
      assert (Ht' : total_runtime l + r + total_runtime (sample (tc_deadline_ms config) <$>
        (if term then [] else served sg turns)) < 2 ^ 64).
      { rewrite total_runtime_app, total_runtime_cons in Ht. unfold fmap. simpl in *. lia. }
      rewrite He, rt_stats_update_summary by lia.
      destruct term; simpl in *; [by rewrite Hstop|].
      rewrite IH; [by rewrite <- app_assoc|done| | |].
      * rewrite total_runtime_app, total_runtime_cons. simpl. lia.
      * rewrite <- app_assoc, total_runtime_app. change ([(r, m)] ++ ?x) with ((r, m) :: x).
        rewrite total_runtime_cons. cbn [fst]. lia.
      * rewrite length_app. simpl. lia.
    + destruct term; simpl in *; [by rewrite Hstop, app_nil_r|]. apply IH; try done; lia.
Qed.

(** The statistics of a periodic task are exact: over any sequence of
    releases, other signals, interruptions and errors, up to the turn in which
    a termination signal or an error ends the loop, the task runs one job per
    release, and minimum, maximum, mean, total and last run time and the
    numbers of jobs and of deadline misses are those of the jobs that ran; a
    job counts as a miss exactly when it took longer than the deadline. *)
Theorem job_statistics config turns sig :
  tc_enable_stats config = true -> 0 <= tc_deadline_ms config < 2 ^ 40 -> Forall job_ok (served sig turns) ->
  total_runtime (sample (tc_deadline_ms config) <$> served sig turns) < 2 ^ 64 -> blen turns < 2 ^ 64 ->
  forall stats, job_loop config turns (rt_stats_init stats) false sig =
    Ret (summary (sample (tc_deadline_ms config) <$> served sig turns), existsb ends_turn turns).
Proof. intros He Hd Hok Ht Hn stats. by apply (job_loop_spec config turns []). Qed.

(** A job in time, an interruption, a late job during which the task is told
    to stop, and a release that comes too late. *)
Definition ex_turns : list (bool * wait_result) :=
  [(false, mk_wait 0 0 SIGNO_TT (mk_timespec 7 999000000) (mk_timespec 8 4000000));
   (false, mk_wait (-1) EINTR 0 ts_zero ts_zero);
   (true, mk_wait 0 0 SIGNO_TT (mk_timespec 8 100000000) (mk_timespec 8 250000000));
   (false, mk_wait 0 0 SIGNO_TT (mk_timespec 8 300000000) (mk_timespec 8 300000000))].
Definition ex_config : rt_task_config_t := rt_task_init (mk_rt_task_config 0 0 0 0 false (zeros 16)).

Lemma job_statistics_witness :
  job_loop ex_config ex_turns (rt_stats_init (mk_rt_stats 0 0 0 0 0 0 0)) false (-1) =
    Ret (mk_rt_stats 5000 150000 77500 155000 1 2 150000, true).
Proof.
  rewrite (job_statistics ex_config ex_turns (-1)); [vm_compute; reflexivity|reflexivity|simpl; lia| | |].
  - unfold job_ok, ts_norm, ts_total_ns. repeat constructor; simpl; lia.
  - vm_compute. reflexivity.
  - vm_compute. reflexivity.
Defined.
