(* ===== verification/SampleWorkloads.v ===== *)
(** * The computations of the sample applications (sample-apps/src/sample_apps.c)

    The workloads a job runs: square roots by bisection, matrix product, random
    memory accesses, hash rounds, the mixture of them and the busy loop; the
    sieve and the Fibonacci numbers are in SampleApps.  The state is the number
    of calls of [rand] so far; [rand] itself is an arbitrary sequence with the
    range the C standard gives it. *)

From S2P Require Import Prelude Time CppStd SampleApps.

Definition EXIT_SUCCESS : Z := 0.
Definition EXIT_FAILURE : Z := 1.
Definition RAND_MAX : Z := 2 ^ 31 - 1.

(** ** Square roots *)

Section nsqrt.
(** The format of [long double]: precision and exponent range. *)
Variables prec emax : Z.

Definition ld_of (z : Z) : spec_float := binary_normalize prec emax z 0 false.
Definition ld_add : spec_float -> spec_float -> spec_float := SFadd prec emax.
Definition ld_sub : spec_float -> spec_float -> spec_float := SFsub prec emax.
Definition ld_mul : spec_float -> spec_float -> spec_float := SFmul prec emax.
Definition ld_div : spec_float -> spec_float -> spec_float := SFdiv prec emax.

(** 1.0e-12L, correctly rounded. *)
Definition precision : spec_float := ld_div (ld_of 1) (ld_of (10 ^ 12)).
Definition max_iter : Z := 56.

(** Conversion of a [long double] to [double]. *)
Definition to_double (x : spec_float) : double :=
  match x with
  | S754_finite s m e => binary_normalize 53 1024 (cond_Zopp s (Z.pos m)) e s
  | _ => x
  end.

(** [rint] in the default rounding mode: to nearest, ties to even. *)
Definition rint (x : double) : double :=
  match x with
  | S754_finite s m e =>
      if 0 <=? e then x
      else
        let d := 2 ^ (- e) in
        let q := Z.pos m / d in
        let n := match Z.compare (2 * (Z.pos m mod d)) d with
                 | Lt => q
                 | Eq => if Z.even q then q else q + 1
                 | Gt => q + 1
                 end in
        binary_normalize 53 1024 (cond_Zopp s n) 0 s
  | _ => x
  end.

(** Conversion to [int]: toward zero, undefined when the value does not fit. *)
Definition to_int (x : spec_float) : outcome Z :=
  match x with
  | S754_zero _ => Ret 0
  | S754_finite s m e =>
      let n := cond_Zopp s (if 0 <=? e then Z.pos m * 2 ^ e else Z.pos m / 2 ^ (- e)) in
      if int_ok n then Ret n else UB
  | _ => UB
  end.

(** [while ((j++ < max_iter) && ((hi - lo) > precision))], with the constant
    [two] = 2.0L; returns [j], [lo]
    and [hi], [None] when the fuel ends first. *)
Fixpoint nsqrt_loop (fuel : nat) (precision two n : spec_float) (j : Z) (lo hi : spec_float) : option (Z * spec_float * spec_float) :=
  match fuel with
  | O => None
  | S fuel =>
      if (j <? max_iter) && SFltb precision (ld_sub hi lo) then
        let g := ld_div (ld_add lo hi) two in
        if SFltb n (ld_mul g g) then nsqrt_loop fuel precision two n (j + 1) lo g
        else nsqrt_loop fuel precision two n (j + 1) g hi
      else Some (j + 1, lo, hi)
  end.

(** One number: [Some EXIT_FAILURE] when the function returns, [None] when it
    goes on. *)
Definition nsqrt_one (i : Z) : outcome (option Z) :=
  let n := ld_of i in
  let lo := if SFltb n (ld_of 1) then n else ld_of 1 in
  let hi := if SFltb n (ld_of 1) then ld_of 1 else n in
  match nsqrt_loop 57 precision (ld_of 2) n 0 lo hi with
  | None => UB
  | Some (j, lo, hi) =>
      let rt := ld_div (ld_add lo hi) (ld_of 2) in
      let r2 := rint (to_double (ld_mul rt rt)) in
      if max_iter <=? j then Ret (Some EXIT_FAILURE)
      else
        r ← to_int r2;
        if negb (r =? i) then Ret (Some EXIT_FAILURE) else Ret None
  end.

(** [for (i = first; i < 16384; i++)], [n] numbers left. *)
Fixpoint nsqrt_from (n : nat) (i : Z) : outcome Z :=
  match n with
  | O => Ret EXIT_SUCCESS
  | S n =>
      r ← nsqrt_one i;
      match r with Some status => Ret status | None => nsqrt_from n (i + 1) end
  end.

Definition stress_cpu_nsqrt : outcome Z := nsqrt_from (Z.to_nat (16384 - 16300)) 16300.

(** The loop needs no more fuel than [max_iter] leaves. *)
Lemma nsqrt_loop_fuel eps two n fuel j lo hi :
  max_iter - j < Z.of_nat fuel -> (fuel <> 0)%nat -> is_Some (nsqrt_loop fuel eps two n j lo hi).
Proof.
  revert j lo hi. induction fuel as [|fuel IH]; intros j lo hi Hf Hn; [done|]. cbn [nsqrt_loop].
  destruct (Z.ltb_spec j max_iter) as [Hj|Hj]; cbn [andb]; [|by eexists].
  destruct (SFltb eps _); [|by eexists]. destruct (SFltb n _); apply IH; unfold max_iter in *; lia.
Qed.

End nsqrt.

(** With the 64-bit mantissa of x86-64 every root is found within the allowed
    iterations and squares back to its number. *)
Lemma nsqrt_x87 : stress_cpu_nsqrt 64 16384 = Ret EXIT_SUCCESS.
Proof. vm_compute. reflexivity. Qed.

(** ** Loops and memory *)

(** [for (i = ...; n turns; i++)] *)
Fixpoint for_z {S A} (n : nat) (i : Z) (body : Z -> A -> ST S A) (a : A) : ST S A :=
  match n with
  | O => mret a
  | Datatypes.S n => a ← body i a; for_z n (i + 1) body a
  end.

Lemma wp_for {S A} (I : Z -> A -> S -> Prop) n i body a (s : S) Q :
  I i a s ->
  (forall j a s, i <= j < i + Z.of_nat n -> I j a s -> wp (body j a) (fun a' s' => I (j + 1) a' s') s) ->
  (forall a s, I (i + Z.of_nat n) a s -> Q a s) ->
  wp (for_z n i body a) Q s.
Proof.
  revert i a s. induction n as [|n IH]; intros i a s Hi Hb HQ; cbn [for_z].
  - apply wp_ret, HQ. by replace (i + Z.of_nat 0) with i by lia.
  - apply wp_bind. eapply wp_mono; [apply Hb; [lia|done]|]. cbn beta. intros a' s' Hi'.
    apply IH; [done| |].
    + intros j b t Hj. apply Hb. lia.
    + intros b t Ht. apply HQ. by replace (i + Z.of_nat (Datatypes.S n)) with (i + 1 + Z.of_nat n) by lia.
Qed.

Definition lift_o {S A} (o : outcome A) : ST S A := fun s => match o with Ret a => Ret (a, s) | UB => UB end.

Lemma wp_lift_o {S A} (o : outcome A) a Q (s : S) : o = Ret a -> Q a s -> wp (lift_o o) Q s.
Proof. by intros ->. Qed.

(** Arrays of integers: an index outside is undefined. *)
Definition aget (a : list Z) (i : Z) : outcome Z :=
  if 0 <=? i then match a !! Z.to_nat i with Some x => Ret x | None => UB end else UB.
Definition aset (a : list Z) (i : Z) (x : Z) : outcome (list Z) :=
  if (0 <=? i) && (i <? Z.of_nat (length a)) then Ret (<[Z.to_nat i := x]> a) else UB.

Lemma aget_ok a i : 0 <= i < blen a -> exists x, a !! Z.to_nat i = Some x /\ aget a i = Ret x.
Proof.
  intros Hi. unfold aget. rewrite (proj2 (Z.leb_le _ _)) by lia.
  destruct (lookup_lt_is_Some_2 a (Z.to_nat i)) as [x E]; [lia|]. exists x. by rewrite E.
Qed.

Lemma aset_ok a i x : 0 <= i < blen a -> aset a i x = Ret (<[Z.to_nat i := x]> a).
Proof. intros Hi. unfold aset. by rewrite (proj2 (Z.leb_le _ _)), (proj2 (Z.ltb_lt _ _)) by lia. Qed.

(** Matrices of [double] whose rows have been allocated: a cell is absent until
    it is written; reading it before, or outside, is undefined. *)
Abbreviation matrix := (gmap (Z * Z) double).
Definition mget (m : matrix) (i j : Z) : outcome double :=
  match m !! (i, j) with Some x => Ret x | None => UB end.
Definition mset (size : Z) (m : matrix) (i j : Z) (x : double) : outcome matrix :=
  if (0 <=? i) && (i <? size) && (0 <=? j) && (j <? size) then Ret (<[(i, j) := x]> m) else UB.

Lemma mset_ok size m i j x : 0 <= i < size -> 0 <= j < size -> mset size m i j x = Ret (<[(i, j) := x]> m).
Proof.
  intros Hi Hj. unfold mset. rewrite !(proj2 (Z.leb_le _ _)), !(proj2 (Z.ltb_lt _ _)) by lia. done.
Qed.

Section workloads.
(** The values of the successive calls of [rand]. *)
Variable rnd : nat -> Z.

Definition rand : ST nat Z := fun n => Ret (rnd n, S n).

(** ** Matrix product *)

Definition rand_double (n : nat) : double := ddiv (double_of (rnd n)) (double_of RAND_MAX).

Definition matrix_init (size : Z) : ST nat (matrix * matrix * matrix) :=
  for_z (Z.to_nat size) 0 (fun i m =>
    for_z (Z.to_nat size) 0 (fun j '(a, b, c) =>
      x ← rand;
      a ← lift_o (mset size a i j (ddiv (double_of x) (double_of RAND_MAX)));
      y ← rand;
      b ← lift_o (mset size b i j (ddiv (double_of y) (double_of RAND_MAX)));
      c ← lift_o (mset size c i j d0);
      mret (a, b, c)) m) (∅, ∅, ∅).

Definition matrix_mul (size : Z) (a b c : matrix) : ST nat matrix :=
  for_z (Z.to_nat size) 0 (fun i c =>
    for_z (Z.to_nat size) 0 (fun j c =>
      for_z (Z.to_nat size) 0 (fun k c =>
        x ← lift_o (mget c i j);
        y ← lift_o (mget a i k);
        z ← lift_o (mget b k j);
        lift_o (mset size c i j (dadd x (dmul y z)))) c) c) c.

Definition matrix_checksum (size : Z) (c : matrix) : ST nat double :=
  for_z (Z.to_nat size) 0 (fun i acc =>
    for_z (Z.to_nat size) 0 (fun j acc =>
      x ← lift_o (mget c i j);
      mret (dadd acc x)) acc) d0.

(** [alloc_ok] tells whether every [malloc] succeeded: the code does not look,
    and uses every row it asked for. *)
Definition stress_cpu_matrix (alloc_ok : bool) (size : Z) : ST nat Z :=
  let size := if size <=? 0 then 64 else size in
  if negb alloc_ok then undef
  else
    '(a, b, c) ← matrix_init size;
    c ← matrix_mul size a b c;
    checksum ← matrix_checksum size c;
    mret (if dltb checksum d0 then EXIT_FAILURE else EXIT_SUCCESS).

(** *** Reference: the product and the sum of its entries *)

(** [x_0 y_0 + ... + x_(n-1) y_(n-1)], summed from the left. *)
Fixpoint dot (x y : Z -> double) (n : nat) : double :=
  match n with
  | O => d0
  | S n => dadd (dot x y n) (dmul (x (Z.of_nat n)) (y (Z.of_nat n)))
  end.

Definition entries (size : Z) (m : matrix) (f : Z -> Z -> double) : Prop :=
  forall i j, 0 <= i < size -> 0 <= j < size -> m !! (i, j) = Some (f i j).

(** The cells before [(i, j)] in row-major order. *)
Definition done_cell (i j i' j' : Z) : Prop := i' < i \/ (i' = i /\ j' < j).

Definition filled (size i j : Z) (m : matrix) (f : Z -> Z -> double) : Prop :=
  forall i' j', 0 <= i' < size -> 0 <= j' < size -> done_cell i j i' j' -> m !! (i', j') = Some (f i' j').

Lemma filled_set size i j m f :
  0 <= i < size -> 0 <= j < size -> filled size i j m f -> filled size i (j + 1) (<[(i, j) := f i j]> m) f.
Proof.
  intros Hi Hj Hf i' j' Hi' Hj' Hd. destruct (decide ((i', j') = (i, j))) as [[= -> ->]|Hne].
  - by rewrite lookup_insert_eq.
  - rewrite lookup_insert_ne by done. apply Hf; [done|done|].
    destruct Hd as [?|[-> ?]]; [by left|right]. split; [done|]. destruct (decide (j' = j)) as [->|]; [done|lia].
Qed.

Lemma filled_row size i m f : filled size i size m f <-> filled size (i + 1) 0 m f.
Proof.
  split; intros H i' j' Hi' Hj' Hd; apply H; try done; unfold done_cell in *; lia.
Qed.

Lemma filled_all size m f : filled size size 0 m f <-> entries size m f.
Proof.
  split; [intros H i j Hi Hj; apply H; unfold done_cell; lia|intros H i j Hi Hj _; by apply H].
Qed.

(** Where the random entry of a cell comes from: two calls per cell. *)
Definition cell_index (size : Z) (s i j : Z) : nat := Z.to_nat (s + 2 * (i * size + j)).
Definition a_entry (size : Z) (s : nat) (i j : Z) : double := rand_double (cell_index size (Z.of_nat s) i j).
Definition b_entry (size : Z) (s : nat) (i j : Z) : double := rand_double (S (cell_index size (Z.of_nat s) i j)).

Lemma matrix_init_spec size s :
  0 < size ->
  wp (matrix_init size) (fun '(a, b, c) s' =>
    Z.of_nat s' = Z.of_nat s + 2 * size * size /\ entries size a (a_entry size s) /\ entries size b (b_entry size s) /\
    entries size c (fun _ _ => d0)) s.
Proof.
  intros Hs.
  set (I i j := fun (m : matrix * matrix * matrix) (s' : nat) =>
    Z.of_nat s' = Z.of_nat s + 2 * (i * size + j) /\ filled size i j m.1.1 (a_entry size s) /\
    filled size i j m.1.2 (b_entry size s) /\ filled size i j m.2 (fun _ _ => d0)).
  apply (wp_for (fun i => I i 0)).
  - unfold I. cbn. split_and!; [lia|..]; intros i' j' Hi' Hj' Hd; unfold done_cell in Hd; lia.
  - intros i m s1 Hi Hm. apply (wp_for (I i)); [done| |].
    + clear m s1 Hm. intros j [[a b] c] s1 Hj (E & Ha & Hb & Hc). cbn in Ha, Hb, Hc.
      apply wp_bind. cbn [wp rand]. unfold wp, rand. apply wp_bind.
      eapply wp_lift_o; [apply mset_ok; lia|]. apply wp_bind. unfold wp at 1. apply wp_bind.
      eapply wp_lift_o; [apply mset_ok; lia|]. apply wp_bind.
      eapply wp_lift_o; [apply mset_ok; lia|]. apply wp_ret.
      assert (s1 = cell_index size (Z.of_nat s) i j) as -> by (unfold cell_index; lia).
      split; [lia|]. cbn. split_and!.
      * apply (filled_set size i j a (a_entry size s)); [lia|lia|done].
      * apply (filled_set size i j b (b_entry size s)); [lia|lia|done].
      * apply (filled_set size i j c (fun _ _ => d0)); [lia|lia|done].
    + clear m s1 Hm. intros m s1 (E & H1 & H2 & H3). rewrite Z2Nat.id in * by lia.
      split; [lia|]. cbn. by rewrite <- !filled_row.
  - intros [[a b] c] s1 (E & H1 & H2 & H3). rewrite Z2Nat.id, Z.add_0_l in * by lia. cbn in *.
    split; [lia|]. by rewrite <- !filled_all.
Qed.

(** Entry [(i, j)] of the product. *)
Definition product (size : Z) (f g : Z -> Z -> double) (i j : Z) : double :=
  dot (f i) (fun k => g k j) (Z.to_nat size).

(** The product up to cell [(i, j)], zero from there on. *)
Definition product_upto (size i j : Z) (f g : Z -> Z -> double) (c : matrix) : Prop :=
  forall i' j', 0 <= i' < size -> 0 <= j' < size ->
    (done_cell i j i' j' -> c !! (i', j') = Some (product size f g i' j')) /\
    (~ done_cell i j i' j' -> c !! (i', j') = Some d0).

Lemma product_upto_set size i j f g c :
  0 <= i < size -> 0 <= j < size -> product_upto size i j f g c ->
  product_upto size i (j + 1) f g (<[(i, j) := product size f g i j]> c).
Proof.
  intros Hi Hj Hp i' j' Hi' Hj'. destruct (decide ((i', j') = (i, j))) as [[= -> ->]|Hne].
  - rewrite lookup_insert_eq. split; [done|]. intros []. right. lia.
  - rewrite lookup_insert_ne by done. destruct (Hp i' j' Hi' Hj') as [H1 H2].
    assert (i' = i -> j' <> j) by congruence.
    split; intros Hd; [apply H1|apply H2]; unfold done_cell in *; lia.
Qed.

Lemma product_upto_row size i f g c : product_upto size i size f g c -> product_upto size (i + 1) 0 f g c.
Proof.
  intros H i' j' Hi' Hj'. destruct (H i' j' Hi' Hj') as [H1 H2].
  split; intros Hd; [apply H1|apply H2]; unfold done_cell in *; lia.
Qed.

(** The three loops compute the product. *)
Lemma matrix_mul_spec size a b c f g s :
  0 < size -> entries size a f -> entries size b g -> entries size c (fun _ _ => d0) ->
  wp (matrix_mul size a b c) (fun c' s' => s' = s /\ entries size c' (product size f g)) s.
Proof.
  intros Hs Ha Hb Hc.
  apply (wp_for (fun i c s' => s' = s /\ product_upto size i 0 f g c)).
  - split; [done|]. intros i j Hi Hj. split; [unfold done_cell; lia|]. intros _. by apply Hc.
  - intros i c1 s1 Hi [-> H1]. apply (wp_for (fun j c s' => s' = s /\ product_upto size i j f g c)); [done| |].
    + clear c1 H1. intros j c1 s1 Hj [-> H1].
      apply (wp_for (fun k c s' => s' = s /\ c = <[(i, j) := dot (f i) (fun k => g k j) (Z.to_nat k)]> c1)).
      * split; [done|]. cbn. symmetry. apply insert_id. apply H1; unfold done_cell; lia.
      * intros k c2 s2 Hk [-> ->]. apply wp_bind. eapply wp_lift_o; [unfold mget; by rewrite lookup_insert_eq|].
        apply wp_bind. eapply wp_lift_o; [unfold mget; by rewrite Ha by lia|].
        apply wp_bind. eapply wp_lift_o; [unfold mget; by rewrite Hb by lia|].
        eapply wp_lift_o; [apply mset_ok; lia|]. split; [done|]. rewrite insert_insert_eq.
        replace (Z.to_nat (k + 1)) with (S (Z.to_nat k)) by lia. cbn [dot]. by rewrite Z2Nat.id by lia.
      * intros c2 s2 [-> ->]. split; [done|]. rewrite Z.add_0_l, Nat2Z.id.
        apply product_upto_set; [lia|lia|done].
    + clear c1 H1. intros c1 s1 [-> H1]. split; [done|]. apply product_upto_row.
      by rewrite Z2Nat.id, Z.add_0_l in H1 by lia.
  - intros c1 s1 [-> H1]. split; [done|]. intros i j Hi Hj. apply H1; unfold done_cell; lia.
Qed.

(** *** Signs *)

(** Not below zero; the results of adding and multiplying such numbers are
    again. *)
Definition nonneg (x : spec_float) : bool :=
  match x with S754_finite s _ _ | S754_infinity s => negb s | _ => true end.

Lemma nonneg_round_aux prec emax m e l : nonneg (binary_round_aux prec emax false m e l) = true.
Proof.
  unfold binary_round_aux. destruct (shr_fexp prec emax m e l) as [r1 e1].
  destruct (shr_fexp prec emax _ e1 _) as [r2 e2]. destruct (shr_m r2); [done| |done]. by destruct (_ <=? _).
Qed.

Lemma nonneg_normalize prec emax z e b : 0 <= z -> nonneg (binary_normalize prec emax z e b) = true.
Proof.
  intros Hz. destruct z as [|p|p]; [done| |lia]. cbn [binary_normalize]. unfold binary_round.
  destruct (shl_align _ _ _). apply nonneg_round_aux.
Qed.

Lemma nonneg_add x y : nonneg x = true -> nonneg y = true -> nonneg (dadd x y) = true.
Proof.
  destruct x as [[]|[]| |[] m e], y as [[]|[]| |[] m' e']; cbn; try done. intros _ _.
  by apply nonneg_normalize.
Qed.

Lemma nonneg_mul x y : nonneg x = true -> nonneg y = true -> nonneg (dmul x y) = true.
Proof.
  destruct x as [[]|[]| |[] m e], y as [[]|[]| |[] m' e']; cbn; try done. intros _ _. apply nonneg_round_aux.
Qed.

Lemma nonneg_div x m e : nonneg x = true -> nonneg (ddiv x (S754_finite false m e)) = true.
Proof.
  destruct x as [[]|[]| |[] m' e']; cbn; try done. intros _. unfold ddiv. cbn [SFdiv].
  destruct (SFdiv_core_binary _ _ _ _ _ _) as [[q e''] l]. apply nonneg_round_aux.
Qed.

Lemma nonneg_not_below x : nonneg x = true -> dltb x d0 = false.
Proof. by destruct x as [[]|[]| |[] m e]. Qed.

(** *** The workload *)

Section matrix.
(** The range of [rand]. *)
Hypothesis rand_range : forall n, 0 <= rnd n <= RAND_MAX.

Lemma nonneg_rand_double n : nonneg (rand_double n) = true.
Proof.
  unfold rand_double. assert (double_of RAND_MAX = S754_finite false 9007199250546688 (-22)) as -> by reflexivity.
  apply nonneg_div, nonneg_normalize. apply rand_range.
Qed.

Lemma nonneg_dot x y n :
  (forall k, nonneg (x k) = true) -> (forall k, nonneg (y k) = true) -> nonneg (dot x y n) = true.
Proof. intros Hx Hy. induction n as [|n IH]; [done|]. by apply nonneg_add, nonneg_mul. Qed.

Lemma matrix_checksum_nonneg size c f s :
  0 < size -> entries size c f -> (forall i j, nonneg (f i j) = true) ->
  wp (matrix_checksum size c) (fun x s' => s' = s /\ nonneg x = true) s.
Proof.
  intros Hs Hc Hf. apply (wp_for (fun _ x s' => s' = s /\ nonneg x = true)); [done| |done].
  intros i x s1 Hi Hx. apply (wp_for (fun _ x s' => s' = s /\ nonneg x = true)); [done| |done].
  clear x s1 Hx. intros j x s1 Hj [-> Hx]. apply wp_bind. eapply wp_lift_o; [unfold mget; by rewrite Hc by lia|].
  apply wp_ret. split; [done|]. by apply nonneg_add.
Qed.

Lemma stress_cpu_matrix_ok size s :
  let n := if size <=? 0 then 64 else size in
  exists s', stress_cpu_matrix true size s = Ret (EXIT_SUCCESS, s') /\ Z.of_nat s' = Z.of_nat s + 2 * n * n.
Proof.
  intros n. assert (0 < n) as Hn by (unfold n; destruct (Z.leb_spec size 0); lia).
  assert (wp (stress_cpu_matrix true size) (fun r s' => r = EXIT_SUCCESS /\ Z.of_nat s' = Z.of_nat s + 2 * n * n) s) as H.
  { unfold stress_cpu_matrix. fold n. cbn [negb]. apply wp_bind.
    eapply wp_mono; [by apply matrix_init_spec|]. cbn beta. intros [[a b] c] s1 (Es & Ha & Hb & Hc).
    apply wp_bind. eapply wp_mono; [by eapply matrix_mul_spec|]. cbn beta. intros c1 s2 [-> Hc1].
    apply wp_bind. eapply wp_mono; [eapply matrix_checksum_nonneg; [done|done|]|].
    { intros i j. apply nonneg_dot; intros k; apply nonneg_rand_double. }
    cbn beta. intros x s2 [-> Hx]. apply wp_ret. by rewrite nonneg_not_below. }
  apply wp_inv in H as (r & s' & E & -> & Es). by exists s'.
Qed.

End matrix.

(** ** Memory accesses *)

(** [n] calls of [rand] into consecutive elements. *)
Fixpoint fill (n : nat) : ST nat (list Z) :=
  match n with O => mret [] | S n => x ← rand; l ← fill n; mret (x :: l) end.

Section memory.
(** How [int]s are added. *)
Variable add : Z -> Z -> outcome Z.

Definition memory_access (num_ints : Z) (i : Z) (st : list Z * Z) : ST nat (list Z * Z) :=
  let '(buffer, checksum) := st in
  r ← rand;
  let idx := u64 r mod num_ints in
  x ← lift_o (aget buffer idx);
  checksum ← lift_o (add checksum x);
  buffer ← lift_o (aset buffer idx (i32 (Z.lxor (u64 checksum) i)));
  mret (buffer, checksum).

Definition memory_with (alloc_ok : bool) (size_mb : Z) : ST nat Z :=
  let size_mb := if size_mb <=? 0 then 16 else size_mb in
  kb ← lift_o (mul_int size_mb 1024);
  bytes ← lift_o (mul_int kb 1024);
  let total_size := u64 bytes in
  let num_ints := total_size / 4 in
  if negb alloc_ok then mret EXIT_FAILURE
  else
    buffer ← fill (Z.to_nat num_ints);
    '(_, checksum) ← for_z (Z.to_nat (num_ints / 4)) 0 (memory_access num_ints) (buffer, 0);
    mret (if checksum =? 0x12345678 then EXIT_FAILURE else EXIT_SUCCESS).

End memory.

(** The sum of the elements is an [int]; its overflow is undefined. *)
Definition stress_cpu_memory : bool -> Z -> ST nat Z := memory_with add_int.

Lemma fill_spec n s : exists l, fill n s = Ret (l, (s + n)%nat) /\ length l = n /\
  forall k, (k < n)%nat -> l !! k = Some (rnd (s + k)).
Proof.
  revert s. induction n as [|n IH]; intros s; cbn [fill].
  - exists []. rewrite Nat.add_0_r. split_and!; [done|done|lia].
  - destruct (IH (S s)) as (l & E & El & Hl). exists (rnd s :: l).
    unfold mbind, ST_bind, rand. rewrite E. replace (s + S n)%nat with (S s + n)%nat by lia.
    split_and!; [done|cbn; lia|].
    intros [|k] Hk; cbn; [by rewrite Nat.add_0_r|]. rewrite Hl by lia. f_equal. f_equal. lia.
Qed.

Lemma mul_int_ub a b : 2 ^ 31 <= a * b \/ a * b < - 2 ^ 31 -> mul_int a b = UB.
Proof.
  intros [H|H]; unfold mul_int, int_ok; [rewrite (proj2 (Z.ltb_ge _ _)) by lia; by rewrite andb_false_r|].
  by rewrite (proj2 (Z.leb_gt _ _)) by lia.
Qed.

Lemma add_int_ub a b : 2 ^ 31 <= a + b -> add_int a b = UB.
Proof.
  intros H. unfold add_int, int_ok. rewrite (proj2 (Z.ltb_ge _ _)) by lia. by rewrite andb_false_r.
Qed.

(** The size in megabytes after the default, and the number of elements. *)
Definition megabytes (size_mb : Z) : Z := if size_mb <=? 0 then 16 else size_mb.
Definition elements (size_mb : Z) : Z := megabytes size_mb * 262144.

Lemma memory_size add size_mb s :
  megabytes size_mb < 2048 ->
  memory_with add true size_mb s =
  (buffer ← fill (Z.to_nat (elements size_mb));
   '(_, checksum) ← for_z (Z.to_nat (elements size_mb / 4)) 0 (memory_access add (elements size_mb)) (buffer, 0);
   mret (if checksum =? 0x12345678 then EXIT_FAILURE else EXIT_SUCCESS)) s.
Proof.
  intros Hs. unfold memory_with. fold (megabytes size_mb).
  assert (0 < megabytes size_mb) as Hp by (unfold megabytes; destruct (Z.leb_spec size_mb 0); lia).
  rewrite mul_int_ok by lia. unfold mbind at 1, ST_bind at 1. cbn [lift_o].
  rewrite mul_int_ok by lia. unfold mbind at 1, ST_bind at 1. cbn [lift_o negb].
  rewrite wrapu_id by (unfold in_u; lia).
  replace (megabytes size_mb * 1024 * 1024) with (megabytes size_mb * 262144 * 4) by lia.
  by rewrite Z.div_mul by done.
Qed.

(** Every access is inside the buffer: when sums wrap around, as they do when
    the compiler gives them that meaning, the workload returns. *)
Lemma memory_wrapped_ok size_mb s :
  megabytes size_mb < 2048 ->
  exists r s', memory_with (fun a b => Ret (i32 (a + b))) true size_mb s = Ret (r, s').
Proof.
  intros Hs. set (n := elements size_mb).
  assert (0 < n) as Hn by (unfold n, elements, megabytes; destruct (Z.leb_spec size_mb 0); lia).
  assert (wp (memory_with (fun a b => Ret (i32 (a + b))) true size_mb) (fun _ _ => True) s) as H.
  { unfold wp. rewrite memory_size by done. fold n.
    change (wp (buffer ← fill (Z.to_nat n);
      '(_, checksum) ← for_z (Z.to_nat (n / 4)) 0 (memory_access (fun a b => Ret (i32 (a + b))) n) (buffer, 0);
      mret (if checksum =? 0x12345678 then EXIT_FAILURE else EXIT_SUCCESS)) (fun _ _ => True) s).
    apply wp_bind. destruct (fill_spec (Z.to_nat n) s) as (l & E & El & _). unfold wp at 1. rewrite E.
    apply wp_bind. apply (wp_for (fun _ st _ => blen st.1 = n)); [cbn; lia| |].
    - intros i [buffer checksum] s1 _ Hb. cbn in Hb. unfold memory_access.
      apply wp_bind. unfold wp at 1, rand.
      pose proof (Z.mod_pos_bound (u64 (rnd s1)) n Hn) as Hidx.
      destruct (aget_ok buffer (u64 (rnd s1) mod n)) as (x & _ & Ex); [lia|].
      apply wp_bind. eapply wp_lift_o; [exact Ex|]. apply wp_bind. eapply wp_lift_o; [done|].
      apply wp_bind. eapply wp_lift_o; [apply aset_ok; lia|]. apply wp_ret. cbn. by rewrite length_insert.
    - intros [buffer checksum] s1 _. by apply wp_ret. }
  apply wp_inv in H as (r & s' & E & _). by exists r, s'.
Qed.

(** An access with the element it finds. *)
Lemma memory_access_run add n i l checksum s x :
  0 < n <= blen l -> l !! Z.to_nat (u64 (rnd s) mod n) = Some x ->
  memory_access add n i (l, checksum) s =
  (c ← add checksum x; Ret ((<[Z.to_nat (u64 (rnd s) mod n) := i32 (Z.lxor (u64 c) i)]> l, c), S s)).
Proof.
  intros Hn Ex. pose proof (Z.mod_pos_bound (u64 (rnd s)) n ltac:(lia)).
  unfold memory_access, mbind, ST_bind, outcome_bind, rand, aget. rewrite (proj2 (Z.leb_le _ _)) by lia. rewrite Ex. cbn [lift_o].
  destruct (add checksum x) as [c|]; [|done]. cbn [lift_o]. rewrite aset_ok by lia. done.
Qed.

(** Two accesses to elements whose sum is no [int] are enough for undefined
    behaviour; the largest values of [rand] are such. *)
Lemma memory_overflows size_mb s :
  megabytes size_mb < 2048 -> (forall n, rnd n = RAND_MAX) -> stress_cpu_memory true size_mb s = UB.
Proof.
  intros Hs Hr. unfold stress_cpu_memory. rewrite memory_size by done. set (n := elements size_mb).
  assert (262144 <= n) as Hn by (unfold n, elements, megabytes; destruct (Z.leb_spec size_mb 0); lia).
  destruct (fill_spec (Z.to_nat n) s) as (l & E & El & Hl).
  unfold mbind at 1, ST_bind at 1. rewrite E.
  assert (8 <= n / 4) as Hq by (apply Z.div_le_lower_bound; lia).
  replace (Z.to_nat (n / 4)) with (S (S (Z.to_nat (n / 4 - 2)))) by lia. cbn [for_z].
  assert (0 <= RAND_MAX mod n < n) as Hidx by (apply Z.mod_pos_bound; lia).
  assert (l !! Z.to_nat (u64 RAND_MAX mod n) = Some RAND_MAX) as Eg.
  { change (u64 RAND_MAX) with RAND_MAX. by rewrite Hl, Hr by lia. }
  unfold mbind at 1 2, ST_bind at 1 2.
  rewrite (memory_access_run _ _ _ _ _ _ RAND_MAX) by (rewrite ?Hr; (done || lia)).
  rewrite (add_int_ok 0 RAND_MAX) by (unfold RAND_MAX; lia). cbn [mbind outcome_bind].
  unfold mbind at 1, ST_bind at 1.
  rewrite (memory_access_run _ _ _ _ _ _ RAND_MAX);
    [|rewrite length_insert; lia|rewrite !Hr; apply list_lookup_insert_eq; change (u64 RAND_MAX) with RAND_MAX; lia].
  by rewrite add_int_ub by (unfold RAND_MAX; lia).
Qed.

(** From 2048 MB on the size itself overflows. *)
Lemma memory_size_overflows alloc_ok size_mb s : 2048 <= size_mb < 2 ^ 31 -> stress_cpu_memory alloc_ok size_mb s = UB.
Proof.
  intros Hs. unfold stress_cpu_memory, memory_with. rewrite (proj2 (Z.leb_gt _ _)) by lia. unfold mbind, ST_bind.
  destruct (Z.lt_ge_cases (size_mb * 1024) (2 ^ 31)).
  - rewrite mul_int_ok by lia. cbn [lift_o]. by rewrite mul_int_ub by lia.
  - by rewrite mul_int_ub by lia.
Qed.

(** ** Hash rounds *)

Definition hash_init : list Z :=
  [0x6a09e667; 0xbb67ae85; 0x3c6ef372; 0xa54ff53a; 0x510e527f; 0x9b05688c; 0x1f83d9ab; 0x5be0cd19].

Definition rotl1 (w : Z) : Z := Z.lor (u32 (Z.shiftl w 1)) (Z.shiftr w 31).

Definition hash_step (data : list Z) (i : Z) (hash : list Z) : outcome (list Z) :=
  w ← aget data (i mod 16);
  h ← aget hash (i mod 8);
  let w := Z.lxor (rotl1 w) h in
  h7 ← aget hash 7;
  let temp := u32 (h7 + w + i) in
  h6 ← aget hash 6; hash ← aset hash 7 h6;
  h5 ← aget hash 5; hash ← aset hash 6 h5;
  h4 ← aget hash 4; hash ← aset hash 5 h4;
  h3 ← aget hash 3; hash ← aset hash 4 (u32 (h3 + temp));
  h2 ← aget hash 2; hash ← aset hash 3 h2;
  h1 ← aget hash 1; hash ← aset hash 2 h1;
  h0 ← aget hash 0; hash ← aset hash 1 h0;
  aset hash 0 temp.

(** The body of the loop over the rounds. *)
Definition crypto_round (st : list Z * list Z) : ST nat (list Z * list Z) :=
  let '(hash, data) := st in
  hash ← for_z 64 0 (fun i hash => lift_o (hash_step data i hash)) hash;
  data ← for_z 16 0 (fun i data =>
    d ← lift_o (aget data i);
    h ← lift_o (aget hash (i mod 8));
    lift_o (aset data i (Z.lxor d h))) data;
  mret (hash, data).

Definition stress_cpu_crypto (rounds : Z) : ST nat Z :=
  let rounds := if rounds <=? 0 then 1000 else rounds in
  data ← fill 16;
  '(hash, _) ← for_z (Z.to_nat rounds) 0 (fun _ => crypto_round) (hash_init, u32 <$> data);
  final_hash ← for_z 8 0 (fun i acc => h ← lift_o (aget hash i); mret (Z.lxor acc h)) 0;
  mret (if final_hash =? 0 then EXIT_FAILURE else EXIT_SUCCESS).

(** *** Reference: a shift register of eight words *)

Definition register_step (data : list Z) (hash : list Z) (i : Z) : list Z :=
  match hash with
  | [h0; h1; h2; h3; h4; h5; h6; h7] =>
      let w := Z.lxor (rotl1 (nth (Z.to_nat (i mod 16)) data 0)) (nth (Z.to_nat (i mod 8)) hash 0) in
      let temp := u32 (h7 + w + i) in
      [temp; h0; h1; h2; u32 (h3 + temp); h4; h5; h6]
  | _ => hash
  end.

Definition register_round (st : list Z * list Z) : list Z * list Z :=
  let hash := foldl (register_step (snd st)) (fst st) (seqZ 0 64) in
  (hash, zip_with Z.lxor (snd st) (hash ++ hash)).

Lemma aget_nth l i : 0 <= i < blen l -> aget l i = Ret (nth (Z.to_nat i) l 0).
Proof.
  intros Hi. destruct (aget_ok l i Hi) as (x & E & ->). f_equal. symmetry. by apply nth_lookup_Some.
Qed.

Lemma length_8 {A} (l : list A) : length l = 8%nat -> exists a b c d e f g h, l = [a; b; c; d; e; f; g; h].
Proof. intros H. do 8 (destruct l as [|? l]; [done|]). destruct l; [by do 8 eexists|done]. Qed.

Lemma hash_step_register data i hash :
  length data = 16%nat -> length hash = 8%nat -> hash_step data i hash = Ret (register_step data hash i).
Proof.
  intros Hd (h0 & h1 & h2 & h3 & h4 & h5 & h6 & h7 & ->)%length_8.
  pose proof (Z.mod_pos_bound i 16 ltac:(lia)). pose proof (Z.mod_pos_bound i 8 ltac:(lia)).
  unfold hash_step. rewrite (aget_nth data) by lia. cbn [mbind outcome_bind].
  rewrite (aget_nth _ (i mod 8)) by (cbn; lia). done.
Qed.

Lemma register_step_length data hash i : length hash = 8%nat -> length (register_step data hash i) = 8%nat.
Proof. by intros (? & ? & ? & ? & ? & ? & ? & ? & ->)%length_8. Qed.

(** A loop whose body is a function is a fold. *)
Lemma for_z_fold {A} (body : Z -> A -> ST nat A) (f : A -> Z -> A) (P : A -> Prop) n i a s :
  P a -> (forall j a s, i <= j < i + Z.of_nat n -> P a -> body j a s = Ret (f a j, s) /\ P (f a j)) ->
  for_z n i body a s = Ret (foldl f a (seqZ i (Z.of_nat n)), s) /\ P (foldl f a (seqZ i (Z.of_nat n))).
Proof.
  revert i a. induction n as [|n IH]; intros i a Ha Hb; [done|].
  rewrite seqZ_cons by lia. cbn [for_z foldl]. replace (Z.pred (Z.of_nat (S n))) with (Z.of_nat n) by lia.
  destruct (Hb i a s) as [E HP]; [lia|done|]. unfold mbind, ST_bind. rewrite E.
  replace (Z.succ i) with (i + 1) by lia. apply IH; [done|]. intros j b t Hj. apply Hb. lia.
Qed.

Lemma crypto_round_register hash data s :
  length hash = 8%nat -> length data = 16%nat ->
  crypto_round (hash, data) s = Ret (register_round (hash, data), s) /\
  length (register_round (hash, data)).1 = 8%nat /\ length (register_round (hash, data)).2 = 16%nat.
Proof.
  intros Hh Hd. unfold crypto_round, register_round. cbn [fst snd].
  destruct (for_z_fold (fun i hash => lift_o (hash_step data i hash)) (register_step data)
    (fun h => length h = 8%nat) 64 0 hash s) as [E Hl]; [done| |].
  { intros j h t _ Hlen. rewrite hash_step_register by done. split; [done|by apply register_step_length]. }
  change (Z.of_nat 64) with 64 in *. unfold mbind, ST_bind. rewrite E.
  set (h := foldl _ hash _) in *. clearbody h.
  apply length_8 in Hl as (h0 & h1 & h2 & h3 & h4 & h5 & h6 & h7 & ->).
  do 16 (destruct data as [|? data]; [done|]). destruct data; [|done]. split_and!; reflexivity.
Qed.

(** The hash after the rounds, from the random data. *)
Definition crypto_hash (rounds : Z) (s : nat) : list Z :=
  fst (foldl (fun st _ => register_round st) (hash_init, (fun k => u32 (rnd (s + k)%nat)) <$> seq 0 16) (seqZ 0 rounds)).

(** The workload is total: it indexes inside its arrays, and returns a failure
    only when the exclusive or of the eight words is zero. *)
Lemma stress_cpu_crypto_ok rounds s :
  stress_cpu_crypto rounds s =
  Ret (if foldl Z.lxor 0 (crypto_hash (if rounds <=? 0 then 1000 else rounds) s) =? 0 then EXIT_FAILURE else EXIT_SUCCESS,
       (s + 16)%nat).
Proof.
  unfold stress_cpu_crypto, crypto_hash. set (n := if rounds <=? 0 then 1000 else rounds).
  destruct (fill_spec 16 s) as (l & E & El & Hl). unfold mbind at 1, ST_bind at 1. rewrite E.
  assert (u32 <$> l = (fun k => u32 (rnd (s + k)%nat)) <$> seq 0 16) as ->.
  { apply list_eq. intros k. rewrite !list_lookup_fmap. destruct (decide (k < 16)%nat).
    - by rewrite Hl, lookup_seq_lt by lia.
    - by rewrite (lookup_ge_None_2 l), (lookup_ge_None_2 (seq 0 16)) by (rewrite ?length_seq; lia). }
  set (st0 := (hash_init, (fun k => u32 (rnd (s + k)%nat)) <$> seq 0 16)).
  destruct (for_z_fold (fun _ => crypto_round) (fun st _ => register_round st)
    (fun st => length st.1 = 8%nat /\ length st.2 = 16%nat) (Z.to_nat n) 0 st0 (s + 16)) as [Er [Hh _]]; [done| |].
  { intros j [h d] t _ [Hh Hd]. by apply crypto_round_register. }
  unfold mbind, ST_bind. rewrite Er, Z2Nat.id in * by (unfold n; destruct (Z.leb_spec rounds 0); lia).
  destruct (foldl _ st0 _) as [h d]. cbn [fst] in *.
  apply length_8 in Hh as (h0 & h1 & h2 & h3 & h4 & h5 & h6 & h7 & ->). reflexivity.
Qed.

(** ** The other workloads, the mixture and the busy loop *)

(** [long double] of x86-64; the workload returns there ([nsqrt_x87]). *)
Definition nsqrt : outcome Z := stress_cpu_nsqrt 64 16384.

(** Enough turns for the loops of the two workloads of SampleApps; without
    them they would not return. *)
Definition fibonacci : outcome Z :=
  match stress_cpu_fibonacci 92 with Some (status, _) => Ret status | None => UB end.
Definition prime (alloc_ok : bool) (limit : Z) : outcome Z :=
  r ← stress_cpu_prime (Z.to_nat ((if limit <=? 0 then 100000 else limit) + 2)) alloc_ok limit;
  match r with Some (status, _) => Ret status | None => UB end.

Definition stress_cpu_mixed (alloc_ok : bool) (intensity : Z) : ST nat Z :=
  let intensity := if intensity <=? 0 then 10 else intensity in
  let result := EXIT_SUCCESS in
  let case := Z.rem intensity 4 in
  if case =? 0 then
    r ← lift_o nsqrt;
    let result := Z.lor result r in
    size ← lift_o (add_int 8 intensity);
    r ← stress_cpu_matrix alloc_ok size;
    mret (Z.lor result r)
  else if case =? 1 then
    r ← lift_o fibonacci;
    let result := Z.lor result r in
    rounds ← lift_o (mul_int 100 intensity);
    r ← stress_cpu_crypto rounds;
    mret (Z.lor result r)
  else if case =? 2 then
    size ← lift_o (add_int 1 (Z.quot intensity 10));
    r ← stress_cpu_memory alloc_ok size;
    let result := Z.lor result r in
    k ← lift_o (mul_int intensity 1000);
    limit ← lift_o (add_int 10000 k);
    r ← lift_o (prime alloc_ok limit);
    mret (Z.lor result r)
  else
    r ← stress_cpu_matrix alloc_ok 16;
    let result := Z.lor result r in
    rounds ← lift_o (mul_int 50 intensity);
    r ← stress_cpu_crypto rounds;
    let result := Z.lor result r in
    r ← lift_o nsqrt;
    mret (Z.lor result r).

(** The CPU time of the thread, read by the successive calls. *)
Variable cpu_clock : nat -> timespec.

Definition get_cpu_time : ST nat Z := fun n => ns ← app_ts_ns (cpu_clock n); Ret (u64 ns, S n).

(** [while(1) if (... >= runtime_ns) break;], [None] when the fuel ends first. *)
Fixpoint busy_wait (fuel : nat) (start_ns runtime_ns : Z) : ST nat (option unit) :=
  match fuel with
  | O => mret None
  | S fuel =>
      t ← get_cpu_time;
      if runtime_ns <=? u64 (t - start_ns) then mret (Some tt) else busy_wait fuel start_ns runtime_ns
  end.

Definition stress_cpu_busyloop (fuel : nat) (runtime_us : Z) : ST nat (option unit) :=
  ns ← lift_o (mul_int runtime_us 1000);
  let runtime_ns := u64 ns in
  start_ns ← get_cpu_time;
  busy_wait fuel start_ns runtime_ns.

Definition ALGO_NSQRT : Z := 1.
Definition ALGO_FIBO : Z := 2.
Definition ALGO_BUSY : Z := 3.
Definition ALGO_MATRIX : Z := 4.
Definition ALGO_MEMORY : Z := 5.
Definition ALGO_CRYPTO : Z := 6.
Definition ALGO_MIXED : Z := 7.
Definition ALGO_PRIME : Z := 8.

(** [for (int i = 0; i < loop_count; i++) body(i);], the results dropped. *)
Definition repeat_job {A} (loop_count : Z) (body : Z -> ST nat A) : ST nat (option unit) :=
  _ ← for_z (Z.to_nat loop_count) 0 (fun i _ => _ ← body i; mret tt) tt;
  mret (Some tt).

(** [None] while the busy loop runs. *)
Definition do_calculations (fuel : nat) (alloc_ok : bool) (algo loop_count : Z) : ST nat (option unit) :=
  if algo =? ALGO_NSQRT then repeat_job loop_count (fun _ => lift_o nsqrt)
  else if algo =? ALGO_FIBO then repeat_job loop_count (fun _ => lift_o fibonacci)
  else if algo =? ALGO_BUSY then stress_cpu_busyloop fuel loop_count
  else if algo =? ALGO_MATRIX then
    repeat_job loop_count (fun i =>
      k ← lift_o (mul_int i 4);
      size ← lift_o (add_int 32 k);
      stress_cpu_matrix alloc_ok size)
  else if algo =? ALGO_MEMORY then (_ ← stress_cpu_memory alloc_ok loop_count; mret (Some tt))
  else if algo =? ALGO_CRYPTO then
    (rounds ← lift_o (mul_int loop_count 100); _ ← stress_cpu_crypto rounds; mret (Some tt))
  else if algo =? ALGO_MIXED then
    repeat_job loop_count (fun i => k ← lift_o (add_int i 1); stress_cpu_mixed alloc_ok k)
  else if algo =? ALGO_PRIME then
    (limit ← lift_o (mul_int loop_count 10000); _ ← lift_o (prime alloc_ok limit); mret (Some tt))
  else mret (Some tt).

(** *** Jobs that are computed *)

Lemma nsqrt_ok : nsqrt = Ret EXIT_SUCCESS.
Proof. exact nsqrt_x87. Qed.

Lemma fibonacci_ok : fibonacci = Ret EXIT_SUCCESS.
Proof. reflexivity. Qed.

Lemma prime_ok alloc_ok limit : limit < 46340 * 46340 -> exists r, prime alloc_ok limit = Ret r.
Proof.
  intros Hl. unfold prime. set (l := if limit <=? 0 then 100000 else limit).
  assert (0 < l < 46340 * 46340) as Hl' by (unfold l; destruct (Z.leb_spec limit 0); lia).
  destruct alloc_ok.
  - assert (stress_cpu_prime (Z.to_nat (l + 2)) true limit = stress_cpu_prime (Z.to_nat (l + 2)) true l) as ->.
    { unfold stress_cpu_prime. fold l. by rewrite (proj2 (Z.leb_gt l 0)) by lia. }
    rewrite (sieve_counts_primes l (Z.to_nat (l + 2)) Hl') by lia. by eexists.
  - unfold stress_cpu_prime. fold l. rewrite add_int_ok by lia. by eexists.
Qed.

Lemma repeat_job_ok {A} loop_count (body : Z -> ST nat A) s :
  (forall i s, 0 <= i < loop_count -> exists r s', body i s = Ret (r, s')) ->
  exists s', repeat_job loop_count body s = Ret (Some tt, s').
Proof.
  intros Hb. assert (wp (repeat_job loop_count body) (fun r _ => r = Some tt) s) as H.
  { apply wp_bind. apply (wp_for (fun _ _ _ => True)); [done| |].
    - intros j a t Hj _. apply wp_bind. destruct (Hb j t) as (r & t' & E); [lia|]. unfold wp. by rewrite E.
    - intros a t _. by apply wp_ret. }
  apply wp_inv in H as (r & s' & E & ->). by exists s'.
Qed.

(** What the parameter of a job must stay within, for the workloads that do
    not depend on the sums of random numbers or on the clock. *)
Definition job_bounds (algo loop_count : Z) : Prop :=
  algo = ALGO_NSQRT \/ algo = ALGO_FIBO \/
  (algo = ALGO_MATRIX /\ 4 * loop_count + 28 < 2 ^ 31) \/
  (algo = ALGO_CRYPTO /\ - 2 ^ 31 <= loop_count * 100 < 2 ^ 31) \/
  (algo = ALGO_PRIME /\ - 2 ^ 31 <= loop_count * 10000 < 46340 * 46340).

Lemma do_calculations_ok fuel algo loop_count s :
  (forall n, 0 <= rnd n <= RAND_MAX) -> job_bounds algo loop_count ->
  exists s', do_calculations fuel true algo loop_count s = Ret (Some tt, s').
Proof.
  intros Hr [->|[->|[[-> Hb]|[[-> Hb]|[-> Hb]]]]]; unfold do_calculations; cbn [Z.eqb Pos.eqb
    ALGO_NSQRT ALGO_FIBO ALGO_BUSY ALGO_MATRIX ALGO_MEMORY ALGO_CRYPTO ALGO_MIXED ALGO_PRIME].
  - apply repeat_job_ok. intros i t _. rewrite nsqrt_ok. by do 2 eexists.
  - apply repeat_job_ok. intros i t _. rewrite fibonacci_ok. by do 2 eexists.
  - apply repeat_job_ok. intros i t Hi. rewrite mul_int_ok by lia.
    unfold mbind, ST_bind. cbn [lift_o]. rewrite add_int_ok by lia. cbn [lift_o].
    destruct (stress_cpu_matrix_ok Hr (32 + i * 4) t) as (t' & E & _). rewrite E. by do 2 eexists.
  - rewrite mul_int_ok by lia. unfold mbind, ST_bind. cbn [lift_o]. rewrite stress_cpu_crypto_ok. by eexists.
  - rewrite mul_int_ok by lia. unfold mbind, ST_bind. cbn [lift_o].
    destruct (prime_ok true (loop_count * 10000)) as [r ->]; [lia|]. by eexists.
Qed.

(** *** The busy loop *)

(** The clock of the thread never goes back and is far from the end of its
    range. *)
Definition cpu_clock_ok : Prop :=
  (forall n, ts_norm (cpu_clock n) /\ 0 <= tv_sec (cpu_clock n) /\ ts_total_ns (cpu_clock n) < 2 ^ 62) /\
  (forall n, ts_total_ns (cpu_clock n) <= ts_total_ns (cpu_clock (S n))).

Lemma cpu_clock_mono m n : cpu_clock_ok -> (m <= n)%nat -> ts_total_ns (cpu_clock m) <= ts_total_ns (cpu_clock n).
Proof. intros [_ H]. induction 1 as [|n _ IH]; [lia|]. specialize (H n). lia. Qed.

Lemma get_cpu_time_ok n :
  cpu_clock_ok -> get_cpu_time n = Ret (ts_total_ns (cpu_clock n), S n) /\ 0 <= ts_total_ns (cpu_clock n) < 2 ^ 62.
Proof.
  intros [H _]. destruct (H n) as (H1 & H2 & H3).
  assert (0 <= ts_total_ns (cpu_clock n)) by (unfold ts_norm, ts_total_ns in *; lia).
  split; [|lia]. unfold get_cpu_time. rewrite app_ts_ns_ok by (done || lia). cbn [mbind outcome_bind].
  by rewrite wrapu_id by (unfold in_u; lia).
Qed.

(** The loop ends at the first reading that is late enough. *)
Lemma busy_wait_spec fuel start runtime s k :
  cpu_clock_ok -> (start < s)%nat -> 0 <= runtime < 2 ^ 63 -> (s <= k < s + fuel)%nat ->
  ts_total_ns (cpu_clock start) + runtime <= ts_total_ns (cpu_clock k) ->
  (forall n, (s <= n < k)%nat -> ts_total_ns (cpu_clock n) < ts_total_ns (cpu_clock start) + runtime) ->
  busy_wait fuel (ts_total_ns (cpu_clock start)) runtime s = Ret (Some tt, S k).
Proof.
  intros Hc. revert s. induction fuel as [|fuel IH]; intros s Hs Hr Hk Hlate Hearly; [lia|]. cbn [busy_wait].
  destruct (get_cpu_time_ok s Hc) as [E Hn]. destruct (get_cpu_time_ok start Hc) as [_ Hn0].
  pose proof (cpu_clock_mono start s Hc ltac:(lia)). unfold mbind, ST_bind. rewrite E.
  rewrite wrapu_id by (unfold in_u; lia). destruct (decide (s = k)) as [->|Hne].
  - by rewrite (proj2 (Z.leb_le _ _)) by lia.
  - specialize (Hearly s) as He. rewrite (proj2 (Z.leb_gt _ _)) by lia. apply IH; try done; [lia|lia|].
    intros n Hn'. apply Hearly. lia.
Qed.

(** A negative run time is taken for one of centuries: the loop runs on. *)
Lemma busy_wait_long fuel start runtime s :
  cpu_clock_ok -> (start < s)%nat -> 2 ^ 63 <= runtime ->
  busy_wait fuel (ts_total_ns (cpu_clock start)) runtime s = Ret (None, (s + fuel)%nat).
Proof.
  intros Hc. revert s. induction fuel as [|fuel IH]; intros s Hs Hr; cbn [busy_wait]; [by rewrite Nat.add_0_r|].
  destruct (get_cpu_time_ok s Hc) as [E Hn]. destruct (get_cpu_time_ok start Hc) as [_ Hn0].
  pose proof (cpu_clock_mono start s Hc ltac:(lia)). unfold mbind, ST_bind. rewrite E.
  rewrite wrapu_id by (unfold in_u; lia). rewrite (proj2 (Z.leb_gt _ _)) by lia.
  rewrite IH by (done || lia). f_equal. f_equal. lia.
Qed.

End workloads.

(** ** What the workloads do *)

(** With parameters inside their bounds, the square root, Fibonacci, matrix,
    hash and prime jobs run to the end: every loop terminates, every array
    access is inside its array, no [int] overflows, whatever [rand] returns. *)
Theorem job_computed rnd cpu_clock fuel algo loop_count s :
  (forall n, 0 <= rnd n <= RAND_MAX) -> job_bounds algo loop_count ->
  exists s', do_calculations rnd cpu_clock fuel true algo loop_count s = Ret (Some tt, s').
Proof. apply do_calculations_ok. Qed.

(** The default parameter of the command line, with the largest random
    numbers. *)
Lemma job_computed_witness :
  exists s', do_calculations (fun _ => RAND_MAX) (fun _ => mk_timespec 0 0) 0%nat true ALGO_MATRIX 10 0%nat = Ret (Some tt, s').
Proof.
  apply job_computed.
  - intros n. unfold RAND_MAX. lia.
  - unfold job_bounds. right. right. left. split; [reflexivity|lia].
Defined.

(** C36: The matrix workload multiplies its two random matrices: after the
    loops every entry is the scalar product of a row and a column, summed from
    the left in double precision.  If every allocation succeeds, the entries are
    never negative, so that the workload succeeds for every size, after two
    random numbers per entry; the code does not check the allocations, and when
    one fails the behaviour is undefined for every size. *)
Theorem matrix_workload rnd size s :
  (forall n, 0 <= rnd n <= RAND_MAX) ->
  let n := if size <=? 0 then 64 else size in
  wp ('(a, b, c) ← matrix_init rnd n; matrix_mul n a b c)
    (fun c s' => Z.of_nat s' = Z.of_nat s + 2 * n * n /\
       entries n c (product n (a_entry rnd n s) (b_entry rnd n s))) s /\
  (exists s', stress_cpu_matrix rnd true size s = Ret (EXIT_SUCCESS, s') /\ Z.of_nat s' = Z.of_nat s + 2 * n * n) /\
  stress_cpu_matrix rnd false size s = UB.
Proof.
  intros Hr n. assert (0 < n) as Hn by (unfold n; destruct (Z.leb_spec size 0); lia). split_and!; [| |done].
  - apply wp_bind. eapply wp_mono; [by apply matrix_init_spec|]. cbn beta. intros [[a b] c] s1 (Es & Ha & Hb & Hc).
    eapply wp_mono; [by eapply matrix_mul_spec|]. by intros c1 s2 [-> Hc1].
  - destruct (stress_cpu_matrix_ok rnd Hr size s) as (s' & E & Es). by exists s'.
Qed.

Lemma matrix_workload_witness : exists s',
  stress_cpu_matrix (fun n => Z.of_nat n mod 7) true 5 0%nat = Ret (EXIT_SUCCESS, s') /\ Z.of_nat s' = 50.
Proof.
  apply (matrix_workload (fun n => Z.of_nat n mod 7) 5 0%nat).
  intros n. pose proof (Z.mod_pos_bound (Z.of_nat n) 7 ltac:(lia)). unfold RAND_MAX. lia.
Defined.

(** C37: The busy loop consumes the CPU time it is given: it returns at the first
    reading of the thread's clock that is the run time or more after the start.
    From 2147484 microseconds on, and below -2147483, the product that gives the
    nanoseconds overflows, which is undefined; with a parameter from -2147483 to
    -1, which the command line accepts, the loop never returns. *)
Theorem busyloop_behaviour rnd cpu_clock runtime_us s :
  cpu_clock_ok cpu_clock ->
  let start := ts_total_ns (cpu_clock s) in
  (0 <= runtime_us <= 2147483 -> forall k fuel,
     (s < k <= s + fuel)%nat -> start + runtime_us * 1000 <= ts_total_ns (cpu_clock k) ->
     (forall n, (s < n < k)%nat -> ts_total_ns (cpu_clock n) < start + runtime_us * 1000) ->
     do_calculations rnd cpu_clock fuel true ALGO_BUSY runtime_us s = Ret (Some tt, S k)) /\
  (2147483 < runtime_us < 2 ^ 31 \/ - 2 ^ 31 <= runtime_us < -2147483 -> forall fuel, do_calculations rnd cpu_clock fuel true ALGO_BUSY runtime_us s = UB) /\
  (-2147483 <= runtime_us < 0 -> forall fuel,
     do_calculations rnd cpu_clock fuel true ALGO_BUSY runtime_us s = Ret (None, (s + 1 + fuel)%nat)).
Proof.
  intros Hc start. destruct (get_cpu_time_ok cpu_clock s Hc) as [E Hn].
  assert (forall fuel, do_calculations rnd cpu_clock fuel true ALGO_BUSY runtime_us s
    = stress_cpu_busyloop cpu_clock fuel runtime_us s) as Hd by reflexivity.
  split_and!; intros Hr.
  - intros k fuel Hk Hlate Hearly. rewrite Hd. unfold stress_cpu_busyloop, mbind, ST_bind.
    rewrite mul_int_ok by lia. cbn [lift_o]. rewrite E, wrapu_id by (unfold in_u; lia).
    apply busy_wait_spec; [done|lia|lia|lia|done|]. intros n Hn'. apply Hearly. lia.
  - intros fuel. rewrite Hd. unfold stress_cpu_busyloop, mbind, ST_bind. by rewrite mul_int_ub by lia.
  - intros fuel. rewrite Hd. unfold stress_cpu_busyloop, mbind, ST_bind.
    rewrite mul_int_ok by lia. cbn [lift_o]. rewrite E.
    replace (u64 (runtime_us * 1000)) with (2 ^ 64 + runtime_us * 1000).
    + rewrite busy_wait_long by (done || lia). f_equal. f_equal. lia.
    + unfold wrapu. symmetry. rewrite <- (Z.mod_small (2 ^ 64 + runtime_us * 1000) (2 ^ 64)) by lia.
      replace (2 ^ 64 + runtime_us * 1000) with (runtime_us * 1000 + 1 * 2 ^ 64) by lia. by rewrite Z.mod_add by lia.
Qed.

(** A clock that advances by 400 microseconds at each reading. *)
Lemma busyloop_behaviour_witness :
  let clock n := mk_timespec 0 (Z.min (400000 * Z.of_nat n) 999999999) in
  do_calculations (fun _ => 0) clock 10%nat true ALGO_BUSY 1000 0%nat = Ret (Some tt, 4%nat) /\
  do_calculations (fun _ => 0) clock 10%nat true ALGO_BUSY 2147484 0%nat = UB /\
  do_calculations (fun _ => 0) clock 10%nat true ALGO_BUSY (-1) 0%nat = Ret (None, 11%nat).
Proof.
  intros clock. assert (cpu_clock_ok clock) as Hc.
  { split; intros n; unfold clock, ts_norm, ts_total_ns; cbn [tv_sec tv_nsec]; lia. }
  split_and!.
  - apply (busyloop_behaviour (fun _ => 0) clock 1000 0%nat Hc); [lia|lia| |].
    + unfold clock, ts_total_ns. cbn [tv_sec tv_nsec]. lia.
    + intros n Hn. unfold clock, ts_total_ns. cbn [tv_sec tv_nsec]. lia.
  - apply (busyloop_behaviour (fun _ => 0) clock 2147484 0%nat Hc). lia.
  - apply (busyloop_behaviour (fun _ => 0) clock (-1) 0%nat Hc). lia.
Defined.

(** The memory workload never leaves its buffer, but it sums random numbers
    in an [int]: with sums that wrap around it returns for every size below
    2048 MB, yet when [rand] returns its largest value the second addition
    already overflows, whatever the size; from 2048 MB on the size does. *)
Theorem memory_workload rnd size_mb s :
  (megabytes size_mb < 2048 ->
     exists r s', memory_with rnd (fun a b => Ret (i32 (a + b))) true size_mb s = Ret (r, s')) /\
  (megabytes size_mb < 2048 -> (forall n, rnd n = RAND_MAX) -> stress_cpu_memory rnd true size_mb s = UB) /\
  (2048 <= size_mb < 2 ^ 31 -> stress_cpu_memory rnd true size_mb s = UB).
Proof.
  split_and!; [apply memory_wrapped_ok|apply memory_overflows|apply memory_size_overflows].
Qed.

Lemma memory_workload_witness :
  stress_cpu_memory (fun _ => RAND_MAX) true 10 0%nat = UB /\ stress_cpu_memory (fun _ => 0) true 4096 0%nat = UB.
Proof.
  split.
  - destruct (memory_workload (fun _ => RAND_MAX) 10 0%nat) as (_ & H & _). apply H; [reflexivity|]. intros n. reflexivity.
  - destruct (memory_workload (fun _ => 0) 4096 0%nat) as (_ & _ & H). apply H. lia.
Defined.

(** A product of two small matrices, and hash rounds, by evaluation. *)
Example ex_matrix :
  (r ← ('(a, b, c) ← matrix_init (fun n => RAND_MAX) 2; matrix_mul 2 a b c) 0%nat; Ret (r.1 !! (1, 0), r.2))
  = Ret (Some (double_of 2), 8%nat).
Proof. vm_compute. reflexivity. Qed.

Example ex_crypto : stress_cpu_crypto (fun n => Z.of_nat n * 1000000) 3 0%nat = Ret (EXIT_SUCCESS, 16%nat).
Proof. vm_compute. reflexivity. Qed.
