(* ===== verification/Getopt.v ===== *)
(** * getopt_long

    The command line parser of glibc that the orchestrator's program and the
    sample applications call: long options may be abbreviated, their argument
    follows '=' or is the next argument; short options may share an argument;
    operands are moved behind the options, and "--" ends the options.  Both
    programs stop at the first error, so nothing is reported after one. *)

From S2P Require Import Prelude Time Types Kernel Config.

(** [struct option] with no flag pointer: name, [required_argument], value. *)
Record long_opt := mk_long_opt { lo_name : list byte; lo_arg : bool; lo_val : byte }.

(** The text before and after the first '='. *)
Fixpoint split_eq (s : list byte) : list byte * option (list byte) :=
  match s with
  | [] => ([], None)
  | c :: s =>
      if decide (c = "="%byte) then ([], Some s)
      else let '(n, v) := split_eq s in (c :: n, v)
  end.

(** The options reported and the operands. *)
Definition parsed : Type := list opt_event * list (list byte).
Definition add_opt (e : opt_event) (r : parsed) : parsed := (e :: r.1, r.2).
Definition add_operand (a : list byte) (r : parsed) : parsed := (r.1, a :: r.2).

Section getopt_long.
(** The option string and the table of long options. *)
Variable short_kind : byte -> opt_kind.
Variable long_opts : list long_opt.

(** An exact name, or else the only option the name abbreviates. *)
Definition match_long (name : list byte) : option long_opt :=
  match filter (fun o => lo_name o = name) long_opts with
  | o :: _ => Some o
  | [] =>
      match filter (fun o => name `prefix_of` lo_name o) long_opts with
      | [o] => Some o
      | _ => None
      end
  end.

Fixpoint getopt_long (args : list (list byte)) : parsed :=
  match args with
  | [] => ([], [])
  | a :: rest =>
      let next (k : list byte -> opt_event) : parsed :=
        match rest with [] => ([OptError], []) | b :: rest => add_opt (k b) (getopt_long rest) end in
      let cluster := fix cluster (cs : list byte) : parsed :=
        match cs with
        | [] => getopt_long rest
        | c :: cs =>
            match short_kind c with
            | NoArg => add_opt (Opt c []) (cluster cs)
            | Unknown => ([OptError], [])
            | WithArg => match cs with _ :: _ => add_opt (Opt c cs) (getopt_long rest) | [] => next (Opt c) end
            end
        end in
      match a with
      | d :: c :: cs =>
          if decide (d = dash) then
            if decide (c = dash) then
              match cs with
              | [] => ([], rest)
              | _ =>
                  let '(name, value) := split_eq cs in
                  match match_long name with
                  | None => ([OptError], [])
                  | Some o =>
                      match value with
                      | Some v => if lo_arg o then add_opt (Opt (lo_val o) v) (getopt_long rest) else ([OptError], [])
                      | None =>
                          if lo_arg o then next (Opt (lo_val o)) else add_opt (Opt (lo_val o) []) (getopt_long rest)
                      end
                  end
              end
            else cluster (c :: cs)
          else add_operand a (getopt_long rest)
      | _ => add_operand a (getopt_long rest)
      end
  end.

(** ** The forms of an option *)

Lemma split_eq_app n v : "="%byte ∉ n -> split_eq (n ++ "="%byte :: v) = (n, Some v).
Proof.
  induction n as [|c n IH]; intros Hn; [done|]. apply not_elem_of_cons in Hn as [Hc Hn].
  cbn [app split_eq]. rewrite decide_False by congruence. by rewrite IH.
Qed.

(** --name=value *)
Lemma getopt_long_assign n o v rest :
  match_long n = Some o -> lo_arg o = true -> "="%byte ∉ n ->
  getopt_long ((dash :: dash :: n ++ "="%byte :: v) :: rest) = add_opt (Opt (lo_val o) v) (getopt_long rest).
Proof.
  intros Hm Ha Hn. cbn [getopt_long]. rewrite !decide_True by done.
  destruct (n ++ "="%byte :: v) as [|c cs] eqn:E; [by destruct n|].
  rewrite <- E, split_eq_app by done. by rewrite Hm, Ha.
Qed.

(** -c value *)
Lemma getopt_long_next c v rest :
  short_kind c = WithArg -> c <> dash ->
  getopt_long ([dash; c] :: v :: rest) = add_opt (Opt c v) (getopt_long rest).
Proof. intros Hk Hd. cbn [getopt_long]. rewrite decide_True, decide_False by done. by rewrite Hk. Qed.

(** -c *)
Lemma getopt_long_flag c rest :
  short_kind c = NoArg -> c <> dash -> getopt_long ([dash; c] :: rest) = add_opt (Opt c []) (getopt_long rest).
Proof. intros Hk Hd. cbn [getopt_long]. rewrite decide_True, decide_False by done. by rewrite Hk. Qed.

(** A name of a file or a task. *)
Lemma getopt_long_operand a rest :
  head a <> Some dash -> getopt_long (a :: rest) = add_operand a (getopt_long rest).
Proof.
  intros Ha. destruct a as [|d [|c cs]]; [done|done|]. cbn [getopt_long]. by rewrite decide_False by (intros ->; by apply Ha).
Qed.

End getopt_long.

(** --name=value on a command line. *)
Definition assign (name : string) (v : list byte) : list byte := dash :: dash :: str name ++ "="%byte :: v.
