(* ===== verification/SampleMain.v ===== *)
(** * The program of the sample applications (sample-apps/src)

    [main] of sample_apps.c: options, set-up of the process, the loop that
    serves the releases with the workloads of SampleWorkloads; and the helpers
    of sched.c, a reduced copy of the executor's scheduling library. *)

From S2P Require Import CppStd.
From S2P Require Import Prelude Time Types Kernel Sched Config Getopt SampleApps SampleWorkloads.

(** ** Options *)

(** The option string "p:d:r:P:a:l:sth". *)
Definition sample_short (c : byte) : opt_kind :=
  if bool_decide (c ∈ [ "s"; "t"; "h" ]%byte) then NoArg
  else if bool_decide (c ∈ [ "p"; "d"; "r"; "P"; "a"; "l" ]%byte) then WithArg
  else Unknown.

Definition sample_long : list long_opt :=
  [ mk_long_opt (str "period") true "p"; mk_long_opt (str "deadline") true "d";
    mk_long_opt (str "runtime") true "r"; mk_long_opt (str "priority") true "P";
    mk_long_opt (str "algorithm") true "a"; mk_long_opt (str "loops") true "l";
    mk_long_opt (str "stats") false "s"; mk_long_opt (str "timer") false "t";
    mk_long_opt (str "help") false "h" ]%byte.

(** [strtoul(s, NULL, 10)]: a minus sign negates in the unsigned type. *)
Definition strtoul (a : list byte) : Z :=
  let clip z := Z.min ULONG_MAX z in
  match skip_spaces (cstr a) with
  | b :: s =>
      if decide (b = "-"%byte) then
        (if ULONG_MAX <? digits 0 s then ULONG_MAX else u64 (- digits 0 s))
      else if decide (b = "+"%byte) then clip (digits 0 s)
      else clip (digits 0 (b :: s))
  | [] => 0
  end.

(** The variables the options set. *)
Record sample_opts := mk_sample_opts {
  so_config : rt_task_config_t;
  so_algo : Z;
  so_loop_cnt : Z;
  so_use_timer : bool;
}.
#[export] Instance eta_sample_opts : Eta sample_opts := fun o =>
  mk_sample_opts (so_config o) (so_algo o) (so_loop_cnt o) (so_use_timer o).

(** The option loop: the exit status, or the values after the last option. *)
Fixpoint sample_options (evs : list opt_event) (o : sample_opts) : Z + sample_opts :=
  match evs with
  | [] => inr o
  | OptError :: _ => inl EXIT_FAILURE
  | Opt c optarg :: evs =>
      if decide (c = "p"%byte) then sample_options evs (o <| so_config ::= fun t => t <| tc_period_ms := strtoul optarg |> |>)
      else if decide (c = "d"%byte) then sample_options evs (o <| so_config ::= fun t => t <| tc_deadline_ms := strtoul optarg |> |>)
      else if decide (c = "r"%byte) then sample_options evs (o <| so_config ::= fun t => t <| tc_runtime_us := strtoul optarg |> |>)
      else if decide (c = "P"%byte) then
        let priority := atoi optarg in
        if (priority <? 1) || (99 <? priority) then inl EXIT_FAILURE
        else sample_options evs (o <| so_config ::= fun t => t <| tc_priority := priority |> |>)
      else if decide (c = "a"%byte) then
        let algo := atoi optarg in
        if (algo <? 1) || (8 <? algo) then inl EXIT_FAILURE
        else sample_options evs (o <| so_algo := algo |>)
      else if decide (c = "l"%byte) then sample_options evs (o <| so_loop_cnt := atoi optarg |>)
      else if decide (c = "s"%byte) then sample_options evs (o <| so_config ::= fun t => t <| tc_enable_stats := true |> |>)
      else if decide (c = "t"%byte) then sample_options evs (o <| so_use_timer := true |>)
      else if decide (c = "h"%byte) then inl EXIT_SUCCESS
      else inl EXIT_FAILURE
  end.

(** The static objects before [main]. *)
Definition zero_config : rt_task_config_t := mk_rt_task_config 0 0 0 0 false (zeros 16).

Definition initial_opts : sample_opts := mk_sample_opts (rt_task_init zero_config) ALGO_NSQRT 10 false.

(** ** main *)

(** How [main] ends, or the state in which it enters its loop. *)
Inductive sample_result :=
  | SampleExit (status : Z)
  | SampleServing (o : sample_opts) (pr_name : list byte).

Section main.
Context {K : Kernel}.

Definition set_realtime_priority (priority : Z) : N Z :=
  r ← sys (SchedSetscheduler 0 SCHED_FIFO priority);
  mret (if r =? -1 then -1 else 0).

Definition sample_signal_handlers : N unit :=
  _ ← sys (Sigaction SIGINT);
  _ ← sys (Sigaction SIGTERM);
  mret tt.

Definition setup_periodic_timer (period_ms : Z) : N Z :=
  '(r, timer_id) ← sys (TimerCreateSignal CLOCK_MONOTONIC SIGNO_TT);
  if r =? -1 then mret (-1)
  else
    r ← sys (TimerSettime timer_id 0 (periodic_its period_ms));
    if r =? -1 then mret (-1) else mret 0.

(** [args] is [argv] without the program name; the name in the configuration
    keeps its last byte. *)
Definition sample_main (args : list (list byte)) : N sample_result :=
  _ ← sys Getpid;
  let '(evs, operands) := getopt_long sample_short sample_long args in
  match sample_options evs initial_opts with
  | inl status => mret (SampleExit status)
  | inr o =>
      match operands with
      | [] => mret (SampleExit EXIT_FAILURE)
      | arg :: _ =>
          let o := o <| so_config ::= fun t => t <| tc_name ::= fun a => strncpy a arg 15 |> |> in
          let o := o <| so_config ::= default_deadline |> in
          _ ← sys (PrctlSetName (cstr (tc_name (so_config o))));
          '(_, pr_name) ← sys PrctlGetName;
          _ ← set_realtime_priority (tc_priority (so_config o));
          sample_signal_handlers ;;
          _ ← sys (SigprocmaskBlock SIGNO_TT);
          r ← (if so_use_timer o then setup_periodic_timer (tc_period_ms (so_config o)) else mret 0);
          if r =? -1 then mret (SampleExit EXIT_FAILURE) else mret (SampleServing o pr_name)
      end
  end.

(** ** sched.c *)

Definition app_set_affinity (cpu : Z) : N unit :=
  _ ← sys (SchedSetaffinity 0 (CPU_SET cpu 0));
  mret tt.

Definition app_set_schedattr (pid priority policy : Z) : N unit :=
  let attr := {| sa_size := 48; sa_sched_policy := policy; sa_sched_flags := 0;
                 sa_sched_nice := 0; sa_sched_priority := priority; sa_sched_runtime := 0;
                 sa_sched_deadline := 0; sa_sched_period := 0 |} in
  _ ← sys (SchedSetattr pid attr);
  mret tt.

(** The name as it is left; [None] for the null pointer. *)
Definition app_get_process_name_by_pid (pid : Z) (name : option (list byte)) : N (option (list byte)) :=
  match name with
  | None => mret None
  | Some name =>
      f ← sys (ReadFile (path_comm pid));
      match f with
      | None => mret (Some name)
      | Some f =>
          let rd := take PROCESS_NAME_SIZE f in
          name ← lift (memcpy_to name 0 rd);
          mret (Some (match last rd with
                      | Some b => if decide (b = newline) then set_char name (length rd - 1) x00 else name
                      | None => name
                      end))
      end
  end.

(** On the arguments the executor's library accepts, the copies make the same
    calls with the same effect. *)
Lemma app_schedattr_same pid priority policy s :
  priority <= 99 -> policy = SCHED_NORMAL \/ policy = SCHED_FIFO \/ policy = SCHED_RR ->
  exists r s', app_set_schedattr pid priority policy s = Ret (tt, s') /\ set_schedattr pid priority policy s = Ret (r, s').
Proof.
  intros Hp Hpol. unfold set_schedattr. rewrite (proj2 (Z.ltb_ge _ _)) by lia.
  assert (negb (policy =? SCHED_NORMAL) && negb (policy =? SCHED_FIFO) && negb (policy =? SCHED_RR) = false) as ->
    by (destruct Hpol as [->|[->| ->]]; done).
  unfold app_set_schedattr, mbind, ST_bind, sys. destruct (_ =? -1); by do 2 eexists.
Qed.

Lemma app_name_same pid name s :
  0 < pid -> (16 <= length name)%nat ->
  exists r name' s', app_get_process_name_by_pid pid (Some name) s = Ret (Some name', s') /\
    get_process_name_by_pid pid (Some name) s = Ret ((r, name'), s').
Proof.
  intros Hpid Hlen. unfold app_get_process_name_by_pid, get_process_name_by_pid.
  rewrite (proj2 (Z.leb_gt _ _)) by lia. unfold mbind, ST_bind, sys. destruct (kresp _ _) as [f|]; [|by do 3 eexists].
  unfold lift. rewrite memcpy_to_ok; [by do 3 eexists|lia|]. rewrite length_take. unfold PROCESS_NAME_SIZE. lia.
Qed.

(** ** What the program accepts *)

(** Values of the declared types, in the ranges the options check; the name
    is terminated. *)
Record sample_ok (o : sample_opts) : Prop := {
  sk_priority : 1 <= tc_priority (so_config o) <= 99;
  sk_algo : 1 <= so_algo o <= 8;
  sk_loops : in_s 32 (so_loop_cnt o);
  sk_period : in_u 64 (tc_period_ms (so_config o));
  sk_deadline : in_u 64 (tc_deadline_ms (so_config o));
  sk_runtime : in_u 64 (tc_runtime_us (so_config o));
  sk_stats : tc_enable_stats (so_config o) = true;
  sk_name : length (tc_name (so_config o)) = 16%nat /\ tc_name (so_config o) !! 15%nat = Some x00;
}.

Lemma digits_nonneg acc s : 0 <= acc -> 0 <= digits acc s.
Proof.
  revert acc. induction s as [|b s IH]; intros acc Ha; cbn [digits]; [done|].
  destruct (isdigit b) eqn:E; [|done]. apply IH. unfold isdigit in E. pose proof (byteZ_range b).
  apply andb_true_iff in E as [E1%Z.leb_le E2%Z.leb_le]. lia.
Qed.

Lemma strtoul_range a : in_u 64 (strtoul a).
Proof.
  unfold strtoul, ULONG_MAX, in_u. destruct (skip_spaces (cstr a)) as [|b s]; [lia|].
  pose proof (digits_nonneg 0 s ltac:(lia)). pose proof (digits_nonneg 0 (b :: s) ltac:(lia)).
  repeat case_decide; try lia. destruct (Z.ltb_spec (2 ^ 64 - 1) (digits 0 s)); [lia|].
  apply (wrapu_range 64). lia.
Qed.

Lemma sample_options_ok evs o :
  sample_ok o ->
  match sample_options evs o with
  | inl status => status = EXIT_SUCCESS \/ status = EXIT_FAILURE
  | inr o' => sample_ok o'
  end.
Proof.
  revert o. induction evs as [|[c optarg|] evs IH]; intros o Ho; cbn [sample_options]; [done| |by right].
  pose proof (strtoul_range optarg). pose proof (atoi_range optarg). destruct Ho.
  repeat (case_decide; [try (by left); cbv zeta; try (destruct (_ || _) eqn:E; [by right|apply orb_false_iff in E as [E1%Z.ltb_ge E2%Z.ltb_ge]]);
    apply IH; by split|]). by right.
Qed.

Lemma initial_opts_ok : sample_ok initial_opts.
Proof. split; cbn; try done; lia. Qed.

Lemma strncpy_name a arg :
  length a = 16%nat /\ a !! 15%nat = Some x00 -> length (strncpy a arg 15) = 16%nat /\ strncpy a arg 15 !! 15%nat = Some x00.
Proof.
  intros [Hl Hz]. split; [rewrite length_strncpy; lia|]. unfold strncpy.
  assert (length (take 15 (cstr arg)) <= 15)%nat by (rewrite length_take; lia).
  rewrite app_assoc, lookup_app_r; rewrite length_app, length_zeros; [|lia].
  rewrite lookup_drop, <- Hz. f_equal. lia.
Qed.

(** What is set up, latest first. *)
Inductive setup :=
  | S_name (name : list byte)
  | S_sched (pid policy priority : Z)
  | S_block (sig : Z)
  | S_create (clk sig : Z) (ret timer : Z)
  | S_timer (timer flags : Z) (its : itimerspec) (ret : Z).

Definition setup_of (e : event) : option setup :=
  match e with
  | Event (PrctlSetName n) _ => Some (S_name n)
  | Event (SchedSetscheduler pid policy p) _ => Some (S_sched pid policy p)
  | Event (SigprocmaskBlock sig) _ => Some (S_block sig)
  | Event (TimerCreateSignal clk sig) (ret, timer) => Some (S_create clk sig ret timer)
  | Event (TimerSettime timer flags its) ret => Some (S_timer timer flags its ret)
  | _ => None
  end.
Definition setups (s : nstate) : list setup := omap setup_of (n_trace s).

(** First expiry and interval, as valid times, are both so many milliseconds. *)
Definition every_ms (period_ms : Z) (its : itimerspec) : Prop :=
  Forall (fun ts => ts_norm ts /\ ts_total_ns ts = period_ms * 1000000) [it_value its; it_interval its].

(** The timer that was set up; none in signal mode. *)
Definition timer_for (o : sample_opts) (l : list setup) : Prop :=
  if so_use_timer o then
    exists timer its r r', l = [S_timer timer 0 its r'; S_create CLOCK_MONOTONIC SIGNO_TT r timer] /\
      r <> -1 /\ r' <> -1 /\ every_ms (tc_period_ms (so_config o)) its
  else l = [].

(** The set-up of a process with these options. *)
Definition set_up_for (o : sample_opts) (l : list setup) : Prop := exists timer, timer_for o timer /\
  l = timer ++ [S_block SIGNO_TT; S_sched 0 SCHED_FIFO (tc_priority (so_config o)); S_name (cstr (tc_name (so_config o)))].

Lemma periodic_its_every period_ms : every_ms period_ms (periodic_its period_ms).
Proof.
  unfold every_ms, ts_norm, ts_total_ns, periodic_its.
  pose proof (Z.div_mod period_ms 1000 ltac:(lia)). pose proof (Z.mod_pos_bound period_ms 1000 ltac:(lia)).
  repeat constructor; cbn; lia.
Qed.

(** The options a command line stands for, with the name and the default
    deadline. *)
Definition with_name (o : sample_opts) (arg : list byte) : sample_opts :=
  (o <| so_config ::= fun t => t <| tc_name ::= fun a => strncpy a arg 15 |> |>) <| so_config ::= default_deadline |>.

Lemma with_name_ok o arg : sample_ok o -> sample_ok (with_name o arg).
Proof.
  intros [H1 H2 H3 H4 H5 H6 H7 H8]. apply (strncpy_name _ arg) in H8. unfold with_name, default_deadline.
  unfold upd; cbn. destruct (_ && _); by split.
Qed.

Lemma sample_main_spec args s :
  wp (sample_main args) (fun r s' =>
    match r with
    | SampleExit status => status = EXIT_SUCCESS \/ status = EXIT_FAILURE
    | SampleServing o' _ => exists o arg rest,
        sample_options (getopt_long sample_short sample_long args).1 initial_opts = inr o /\
        (getopt_long sample_short sample_long args).2 = arg :: rest /\ o' = with_name o arg /\
        exists new, set_up_for o' new /\ setups s' = new ++ setups s
    end) s.
Proof.
  unfold sample_main. apply wp_bind, wp_sys. destruct (getopt_long _ _ args) as [evs operands]. cbn [fst snd].
  pose proof (sample_options_ok evs initial_opts initial_opts_ok) as Hopt.
  destruct (sample_options evs initial_opts) as [status|o]; [by apply wp_ret|].
  destruct operands as [|arg rest]; [apply wp_ret; by right|]. cbv zeta. fold (with_name o arg). set (o' := with_name o arg).
  apply wp_bind, wp_sys. apply wp_bind, wp_sys. destruct (kresp _ PrctlGetName) as [r0 pr_name] eqn:Ek.
  apply wp_bind. unfold set_realtime_priority. apply wp_bind, wp_sys, wp_ret.
  apply wp_bind. unfold sample_signal_handlers. apply wp_bind, wp_sys, wp_bind, wp_sys, wp_ret.
  apply wp_bind, wp_sys, wp_bind. destruct (so_use_timer o') eqn:Et.
  - unfold setup_periodic_timer. apply wp_bind, wp_sys. destruct (kresp _ (TimerCreateSignal _ _)) as [r1 timer_id] eqn:E1.
    destruct (Z.eqb_spec r1 (-1)) as [|Hr1]; [apply wp_ret; by apply wp_ret; right|]. apply wp_bind, wp_sys.
    set (r2 := kresp _ (TimerSettime _ _ _)).
    destruct (Z.eqb_spec r2 (-1)) as [|Hr2]; [apply wp_ret; by apply wp_ret; right|]. apply wp_ret, wp_ret.
    exists o, arg, rest. split_and!; [done|done|done|]. set (its := periodic_its _) in *.
    eexists. split; [eexists; split; [|reflexivity]|
      instantiate (1 := [S_timer timer_id 0 its r2; S_create CLOCK_MONOTONIC SIGNO_TT r1 timer_id]); reflexivity].
    unfold timer_for. rewrite Et. exists timer_id, its, r1, r2.
    split_and!; [done|done|done|apply periodic_its_every].
  - apply wp_ret, wp_ret. exists o, arg, rest. split_and!; [done|done|done|].
    eexists. split; [eexists; split; [|reflexivity]|instantiate (1 := []); reflexivity].
    unfold timer_for. by rewrite Et.
Qed.

End main.

(** C35: Whatever the command line and whatever the system calls return, the
    program exits with status 0 or 1, or it serves releases with a priority of
    1 to 99, an algorithm of 1 to 8, values of the declared types, statistics
    enabled and a terminated name, after it set this name, asked for FIFO
    scheduling of itself with this priority, blocked the release signal and, in
    timer mode, created a timer that sends this signal and armed it so that the
    first expiry and the interval are both the period in milliseconds. *)
Theorem sample_main_validates {K : Kernel} args s :
  wp (sample_main args) (fun r s' =>
    match r with
    | SampleExit status => status = EXIT_SUCCESS \/ status = EXIT_FAILURE
    | SampleServing o _ => sample_ok o /\ exists new, set_up_for o new /\ setups s' = new ++ setups s
    end) s.
Proof.
  eapply wp_mono; [apply sample_main_spec|]. cbn beta. intros [status|o' name] s'; [done|].
  intros (o & arg & rest & Eo & _ & -> & Es). split; [|done]. apply with_name_ok.
  pose proof (sample_options_ok (getopt_long sample_short sample_long args).1 initial_opts initial_opts_ok) as H.
  by rewrite Eo in H.
Qed.

(** ** A command line for given options *)

Lemma skip_spaces_head b s : isspace b = false -> skip_spaces (b :: s) = b :: s.
Proof. intros H. cbn. by rewrite H. Qed.

Lemma strtoul_fmt_d z : in_u 64 z -> strtoul (fmt_d z) = z.
Proof.
  intros Hz. unfold strtoul. rewrite num_char_cstr by apply fmt_d_chars. unfold fmt_d.
  destruct z as [|p|p]; [done| |range]. destruct (fmt_N (Npos p)) as (H & Hd & Hne).
  change (pretty (Z.pos p)) with (pretty (Npos p)). destruct (str (pretty (Npos p))) as [|b l] eqn:E; [done|].
  apply Forall_cons in H as [Hb _]. destruct (isdigit_not_space b Hb) as (Hs & Hm & Hp & _).
  rewrite skip_spaces_head, !decide_False by done. rewrite Hd. unfold ULONG_MAX, in_u in *. cbn [Z.of_N]. lia.
Qed.

Lemma atoi_fmt_d z : in_s 32 z -> atoi (fmt_d z) = z.
Proof.
  intros Hz. unfold atoi, strtol. rewrite num_char_cstr by apply fmt_d_chars. unfold fmt_d.
  assert (Z.max (- 2 ^ 63) (Z.min (2 ^ 63 - 1) z) = z) as Hc by range.
  destruct z as [|p|p]; [done| |]; destruct (fmt_N (Npos p)) as (H & Hd & Hne).
  - change (pretty (Z.pos p)) with (pretty (Npos p)). destruct (str (pretty (Npos p))) as [|b l] eqn:E; [done|].
    apply Forall_cons in H as [Hb _]. destruct (isdigit_not_space b Hb) as (Hs & Hm & Hp & _).
    rewrite skip_spaces_head, !decide_False by done. rewrite Hd. cbn [Z.of_N]. rewrite Hc. by apply wraps_id.
  - change (str (pretty (Z.neg p))) with ("-"%byte :: str (pretty (Npos p))).
    rewrite skip_spaces_head, decide_True by done. rewrite Hd.
    change (- Z.of_N (Npos p)) with (Z.neg p). rewrite Hc. by apply wraps_id.
Qed.

(** Long, abbreviated and short forms. *)
Definition render_sample (o : sample_opts) (name : list byte) : list (list byte) :=
  let t := so_config o in
  [assign "period" (fmt_d (tc_period_ms t)); [dash; "d"%byte]; fmt_d (tc_deadline_ms t);
   name; assign "r" (fmt_d (tc_runtime_us t)); [dash; "P"%byte]; fmt_d (tc_priority t);
   assign "algorithm" (fmt_d (so_algo o)); [dash; "l"%byte]; fmt_d (so_loop_cnt o)]
  ++ (if so_use_timer o then [[dash; "t"%byte]] else []).

(** The options without the name. *)
Definition unnamed (o : sample_opts) : sample_opts :=
  o <| so_config ::= fun t => t <| tc_name := tc_name (so_config initial_opts) |> |>.

(** The branches of the [switch]. *)
Lemma option_number c v evs o z :
  (c = "p"%byte \/ c = "d"%byte \/ c = "r"%byte) -> strtoul v = z ->
  sample_options (Opt c v :: evs) o = sample_options evs (o <| so_config ::= fun t =>
    if decide (c = "p"%byte) then t <| tc_period_ms := z |>
    else if decide (c = "d"%byte) then t <| tc_deadline_ms := z |> else t <| tc_runtime_us := z |> |>).
Proof. by intros [->|[->| ->]] <-. Qed.

Lemma option_priority v evs o z :
  atoi v = z -> 1 <= z <= 99 ->
  sample_options (Opt "P"%byte v :: evs) o = sample_options evs (o <| so_config ::= fun t => t <| tc_priority := z |> |>).
Proof.
  intros E Hz. transitivity (let priority := atoi v in
    if (priority <? 1) || (99 <? priority) then inl EXIT_FAILURE
    else sample_options evs (o <| so_config ::= fun t => t <| tc_priority := priority |> |>)); [reflexivity|].
  cbv zeta. rewrite E. by rewrite !(proj2 (Z.ltb_ge _ _)) by lia.
Qed.

Lemma option_algo v evs o z :
  atoi v = z -> 1 <= z <= 8 ->
  sample_options (Opt "a"%byte v :: evs) o = sample_options evs (o <| so_algo := z |>).
Proof.
  intros E Hz. transitivity (let algo := atoi v in
    if (algo <? 1) || (8 <? algo) then inl EXIT_FAILURE else sample_options evs (o <| so_algo := algo |>)); [reflexivity|].
  cbv zeta. rewrite E. by rewrite !(proj2 (Z.ltb_ge _ _)) by lia.
Qed.

Lemma option_loops v evs o z :
  atoi v = z -> sample_options (Opt "l"%byte v :: evs) o = sample_options evs (o <| so_loop_cnt := z |>).
Proof. by intros <-. Qed.

Lemma command_line_opts o name :
  sample_ok o -> head name <> Some dash ->
  let r := getopt_long sample_short sample_long (render_sample o name) in
  sample_options r.1 initial_opts = inr (unnamed o) /\ r.2 = [name].
Proof.
  intros [H1 H2 H3 H4 H5 H6 H7 H8] Hn. unfold render_sample, assign. cbn [app].
  rewrite (getopt_long_assign _ _ _ (mk_long_opt (str "period") true "p")) by (reflexivity || decided).
  rewrite getopt_long_next by (reflexivity || done).
  rewrite getopt_long_operand by done.
  rewrite (getopt_long_assign _ _ _ (mk_long_opt (str "runtime") true "r")) by (reflexivity || decided).
  rewrite getopt_long_next by (reflexivity || done).
  rewrite (getopt_long_assign _ _ _ (mk_long_opt (str "algorithm") true "a")) by (reflexivity || decided).
  rewrite getopt_long_next by (reflexivity || done).
  assert (getopt_long sample_short sample_long (if so_use_timer o then [[dash; "t"%byte]] else [])
    = (if so_use_timer o then [Opt "t"%byte []] else [], [])) as -> by (by destruct (so_use_timer o)).
  cbn [add_opt add_operand fst snd lo_val]. split; [|done].
  rewrite (option_number "p"%byte _ _ _ (tc_period_ms (so_config o))) by (auto using strtoul_fmt_d).
  rewrite (option_number "d"%byte _ _ _ (tc_deadline_ms (so_config o))) by (auto using strtoul_fmt_d).
  rewrite (option_number "r"%byte _ _ _ (tc_runtime_us (so_config o))) by (auto using strtoul_fmt_d).
  rewrite (option_priority _ _ _ (tc_priority (so_config o))) by (done || (apply atoi_fmt_d; range)).
  rewrite (option_algo _ _ _ (so_algo o)) by (done || (apply atoi_fmt_d; range)).
  rewrite (option_loops _ _ _ (so_loop_cnt o)) by (by apply atoi_fmt_d).
  destruct o as [t al lc ut]. destruct t as [pe de ru pr st nm]. cbn in H7. subst st. by destruct ut.
Qed.

(** The options on a command line, in long, abbreviated and short forms and
    on both sides of the name, are the ones the program serves with: the name
    is cut to 15 bytes, and the deadline is the given one, except that 100 is
    replaced by the period.  Only a timer that cannot be set up stops the
    program. *)
Theorem sample_command_line {K : Kernel} o name s :
  sample_ok o -> head name <> Some dash ->
  wp (sample_main (render_sample o name)) (fun r _ =>
    (exists pr_name, r = SampleServing (with_name (unnamed o) name) pr_name) \/
    (so_use_timer o = true /\ r = SampleExit EXIT_FAILURE)) s /\
  cstr (tc_name (so_config (with_name (unnamed o) name))) = take 15 (cstr name) /\
  tc_deadline_ms (so_config (with_name (unnamed o) name)) =
    (if decide (tc_deadline_ms (so_config o) = 100) then tc_period_ms (so_config o) else tc_deadline_ms (so_config o)).
Proof.
  intros Ho Hn. destruct (command_line_opts o name Ho Hn) as [Eo Er]. split_and!.
  - unfold sample_main. apply wp_bind, wp_sys. destruct (getopt_long _ _ _) as [evs operands]. cbn [fst snd] in Eo, Er.
    rewrite Eo, Er. cbv zeta. fold (with_name (unnamed o) name). set (o' := with_name (unnamed o) name).
    assert (so_use_timer o' = so_use_timer o) as <- by reflexivity.
    apply wp_bind, wp_sys, wp_bind, wp_sys. destruct (kresp _ PrctlGetName) as [r0 pr_name].
    apply wp_bind. unfold set_realtime_priority. apply wp_bind, wp_sys, wp_ret.
    apply wp_bind. unfold sample_signal_handlers. apply wp_bind, wp_sys, wp_bind, wp_sys, wp_ret.
    apply wp_bind, wp_sys, wp_bind. destruct (so_use_timer o').
    + unfold setup_periodic_timer. apply wp_bind, wp_sys. destruct (kresp _ (TimerCreateSignal _ _)) as [r1 timer_id].
      destruct (r1 =? -1); [apply wp_ret, wp_ret; by right|]. apply wp_bind, wp_sys.
      destruct (_ =? -1); [apply wp_ret, wp_ret; by right|]. apply wp_ret, wp_ret. left. by exists pr_name.
    + apply wp_ret, wp_ret. left. by exists pr_name.
  - transitivity (cstr (strncpy (tc_name (so_config initial_opts)) name 15)); [|by apply cstr_strncpy].
    unfold with_name, default_deadline, upd; cbn. by destruct (_ && _).
  - unfold with_name, default_deadline, unnamed, upd; cbn. destruct (decide (tc_deadline_ms (so_config o) = 100)) as [E|E]; [rewrite E|]; cbn.
    + destruct (Z.eqb_spec (tc_period_ms (so_config o)) 100) as [Ep|Ep]; cbn; congruence.
    + destruct (Z.eqb_spec (tc_deadline_ms (so_config o)) 100); [done|done].
Qed.

(** A task in timer mode, with a name that is too long. *)
Definition ex_opts : sample_opts :=
  mk_sample_opts (mk_rt_task_config 200 150 40000 80 true (zeros 16)) ALGO_MATRIX 10 true.

Lemma sample_command_line_witness :
  let K := Build_Kernel (fun _ _ c => default_reply c) in
  cstr (tc_name (so_config (with_name (unnamed ex_opts) (str "matrix_task_number_one")))) = str "matrix_task_num".
Proof.
  intros K. rewrite (proj1 (proj2 (sample_command_line (K := K) ex_opts (str "matrix_task_number_one") nstate_init
    ltac:(split; cbn; (done || lia || range)) ltac:(discriminate)))). reflexivity.
Defined.

(** ** The loop of main *)

(** Whether [main] has left the loop, waits for a release, or is in a busy
    loop. *)
Inductive loop_state := L_ended | L_waiting | L_in_job.

(** The handler of SIGINT and SIGTERM sets the flag [shutdown_requested]. *)
Definition sigint_handler (shutdown_requested : bool) : bool := true.

(** The flag after a turn; [term] tells whether one of the two signals is
    handled during it. *)
Definition after_turn (term : bool) : bool := if term then sigint_handler false else false.

Section loop.
Variables (rnd : nat -> Z) (cpu_clock : nat -> timespec) (fuel : nat) (alloc_ok : bool).

(** One turn waits for a signal; a release runs the workload between the two
    readings of the clock. *)
Fixpoint sample_loop (o : sample_opts) (turns : list (bool * wait_result)) (stats : rt_stats_t)
    (shutdown_requested : bool) (signal_received : Z) (w : nat) : outcome (rt_stats_t * loop_state * nat) :=
  let config := so_config o in
  if shutdown_requested then Ret (stats, L_ended, w)
  else
    match turns with
    | [] => Ret (stats, L_waiting, w)
    | (term, wr) :: turns =>
        if wr_ret wr =? -1 then
          if wr_errno wr =? EINTR then sample_loop o turns stats (after_turn term) signal_received w
          else Ret (stats, L_ended, w)
        else
          let signal_received := stored_signal wr signal_received in
          if negb (signal_received =? SIGNO_TT) then sample_loop o turns stats (after_turn term) signal_received w
          else
            '(r, w) ← do_calculations rnd cpu_clock fuel alloc_ok (so_algo o) (so_loop_cnt o) w;
            match r with
            | None => Ret (stats, L_in_job, w)
            | Some _ =>
                '(runtime_us, deadline_miss) ← job_result (tc_deadline_ms config) (wr_before wr) (wr_now wr);
                sample_loop o turns
                  (if tc_enable_stats config then rt_stats_update stats runtime_us deadline_miss else stats)
                  (after_turn term) signal_received w
            end
    end.

(** The statistics handed to [rt_stats_print] at the end. *)
Definition final_statistics (o : sample_opts) (stats : rt_stats_t) : option rt_stats_t :=
  if tc_enable_stats (so_config o) && (0 <? st_iterations stats) then Some stats else None.

(** With a workload that returns, the loop is the one of SampleApps. *)
Lemma sample_loop_jobs o turns stats shutdown sig w :
  (forall w, exists w', do_calculations rnd cpu_clock fuel alloc_ok (so_algo o) (so_loop_cnt o) w = Ret (Some tt, w')) ->
  forall stats' ended, job_loop (so_config o) turns stats shutdown sig = Ret (stats', ended) ->
  exists w', sample_loop o turns stats shutdown sig w = Ret (stats', if ended then L_ended else L_waiting, w').
Proof.
  intros Hw. assert (forall b, after_turn b = b) as Hb by (by intros []).
  revert stats shutdown sig w. induction turns as [|[term wr] turns IH];
    intros stats shutdown sig w stats' ended E; cbn [job_loop sample_loop] in *; rewrite ?Hb in *; destruct shutdown;
    try (injection E as <- <-; by exists w).
  destruct (wr_ret wr =? -1).
  - destruct (wr_errno wr =? EINTR); [by apply IH|]. injection E as <- <-. by exists w.
  - destruct (negb (stored_signal wr sig =? SIGNO_TT)); [by apply IH|].
    destruct (Hw w) as [w1 ->]. cbn [mbind outcome_bind].
    destruct (job_result _ (wr_before wr) (wr_now wr)) as [[runtime_us deadline_miss]|]; [|done].
    cbn [mbind outcome_bind] in *. by apply IH.
Qed.

(** A failed wait after a release is taken for another release. *)
Theorem failed_wait_runs_job o e errno before now stats w :
  0 < e ->
  sample_loop o [(false, mk_wait e errno 0 before now)] stats false SIGNO_TT w =
  sample_loop o [(false, mk_wait 0 errno SIGNO_TT before now)] stats false SIGNO_TT w.
Proof.
  intros He. cbn [sample_loop wr_ret wr_errno wr_signo wr_before wr_now]. unfold stored_signal. cbn [wr_ret wr_signo].
  by rewrite (proj2 (Z.eqb_neq e (-1))), (proj2 (Z.eqb_neq e 0)) by lia.
Qed.

End loop.

(** C34: A sample task whose workload stays within its bounds runs one job per
    release, whatever other signals and interruptions arrive in between, until
    the turn in which it is told to stop; a wait that fails with an error number
    is not noticed, and counts as another release when the last signal was one.
    The statistics it keeps and prints are the minimum, maximum, mean, total and last run time and the numbers of
    jobs and deadline misses of exactly those jobs, and a job is a miss exactly
    when it took longer than the deadline. *)
Theorem sample_runs_jobs rnd cpu_clock fuel o turns w stats :
  sample_ok o -> tc_deadline_ms (so_config o) < 2 ^ 40 ->
  (forall n, 0 <= rnd n <= RAND_MAX) -> job_bounds (so_algo o) (so_loop_cnt o) ->
  Forall job_ok (served (-1) turns) -> blen turns < 2 ^ 64 ->
  total_runtime (sample (tc_deadline_ms (so_config o)) <$> served (-1) turns) < 2 ^ 64 ->
  let result := summary (sample (tc_deadline_ms (so_config o)) <$> served (-1) turns) in
  exists w', sample_loop rnd cpu_clock fuel true o turns (rt_stats_init stats) false (-1) w =
    Ret (result, if existsb ends_turn turns then L_ended else L_waiting, w') /\
  final_statistics o result = (if decide (served (-1) turns = []) then None else Some result).
Proof.
  intros Ho Hd Hr Hb Hok Hn Ht result. destruct Ho as [_ _ _ _ Hd' _ Hst _].
  assert (0 <= tc_deadline_ms (so_config o) < 2 ^ 40) as Hd2 by range.
  destruct (sample_loop_jobs rnd cpu_clock fuel true o turns (rt_stats_init stats) false (-1) w
    (fun w => do_calculations_ok rnd cpu_clock fuel (so_algo o) (so_loop_cnt o) w Hr Hb)
    result (existsb ends_turn turns)) as [w' E]; [by apply job_statistics|].
  exists w'. split; [exact E|]. unfold final_statistics. rewrite Hst. cbn [andb].
  assert (st_iterations result = blen (served (-1) turns)) as -> by (unfold result; cbn; by rewrite length_fmap).
  destruct (decide (served (-1) turns = [])) as [->|Es]; [done|].
  rewrite (proj2 (Z.ltb_lt _ _)); [done|]. destruct (served (-1) turns); [done|]. cbn. lia.
Qed.

Lemma sample_runs_jobs_witness : exists w',
  sample_loop (fun _ => 7) (fun _ => ts_zero) 0 true (ex_opts <| so_config := ex_config |>) ex_turns
    (mk_rt_stats ULONG_MAX 0 0 0 0 0 0) false (-1) 0 =
  Ret (mk_rt_stats 5000 150000 77500 155000 1 2 150000, L_ended, w').
Proof.
  destruct (sample_runs_jobs (fun _ => 7) (fun _ => ts_zero) 0 (ex_opts <| so_config := ex_config |>) ex_turns 0
    (mk_rt_stats 0 0 0 0 0 0 0)) as (w' & E & _).
  - split; cbn; (done || lia || range).
  - cbn. lia.
  - intros n. unfold RAND_MAX. lia.
  - unfold job_bounds. right. right. left. split; [reflexivity|cbn; lia].
  - unfold job_ok, ts_norm, ts_total_ns. repeat constructor; simpl; lia.
  - vm_compute. reflexivity.
  - vm_compute. reflexivity.
  - exists w'. exact E.
Defined.
