(* ===== verification/TLog.v ===== *)
(** * The orchestrator's log (timpani-o/src/tlog.h)

    The singleton [Logger], the two methods that write a record, and the lock
    that keeps the records of the program's threads (the gRPC server's, the
    D-Bus server's and [main]'s) apart.  A stream is named by a number and its
    text is what has been inserted so far; the calendar is that of
    [std::localtime] and [std::put_time], in a time zone given as an offset. *)

From S2P Require Import CppStd.

Inductive LogLevel := NONE | ERROR | WARN | INFO | DEBUG.

Definition level_value (l : LogLevel) : Z :=
  match l with NONE => -1 | ERROR => 0 | WARN => 1 | INFO => 2 | DEBUG => 3 end.

Record Logger := mk_Logger {
  cur_log_level_ : LogLevel;
  out_stream_ : nat;
  print_filename_ : bool;
  full_timestamp_ : bool;
}.
#[export] Instance Logger_eta : Eta Logger := fun l =>
  mk_Logger (cur_log_level_ l) (out_stream_ l) (print_filename_ l) (full_timestamp_ l).

Definition std_cout : nat := 0.

(** The constructor, run once for the only instance. *)
Definition Logger_ctor : Logger := mk_Logger INFO std_cout false false.

Definition SetLogLevel (level : LogLevel) (l : Logger) : Logger := l <| cur_log_level_ := level |>.
Definition GetLogLevel (l : Logger) : LogLevel := cur_log_level_ l.
Definition GetPrintFileName (l : Logger) : bool := print_filename_ l.
Definition GetFullTimestamp (l : Logger) : bool := full_timestamp_ l.
Definition SetOutputStream (os : nat) (l : Logger) : Logger := l <| out_stream_ := os |>.
Definition SetPrintFileName (enable : bool) (l : Logger) : Logger := l <| print_filename_ := enable |>.
Definition SetFullTimestamp (enable : bool) (l : Logger) : Logger := l <| full_timestamp_ := enable |>.

(** ** Time stamps *)

(** A number right-justified in a field of [n] characters filled with '0'. *)
Definition setw0 (n : nat) (z : Z) : list byte :=
  let s := fmt_d z in replicate (n - length s) "0"%byte ++ s.

(** The proleptic Gregorian date of a day counted from 1970-01-01, as year,
    month and day of the month.  Years are counted from March. *)
Definition civil_of_days (days : Z) : Z * Z * Z :=
  let z := days + 719468 in
  let era := z / 146097 in
  let doe := z mod 146097 in
  let yoe := (doe - doe / 1460 + doe / 36524 - doe / 146096) / 365 in
  let doy := doe - (365 * yoe + yoe / 4 - yoe / 100) in
  let mp := (5 * doy + 2) / 153 in
  let d := doy - (153 * mp + 2) / 5 + 1 in
  let m := if mp <? 10 then mp + 3 else mp - 9 in
  (yoe + era * 400 + (if m <=? 2 then 1 else 0), m, d).

Example ex_civil : civil_of_days <$> [0; -1; 59; 11016; 11017; 19782; 20513; 47540; 47541]
  = [(1970, 1, 1); (1969, 12, 31); (1970, 3, 1); (2000, 2, 29); (2000, 3, 1); (2024, 2, 29); (2026, 3, 1);
     (2100, 2, 28); (2100, 3, 1)].
Proof. reflexivity. Qed.

Section log.
(** Seconds east of Greenwich that the local time has at a given time. *)
Variable tz_offset : Z -> Z.
(** The text that [operator<<] inserts for a [double]. *)
Variable print_double : double -> list byte.

(** [std::put_time(std::localtime(&t), ...)] for the two formats of the code. *)
Definition put_date (t : Z) : list byte :=
  let '(y, m, d) := civil_of_days ((t + tz_offset t) / 86400) in
  setw0 4 y ++ str "-" ++ setw0 2 m ++ str "-" ++ setw0 2 d.

Definition put_clock (t : Z) : list byte :=
  let s := (t + tz_offset t) mod 86400 in
  setw0 2 (s / 3600) ++ str ":" ++ setw0 2 (s / 60 mod 60) ++ str ":" ++ setw0 2 (s mod 60).

(** [now] is the system clock in nanoseconds; casts to coarser durations
    truncate toward zero. *)
Definition GetCurTimestamp (now : Z) (l : Logger) : list byte :=
  let now_c := Z.quot now 1000000000 in
  let now_ms := Z.rem (Z.quot now 1000000) 1000 in
  (if full_timestamp_ l then put_date now_c ++ str " " ++ put_clock now_c else put_clock now_c)
  ++ str "." ++ setw0 3 now_ms.

Definition LogLevelToStr (level : LogLevel) : list byte :=
  match level with
  | ERROR => str "E"
  | WARN => str "W"
  | INFO => str "I"
  | DEBUG => str "D"
  | _ => str "U"
  end.

Definition is_sep (c : byte) : bool := bool_decide (c = "/"%byte \/ c = "\"%byte).

(** The loop of [GetBaseFileName]: [file_path] runs to the terminator, [base]
    is the last position after a separator. *)
Fixpoint base_loop (base file_path : list byte) : list byte :=
  match file_path with
  | [] => base
  | c :: rest => if is_sep c then base_loop rest rest else base_loop base rest
  end.
Definition GetBaseFileName (file_path : list byte) : list byte := base_loop file_path file_path.

(** ** Writing a record *)

(** What the code inserts with [operator<<]. *)
Inductive log_arg := LStr (s : list byte) | LInt (z : Z) | LBool (b : bool) | LDouble (d : double).

Definition arg_text (a : log_arg) : list byte :=
  match a with
  | LStr s => s
  | LInt z => fmt_d z
  | LBool b => if b then str "1" else str "0"
  | LDouble d => print_double d
  end.

Definition endl : list byte := [x0a].

(** The text of every stream. *)
Record log_world := mk_log_world { lw_logger : Logger; lw_streams : gmap nat (list byte) }.
#[export] Instance log_world_eta : Eta log_world := fun w => mk_log_world (lw_logger w) (lw_streams w).

Definition stream_text (i : nat) (w : log_world) : list byte := default [] (lw_streams w !! i).

(** [*out_stream_ << s] *)
Definition insert_text (s : list byte) (w : log_world) : log_world :=
  let os := out_stream_ (lw_logger w) in
  w <| lw_streams := <[os := stream_text os w ++ s]> (lw_streams w) |>.

Definition header_text (now : Z) (level : LogLevel) (l : Logger) : list byte :=
  GetCurTimestamp now l ++ str " [" ++ LogLevelToStr level ++ str "] ".
Definition place_text (file : list byte) (line : Z) : list byte :=
  str "[" ++ GetBaseFileName file ++ str ":" ++ fmt_d line ++ str "] ".

#[local] Arguments header_text : simpl never.
#[local] Arguments place_text : simpl never.

Definition level_gtb (a b : LogLevel) : bool := level_value b <? level_value a.

Definition Log (now : Z) (level : LogLevel) (file : list byte) (line : Z) (args : list log_arg) (w : log_world) : log_world :=
  if level_gtb level (cur_log_level_ (lw_logger w)) then w
  else
    let w := insert_text (header_text now level (lw_logger w)) w in
    let w := if print_filename_ (lw_logger w) then insert_text (place_text file line) w else w in
    let w := foldl (fun w a => insert_text (arg_text a) w) w args in
    insert_text endl w.

(** [formatted] is what the format and its arguments produce, [None] when
    [vsnprintf] fails and returns -1.  The second call fills the buffer and
    [operator<<] stops at the first NUL. *)
Definition Logf (now : Z) (level : LogLevel) (file : list byte) (line : Z) (formatted : option (list byte)) (w : log_world)
    : outcome log_world :=
  if level_gtb level (cur_log_level_ (lw_logger w)) then Ret w
  else
    let n := match formatted with Some s => blen s | None => -1 end in
    if n + 1 <? 2 ^ 31 then
      let size := n + 1 in
      if size <=? 0 then Ret w
      else
        let buffer := take (Z.to_nat (size - 1)) (default [] formatted) ++ [x00] in
        Ret (insert_text (header_text now level (lw_logger w) ++ place_text file line ++ cstr buffer ++ endl) w)
    else UB.

(** ** What a record is *)

(** The text of a record, with or without the place in the source. *)
Definition record_text (now : Z) (level : LogLevel) (full : bool) (place : option (list byte * Z)) (body : list byte) : list byte :=
  header_text now level (mk_Logger level std_cout false full)
  ++ (if place is Some (file, line) then place_text file line else []) ++ body ++ endl.

Definition args_text (args : list log_arg) : list byte := concat (arg_text <$> args).

(** A call of [Log] with the time at which it takes the lock. *)
Record log_call := mk_log_call {
  lc_now : Z; lc_level : LogLevel; lc_file : list byte; lc_line : Z; lc_args : list log_arg;
}.
Definition do_log (w : log_world) (c : log_call) : log_world :=
  Log (lc_now c) (lc_level c) (lc_file c) (lc_line c) (lc_args c) w.

Definition call_text (l : Logger) (c : log_call) : list byte :=
  record_text (lc_now c) (lc_level c) (full_timestamp_ l)
    (if print_filename_ l then Some (lc_file c, lc_line c) else None) (args_text (lc_args c)).

Definition enabled (l : Logger) (c : log_call) : Prop := level_value (lc_level c) <= level_value (cur_log_level_ l).
#[export] Instance enabled_dec l c : Decision (enabled l c) := Z_le_dec _ _.

Lemma insert_text_app s t w : insert_text t (insert_text s w) = insert_text (s ++ t) w.
Proof.
  destruct w as [l m]. unfold insert_text, stream_text, upd; cbn.
  rewrite lookup_insert_eq, insert_insert_eq; cbn. by rewrite <- app_assoc.
Qed.

Lemma insert_text_logger s w : lw_logger (insert_text s w) = lw_logger w.
Proof. done. Qed.

Lemma insert_args args s w :
  foldl (fun w a => insert_text (arg_text a) w) (insert_text s w) args = insert_text (s ++ args_text args) w.
Proof.
  revert s. induction args as [|a args IH]; intros s; cbn; [by rewrite app_nil_r|].
  rewrite insert_text_app, IH. by rewrite <- app_assoc.
Qed.

Lemma record_text_logger now level l place body :
  record_text now level (full_timestamp_ l) place body
  = header_text now level l ++ (if place is Some (file, line) then place_text file line else []) ++ body ++ endl.
Proof. done. Qed.

Lemma Log_spec c w :
  do_log w c = if decide (enabled (lw_logger w) c) then insert_text (call_text (lw_logger w) c) w else w.
Proof.
  destruct c as [now level file line args]. unfold call_text. rewrite record_text_logger.
  unfold do_log, Log, enabled, level_gtb; cbn.
  destruct (Z.ltb_spec (level_value (cur_log_level_ (lw_logger w))) (level_value level)) as [H|H].
  - by rewrite decide_False by lia.
  - rewrite decide_True by lia. destruct (print_filename_ (lw_logger w));
      rewrite ?insert_text_app, insert_args, insert_text_app; by rewrite ?app_assoc, ?app_nil_r.
Qed.

Lemma stream_insert_text i s w :
  stream_text i (insert_text s w) = if decide (i = out_stream_ (lw_logger w)) then stream_text i w ++ s else stream_text i w.
Proof.
  unfold insert_text, stream_text, upd; cbn. destruct (decide _) as [->|H].
  - by rewrite lookup_insert_eq.
  - by rewrite lookup_insert_ne by done.
Qed.

(** The calls of [Log] write, to the current stream and to no other, one
    record for each call whose level is enabled, in the order of the calls; a
    disabled call writes nothing, and no call changes the logger. *)
Theorem log_calls_text calls w :
  let w' := foldl do_log w calls in
  lw_logger w' = lw_logger w /\
  forall i, stream_text i w' = stream_text i w ++
    (if decide (i = out_stream_ (lw_logger w))
     then concat (call_text (lw_logger w) <$> filter (enabled (lw_logger w)) calls) else []).
Proof.
  cbn zeta. revert w. induction calls as [|c calls IH]; intros w; cbn [foldl].
  { split; [done|]. intros i. destruct (decide _); cbn; by rewrite app_nil_r. }
  rewrite filter_cons, Log_spec. destruct (decide (enabled _ _)) as [He|He]; [|apply IH].
  destruct (IH (insert_text (call_text (lw_logger w) c) w)) as [Hl Ht]. split; [exact Hl|]. intros i.
  rewrite Ht, insert_text_logger, stream_insert_text.
  destruct (decide (i = _)); cbn; [by rewrite <- app_assoc|done].
Qed.

(** ** The name of the file *)

Lemma is_sep_spec c : is_sep c = true <-> c = "/"%byte \/ c = "\"%byte.
Proof. apply bool_decide_eq_true. Qed.

Lemma base_loop_spec base path :
  exists dir, base_loop base path = (if decide (Exists (fun c => is_sep c = true) path) then drop (length dir) path else base) /\
    (Exists (fun c => is_sep c = true) path -> path = dir ++ drop (length dir) path /\ is_sep <$> last dir = Some true /\
       Forall (fun c => is_sep c = false) (drop (length dir) path)).
Proof.
  revert base. induction path as [|c path IH]; intros base; cbn [base_loop].
  { exists []. rewrite decide_False by (intros H; inversion H). split; [done|intros H; inversion H]. }
  destruct (is_sep c) eqn:Hc.
  - destruct (IH path) as (dir & E & Hd). exists (c :: (if decide (Exists (fun c => is_sep c = true) path) then dir else [])).
    rewrite (decide_True (P := Exists _ (c :: path))) by (by left).
    rewrite E. destruct (decide _) as [Hx|Hx]; cbn; rewrite ?drop_0.
    + split; [done|]. intros _. destruct (Hd Hx) as (Hp & Hl & Hf). split_and!; [by f_equal| |done].
      by destruct dir.
    + split; [done|]. intros _. split_and!; [done|by rewrite Hc|].
      apply not_Exists_Forall in Hx; [|intros x; apply _].
      eapply Forall_impl; [exact Hx|]. intros x. cbn. by destruct (is_sep x).
  - destruct (IH base) as (dir & E & Hd). exists (c :: dir). rewrite E. cbn.
    destruct (decide (Exists _ path)) as [Hx|Hx].
    + rewrite decide_True by (by right). split; [done|]. intros _. destruct (Hd Hx) as (Hp & Hl & Hf).
      split_and!; [by f_equal| |done]. by destruct dir.
    + rewrite decide_False by (intros [?|?]%Exists_cons; [congruence|done]). split; [done|].
      intros [?|?]%Exists_cons; [congruence|done].
Qed.

(** The base name of a path is its last component: it has no separator, and
    what stands before it is nothing or ends in one. *)
Theorem base_name_spec path :
  exists dir, path = dir ++ GetBaseFileName path /\ Forall (fun c => is_sep c = false) (GetBaseFileName path) /\
    (dir = [] \/ exists dir' c, dir = dir' ++ [c] /\ is_sep c = true).
Proof.
  unfold GetBaseFileName. destruct (base_loop_spec path path) as (dir & E & H). rewrite E.
  destruct (decide _) as [Hx|Hx].
  - destruct (H Hx) as (Hp & Hl & Hf). exists dir. split_and!; [done|done|right].
    destruct (last dir) as [c|] eqn:El; [|done]. injection Hl as Hc.
    apply last_Some in El as [dir' ->]. by exists dir', c.
  - exists []. split_and!; [done| |by left]. apply not_Exists_Forall in Hx; [|intros x; apply _].
    eapply Forall_impl; [exact Hx|]. intros x. cbn. by destruct (is_sep x).
Qed.

(** ** Formatted records *)

Lemma insert_text_relog s l w :
  out_stream_ l = out_stream_ (lw_logger w) ->
  (insert_text s (w <| lw_logger := l |>)) <| lw_logger := lw_logger w |> = insert_text s w.
Proof. destruct w. cbn. intros E. unfold insert_text, stream_text, upd. cbn. by rewrite E. Qed.

(** [Logf] writes the record that [Log] would write for the formatted text with
    the place printed, whatever [print_filename_] says; a format that fails
    writes nothing. *)
Theorem Logf_is_Log now level file line text w :
  no_nul text -> blen text + 1 < 2 ^ 31 ->
  Logf now level file line (Some text) w
  = Ret ((Log now level file line [LStr text] (w <| lw_logger := SetPrintFileName true (lw_logger w) |>))
           <| lw_logger := lw_logger w |>) /\
  Logf now level file line None w = Ret w.
Proof.
  intros Hn Hb. set (c := mk_log_call now level file line [LStr text]).
  change (Log now level file line [LStr text]) with (fun w => do_log w c). cbn beta. rewrite Log_spec.
  unfold Logf, level_gtb. rewrite (proj2 (Z.ltb_lt (blen text + 1) _)), (proj2 (Z.leb_gt (blen text + 1) _)) by lia.
  destruct (decide (enabled _ c)) as [He|He]; unfold enabled in He; cbn in He.
  - rewrite (proj2 (Z.ltb_ge _ _)) by done. split; [|done].
    cbn [default from_option id]. rewrite take_ge by lia. rewrite cstr_app_nul, insert_text_relog by done.
    unfold call_text, c. rewrite record_text_logger. cbn [lc_args].
    by replace (args_text [LStr text]) with text by (symmetry; apply app_nil_r).
  - rewrite (proj2 (Z.ltb_lt _ _)) by lia. by destruct w.
Qed.

(** ** The threads of the program *)

(** Where a thread stands in [Log]: the level has passed, the lock is held and
    the header, the place, or some of the arguments are next. *)
Inductive log_pc :=
  | At_lock (c : log_call)
  | At_header (c : log_call)
  | At_place (c : log_call)
  | At_args (c : log_call) (rest : list log_arg).

Definition pc_call (p : log_pc) : log_call :=
  match p with At_lock c | At_header c | At_place c | At_args c _ => c end.

Definition in_cs (p : log_pc) : bool := if p is At_lock _ then false else true.

Record log_threads := mk_log_threads {
  lt_world : log_world;
  lt_pcs : gmap nat log_pc;
  lt_mutex : option nat;
}.

Definition lt_logger (st : log_threads) : Logger := lw_logger (lt_world st).

(** What a step tells the outside: a call of a thread has passed the test of
    its level, or has ended its record on a stream. *)
Inductive log_label := L_enter (t : nat) (c : log_call) | L_finish (t : nat) (c : log_call) (os : nat) | L_other.

(** One insertion, one test or one setter of one thread.  The level is read and
    the three flags are set without the lock; [SetOutputStream] takes it. *)
Inductive log_step : log_threads -> log_label -> log_threads -> Prop :=
  | step_enter w pcs mu t c :
      pcs !! t = None -> level_gtb (lc_level c) (cur_log_level_ (lw_logger w)) = false ->
      log_step (mk_log_threads w pcs mu) (L_enter t c) (mk_log_threads w (<[t := At_lock c]> pcs) mu)
  | step_lock w pcs t c :
      pcs !! t = Some (At_lock c) ->
      log_step (mk_log_threads w pcs None) L_other (mk_log_threads w (<[t := At_header c]> pcs) (Some t))
  | step_header w pcs mu t c :
      pcs !! t = Some (At_header c) ->
      log_step (mk_log_threads w pcs mu) L_other
        (mk_log_threads (insert_text (header_text (lc_now c) (lc_level c) (lw_logger w)) w) (<[t := At_place c]> pcs) mu)
  | step_place w pcs mu t c :
      pcs !! t = Some (At_place c) ->
      log_step (mk_log_threads w pcs mu) L_other
        (mk_log_threads (if print_filename_ (lw_logger w) then insert_text (place_text (lc_file c) (lc_line c)) w else w)
           (<[t := At_args c (lc_args c)]> pcs) mu)
  | step_arg w pcs mu t c a rest :
      pcs !! t = Some (At_args c (a :: rest)) ->
      log_step (mk_log_threads w pcs mu) L_other
        (mk_log_threads (insert_text (arg_text a) w) (<[t := At_args c rest]> pcs) mu)
  | step_endl w pcs mu t c :
      pcs !! t = Some (At_args c []) ->
      log_step (mk_log_threads w pcs mu) (L_finish t c (out_stream_ (lw_logger w))) (mk_log_threads (insert_text endl w) (delete t pcs) None)
  | step_flags w pcs mu l :
      out_stream_ l = out_stream_ (lw_logger w) ->
      log_step (mk_log_threads w pcs mu) L_other (mk_log_threads (w <| lw_logger := l |>) pcs mu)
  | step_stream w pcs os :
      log_step (mk_log_threads w pcs None) L_other (mk_log_threads (w <| lw_logger ::= SetOutputStream os |>) pcs None).

Definition log_start : log_threads := mk_log_threads (mk_log_world Logger_ctor ∅) ∅ None.

Inductive log_run : list log_label -> log_threads -> Prop :=
  | run_start : log_run [] log_start
  | run_step ls st l st' : log_run ls st -> log_step st l st' -> log_run (ls ++ [l]) st'.

(** The calls thread [t] has made and those it has ended, and the calls that
    have ended on stream [i], in order. *)
Definition entered (t : nat) : list log_label -> list log_call :=
  omap (fun l => if l is L_enter t' c then if decide (t' = t) then Some c else None else None).
Definition finished_by (t : nat) : list log_label -> list log_call :=
  omap (fun l => if l is L_finish t' c _ then if decide (t' = t) then Some c else None else None).
Definition finished_on (i : nat) : list log_label -> list log_call :=
  omap (fun l => if l is L_finish _ c os then if decide (os = i) then Some c else None else None).

(** The call a thread is in. *)
Definition pending (t : nat) (st : log_threads) : list log_call := pc_call <$> option_list (lt_pcs st !! t).

(** The text of the header and the place a record may have. *)
Definition front_text (c : log_call) (full : bool) (place : bool) : list byte :=
  header_text (lc_now c) (lc_level c) (mk_Logger (lc_level c) std_cout false full)
  ++ (if place then place_text (lc_file c) (lc_line c) else []).

#[local] Arguments front_text : simpl never.

(** A record of the call: the flags may be anything while it is written. *)
Definition is_record (c : log_call) (s : list byte) : Prop := exists full place,
  s = record_text (lc_now c) (lc_level c) full (if place : bool then Some (lc_file c, lc_line c) else None)
        (args_text (lc_args c)).

(** One record for each call, one after the other. *)
Definition whole (calls : list log_call) (s : list byte) : Prop :=
  exists records, Forall2 is_record calls records /\ s = concat records.

(** The part of its record a thread has written. *)
Definition begun (p : log_pc) (s : list byte) : Prop :=
  match p with
  | At_lock _ | At_header _ => s = []
  | At_place c => exists full, s = front_text c full false
  | At_args c rest => exists full place args, lc_args c = args ++ rest /\ s = front_text c full place ++ args_text args
  end.

Record log_inv (ls : list log_label) (st : log_threads) : Prop := {
  li_outside t p : lt_pcs st !! t = Some p -> in_cs p = true -> lt_mutex st = Some t;
  li_others i : i <> out_stream_ (lt_logger st) -> whole (finished_on i ls) (stream_text i (lt_world st));
  li_current : exists a b, stream_text (out_stream_ (lt_logger st)) (lt_world st) = a ++ b /\
    whole (finished_on (out_stream_ (lt_logger st)) ls) a /\
    match lt_mutex st with
    | None => b = []
    | Some t => exists p, lt_pcs st !! t = Some p /\ in_cs p = true /\ begun p b
    end;
}.

Lemma args_text_app a b : args_text (a ++ b) = args_text a ++ args_text b.
Proof. unfold args_text. by rewrite fmap_app, concat_app. Qed.

Lemma begun_record p s : in_cs p = true -> begun p s -> exists more, is_record (pc_call p) (s ++ more).
Proof.
  destruct p as [c|c|c|c rest]; cbn; [done|intros _ ->; eexists; by exists false, false| |]; intros _.
  - intros (full & ->). unfold front_text. exists (args_text (lc_args c) ++ endl), full, false.
    unfold record_text. by rewrite <- !app_assoc.
  - intros (full & place & args & E & ->). exists (args_text rest ++ endl), full, place.
    unfold record_text, front_text. rewrite E, args_text_app. destruct place; by rewrite <- !app_assoc.
Qed.

Lemma whole_snoc cs c a r : whole cs a -> is_record c r -> whole (cs ++ [c]) (a ++ r).
Proof.
  intros (rs & Hrs & ->) Hr. exists (rs ++ [r]). rewrite concat_app; cbn. rewrite app_nil_r.
  split; [apply Forall2_app; auto|done].
Qed.

Lemma finished_on_snoc i ls l :
  finished_on i (ls ++ [l]) = finished_on i ls ++
    (if l is L_finish _ c os then if decide (os = i) then [c] else [] else []).
Proof.
  unfold finished_on. rewrite omap_app. f_equal. destruct l as [t c|t c os|]; cbn; try done. by destruct (decide _).
Qed.

(** A label that ends no record. *)
Lemma log_inv_label ls l st : (if l is L_finish _ _ _ then False else True) -> log_inv ls st -> log_inv (ls ++ [l]) st.
Proof.
  intros Hl [H1 H2 H3].
  assert (forall i, finished_on i (ls ++ [l]) = finished_on i ls) as E.
  { intros i. rewrite finished_on_snoc. destruct l; [apply app_nil_r|done|apply app_nil_r]. }
  split; [done| |]; [intros i; rewrite E; apply H2|by rewrite E].
Qed.

Lemma others_insert l m s i :
  i <> out_stream_ l -> stream_text i (insert_text s (mk_log_world l m)) = stream_text i (mk_log_world l m).
Proof. intros Hi. rewrite stream_insert_text. by rewrite decide_False. Qed.

Lemma current_insert w s :
  stream_text (out_stream_ (lw_logger w)) (insert_text s w) = stream_text (out_stream_ (lw_logger w)) w ++ s.
Proof. rewrite stream_insert_text. by rewrite decide_True. Qed.

(** The thread inside appends [s] and goes to [p']. *)
Lemma log_inv_append ls w pcs mu t p p' s :
  log_inv ls (mk_log_threads w pcs mu) -> pcs !! t = Some p -> in_cs p = true -> in_cs p' = true ->
  (forall b, begun p b -> begun p' (b ++ s)) ->
  log_inv ls (mk_log_threads (insert_text s w) (<[t := p']> pcs) mu).
Proof.
  intros [Hout Hoth (a & b & Et & Ha & Hb)] Hp Hin Hin' Hbeg. cbn in *.
  pose proof (Hout t p Hp Hin) as ->. destruct Hb as (q & Hq & _ & Hb). rewrite Hp in Hq. injection Hq as <-.
  split; cbn.
  - intros t' q. destruct (decide (t' = t)) as [->|Hne]; [done|]. rewrite lookup_insert_ne by done. apply Hout.
  - intros i Hi. destruct w as [l m]. rewrite others_insert by exact Hi. by apply Hoth.
  - exists a, (b ++ s). rewrite current_insert. unfold lt_logger in Et. cbn in Et. rewrite Et, <- app_assoc.
    split_and!; [done|done|]. exists p'. rewrite lookup_insert_eq. auto.
Qed.

Lemma log_inv_noop ls w pcs mu :
  log_inv ls (mk_log_threads (insert_text [] w) pcs mu) -> log_inv ls (mk_log_threads w pcs mu).
Proof.
  assert (forall i, stream_text i (insert_text [] w) = stream_text i w) as E.
  { intros i. rewrite stream_insert_text. destruct (decide _); [apply app_nil_r|done]. }
  intros [H1 H2 H3]. split; cbn in *; [done| |].
  - intros i Hi. rewrite <- E. by apply H2.
  - by setoid_rewrite E in H3.
Qed.

(** The thread inside ends its record. *)
Lemma log_inv_finish ls w pcs mu t c :
  log_inv ls (mk_log_threads w pcs mu) -> pcs !! t = Some (At_args c []) ->
  log_inv (ls ++ [L_finish t c (out_stream_ (lw_logger w))]) (mk_log_threads (insert_text endl w) (delete t pcs) None).
Proof.
  intros [H1 H2 (a & b & Et & Ha & Hb)] Hp. cbn in *. pose proof (H1 t _ Hp eq_refl) as ->.
  destruct Hb as (q & Hq & _ & Hb). rewrite Hp in Hq. injection Hq as <-. split; cbn.
  - intros t' q Hq Hin. apply lookup_delete_Some in Hq as [Hne Hq]. specialize (H1 t' q Hq Hin). congruence.
  - intros i Hi. rewrite finished_on_snoc, decide_False, app_nil_r by congruence.
    destruct w as [l m]. rewrite others_insert by exact Hi. by apply H2.
  - exists (a ++ b ++ endl), []. rewrite current_insert, finished_on_snoc, decide_True by done.
    unfold lt_logger in Et. cbn in Et. rewrite Et, app_nil_r, <- app_assoc. split_and!; [done| |done].
    apply whole_snoc; [done|]. destruct Hb as (full & place & args & E & ->). exists full, place. rewrite app_nil_r in E.
    unfold record_text, front_text. rewrite E. destruct place; by rewrite <- !app_assoc.
Qed.

Lemma log_inv_step ls st l st' : log_step st l st' -> log_inv ls st -> log_inv (ls ++ [l]) st'.
Proof.
  intros Hs Hi. destruct Hs as [w pcs mu t c Hp _|w pcs t c Hp|w pcs mu t c Hp|w pcs mu t c Hp|w pcs mu t c a rest Hp
    |w pcs mu t c Hp|w pcs mu l El|w pcs os];
    [| | | | |by eapply log_inv_finish| |]; apply log_inv_label; try done.
  - destruct Hi as [H1 H2 (a & b & Et & Ha & Hb)]. split; cbn in *; [|done|].
    + intros t' q. destruct (decide (t' = t)) as [->|Hne].
      * rewrite lookup_insert_eq. by intros [= <-].
      * rewrite lookup_insert_ne by done. apply H1.
    + exists a, b. split_and!; [done|done|]. destruct mu as [t'|]; [|done]. destruct Hb as (q & Hq & Hb).
      exists q. rewrite lookup_insert_ne by congruence. done.
  - destruct Hi as [H1 H2 (a & b & Et & Ha & Hb)]. split; cbn in *; [|done|].
    + intros t' q. destruct (decide (t' = t)) as [->|Hne]; [done|]. rewrite lookup_insert_ne by done.
      intros Hq Hin. by specialize (H1 t' q Hq Hin).
    + exists a, b. split_and!; [done|done|]. exists (At_header c). by rewrite lookup_insert_eq.
  - eapply log_inv_append; [done..|]. cbn. intros b ->. exists (full_timestamp_ (lw_logger w)).
    unfold front_text. by rewrite app_nil_r.
  - assert (log_inv ls (mk_log_threads
      (insert_text (if print_filename_ (lw_logger w) then place_text (lc_file c) (lc_line c) else []) w)
      (<[t := At_args c (lc_args c)]> pcs) mu)) as H.
    { eapply log_inv_append; [done..|]. cbn. intros b (full & ->).
      exists full, (print_filename_ (lw_logger w)), []. split; [done|]. unfold front_text.
      rewrite !app_nil_r. by destruct (print_filename_ _). }
    destruct (print_filename_ (lw_logger w)); [done|by apply log_inv_noop].
  - eapply log_inv_append; [done..|]. cbn. intros b (full & place & args & E & ->).
    exists full, place, (args ++ [a]). rewrite E, <- app_assoc. split; [done|].
    rewrite args_text_app, <- app_assoc. do 2 f_equal. unfold args_text. cbn. by rewrite app_nil_r.
  - destruct Hi as [H1 H2 H3]. split; cbn in *; [done| |].
    + intros i. rewrite El. apply H2.
    + unfold lt_logger, stream_text in *. cbn in *. by rewrite El.
  - destruct Hi as [H1 H2 (a & b & Et & Ha & ->)]. rewrite app_nil_r in Et. cbn in *.
    assert (forall i, whole (finished_on i ls) (stream_text i w)) as H.
    { intros i. destruct (decide (i = out_stream_ (lw_logger w))) as [->|Hne]; [|by apply H2]. unfold lt_logger in Et, Ha.
      cbn in Et, Ha. by rewrite Et. }
    split; cbn; [done|intros i _; apply H|]. exists (stream_text os w), []. rewrite app_nil_r. by split_and!.
Qed.

(** The calls a thread has made are those it has ended and the one it is in. *)
Lemma calls_step ls st l st' :
  log_step st l st' -> (forall t, entered t ls = finished_by t ls ++ pending t st) ->
  forall t, entered t (ls ++ [l]) = finished_by t (ls ++ [l]) ++ pending t st'.
Proof.
  intros Hs H t. specialize (H t). unfold entered, finished_by, pending in *. rewrite !omap_app.
  destruct Hs as [w pcs mu t' c Hp _|w pcs t' c Hp|w pcs mu t' c Hp|w pcs mu t' c Hp|w pcs mu t' c a rest Hp
    |w pcs mu t' c Hp|w pcs mu l El|w pcs os]; cbn in *; rewrite ?app_nil_r, H; clear H; try done;
    (destruct (decide (t' = t)) as [->|Hne];
      [rewrite ?lookup_insert_eq, ?lookup_delete_eq, Hp; cbn; by rewrite ?app_nil_r
      |rewrite ?lookup_insert_ne, ?lookup_delete_ne by done; by rewrite ?app_nil_r]).
Qed.

Lemma log_run_inv ls st :
  log_run ls st -> log_inv ls st /\ forall t, entered t ls = finished_by t ls ++ pending t st.
Proof.
  induction 1 as [|ls st l st' _ [IH1 IH2] Hs].
  - split; [|intros t; unfold pending; cbn; by rewrite lookup_empty].
    split; cbn; [done|intros i' _; by exists []|]. exists [], []. split_and!; [done|by exists []|done].
  - split; [by eapply log_inv_step|by eapply calls_step].
Qed.

(** C40: A call of Log writes its record to the current stream when its level is
    enabled and nothing otherwise.  Whatever the threads of the program do,
    insertion by insertion, the calls each of them has made
    (those that passed the test of the level) are, in order, those it has ended
    and the one it is in, and the text of every stream is one record for each of
    the calls that ended on it, whole, in the order in which they ended, and in
    the current stream after them at most the beginning of the record of the
    call that holds the lock.  So records of different threads are never mixed,
    even when the flags are changed in the middle of one. *)
Theorem log_records_whole ls st :
  log_run ls st ->
  (forall w c, do_log w c = if decide (enabled (lw_logger w) c) then insert_text (call_text (lw_logger w) c) w else w) /\
  (forall t, entered t ls = finished_by t ls ++ pending t st) /\
  (forall i, exists records rest,
     stream_text i (lt_world st) = concat records ++ rest /\ Forall2 is_record (finished_on i ls) records /\
     (rest = [] \/ (i = out_stream_ (lt_logger st) /\ exists t p more,
        lt_mutex st = Some t /\ lt_pcs st !! t = Some p /\ is_record (pc_call p) (rest ++ more)))).
Proof.
  intros [[H1 H2 (a & b & Et & (rs & Hrs & ->) & Hb)] Hc]%log_run_inv. split_and!; [intros; apply Log_spec|exact Hc|]. intros i.
  destruct (decide (i = out_stream_ (lt_logger st))) as [->|Hne].
  - exists rs, b. split_and!; [done|done|]. destruct (lt_mutex st) as [t|]; [|by left].
    destruct Hb as (p & Hp & Hin & Hb). right. split; [done|]. destruct (begun_record p b Hin Hb) as [more Hm].
    by exists t, p, more.
  - destruct (H2 i Hne) as (rs' & Hrs' & ->). exists rs', []. rewrite app_nil_r. split_and!; [done|done|by left].
Qed.

End log.

(** The settings at the start of [main]: every record is written. *)
Definition main_logger : Logger := SetFullTimestamp false (SetPrintFileName false (SetLogLevel DEBUG Logger_ctor)).

Lemma main_logger_enabled c : enabled main_logger c.
Proof. unfold enabled, main_logger. cbn. by destruct (lc_level c). Qed.

Example ex_log :
  let w := mk_log_world (SetPrintFileName true Logger_ctor) ∅ in
  let calls := [mk_log_call 1772409599007000000 WARN (str "/src/timpani-o/src/main.cpp") 42 [LStr (str "port "); LInt 7777];
                mk_log_call 0 DEBUG (str "a.c") 1 [LStr (str "off")]] in
  stream_text std_cout (foldl (do_log (fun _ => 3600) (fun _ => [])) w calls)
  = str "00:59:59.007 [W] [main.cpp:42] port 7777" ++ endl.
Proof. vm_compute. reflexivity. Qed.

(** One thread is in the middle of its record and another one waits. *)
Lemma log_records_whole_witness :
  let c1 := mk_log_call 0 ERROR (str "a.c") 1 [LInt 1] in
  let c2 := mk_log_call 0 INFO (str "b.c") 2 [] in
  let st := mk_log_threads
    (insert_text (header_text (fun _ => 0) 0 ERROR Logger_ctor) (mk_log_world Logger_ctor ∅))
    (<[1%nat := At_place c1]> (<[1%nat := At_header c1]> (<[1%nat := At_lock c1]> (<[2%nat := At_lock c2]> ∅)))) (Some 1%nat) in
  exists records rest, stream_text std_cout (lt_world st) = concat records ++ rest /\
    Forall2 (is_record (fun _ => 0) (fun _ => [])) [] records /\
    (rest = [] \/ (std_cout = out_stream_ (lt_logger st) /\ exists t p more,
       lt_mutex st = Some t /\ lt_pcs st !! t = Some p /\ is_record (fun _ => 0) (fun _ => []) (pc_call p) (rest ++ more))).
Proof.
  intros c1 c2 st. apply (log_records_whole _ _ (((([] ++ [L_enter 2 c2]) ++ [L_enter 1 c1]) ++ [L_other]) ++ [L_other])).
  set (w := mk_log_world Logger_ctor ∅).
  eapply run_step; [|apply (step_header _ _ w _ (Some 1%nat) 1%nat c1); reflexivity].
  eapply run_step; [|apply (step_lock _ _ w _ 1%nat c1); reflexivity].
  eapply run_step; [|apply (step_enter _ _ w _ None 1%nat c1); reflexivity].
  eapply run_step; [|apply (step_enter _ _ w ∅ None 2%nat c2); reflexivity].
  apply run_start.
Defined.
