(* ===== verification/OrchHyperperiod.v ===== *)
(** * Hyperperiods of workloads (timpani-o)

    task.h, hyperperiod_manager.cpp and scheduler_utils.cpp: the orchestrator
    computes for each workload the least common multiple of the periods of its
    tasks, in [uint64_t]. *)

From S2P Require Import CppStd.

(** ** task.h *)

Record Task := mk_Task {
  tk_name : list byte;
  tk_workload_id : list byte;
  tk_target_node : list byte;
  tk_priority : Z;
  tk_policy : Z;
  tk_period_us : Z;
  tk_runtime_us : Z;
  tk_deadline_us : Z;
  tk_execution_time : Z;
  tk_deadline : Z;
  tk_period : Z;
  tk_release_time : Z;
  tk_max_dmiss : Z;
  tk_affinity : list byte;
  tk_cpu_affinity : Z;
  tk_memory_mb : Z;
  tk_dependencies : list byte;
  tk_cluster_requirement : list byte;
  tk_assigned_node : list byte;
  tk_assigned_cpu : Z;
}.

#[export] Instance Task_eta : Eta Task := fun t =>
  mk_Task (tk_name t) (tk_workload_id t) (tk_target_node t) (tk_priority t) (tk_policy t)
    (tk_period_us t) (tk_runtime_us t) (tk_deadline_us t) (tk_execution_time t) (tk_deadline t)
    (tk_period t) (tk_release_time t) (tk_max_dmiss t) (tk_affinity t) (tk_cpu_affinity t)
    (tk_memory_mb t) (tk_dependencies t) (tk_cluster_requirement t) (tk_assigned_node t)
    (tk_assigned_cpu t).

(** [Task()].  The constructor leaves [policy], [release_time] and
    [max_dmiss] uninitialized: their values are arguments. *)
Definition Task_ctor (policy release_time max_dmiss : Z) : Task := {|
  tk_name := []; tk_workload_id := []; tk_target_node := [];
  tk_priority := 0; tk_policy := policy;
  tk_period_us := 0; tk_runtime_us := 0; tk_deadline_us := 0;
  tk_execution_time := 0; tk_deadline := 0; tk_period := 0;
  tk_release_time := release_time; tk_max_dmiss := max_dmiss;
  tk_affinity := []; tk_cpu_affinity := -1; tk_memory_mb := 64;
  tk_dependencies := []; tk_cluster_requirement := [];
  tk_assigned_node := []; tk_assigned_cpu := -1;
|}.

(** ** hyperperiod_manager.cpp *)

(** [while (b != 0) { temp = b; b = a % b; a = temp; }] with at most [fuel]
    turns. *)
Fixpoint gcd_loop (fuel : nat) (a b : Z) : option Z :=
  if b =? 0 then Some a
  else match fuel with
       | O => None
       | S fuel => gcd_loop fuel b (a mod b)
       end.

(** Two turns halve [b]: 130 turns are enough for 64 bits
    ([gcd_loop_total]). *)
Definition gcd_fuel : nat := 130.

Definition Gcd (a b : Z) : Z :=
  match gcd_loop gcd_fuel a b with Some g => g | None => 0 end.

Definition Lcm (a b : Z) : Z :=
  if (a =? 0) || (b =? 0) then 0 else u64 ((a / Gcd a b) * b).

Definition CalculateLcm (periods : list Z) : Z :=
  match periods with
  | [] => 0
  | p :: ps => fold_left Lcm ps p
  end.

Record HyperperiodInfo := mk_HyperperiodInfo {
  hi_workload_id : list byte;
  hi_hyperperiod_us : Z;
  hi_periods : list Z;
  hi_task_count : Z;
}.

Definition hyperperiod_map := cmap (list byte) HyperperiodInfo.

(** The result and the new [hyperperiod_map_]. *)
Definition CalculateHyperperiod (workload_id : list byte) (tasks : list Task)
    (m : hyperperiod_map) : Z * hyperperiod_map :=
  match tasks with
  | [] => (0, m)
  | _ =>
      let workload_tasks := filter (fun t => tk_workload_id t = workload_id) tasks in
      match workload_tasks with
      | [] => (0, m)
      | _ =>
          let unique_periods :=
            fold_left (fun s t => if 0 <? tk_period_us t then set_insert (tk_period_us t) s else s)
              workload_tasks [] in
          match unique_periods with
          | [] => (0, m)
          | periods =>
              let hyperperiod := CalculateLcm periods in
              let info := {| hi_workload_id := workload_id;
                             hi_hyperperiod_us := hyperperiod;
                             hi_periods := periods;
                             hi_task_count := Z.of_nat (length workload_tasks) |} in
              (hyperperiod, map_set workload_id info m)
          end
      end
  end.

Definition GetHyperperiodInfo (workload_id : list byte) (m : hyperperiod_map)
  : option HyperperiodInfo := map_find workload_id m.

Definition ClearWorkload (workload_id : list byte) (m : hyperperiod_map) : hyperperiod_map :=
  match map_find workload_id m with
  | Some _ => map_erase workload_id m
  | None => m
  end.

Definition Clear (m : hyperperiod_map) : hyperperiod_map :=
  match m with [] => m | _ => [] end.

Definition HasHyperperiod (workload_id : list byte) (m : hyperperiod_map) : bool :=
  match map_find workload_id m with Some _ => true | None => false end.

(** ** scheduler_utils.cpp *)

Definition calculateGCD (a b : Z) : Z :=
  match gcd_loop gcd_fuel a b with Some g => g | None => 0 end.

(** Unlike [Lcm] there is no test for zero: the division is undefined when
    both arguments are. *)
Definition calculateLCM (a b : Z) : outcome Z :=
  let g := calculateGCD a b in
  if g =? 0 then UB else Ret (u64 ((a / g) * b)).

Fixpoint calculateHyperperiod_loop (result : Z) (ps : list Z) : outcome Z :=
  match ps with
  | [] => Ret result
  | p :: ps => r ← calculateLCM result p; calculateHyperperiod_loop r ps
  end.

Definition calculateHyperperiod (periods : list Z) : outcome Z :=
  match periods with
  | [] => Ret 0
  | p :: ps => calculateHyperperiod_loop p ps
  end.

(** ** Euclid's loop *)

Lemma gcd_mod a b : b <> 0 -> Z.gcd b (a mod b) = Z.gcd a b.
Proof. intros Hb. rewrite Z.gcd_comm, Z.gcd_mod by done. apply Z.gcd_comm. Qed.

Lemma gcd_loop_steps n a b :
  0 <= a -> 0 <= b < 2 ^ Z.of_nat n -> gcd_loop (2 * n) a b = Some (Z.gcd a b).
Proof.
  revert a b. induction n as [|n IH]; intros a b Ha Hb.
  { change (2 ^ Z.of_nat 0) with 1 in Hb. assert (b = 0) as -> by lia. cbn.
    by rewrite Z.gcd_0_r, Z.abs_eq. }
  replace (2 * S n)%nat with (S (S (2 * n))) by lia. cbn [gcd_loop].
  rewrite Nat2Z.inj_succ, Z.pow_succ_r in Hb by lia.
  destruct (Z.eqb_spec b 0) as [->|Hb0]; [by rewrite Z.gcd_0_r, Z.abs_eq|].
  pose proof (Z.mod_pos_bound a b ltac:(lia)) as Hr.
  rewrite <- (gcd_mod a b) by done.
  destruct (Z.eqb_spec (a mod b) 0) as [->|Hr0]; [by rewrite Z.gcd_0_r, Z.abs_eq by lia|].
  rewrite <- (gcd_mod b (a mod b)) by done.
  pose proof (Z.mod_pos_bound b (a mod b) ltac:(lia)).
  pose proof (Z.div_mod b (a mod b) Hr0).
  assert (1 <= b / (a mod b)) by (apply Z.div_le_lower_bound; lia).
  apply IH; nia.
Qed.

Lemma gcd_loop_total a b :
  0 <= a -> in_u 64 b -> gcd_loop gcd_fuel a b = Some (Z.gcd a b).
Proof.
  intros Ha Hb. apply (gcd_loop_steps 65); [done|]. unfold in_u in Hb.
  assert (2 ^ 64 <= 2 ^ Z.of_nat 65) by (apply Z.pow_le_mono_r; lia). lia.
Qed.

Lemma Gcd_spec a b : 0 <= a -> in_u 64 b -> Gcd a b = Z.gcd a b.
Proof. intros. unfold Gcd. by rewrite gcd_loop_total. Qed.

Lemma calculateGCD_spec a b : 0 <= a -> in_u 64 b -> calculateGCD a b = Z.gcd a b.
Proof. intros. unfold calculateGCD. by rewrite gcd_loop_total. Qed.

(** ** Least common multiples *)

Lemma lcm_div a b : 0 < a -> 0 < b -> (a / Z.gcd a b) * b = Z.lcm a b.
Proof.
  intros Ha Hb. assert (Z.gcd a b <> 0) as Hg by (intros E%Z.gcd_eq_0_l; lia).
  pose proof (Z.gcd_nonneg a b). unfold Z.lcm.
  rewrite Z.lcm_equiv2, <- Z.lcm_equiv1 by done. rewrite Z.abs_eq; [done|].
  apply Z.mul_nonneg_nonneg; [lia|]. apply Z.div_pos; lia.
Qed.

Lemma Lcm_spec a b : 0 < a -> 0 < b -> in_u 64 b -> Lcm a b = u64 (Z.lcm a b).
Proof.
  intros Ha Hb Hu. unfold Lcm. rewrite (proj2 (Z.eqb_neq a 0)), (proj2 (Z.eqb_neq b 0)) by lia.
  cbn [orb]. by rewrite Gcd_spec, lcm_div by (done || lia).
Qed.

(** The least common multiple of a list. *)
Definition lcm_list (l : list Z) : Z := foldr Z.lcm 1 l.

Lemma lcm_list_pos l : Forall (fun p => 0 < p) l -> 0 < lcm_list l.
Proof.
  induction 1 as [|p l Hp _ IH]; cbn; [lia|].
  pose proof (Z.lcm_nonneg p (lcm_list l)). unfold lcm_list in *.
  assert (Z.lcm p (foldr Z.lcm 1 l) <> 0) by (intros [?|?]%Z.lcm_eq_0; lia). lia.
Qed.

Lemma lcm_list_divide l p : p ∈ l -> (p | lcm_list l).
Proof.
  induction 1 as [|x y l _ IH]; cbn; [apply Z.divide_lcm_l|].
  etransitivity; [exact IH|]. apply Z.divide_lcm_r.
Qed.

Lemma lcm_list_least l m : (forall p, p ∈ l -> (p | m)) -> (lcm_list l | m).
Proof.
  induction l as [|x l IH]; intros H; cbn; [apply Z.divide_1_l|].
  apply Z.lcm_least; [apply H; left|apply IH; intros; apply H; by right].
Qed.

Lemma fold_Lcm l a :
  0 < a -> Forall (fun p => 0 < p) l -> Z.lcm a (lcm_list l) < 2 ^ 64 ->
  fold_left Lcm l a = Z.lcm a (lcm_list l).
Proof.
  revert a. induction l as [|p l IH]; intros a Ha Hl Hb; cbn [fold_left].
  { cbn. by rewrite Z.lcm_1_r, Z.abs_eq by lia. }
  apply Forall_cons in Hl as [Hp Hl]. cbn [lcm_list foldr] in *. fold (lcm_list l) in *.
  rewrite Z.lcm_assoc in *. pose proof (lcm_list_pos l Hl).
  assert (0 < Z.lcm a p) as Hpos.
  { pose proof (Z.lcm_nonneg a p). assert (Z.lcm a p <> 0) by (intros [?|?]%Z.lcm_eq_0; lia). lia. }
  assert (Z.lcm a p <= Z.lcm (Z.lcm a p) (lcm_list l)) as Hle.
  { apply Z.divide_pos_le; [|apply Z.divide_lcm_l].
    pose proof (Z.lcm_nonneg (Z.lcm a p) (lcm_list l)).
    assert (Z.lcm (Z.lcm a p) (lcm_list l) <> 0) by (intros [?|?]%Z.lcm_eq_0; lia). lia. }
  assert (p <= Z.lcm a p) by (apply Z.divide_pos_le; [done|apply Z.divide_lcm_r]).
  rewrite Lcm_spec, wrapu_id; [by apply IH|split; lia|done|done|split; lia].
Qed.

Lemma CalculateLcm_spec l :
  l <> [] -> Forall (fun p => 0 < p) l -> lcm_list l < 2 ^ 64 -> CalculateLcm l = lcm_list l.
Proof. destruct l as [|p l]; [done|]. intros _ [? ?]%Forall_cons. by apply fold_Lcm. Qed.

(** ** The periods of a workload *)

Definition workload_periods (workload_id : list byte) (tasks : list Task) : list Z :=
  filter (fun p => 0 < p) (tk_period_us <$> filter (fun t => tk_workload_id t = workload_id) tasks).

Definition collect_periods (tasks : list Task) (s : list Z) : list Z :=
  fold_left (fun s t => if 0 <? tk_period_us t then set_insert (tk_period_us t) s else s) tasks s.

Lemma collect_periods_spec tasks s :
  StronglySorted klt s ->
  StronglySorted klt (collect_periods tasks s) /\
  forall p, p ∈ collect_periods tasks s <-> p ∈ s \/ p ∈ filter (fun p => 0 < p) (tk_period_us <$> tasks).
Proof.
  revert s. induction tasks as [|t tasks IH]; intros s Hs; cbn [collect_periods fold_left fmap list_fmap].
  { split; [done|]. intros p. rewrite filter_nil, elem_of_nil. tauto. }
  rewrite filter_cons. destruct (Z.ltb_spec 0 (tk_period_us t)) as [Hlt|Hge].
  - destruct (IH (set_insert (tk_period_us t) s)) as [? Hin]; [by apply sorted_set_insert|].
    split; [done|]. intros p. unfold collect_periods in Hin. rewrite Hin, elem_of_set_insert.
    rewrite decide_True by done. rewrite elem_of_cons. tauto.
  - rewrite decide_False by lia. by apply IH.
Qed.

Lemma lcm_list_ext l1 l2 :
  Forall (fun p => 0 < p) l1 -> (forall p, p ∈ l1 <-> p ∈ l2) -> lcm_list l1 = lcm_list l2.
Proof.
  intros H1 H12. assert (Forall (fun p => 0 < p) l2) as H2.
  { rewrite Forall_forall in *. intros p Hp. apply H1. by apply H12. }
  apply Z.divide_antisym_nonneg.
  - pose proof (lcm_list_pos l1 H1). lia.
  - pose proof (lcm_list_pos l2 H2). lia.
  - apply lcm_list_least. intros p Hp. apply lcm_list_divide. by apply H12.
  - apply lcm_list_least. intros p Hp. apply lcm_list_divide. by apply H12.
Qed.

(** C21: For a workload with at least one task of positive period, whose least
    common multiple of the periods fits [uint64_t], CalculateHyperperiod
    returns it and records it with the distinct periods in increasing order and
    the number of tasks; every period divides the hyperperiod and it divides
    every other common multiple. *)
Theorem hyperperiod_is_lcm wid tasks m :
  let ps := workload_periods wid tasks in
  ps <> [] -> lcm_list ps < 2 ^ 64 ->
  exists info,
    CalculateHyperperiod wid tasks m = (hi_hyperperiod_us info, map_set wid info m) /\
    hi_workload_id info = wid /\
    hi_task_count info = Z.of_nat (length (filter (fun t => tk_workload_id t = wid) tasks)) /\
    StronglySorted Z.lt (hi_periods info) /\ (forall p, p ∈ hi_periods info <-> p ∈ ps) /\
    0 < hi_hyperperiod_us info < 2 ^ 64 /\
    (forall p, p ∈ ps -> (p | hi_hyperperiod_us info)) /\
    (forall c, (forall p, p ∈ ps -> (p | c)) -> (hi_hyperperiod_us info | c)).
Proof.
  intros ps Hps Hb. set (wt := filter (fun t => tk_workload_id t = wid) tasks).
  destruct (collect_periods_spec wt [] ltac:(constructor)) as [Hsort Hin].
  set (cs := collect_periods wt []) in *.
  assert (forall p, p ∈ cs <-> p ∈ ps) as Hcs.
  { intros p. rewrite Hin, elem_of_nil. unfold ps, workload_periods. fold wt. tauto. }
  assert (Forall (fun p => 0 < p) cs) as Hpos.
  { apply Forall_forall. intros p Hp%Hcs. by apply list_elem_of_filter in Hp as [? _]. }
  rewrite <- (lcm_list_ext cs ps Hpos Hcs) in Hb.
  assert (cs <> []) as Hne.
  { intros E. destruct ps as [|p ps']; [done|]. apply (not_elem_of_nil p). rewrite <- E.
    apply Hcs. left. }
  exists {| hi_workload_id := wid; hi_hyperperiod_us := CalculateLcm cs; hi_periods := cs;
            hi_task_count := Z.of_nat (length wt) |}. cbn [hi_hyperperiod_us hi_periods hi_workload_id hi_task_count].
  rewrite (CalculateLcm_spec cs) by done. pose proof (lcm_list_pos cs Hpos).
  split_and!; try done.
  - unfold CalculateHyperperiod. fold wt. fold (collect_periods wt []). fold cs.
    assert (wt <> []) as Hwt by (intros E; unfold cs in Hne; by rewrite E in Hne).
    destruct tasks as [|t tasks]; [done|]. destruct wt as [|t' wt']; [done|].
    rewrite <- (CalculateLcm_spec cs) by done. by destruct cs.
  - intros p Hp. apply lcm_list_divide. by apply Hcs.
  - intros c Hc. apply lcm_list_least. intros p Hp. by apply Hc, Hcs.
Qed.

(** CalculateHyperperiod fails exactly on the inputs without a usable
    period: with no task of positive period in the workload it returns 0 and
    leaves the records as they were, whatever else the task list holds. *)
Theorem hyperperiod_no_periods wid tasks m :
  workload_periods wid tasks = [] -> CalculateHyperperiod wid tasks m = (0, m).
Proof.
  intros E. unfold CalculateHyperperiod. destruct tasks as [|t tasks]; [done|].
  set (wt := filter (fun x => tk_workload_id x = wid) (t :: tasks)).
  fold (collect_periods wt []).
  destruct (collect_periods_spec wt [] ltac:(constructor)) as [_ Hin].
  destruct (collect_periods wt []) as [|p ps] eqn:Ec; [by destruct wt|].
  exfalso. assert (p ∈ workload_periods wid (t :: tasks)) as Hp.
  { unfold workload_periods. fold wt.
    destruct (proj1 (Hin p)) as [H|H]; [left|by apply not_elem_of_nil in H|done]. }
  rewrite E in Hp. by apply not_elem_of_nil in Hp.
Qed.

(** ** The two implementations *)

Lemma calculateLCM_Lcm a b :
  0 <= a -> 0 < b -> in_u 64 b -> calculateLCM a b = Ret (Lcm a b).
Proof.
  intros Ha Hb Hu. unfold calculateLCM, Lcm. rewrite calculateGCD_spec, Gcd_spec by done.
  rewrite (proj2 (Z.eqb_neq (Z.gcd a b) 0)) by (intros E%Z.gcd_eq_0_r; lia).
  rewrite (proj2 (Z.eqb_neq b 0)) by lia. rewrite orb_false_r.
  destruct (Z.eqb_spec a 0) as [->|]; [|done]. by rewrite Z.div_0_l by (intros E%Z.gcd_eq_0_r; lia).
Qed.

(** C25: On any list of positive [uint64_t] periods, wrap-around included, the
    free functions of scheduler_utils.cpp compute the same hyperperiod as
    HyperperiodManager, without undefined behaviour. *)
Theorem hyperperiod_implementations_agree periods :
  Forall (fun p => 0 < p /\ in_u 64 p) periods ->
  calculateHyperperiod periods = Ret (CalculateLcm periods).
Proof.
  destruct periods as [|p ps]; [done|]. intros [[Hp _] Hps]%Forall_cons. cbn.
  assert (0 <= p) as Hge by lia. clear Hp. revert p Hge.
  induction Hps as [|q ps [Hq Hu] _ IH]; intros p Hp; cbn; [done|].
  rewrite calculateLCM_Lcm by done. cbn. apply IH. unfold Lcm. case_match; [done|].
  apply wrapu_range. lia.
Qed.

(** The manager's guard is what separates the two on zero periods: two zero
    periods are undefined in scheduler_utils.cpp (a division by zero) and give 0
    in the manager. *)
Lemma hyperperiod_zero_periods ps :
  calculateHyperperiod (0 :: 0 :: ps) = UB /\ CalculateLcm [0; 0] = 0.
Proof. split; reflexivity. Qed.

(** ** Concrete inputs *)

Definition ex_periodic (wid : string) (period : Z) : Task :=
  (Task_ctor 1 0 0) <| tk_workload_id := str wid |> <| tk_period_us := period |>.

Definition ex_tasks : list Task :=
  [ex_periodic "w" 20000; ex_periodic "other" 7; ex_periodic "w" 50000; ex_periodic "w" 0;
   ex_periodic "w" 20000].

Lemma hyperperiod_is_lcm_witness :
  exists info, CalculateHyperperiod (str "w") ex_tasks [] = (hi_hyperperiod_us info, [(str "w", info)])
    /\ hi_task_count info = 4.
Proof.
  destruct (hyperperiod_is_lcm (str "w") ex_tasks []) as (info & E & _ & Hc & _);
    [by vm_compute|by vm_compute|].
  exists info. split; [exact E|]. rewrite Hc. reflexivity.
Defined.

Lemma hyperperiod_no_periods_witness :
  CalculateHyperperiod (str "none") ex_tasks [] = (0, []).
Proof. apply hyperperiod_no_periods. reflexivity. Defined.

Lemma hyperperiod_implementations_agree_witness :
  calculateHyperperiod [4; 6; 2 ^ 63] = Ret 9223372036854775808.
Proof.
  rewrite (hyperperiod_implementations_agree [4; 6; 2 ^ 63]); [reflexivity|].
  repeat (apply Forall_cons; split; [split; [lia|split; lia]|]). constructor.
Defined.

(** The exact least common multiple of three [int32] periods need not fit 64
    bits: the value recorded then is not a common multiple. *)
Lemma hyperperiod_overflows :
  let tasks := ex_periodic "w" <$> [2147483647; 2147483646; 2147483645] in
  2 ^ 64 < lcm_list (workload_periods (str "w") tasks) /\
  (CalculateHyperperiod (str "w") tasks []).1 mod 2147483647 <> 0.
Proof. split; vm_compute; done. Qed.
