(* ===== verification/NodeConfig.v ===== *)
(** * Node configuration (timpani-o/src/node_config.cpp)

    The orchestrator reads the nodes of the system from a file in a subset of
    YAML.  The parser is modelled on the bytes of the file; the theorem is that
    it reads back every configuration written in the format of
    timpani-o/examples. *)

From S2P Require Import CppStd.

Record NodeConfig := mk_NodeConfig {
  nc_name : list byte;
  nc_available_cpus : list Z;
  nc_max_memory_mb : Z;
  nc_architecture : list byte;
  nc_location : list byte;
  nc_description : list byte;
}.

#[export] Instance NodeConfig_eta : Eta NodeConfig := fun c =>
  mk_NodeConfig (nc_name c) (nc_available_cpus c) (nc_max_memory_mb c) (nc_architecture c)
    (nc_location c) (nc_description c).

(** [NodeConfig()] *)
Definition NodeConfig_ctor : NodeConfig := mk_NodeConfig [] [] 4096 [] [] [].

Definition node_map := cmap (list byte) NodeConfig.

(** The members of [NodeConfigManager]. *)
Record NodeConfigManager := mk_NodeConfigManager {
  ncm_nodes : node_map;
  ncm_loaded : bool;
}.

Definition NodeConfigManager_ctor : NodeConfigManager := mk_NodeConfigManager [] false.

(** ** Strings *)

(** The results of [while (std::getline(stream, line, delim))]: the pieces
    between delimiters; an empty piece at the end of the stream is not
    reported. *)
Fixpoint getlines (delim : byte) (cur s : list byte) : list (list byte) :=
  match s with
  | [] => match cur with [] => [] | _ => [reverse cur] end
  | b :: s => if decide (b = delim) then reverse cur :: getlines delim [] s
              else getlines delim (b :: cur) s
  end.

Definition newline : byte := x0a.
Definition tab : byte := x09.
Definition space : byte := " "%byte.
Definition colon : byte := ":"%byte.
Definition comma : byte := ","%byte.
Definition hash : byte := "#"%byte.
Definition dquote : byte := x22.
Definition quote : byte := x27.

Definition blank (b : byte) : bool := bool_decide (b = space) || bool_decide (b = tab).

Fixpoint trim_left (s : list byte) : list byte :=
  match s with
  | b :: s' => if blank b then trim_left s' else s
  | [] => []
  end.

(** [s.erase(0, s.find_first_not_of(" \t")); s.erase(s.find_last_not_of(" \t") + 1)] *)
Definition trim (s : list byte) : list byte := reverse (trim_left (reverse (trim_left s))).

(** The parts before and after the first colon; [None] is [npos]. *)
Fixpoint split_colon (s : list byte) : option (list byte * list byte) :=
  match s with
  | [] => None
  | b :: s =>
      if decide (b = colon) then Some ([], s)
      else match split_colon s with Some (k, v) => Some (b :: k, v) | None => None end
  end.

(** [s.find(p) == 0] *)
Definition starts_with (p s : list byte) : bool := bool_decide (take (length p) s = p).

(** [s.front() == open && s.back() == close], then
    [s = s.substr(1, s.length() - 2)].  [front] of an empty string is
    undefined. *)
Definition enclosed (open close : byte) (s : list byte) : bool :=
  bool_decide (hd_error s = Some open) && bool_decide (last s = Some close).

Definition strip (s : list byte) : list byte := take (length s - 2) (drop 1 s).

(** ** Parsing *)

Fixpoint parse_cpu_tokens (tokens : list (list byte)) : list Z :=
  match tokens with
  | [] => []
  | token :: tokens =>
      let token := trim token in
      match token with
      | [] => parse_cpu_tokens tokens
      | _ => match stoi token with
             | Some cpu_id => cpu_id :: parse_cpu_tokens tokens
             | None => parse_cpu_tokens tokens
             end
      end
  end.

Definition ParseCpuList (cpu_str : list byte) : outcome (list Z) :=
  match cpu_str with
  | [] => UB
  | _ =>
      let clean_str := if enclosed "[" "]" cpu_str then strip cpu_str else cpu_str in
      Ret (parse_cpu_tokens (getlines comma [] clean_str))
  end.

(** The local variables of [ParseNodeSection] and [nodes_]. *)
Record parse_state := mk_parse_state {
  ps_nodes : node_map;
  ps_current_node : list byte;
  ps_current_config : NodeConfig;
  ps_in_nodes_section : bool;
  ps_in_node_definition : bool;
}.

#[export] Instance parse_state_eta : Eta parse_state := fun s =>
  mk_parse_state (ps_nodes s) (ps_current_node s) (ps_current_config s) (ps_in_nodes_section s)
    (ps_in_node_definition s).

(** The block that saves the node being read. *)
Definition save_node (s : parse_state) : parse_state :=
  if ps_in_node_definition s && negb (bool_decide (ps_current_node s = [])) then
    let config := (ps_current_config s) <| nc_name := ps_current_node s |> in
    s <| ps_current_config := config |> <| ps_nodes ::= map_set (ps_current_node s) config |>
  else s.

(** The branch of a property line.  [Ret None]: [std::stoi] threw. *)
Definition parse_property (line : list byte) (s : parse_state) : outcome (option parse_state) :=
  match split_colon line with
  | None => Ret (Some s)
  | Some (key, value) =>
      let value := trim value in
      match value with
      | [] => UB
      | _ =>
          let value := if enclosed dquote dquote value || enclosed quote quote value
                       then strip value else value in
          let c := ps_current_config s in
          let done c := Ret (Some (s <| ps_current_config := c |>)) in
          if decide (key = str "available_cpus") then
            cpus ← ParseCpuList value; done (c <| nc_available_cpus := cpus |>)
          else if decide (key = str "max_memory_mb") then
            match stoi value with
            | Some n => done (c <| nc_max_memory_mb := n |>)
            | None => Ret None
            end
          else if decide (key = str "architecture") then done (c <| nc_architecture := value |>)
          else if decide (key = str "location") then done (c <| nc_location := value |>)
          else if decide (key = str "description") then done (c <| nc_description := value |>)
          else Ret (Some s)
      end
  end.

(** One turn of the loop over the lines. *)
Definition parse_line (original_line : list byte) (s : parse_state) : outcome (option parse_state) :=
  let line := trim original_line in
  match line with
  | [] => Ret (Some s)
  | c :: _ =>
      if decide (c = hash) then Ret (Some s)
      else if decide (line = str "nodes:") then Ret (Some (s <| ps_in_nodes_section := true |>))
      else if negb (ps_in_nodes_section s) then Ret (Some s)
      else if starts_with (str "  ") original_line && negb (starts_with (str "    ") original_line)
              && bool_decide (is_Some (split_colon line)) then
        let s := save_node s in
        let name := match split_colon line with Some (k, _) => k | None => line end in
        Ret (Some (s <| ps_current_node := name |> <| ps_current_config := NodeConfig_ctor |>
                     <| ps_in_node_definition := true |>))
      else if negb (ps_in_node_definition s) then Ret (Some s)
      else if starts_with (str "    ") original_line then parse_property line s
      else Ret (Some s)
  end.

Fixpoint parse_lines (lines : list (list byte)) (s : parse_state) : outcome (option parse_state) :=
  match lines with
  | [] => Ret (Some s)
  | l :: lines =>
      r ← parse_line l s;
      match r with
      | None => Ret None
      | Some s => parse_lines lines s
      end
  end.

(** [ParseNodeSection] on [nodes_ = nodes]; it always returns [true]. *)
Definition ParseNodeSection (yaml_content : list byte) (nodes : node_map) : outcome (option node_map) :=
  r ← parse_lines (getlines newline [] yaml_content)
        (mk_parse_state nodes [] NodeConfig_ctor false false);
  match r with
  | None => Ret None
  | Some s => Ret (Some (ps_nodes (save_node s)))
  end.

Definition GetDefaultNodeConfig : NodeConfig := {|
  nc_name := str "default_node";
  nc_available_cpus := [0; 1; 2; 3];
  nc_max_memory_mb := 4096;
  nc_architecture := str "aarch64";
  nc_location := str "default_location";
  nc_description := str "Default node configuration";
|}.

(** The manager after the call and its result; [file] is the content of the
    configuration file, [None] when it cannot be opened. *)
Definition LoadFromFile (file : option (list byte)) (m : NodeConfigManager)
  : outcome (option (bool * NodeConfigManager)) :=
  match file with
  | None => Ret (Some (false, mk_NodeConfigManager [] false))
  | Some content =>
      r ← ParseNodeSection content [];
      match r with
      | None => Ret None
      | Some [] =>
          let default_node := GetDefaultNodeConfig <| nc_name := str "default_node" |> in
          Ret (Some (true, mk_NodeConfigManager (map_set (str "default_node") default_node []) true))
      | Some nodes => Ret (Some (true, mk_NodeConfigManager nodes true))
      end
  end.

Definition GetNodeConfig (node_name : list byte) (m : NodeConfigManager) : option NodeConfig :=
  map_find node_name (ncm_nodes m).

Definition GetAllNodes (m : NodeConfigManager) : node_map := ncm_nodes m.

Definition GetAvailableCpus (node_name : list byte) (m : NodeConfigManager) : list Z :=
  match GetNodeConfig node_name m with
  | Some config => nc_available_cpus config
  | None => [0; 1; 2; 3]
  end.

Definition IsLoaded (m : NodeConfigManager) : bool := ncm_loaded m.

(** ** The written format *)

Fixpoint cpu_text (cpus : list Z) : list byte :=
  match cpus with
  | [] => []
  | [c] => fmt_d c
  | c :: cpus => fmt_d c ++ str ", " ++ cpu_text cpus
  end.

Definition quoted (s : list byte) : list byte := dquote :: s ++ [dquote].

(** A property line. *)
Definition prop_line (key : string) (value : list byte) : list byte :=
  str "    " ++ str key ++ str ": " ++ value.

Definition node_lines (e : list byte * NodeConfig) : list (list byte) :=
  let '(name, c) := e in
  [ str "  " ++ name ++ [colon];
    prop_line "available_cpus" ("["%byte :: cpu_text (nc_available_cpus c) ++ ["]"%byte]);
    prop_line "max_memory_mb" (fmt_d (nc_max_memory_mb c));
    prop_line "architecture" (quoted (nc_architecture c));
    prop_line "location" (quoted (nc_location c));
    prop_line "description" (quoted (nc_description c)) ].

Definition write_config (nodes : node_map) : list byte :=
  concat ((fun l => l ++ [newline]) <$> str "nodes:" :: concat (node_lines <$> nodes)).

(** What can be written: a name that is a nonempty word without a colon, no
    line breaks in the texts, integers in the range of [int]. *)
Record writable (e : list byte * NodeConfig) : Prop := {
  wr_name : nc_name e.2 = e.1;
  wr_word : Forall (fun b => blank b = false) e.1;
  wr_nonempty : e.1 <> [];
  wr_hash : hd_error e.1 <> Some hash;
  wr_colon : colon ∉ e.1;
  wr_nodes : e.1 <> str "nodes";
  wr_lines : Forall (fun l => newline ∉ l)
    [e.1; nc_architecture e.2; nc_location e.2; nc_description e.2];
  wr_cpus : Forall (in_s 32) (nc_available_cpus e.2);
  wr_memory : in_s 32 (nc_max_memory_mb e.2);
}.

(** ** Strings *)

Lemma getlines_cons d cur l s :
  d ∉ l -> getlines d cur (l ++ d :: s) = (reverse cur ++ l) :: getlines d [] s.
Proof.
  revert cur. induction l as [|b l IH]; intros cur Hd; simpl.
  - by rewrite decide_True, app_nil_r.
  - apply not_elem_of_cons in Hd as [Hb Hd]. rewrite decide_False by done.
    rewrite IH by done. by rewrite reverse_cons, <- app_assoc.
Qed.

Lemma getlines_last d cur l : d ∉ l -> cur ++ l <> [] -> getlines d cur l = [reverse cur ++ l].
Proof.
  revert cur. induction l as [|b l IH]; intros cur Hd Hne; simpl.
  - rewrite app_nil_r in *. by destruct cur.
  - apply not_elem_of_cons in Hd as [Hb Hd]. rewrite decide_False by done.
    rewrite IH by done. by rewrite reverse_cons, <- app_assoc.
Qed.

Lemma getlines_concat d ls :
  Forall (fun l => d ∉ l) ls -> getlines d [] (concat ((fun l => l ++ [d]) <$> ls)) = ls.
Proof.
  induction 1 as [|l ls Hl _ IH]; cbn; [done|].
  rewrite <- app_assoc. cbn. rewrite getlines_cons by done. by rewrite IH.
Qed.

(** First and last byte are not blanks. *)
Definition tight (l : list byte) : Prop :=
  (exists b, hd_error l = Some b /\ blank b = false) /\
  (exists b, last l = Some b /\ blank b = false).

Lemma trim_left_tight l b : hd_error l = Some b -> blank b = false -> trim_left l = l.
Proof. destruct l as [|x l]; [done|]. intros [= ->] Hb. cbn. by rewrite Hb. Qed.

Lemma trim_left_blanks ws l : Forall (fun b => blank b = true) ws -> trim_left (ws ++ l) = trim_left l.
Proof. induction 1 as [|b ws Hb _ IH]; cbn; [done|]. by rewrite Hb. Qed.

Lemma trim_tight ws l : Forall (fun b => blank b = true) ws -> tight l -> trim (ws ++ l) = l.
Proof.
  intros Hws [(a & Ha & Ba) (z & Hz & Bz)]. unfold trim.
  rewrite trim_left_blanks by done. rewrite (trim_left_tight l a) by done.
  rewrite (trim_left_tight (reverse l) z); [apply reverse_involutive| |done].
  destruct l as [|y l _] using rev_ind; [done|]. rewrite last_snoc in Hz. simplify_eq.
  by rewrite reverse_app.
Qed.

Lemma tight_app a m z x y :
  hd_error (a ++ m ++ z) = Some x -> blank x = false ->
  last z = Some y -> blank y = false -> tight (a ++ m ++ z).
Proof.
  intros Hx Bx Hy By. split; [by exists x|]. exists y. split; [|done].
  by rewrite !last_app, Hy.
Qed.

Lemma split_colon_app k v : colon ∉ k -> split_colon (k ++ colon :: v) = Some (k, v).
Proof.
  induction k as [|b k IH]; intros Hk; cbn [split_colon app]; [by rewrite decide_True|].
  apply not_elem_of_cons in Hk as [Hb Hk]. rewrite decide_False by done. by rewrite IH.
Qed.

Lemma strip_enclosed o c l :
  enclosed o c (o :: l ++ [c]) = true /\ strip (o :: l ++ [c]) = l.
Proof.
  unfold enclosed, strip. rewrite !bool_decide_true; [|by rewrite app_comm_cons, last_snoc|done].
  split; [done|]. cbn. rewrite length_app. cbn.
  replace (length l + 1 - 1)%nat with (length l) by lia. apply take_app_length.
Qed.

Lemma num_char_facts b : num_char b -> blank b = false /\ b <> comma /\ b <> newline.
Proof. intros [H| ->]; [|done]. by destruct b. Qed.

Lemma fmt_d_forall z (P : byte -> Prop) : (forall b, num_char b -> P b) -> Forall P (fmt_d z).
Proof. intros H. eapply Forall_impl; [apply fmt_d_chars|done]. Qed.

Lemma not_elem_of_Forall {A} (x : A) l : Forall (fun y => y <> x) l -> x ∉ l.
Proof. intros H Hin. rewrite Forall_forall in H. by apply (H x). Qed.

Lemma word_tight l : l <> [] -> Forall (fun b => blank b = false) l -> tight l.
Proof.
  intros Hne H. rewrite Forall_forall in H. split.
  - destruct l as [|b l]; [done|]. exists b. split; [done|]. apply H. left.
  - destruct l as [|b l _] using rev_ind; [done|]. exists b. rewrite last_snoc. split; [done|].
    apply H. set_solver.
Qed.

Lemma fmt_d_tight z : tight (fmt_d z).
Proof. apply word_tight; [apply fmt_d_chars|]. apply fmt_d_forall. apply num_char_facts. Qed.

Lemma parse_cpu_token ws c ts :
  Forall (fun b => blank b = true) ws -> in_s 32 c ->
  parse_cpu_tokens ((ws ++ fmt_d c) :: ts) = c :: parse_cpu_tokens ts.
Proof.
  intros Hws Hc. cbn [parse_cpu_tokens]. rewrite trim_tight by (done || apply fmt_d_tight).
  rewrite stoi_fmt_d by done. destruct (fmt_d_chars c) as [_ Hne]. by destruct (fmt_d c).
Qed.

Lemma parse_cpu_text ws cpus :
  Forall (fun b => blank b = true) ws -> Forall (in_s 32) cpus -> cpus <> [] ->
  parse_cpu_tokens (getlines comma [] (ws ++ cpu_text cpus)) = cpus.
Proof.
  intros Hws H. revert ws Hws. induction H as [|c cpus Hc Hcs IH]; intros ws Hws Hne; [done|].
  assert (comma ∉ ws ++ fmt_d c) as Hcomma.
  { apply not_elem_of_Forall, Forall_app. split; [|apply fmt_d_forall, num_char_facts].
    eapply Forall_impl; [exact Hws|]. by intros b Hb ->. }
  destruct cpus as [|c' cpus].
  - cbn [cpu_text]. rewrite getlines_last; [|done|].
    + cbn [reverse rev_append app]. change (reverse [] ++ ws ++ fmt_d c) with (ws ++ fmt_d c).
      rewrite parse_cpu_token by done. done.
    + destruct (fmt_d_chars c) as [_ Hf]. intros E. apply app_nil in E as [_ [_ ?]%app_nil]. done.
  - change (cpu_text (c :: c' :: cpus)) with (fmt_d c ++ comma :: [space] ++ cpu_text (c' :: cpus)).
    rewrite app_assoc, getlines_cons by done. cbn [reverse].
    change (reverse [] ++ ws ++ fmt_d c) with (ws ++ fmt_d c).
    rewrite parse_cpu_token by done. f_equal. apply IH; [by repeat constructor|done].
Qed.

Lemma ParseCpuList_text cpus :
  Forall (in_s 32) cpus -> ParseCpuList ("["%byte :: cpu_text cpus ++ ["]"%byte]) = Ret cpus.
Proof.
  intros H. unfold ParseCpuList. destruct (strip_enclosed "[" "]" (cpu_text cpus)) as [-> ->].
  f_equal. destruct cpus as [|c cpus]; [done|]. by apply (parse_cpu_text [] (c :: cpus)).
Qed.


(** ** Lines *)

(** The parser in the middle of node [n]. *)
Definition reading (m : node_map) (n : list byte) (c : NodeConfig) : parse_state :=
  mk_parse_state m n c true true.

Definition plain_key (key : string) : bool :=
  match str key with
  | b :: _ => negb (blank b) && negb (bool_decide (b = hash)) && negb (bool_decide (b = "n"%byte))
              && bool_decide (colon ∉ str key)
  | [] => false
  end.

Lemma parse_prop_line key v m n c :
  plain_key key = true -> tight v ->
  parse_line (prop_line key v) (reading m n c) =
    parse_property (str key ++ colon :: space :: v) (reading m n c).
Proof.
  intros Hk Hv. unfold plain_key in Hk. destruct (str key) as [|b k] eqn:Ek; [done|].
  apply andb_true_iff in Hk as [[[Hb Hh]%andb_true_iff Hn]%andb_true_iff _].
  apply negb_true_iff in Hb. apply negb_true_iff, bool_decide_eq_false in Hh, Hn.
  unfold prop_line, parse_line. rewrite Ek.
  assert (trim (str "    " ++ (b :: k) ++ str ": " ++ v) = (b :: k) ++ str ": " ++ v) as ->.
  { apply trim_tight; [by repeat constructor|]. destruct Hv as [_ (y & Hy & By)].
    by apply (tight_app _ _ _ b y). }
  cbn [app]. rewrite (decide_False (P := b = hash)) by done.
  rewrite (decide_False (P := _ = str "nodes:")) by (intros E; by injection E).
  done.
Qed.

Lemma parse_property_value key v :
  plain_key key = true -> tight v ->
  exists w, split_colon (str key ++ colon :: space :: v) = Some (str key, w) /\ trim w = v /\ v <> [].
Proof.
  intros Hk Hv. exists (space :: v). unfold plain_key in Hk.
  destruct (str key) as [|b k] eqn:Ek; [done|].
  apply andb_true_iff in Hk as [_ Hc%bool_decide_eq_true].
  rewrite split_colon_app by done. split_and!; [done| |].
  - apply (trim_tight [space]); [by repeat constructor|done].
  - intros ->. destruct Hv as [(? & ? & _) _]. done.
Qed.

Lemma quoted_tight a : tight (quoted a).
Proof.
  split; exists dquote; (split; [|done]); [done|]. unfold quoted. by rewrite app_comm_cons, last_snoc.
Qed.

Lemma unquote a :
  (if enclosed dquote dquote (quoted a) || enclosed quote quote (quoted a)
   then strip (quoted a) else quoted a) = a.
Proof. unfold quoted. destruct (strip_enclosed dquote dquote a) as [-> ->]. done. Qed.

Lemma parse_text_line key m n c a f :
  plain_key key = true ->
  (key = "architecture" /\ f = c <| nc_architecture := a |> \/
   key = "location" /\ f = c <| nc_location := a |> \/
   key = "description" /\ f = c <| nc_description := a |>)%string ->
  parse_line (prop_line key (quoted a)) (reading m n c) = Ret (Some (reading m n f)).
Proof.
  intros Hk H. rewrite parse_prop_line by (done || apply quoted_tight). unfold parse_property.
  destruct (parse_property_value key (quoted a)) as (w & -> & -> & Hne);
    [done|apply quoted_tight|].
  destruct (quoted a) as [|b q] eqn:Eq; [done|]. rewrite <- Eq, unquote.
  by destruct_or! H; destruct H as [-> ->].
Qed.

Lemma bracket_tight l : tight ("["%byte :: l ++ ["]"%byte]).
Proof.
  split; [by exists "["%byte|]. exists "]"%byte. by rewrite app_comm_cons, last_snoc.
Qed.

Lemma parse_cpus_line m n c cpus :
  Forall (in_s 32) cpus ->
  parse_line (prop_line "available_cpus" ("["%byte :: cpu_text cpus ++ ["]"%byte])) (reading m n c)
    = Ret (Some (reading m n (c <| nc_available_cpus := cpus |>))).
Proof.
  intros H. set (v := "["%byte :: cpu_text cpus ++ ["]"%byte]).
  assert (tight v) as Hv by apply bracket_tight.
  rewrite parse_prop_line by done. unfold parse_property.
  destruct (parse_property_value "available_cpus" v) as (w & -> & -> & Hne); [done..|].
  assert (enclosed dquote dquote v || enclosed quote quote v = false) as -> by done.
  unfold v at 1. rewrite decide_True by done. unfold v. by rewrite ParseCpuList_text.
Qed.

Lemma fmt_d_unquoted z :
  enclosed dquote dquote (fmt_d z) || enclosed quote quote (fmt_d z) = false.
Proof.
  destruct (fmt_d_chars z) as [H _]. unfold enclosed. destruct (fmt_d z) as [|b l]; [done|].
  apply Forall_cons in H as [Hb _]. cbn [hd_error].
  by rewrite (bool_decide_false (Some b = Some dquote)), (bool_decide_false (Some b = Some quote))
    by (intros [= ->]; by destruct Hb).
Qed.

Lemma parse_memory_line m n c z :
  in_s 32 z ->
  parse_line (prop_line "max_memory_mb" (fmt_d z)) (reading m n c)
    = Ret (Some (reading m n (c <| nc_max_memory_mb := z |>))).
Proof.
  intros H. rewrite parse_prop_line by (done || apply fmt_d_tight). unfold parse_property.
  destruct (parse_property_value "max_memory_mb" (fmt_d z)) as (w & -> & -> & Hne);
    [done|apply fmt_d_tight|].
  rewrite fmt_d_unquoted. destruct (fmt_d z) as [|b l] eqn:E; [done|]. rewrite <- E.
  rewrite decide_False by done. rewrite decide_True by done. by rewrite stoi_fmt_d.
Qed.

(** A node line saves the node before it and starts the next. *)
Lemma parse_node_line e s :
  writable e -> ps_in_nodes_section s = true ->
  parse_line (str "  " ++ e.1 ++ [colon]) s =
    Ret (Some (reading (ps_nodes (save_node s)) e.1 NodeConfig_ctor)).
Proof.
  intros [_ Hw Hne Hh Hc Hno _ _ _] Hs. unfold parse_line.
  assert (trim (str "  " ++ e.1 ++ [colon]) = e.1 ++ [colon]) as ->.
  { apply trim_tight; [by repeat constructor|]. apply word_tight; [by destruct e.1|].
    apply Forall_app. split; [done|]. by repeat constructor. }
  rewrite split_colon_app by done.
  destruct (e.1) as [|b name] eqn:En; [done|]. cbn [app].
  apply Forall_cons in Hw as [Hb Hw].
  rewrite decide_False by (intros ->; done).
  rewrite decide_False.
  2:{ intros E. apply Hno. change (str "nodes:") with (str "nodes" ++ [colon]) in E.
      rewrite app_comm_cons in E. by apply app_inj_tail in E as [? _]. }
  rewrite Hs. cbn [negb].
  assert (starts_with (str "    ") (str "  " ++ b :: name ++ [colon]) = false) as Hsw.
  { apply bool_decide_false. cbn. intros E. injection E as -> _. done. }
  cbn [app] in Hsw |- *. rewrite Hsw. cbn.
  unfold save_node. rewrite ?Hs. destruct (ps_in_node_definition s && _); unfold reading;
    cbn; by rewrite ?Hs.
Qed.

Lemma parse_node_lines e s rest :
  writable e -> ps_in_nodes_section s = true ->
  parse_lines (node_lines e ++ rest) s =
    parse_lines rest (reading (ps_nodes (save_node s)) e.1 (e.2 <| nc_name := [] |>)).
Proof.
  intros He Hs. pose proof He as [_ _ _ _ _ _ _ Hc Hm]. destruct e as [name c]. cbn [node_lines app].
  cbn [parse_lines]. rewrite (parse_node_line (name, c)) by done. cbn [mbind outcome_bind fst snd] in *.
  rewrite parse_cpus_line by done. cbn [mbind outcome_bind].
  rewrite parse_memory_line by done. cbn [mbind outcome_bind].
  do 3 (erewrite parse_text_line by (done || tauto); cbn [mbind outcome_bind]).
  done.
Qed.

Definition set_node (m : node_map) (e : list byte * NodeConfig) : node_map := map_set e.1 e.2 m.

Lemma save_reading m e : writable e -> ps_nodes (save_node (reading m e.1 (e.2 <| nc_name := [] |>))) = set_node m e.
Proof.
  intros [Hn _ Hne _ _ _ _ _ _]. unfold save_node. cbn. rewrite bool_decide_false by done. cbn.
  unfold set_node. f_equal. rewrite <- Hn. by destruct e as [? []].
Qed.

Lemma parse_all_nodes nodes s :
  Forall writable nodes -> ps_in_nodes_section s = true ->
  exists s', parse_lines (concat (node_lines <$> nodes)) s = Ret (Some s') /\
    ps_nodes (save_node s') = fold_left set_node nodes (ps_nodes (save_node s)).
Proof.
  intros H. revert s. induction H as [|e nodes He Hes IH]; intros s Hs; cbn [fmap list_fmap concat].
  { by exists s. }
  rewrite parse_node_lines by done.
  destruct (IH (reading (ps_nodes (save_node s)) e.1 (e.2 <| nc_name := [] |>)) eq_refl)
    as (s' & -> & E).
  exists s'. split; [done|]. rewrite E, save_reading by done. done.
Qed.

Lemma node_lines_no_newline e : writable e -> Forall (fun l => newline ∉ l) (node_lines e).
Proof.
  intros [_ _ _ _ _ _ Hl Hc _]. destruct e as [n c]. cbn [fst snd node_lines] in *.
  apply Forall_cons in Hl as [Hn [Ha [Hlo [Hd _]%Forall_cons]%Forall_cons]%Forall_cons].
  assert (forall z, newline ∉ fmt_d z) as Hf
    by (intros z; apply not_elem_of_Forall, fmt_d_forall, num_char_facts).
  assert (newline ∉ cpu_text (nc_available_cpus c)) as Ht.
  { induction (nc_available_cpus c) as [|x xs IH]; [apply not_elem_of_nil|].
    apply Forall_cons in Hc as [_ Hc]. specialize (IH Hc). destruct xs; [apply Hf|].
    cbn [cpu_text]. rewrite !not_elem_of_app. split_and!; [apply Hf| |done].
    decided. }
  assert (forall a, newline ∉ a -> newline ∉ quoted a) as Hq.
  { intros a Hna. unfold quoted. rewrite not_elem_of_cons, not_elem_of_app.
    split_and!; [done|done|]. decided. }
  assert (forall key v, bool_decide (newline ∉ str key) = true -> newline ∉ v -> newline ∉ prop_line key v) as Hp.
  { intros key v Hk%bool_decide_eq_true Hv. unfold prop_line. rewrite !not_elem_of_app.
    split_and!; [decided|done|decided|done]. }
  repeat (apply Forall_cons; split); [| | | | | |constructor].
  - rewrite !not_elem_of_app. split_and!; [|done|]; decided.
  - apply Hp; [done|]. rewrite not_elem_of_cons, not_elem_of_app.
    split_and!; [done|done|]. decided.
  - by apply Hp.
  - apply Hp; auto.
  - apply Hp; auto.
  - apply Hp; auto.
Qed.

(** C23: Reading back a configuration file written in the documented format
    gives exactly the nodes that were written, with their CPU lists, memory
    sizes and texts; LoadFromFile then reports success and the manager is
    loaded. *)
Theorem node_config_roundtrip nodes m :
  map_ok nodes -> Forall writable nodes -> nodes <> [] ->
  LoadFromFile (Some (write_config nodes)) m = Ret (Some (true, mk_NodeConfigManager nodes true)).
Proof.
  intros Hok Hw Hne. unfold LoadFromFile, ParseNodeSection, write_config.
  rewrite getlines_concat.
  2:{ constructor; [decided|]. apply Forall_concat, Forall_fmap.
      eapply Forall_impl; [exact Hw|]. intros e. apply node_lines_no_newline. }
  cbn [parse_lines]. change (parse_line (str "nodes:") ?s) with (Ret (Some (s <| ps_in_nodes_section := true |>))).
  cbn [mbind outcome_bind].
  edestruct (parse_all_nodes nodes) as (s' & -> & E); [done| |]; [reflexivity|].
  cbn [mbind outcome_bind]. rewrite E. cbn.
  unfold set_node. rewrite (fold_map_set nodes []) by done. by destruct nodes.
Qed.

(** ** Well-formedness for every input *)

Definition config_ok (c : NodeConfig) : Prop :=
  Forall (in_s 32) (nc_available_cpus c) /\ in_s 32 (nc_max_memory_mb c).

Definition nodes_ok (m : node_map) : Prop :=
  map_ok m /\ Forall (fun e : list byte * NodeConfig => nc_name e.2 = e.1 /\ e.1 <> [] /\ config_ok e.2) m.

Definition parse_ok (s : parse_state) : Prop :=
  nodes_ok (ps_nodes s) /\ config_ok (ps_current_config s).

Lemma parse_cpu_tokens_range ts : Forall (in_s 32) (parse_cpu_tokens ts).
Proof.
  induction ts as [|t ts IH]; cbn; [constructor|]. destruct (trim t); [done|].
  destruct (stoi _) eqn:E; [|done]. constructor; [by eapply stoi_range|done].
Qed.

Lemma save_node_ok s : parse_ok s -> parse_ok (save_node s).
Proof.
  intros [[Hok Hall] Hc]. unfold save_node. destruct (ps_in_node_definition s); [|done]. cbn.
  case_bool_decide as Hn; [done|]. split; [|done]. split; [by apply map_ok_set|].
  by apply Forall_map_set.
Qed.

Lemma parse_property_ok line s s' :
  parse_property line s = Ret (Some s') -> parse_ok s -> parse_ok s'.
Proof.
  unfold parse_property. destruct (split_colon line) as [[key value]|]; [|by intros [= <-]].
  destruct (trim value) as [|b v]; [done|].
  set (w := if enclosed dquote dquote (b :: v) || enclosed quote quote (b :: v)
            then strip (b :: v) else b :: v). clearbody w.
  intros H [Hn [Hc Hm]]. case_decide.
  { destruct (ParseCpuList w) as [cpus|] eqn:E; [|done]. cbn in H. simplify_eq. split; [done|].
    split; [|done]. cbn. unfold ParseCpuList in E. destruct w; [done|]. simplify_eq.
    apply parse_cpu_tokens_range. }
  case_decide.
  { destruct (stoi w) eqn:E; [|done]. simplify_eq. split; [done|]. split; [done|]. cbn.
    by eapply stoi_range. }
  repeat case_decide; by simplify_eq.
Qed.

Lemma parse_line_ok l s s' : parse_line l s = Ret (Some s') -> parse_ok s -> parse_ok s'.
Proof.
  unfold parse_line. destruct (trim l) as [|b t] eqn:Et; [by intros [= <-]|]. intros H Hs.
  repeat (case_decide || case_match); simplify_eq; try done;
    try (by eapply parse_property_ok);
    (split; [by apply save_node_ok|]; split; cbn; [constructor|range]).
Qed.

Lemma parse_lines_ok ls s s' : parse_lines ls s = Ret (Some s') -> parse_ok s -> parse_ok s'.
Proof.
  revert s. induction ls as [|l ls IH]; intros s; cbn; [by intros [= <-]|].
  destruct (parse_line l s) as [[s1|]|] eqn:E; cbn; [|done..]. intros H Hs.
  by eapply IH, parse_line_ok.
Qed.

(** What a load leaves in the manager. *)
Lemma load_file_ok file m b m' :
  LoadFromFile file m = Ret (Some (b, m')) ->
  nodes_ok (ncm_nodes m') /\ ncm_loaded m' = b /\ (b = true <-> ncm_nodes m' <> []) /\
  (b = false <-> file = None).
Proof.
  unfold LoadFromFile. destruct file as [content|].
  2:{ intros [= <- <-]. cbn. split_and!; try done. split; [apply map_ok_nil|constructor]. }
  unfold ParseNodeSection. destruct (parse_lines _ _) as [[s|]|] eqn:E; cbn [mbind outcome_bind]; [|done..].
  apply parse_lines_ok in E.
  2:{ split; [split; [apply map_ok_nil|constructor]|]. split; cbn; [constructor|range]. }
  apply save_node_ok in E as [Hok _]. destruct (ps_nodes (save_node s)) as [|e nodes].
  - intros [= <- <-]. cbn. split_and!; try done. split; [repeat constructor|].
    repeat constructor; try done; range.
  - intros [= <- <-]. cbn. split_and!; done.
Qed.

(** Whatever bytes the file holds, a load that succeeds leaves the manager
    loaded with at least one node, keys in order, every configuration stored
    under its own nonempty name, and all CPU ids and memory sizes within [int];
    a load that fails leaves it empty and not loaded. *)
Theorem load_wellformed file m b m' :
  LoadFromFile file m = Ret (Some (b, m')) ->
  nodes_ok (ncm_nodes m') /\ ncm_loaded m' = b /\ (b = true <-> ncm_nodes m' <> []) /\
  (b = false <-> file = None).
Proof. apply load_file_ok. Qed.

Definition ex_node01 : NodeConfig :=
  mk_NodeConfig (str "node01") [2; 3] 4096 (str "aarch64") (str "front: unit") (str "perception").
Definition ex_node02 : NodeConfig :=
  mk_NodeConfig (str "node02") [] 8192 (str "x86_64") [] (str "control").
Definition ex_config : node_map := [(str "node01", ex_node01); (str "node02", ex_node02)].

Lemma ex_config_writable : Forall writable ex_config.
Proof.
  repeat constructor; cbn; try done; try (decided);
    repeat constructor; range.
Qed.

Lemma node_config_roundtrip_witness :
  LoadFromFile (Some (write_config ex_config)) NodeConfigManager_ctor =
    Ret (Some (true, mk_NodeConfigManager ex_config true)).
Proof.
  apply node_config_roundtrip; [repeat constructor|apply ex_config_writable|done].
Defined.

Lemma load_wellformed_witness :
  nodes_ok (ncm_nodes (mk_NodeConfigManager ex_config true)).
Proof.
  apply (load_wellformed (Some (write_config ex_config)) NodeConfigManager_ctor true).
  vm_compute. reflexivity.
Defined.

(** A property without a value reads [value.front()] of an empty string; a
    memory size that is not a number leaves by an exception no caller
    catches. *)
Example config_empty_value :
  LoadFromFile (Some (str "nodes:" ++ [newline] ++ str "  n1:" ++ [newline] ++ str "    location:"))
    NodeConfigManager_ctor = UB.
Proof. vm_compute. reflexivity. Qed.
Example config_bad_memory :
  LoadFromFile (Some (str "nodes:" ++ [newline] ++ str "  n1:" ++ [newline] ++ str "    max_memory_mb: 4GB"))
    NodeConfigManager_ctor = Ret (Some (true, mk_NodeConfigManager
      [(str "n1", mk_NodeConfig (str "n1") [] 4 [] [] [])] true)) /\
  LoadFromFile (Some (str "nodes:" ++ [newline] ++ str "  n1:" ++ [newline] ++ str "    max_memory_mb: all"))
    NodeConfigManager_ctor = Ret None.
Proof. vm_compute. auto. Qed.
