(* ===== verification/GlobalScheduler.v ===== *)
(** * The global scheduler (timpani-o/src/global_scheduler.cpp)

    Places the tasks of a workload on the CPUs of their nodes and builds the
    arrays of [sched_task_t] that are sent to the nodes.  The arrays are
    [malloc]ed blocks of a heap that the gRPC service shares, so that a pointer
    kept after [free] is visible; utilizations are [double]s. *)

From S2P Require Import CppStd Serialize SchedInfo OrchHyperperiod NodeConfig.

(** ** The heap of task arrays *)

(** The live blocks; address 0 is [nullptr]. *)
Record heap := mk_heap {
  h_blocks : gmap Z (list sched_task_t);
  h_next : Z;
}.

Definition heap_empty : heap := mk_heap ∅ 1.

Definition sizeof_sched_task_t : Z := 136.

Section heap_ops.
Context {AL : Allocator}.

(** [malloc] of an array of [count] entries that is then filled with [l].  The
    callers do not test the result: writing through [nullptr], or past the
    end, is undefined. *)
Definition h_malloc (count : Z) (l : list sched_task_t) (h : heap) : outcome (Z * heap) :=
  if al_ok (sizeof_sched_task_t * count) && (blen l <=? count)
  then Ret (h_next h, mk_heap (<[h_next h := l]> (h_blocks h)) (h_next h + 1))
  else UB.

(** [free(p)]: a second [free] of a block is undefined. *)
Definition h_free (p : Z) (h : heap) : outcome heap :=
  match h_blocks h !! p with
  | Some _ => Ret (mk_heap (delete p (h_blocks h)) (h_next h))
  | None => UB
  end.

(** The array at [p]; reading a freed block is undefined. *)
Definition h_read (p : Z) (h : heap) : outcome (list sched_task_t) :=
  match h_blocks h !! p with Some l => Ret l | None => UB end.

End heap_ops.

(** [sched_info_t]: [si_ptr] is the member [tasks]. *)
Record sched_info_t := mk_sched_info_t { si_num_tasks : Z; si_ptr : Z }.

Definition NodeSchedInfoMap := cmap (list byte) sched_info_t.

(** ** The class *)

Record GlobalScheduler := mk_GlobalScheduler {
  gs_node_config_manager : option NodeConfigManager;
  gs_available_cpus : cmap (list byte) (list Z);
  gs_cpu_utilization : cmap (list byte) (cmap Z double);
  gs_tasks : list Task;
  gs_sched_info_map : NodeSchedInfoMap;
}.

#[export] Instance GlobalScheduler_eta : Eta GlobalScheduler := fun g =>
  mk_GlobalScheduler (gs_node_config_manager g) (gs_available_cpus g) (gs_cpu_utilization g)
    (gs_tasks g) (gs_sched_info_map g).

(** 0.90 as a [double]. *)
Definition CPU_UTILIZATION_THRESHOLD : double := S754_finite false 8106479329266893 (-53).

Example threshold_is_090 : CPU_UTILIZATION_THRESHOLD = ddiv (double_of 90) (double_of 100).
Proof. reflexivity. Qed.

(** [node_config_manager_ && node_config_manager_->IsLoaded()] *)
Definition config_loaded (g : GlobalScheduler) : option NodeConfigManager :=
  match gs_node_config_manager g with
  | Some m => if IsLoaded m then Some m else None
  | None => None
  end.

Definition initialize_available_cpus (g : GlobalScheduler) : GlobalScheduler :=
  let g := g <| gs_available_cpus := [] |> in
  match config_loaded g with
  | None => g
  | Some m =>
      fold_left (fun g e => g <| gs_available_cpus ::= map_set e.1 (nc_available_cpus e.2) |>)
        (GetAllNodes m) g
  end.

(** [cpu_utilization_per_node_[node_id][cpu] = u] *)
Definition set_cpu_utilization (node_id : list byte) (cpu : Z) (u : double) (g : GlobalScheduler)
  : GlobalScheduler :=
  g <| gs_cpu_utilization ::= fun m =>
         let '(inner, m) := map_index ([] : cmap Z double) node_id m in
         map_set node_id (map_set cpu u inner) m |>.

Definition initialize_cpu_utilization_tracking (g : GlobalScheduler) : GlobalScheduler :=
  let g := g <| gs_cpu_utilization := [] |> in
  fold_left (fun g e => fold_left (fun g cpu => set_cpu_utilization e.1 cpu d0 g) e.2 g)
    (gs_available_cpus g) g.

Definition GlobalScheduler_ctor (m : option NodeConfigManager) : GlobalScheduler :=
  let g := mk_GlobalScheduler m [] [] [] [] in
  match config_loaded g with
  | Some _ => initialize_cpu_utilization_tracking (initialize_available_cpus g)
  | None => g
  end.

Definition set_tasks (tasks : list Task) (g : GlobalScheduler) : GlobalScheduler :=
  g <| gs_tasks := tasks |>.

(** [for (auto& task : tasks_)] with a body that may change the task in place
    and the other members. *)
Fixpoint for_tasks (body : Task -> GlobalScheduler -> outcome (Task * GlobalScheduler))
    (indices : list nat) (g : GlobalScheduler) : outcome GlobalScheduler :=
  match indices with
  | [] => Ret g
  | i :: indices =>
      match gs_tasks g !! i with
      | None => UB
      | Some task =>
          '(task, g) ← body task g;
          for_tasks body indices (g <| gs_tasks ::= <[i := task]> |>)
      end
  end.

Definition all_indices (g : GlobalScheduler) : list nat := seq 0 (length (gs_tasks g)).

(** *** Utilization *)

Definition task_utilization (task : Task) : double :=
  if 0 <? tk_period_us task then ddiv (double_of (tk_runtime_us task)) (double_of (tk_period_us task))
  else d0.

Definition calculate_cpu_utilization (node_id : list byte) (cpu_id : Z) (g : GlobalScheduler) : double :=
  match map_find node_id (gs_cpu_utilization g) with
  | None => d0
  | Some inner => match map_find cpu_id inner with None => d0 | Some u => u end
  end.

Definition calculate_node_utilization (node_id : list byte) (new_task : option Task)
    (g : GlobalScheduler) : double :=
  let utilization :=
    fold_left (fun u task =>
      if decide (tk_assigned_node task = node_id) then
        if 0 <? tk_period_us task then dadd u (task_utilization task) else u
      else u) (gs_tasks g) d0 in
  match new_task with
  | Some task => if 0 <? tk_period_us task then dadd utilization (task_utilization task) else utilization
  | None => utilization
  end.

(** *** Target node scheduling *)

Definition affinity_given (task : Task) : bool :=
  negb (bool_decide (tk_affinity task = str "any")) && negb (bool_decide (tk_affinity task = [])).

Definition fits (task : Task) (node_id : list byte) (g : GlobalScheduler) (cpu : Z) : bool :=
  dleb (dadd (calculate_cpu_utilization node_id cpu g) (task_utilization task))
    CPU_UTILIZATION_THRESHOLD.

Section scheduling.
Context {SS : StdSort}.

(** Rule 2, the CPU the affinity names. *)
Definition affinity_cpu (task : Task) (node_id : list byte) (available_cpus : list Z)
    (g : GlobalScheduler) : option Z :=
  if affinity_given task then
    match stoi (tk_affinity task) with
    | Some required_cpu =>
        if bool_decide (required_cpu ∈ available_cpus) && fits task node_id g required_cpu
        then Some required_cpu else None
    | None => None
    end
  else None.

Definition find_best_cpu_for_task (task : Task) (node_id : list byte) (g : GlobalScheduler)
  : Z * GlobalScheduler :=
  let '(available_cpus, m) := map_index [] node_id (gs_available_cpus g) in
  let g := g <| gs_available_cpus := m |> in
  match available_cpus with
  | [] => (-1, g)
  | _ =>
      match affinity_cpu task node_id available_cpus g with
      | Some cpu => (cpu, g)
      | None =>
          let sorted_cpus := std_sort greater available_cpus in
          match list_find (fun cpu => fits task node_id g cpu = true) sorted_cpus with
          | Some (_, cpu) => (cpu, g)
          | None => (-1, g)
          end
      end
  end.

(** The comparator and the sort of [get_sorted_cpus_by_utilization], which no
    caller uses. *)
Definition cpu_before (node_id : list byte) (prefer_high_utilization : bool) (g : GlobalScheduler)
    (cpu_a cpu_b : Z) : bool :=
  let util_a := calculate_cpu_utilization node_id cpu_a g in
  let util_b := calculate_cpu_utilization node_id cpu_b g in
  if dltb (ddiv (double_of 1) (double_of 100)) (SFabs (dsub util_a util_b)) then
    if prefer_high_utilization then dltb util_b util_a else dltb util_a util_b
  else cpu_b <? cpu_a.

Definition get_sorted_cpus_by_utilization (node_id : list byte) (prefer_high_utilization : bool)
    (g : GlobalScheduler) : list Z * GlobalScheduler :=
  let '(available_cpus, m) := map_index [] node_id (gs_available_cpus g) in
  let g := g <| gs_available_cpus := m |> in
  (std_sort (cpu_before node_id prefer_high_utilization g) available_cpus, g).

Definition assign_task_to_node_cpu (task : Task) (node_id : list byte) (cpu_id : Z)
    (g : GlobalScheduler) : bool * Task * GlobalScheduler :=
  let '(available_cpus, m) := map_index [] node_id (gs_available_cpus g) in
  let g := g <| gs_available_cpus := m |> in
  if bool_decide (cpu_id ∈ available_cpus) then
    let new_cpu_util := dadd (calculate_cpu_utilization node_id cpu_id g) (task_utilization task) in
    if dltb CPU_UTILIZATION_THRESHOLD new_cpu_util then (false, task, g)
    else (true, task <| tk_assigned_cpu := cpu_id |>,
          set_cpu_utilization node_id cpu_id new_cpu_util g)
  else (false, task, g).

(** The body of the loop of [schedule_with_target_node_priority]. *)
Definition target_node_step (task : Task) (g : GlobalScheduler) : Task * GlobalScheduler :=
  if decide (tk_workload_id task = []) then (task, g)
  else if decide (tk_target_node task = []) then (task, g)
  else
    match map_find (tk_target_node task) (gs_available_cpus g) with
    | None | Some [] => (task, g)
    | Some _ =>
        let task := task <| tk_assigned_node := tk_target_node task |> in
        let '(best_cpu, g) := find_best_cpu_for_task task (tk_target_node task) g in
        if decide (best_cpu = -1) then (task, g)
        else let '(_, task, g) := assign_task_to_node_cpu task (tk_target_node task) best_cpu g in
             (task, g)
    end.

Definition schedule_with_target_node_priority (g : GlobalScheduler) : outcome GlobalScheduler :=
  for_tasks (fun task g => Ret (target_node_step task g)) (all_indices g) g.

(** *** The legacy algorithms *)

Definition is_task_schedulable_on_node (task : Task) (node_id : list byte) (g : GlobalScheduler) : bool :=
  match gs_node_config_manager g with
  | None => true
  | Some m =>
      match GetNodeConfig node_id m with
      | None =>
          match map_find node_id (gs_available_cpus g) with
          | None | Some [] => false
          | Some _ => true
          end
      | Some node_config =>
          if nc_max_memory_mb node_config <? tk_memory_mb task then false
          else if affinity_given task then
            (* stoi and at() throw: treated as "any" *)
            match stoi (tk_affinity task), map_find node_id (gs_available_cpus g) with
            | Some required_cpu, Some available_cpus => bool_decide (required_cpu ∈ available_cpus)
            | _, _ => true
            end
          else true
      end
  end.

Definition find_best_node_least_loaded (task : Task) (g : GlobalScheduler) : list byte :=
  fst (fold_left (fun '(best_node, lowest_utilization) '(node_id, cpus) =>
    match cpus with
    | [] => (best_node, lowest_utilization)
    | _ =>
        if is_task_schedulable_on_node task node_id g then
          let utilization := calculate_node_utilization node_id None g in
          if dltb utilization lowest_utilization then (node_id, utilization)
          else (best_node, lowest_utilization)
        else (best_node, lowest_utilization)
    end) (gs_available_cpus g) ([], d1)).

Definition find_best_node_best_fit_decreasing (task : Task) (g : GlobalScheduler) : list byte :=
  fst (fold_left (fun '(best_node, best_fit_utilization) '(node_id, cpus) =>
    match cpus with
    | [] => (best_node, best_fit_utilization)
    | _ =>
        if is_task_schedulable_on_node task node_id g then
          let new_utilization := calculate_node_utilization node_id (Some task) g in
          if dleb new_utilization d1 && dltb best_fit_utilization new_utilization
          then (node_id, new_utilization)
          else (best_node, best_fit_utilization)
        else (best_node, best_fit_utilization)
    end) (gs_available_cpus g) ([], double_of (-1))).

(** [task.assigned_cpu = available_cpus_per_node_[node].front()] and the
    [erase] of that element. *)
Definition take_front_cpu (task : Task) (node : list byte) (g : GlobalScheduler)
  : outcome (Task * GlobalScheduler) :=
  let '(cpus, m) := map_index [] node (gs_available_cpus g) in
  match cpus with
  | [] => UB
  | cpu :: cpus =>
      Ret (task <| tk_assigned_cpu := cpu |>, g <| gs_available_cpus := map_set node cpus m |>)
  end.

Definition least_loaded_step (task : Task) (g : GlobalScheduler) : outcome (Task * GlobalScheduler) :=
  let best_node := find_best_node_least_loaded task g in
  if decide (best_node = []) then Ret (task, g)
  else take_front_cpu (task <| tk_assigned_node := best_node |>) best_node g.

Definition schedule_with_least_loaded (g : GlobalScheduler) : outcome GlobalScheduler :=
  for_tasks least_loaded_step (all_indices g) g.

(** [v.erase(std::find(v.begin(), v.end(), x))] *)
Fixpoint erase_first (x : Z) (l : list Z) : list Z :=
  match l with
  | [] => []
  | y :: l => if decide (x = y) then l else y :: erase_first x l
  end.

Definition best_fit_step (task : Task) (g : GlobalScheduler) : outcome (Task * GlobalScheduler) :=
  let '(best_node, g) :=
    if decide (tk_target_node task = []) then (find_best_node_best_fit_decreasing task g, g)
    else if is_task_schedulable_on_node task (tk_target_node task) g then
      let '(cpus, m) := map_index [] (tk_target_node task) (gs_available_cpus g) in
      (match cpus with [] => [] | _ => tk_target_node task end, g <| gs_available_cpus := m |>)
    else ([], g) in
  if decide (best_node = []) then Ret (task, g)
  else
    let task := task <| tk_assigned_node := best_node |> in
    if affinity_given task then
      match stoi (tk_affinity task) with
      | Some required_cpu =>
          let '(cpus, m) := map_index [] best_node (gs_available_cpus g) in
          if bool_decide (required_cpu ∈ cpus) then
            Ret (task <| tk_assigned_cpu := required_cpu |>,
                 g <| gs_available_cpus := map_set best_node (erase_first required_cpu cpus) m |>)
          else take_front_cpu task best_node g
      | None => take_front_cpu task best_node g
      end
    else take_front_cpu task best_node g.

Definition runtime_greater (a b : Task) : bool := tk_runtime_us b <? tk_runtime_us a.

Definition schedule_with_best_fit_decreasing (g : GlobalScheduler) : outcome GlobalScheduler :=
  let g := g <| gs_tasks ::= std_sort runtime_greater |> in
  for_tasks best_fit_step (all_indices g) g.

(** *** Schedules *)

Definition count_tasks (tasks : list Task) : cmap (list byte) Z :=
  fold_left (fun m task =>
    if decide (tk_assigned_node task = []) then m
    else let '(n, m) := map_index 0 (tk_assigned_node task) m in
         map_set (tk_assigned_node task) (n + 1) m) tasks [].

(** The entry written for a task.  [strncpy] and the terminator overwrite
    every byte of the arrays; [uint64_t] arithmetic wraps. *)
Definition make_sched_task (task : Task) : sched_task_t := {|
  st_task_name := set_char (strncpy (zeros 16) (tk_name task) 15) 15 x00;
  st_period_ns := u64 (tk_period_us task * 1000);
  st_runtime_ns := u64 (tk_runtime_us task * 1000);
  st_deadline_ns := u64 (tk_deadline_us task * 1000);
  st_release_time := tk_release_time task;
  st_cpu_affinity := u64 (tk_assigned_cpu task);
  st_sched_policy := tk_policy task;
  st_sched_priority := tk_priority task;
  st_max_dmiss := tk_max_dmiss task;
  st_assigned_node := set_char (strncpy (zeros 64) (tk_assigned_node task) 63) 63 x00;
|}.

Definition tasks_of_node (node_id : list byte) (tasks : list Task) : list Task :=
  filter (fun task => tk_assigned_node task = node_id) tasks.

Context {AL : Allocator}.

Fixpoint generate_for (counts : cmap (list byte) Z) (g : GlobalScheduler) (h : heap)
  : outcome (GlobalScheduler * heap) :=
  match counts with
  | [] => Ret (g, h)
  | (node_id, count) :: counts =>
      '(p, h) ← h_malloc count (make_sched_task <$> tasks_of_node node_id (gs_tasks g)) h;
      generate_for counts
        (g <| gs_sched_info_map ::= map_set node_id (mk_sched_info_t count p) |>) h
  end.

(** The loop with which the gRPC service fills a map of its own
    (schedinfo_service.cpp). *)
Fixpoint allocate_nodes (node_tasks_map : cmap (list byte) (list sched_task_t))
    (node_sched_map : NodeSchedInfoMap) (h : heap) : outcome (NodeSchedInfoMap * heap) :=
  match node_tasks_map with
  | [] => Ret (node_sched_map, h)
  | (node_id, tasks) :: rest =>
      '(p, h) ← h_malloc (blen tasks) tasks h;
      allocate_nodes rest (map_set node_id (mk_sched_info_t (blen tasks) p) node_sched_map) h
  end.

Definition generate_schedules (g : GlobalScheduler) (h : heap) : outcome (GlobalScheduler * heap) :=
  generate_for (count_tasks (gs_tasks g)) g h.

Fixpoint free_schedules (m : NodeSchedInfoMap) (h : heap) : outcome heap :=
  match m with
  | [] => Ret h
  | (_, si) :: m =>
      h ← (if decide (si_ptr si = 0) then Ret h else h_free (si_ptr si) h);
      free_schedules m h
  end.

Definition cleanup_schedules (g : GlobalScheduler) (h : heap) : outcome (GlobalScheduler * heap) :=
  h ← free_schedules (gs_sched_info_map g) h;
  Ret (g <| gs_sched_info_map := [] |>, h).

Definition has_schedules (g : GlobalScheduler) : bool :=
  match gs_sched_info_map g with [] => false | _ => true end.

Definition get_total_scheduled_tasks (g : GlobalScheduler) : Z :=
  fold_left (fun total e => u64 (total + si_num_tasks e.2)) (gs_sched_info_map g) 0.

Definition clear (g : GlobalScheduler) (h : heap) : outcome (GlobalScheduler * heap) :=
  '(g, h) ← cleanup_schedules g h;
  Ret (g <| gs_tasks := [] |> <| gs_available_cpus := [] |> <| gs_cpu_utilization := [] |>, h).

Definition schedule (algorithm : list byte) (g : GlobalScheduler) (h : heap)
  : outcome (bool * GlobalScheduler * heap) :=
  match gs_tasks g, config_loaded g with
  | [], _ => Ret (false, g, h)
  | _, None => Ret (false, g, h)
  | _, Some _ =>
      '(g, h) ← cleanup_schedules g h;
      let g := initialize_cpu_utilization_tracking (initialize_available_cpus g) in
      let run :=
        if decide (algorithm = str "target_node_priority") then Some (schedule_with_target_node_priority g)
        else if decide (algorithm = str "least_loaded") then Some (schedule_with_least_loaded g)
        else if decide (algorithm = str "best_fit_decreasing") then Some (schedule_with_best_fit_decreasing g)
        else None in
      match run with
      | None => Ret (false, g, h)
      | Some r =>
          g ← r;
          '(g, h) ← generate_schedules g h;
          Ret (has_schedules g, g, h)
      end
  end.

End scheduling.

(** ** Loops over the tasks *)

(** Rule for a loop whose body does not replace the task list: [I pre dn g]
    relates the tasks already visited, as they were and as they are. *)
Lemma for_tasks_rule body (I : list Task -> list Task -> GlobalScheduler -> Prop) :
  (forall pre dn t todo g, gs_tasks g = dn ++ t :: todo -> length pre = length dn -> I pre dn g ->
     exists t' g', body t g = Ret (t', g') /\ gs_tasks g' = gs_tasks g /\
       I (pre ++ [t]) (dn ++ [t']) (g' <| gs_tasks := dn ++ t' :: todo |>)) ->
  forall g, I [] [] g ->
  exists g', for_tasks body (all_indices g) g = Ret g' /\ I (gs_tasks g) (gs_tasks g') g'.
Proof.
  intros Hbody g Hg. unfold all_indices.
  enough (forall todo pre dn g, gs_tasks g = dn ++ todo -> length pre = length dn -> I pre dn g ->
    exists g', for_tasks body (seq (length dn) (length todo)) g = Ret g' /\
               I (pre ++ todo) (gs_tasks g') g') as H by by apply (H _ [] []).
  clear g Hg. intros todo. induction todo as [|t todo IH]; intros pre dn g Hg Hlen HI; cbn.
  { exists g. rewrite app_nil_r in *. by rewrite Hg. }
  rewrite Hg, list_lookup_middle by done.
  destruct (Hbody pre dn t todo g) as (t' & g' & -> & Hg' & HI'); [done..|].
  cbn [mbind outcome_bind].
  assert (<[length dn := t']> (dn ++ t :: todo) = dn ++ t' :: todo) as Ei.
  { rewrite insert_app_r_alt, Nat.sub_diag by done. done. }
  rewrite Hg', Hg, Ei.
  destruct (IH (pre ++ [t]) (dn ++ [t']) (g' <| gs_tasks := dn ++ t' :: todo |>)) as (g2 & E2 & HI2).
  - cbn. by rewrite <- app_assoc.
  - rewrite !length_app. cbn. lia.
  - done.
  - exists g2. rewrite length_app, Nat.add_1_r in E2. cbn in E2. rewrite E2.
    by rewrite <- app_assoc in HI2.
Qed.

(** ** Tracked utilization *)

Lemma calculate_set_cpu_utilization n c n' c' u g :
  calculate_cpu_utilization n c (set_cpu_utilization n' c' u g) =
    if decide (n = n' /\ c = c') then u else calculate_cpu_utilization n c g.
Proof.
  unfold calculate_cpu_utilization, set_cpu_utilization, map_index. cbn.
  destruct (decide (n = n')) as [->|Hn].
  - destruct (map_find n' (gs_cpu_utilization g)) as [inner|] eqn:E; rewrite map_find_set.
    + destruct (decide (c = c')) as [->|Hc].
      * by rewrite map_find_set, decide_True.
      * rewrite map_find_set_ne, decide_False by naive_solver. done.
    + destruct (decide (c = c')) as [->|Hc].
      * by rewrite map_find_set, decide_True.
      * rewrite map_find_set_ne, decide_False by naive_solver. done.
  - rewrite decide_False by naive_solver.
    destruct (map_find n' (gs_cpu_utilization g)) as [inner|] eqn:E;
      by rewrite ?map_find_set_ne by done.
Qed.

Lemma initialize_tracking_zero g n c :
  calculate_cpu_utilization n c (initialize_cpu_utilization_tracking g) = d0.
Proof.
  unfold initialize_cpu_utilization_tracking. cbn [upd eta GlobalScheduler_eta gs_available_cpus].
  set (g0 := mk_GlobalScheduler _ _ [] _ _).
  assert (calculate_cpu_utilization n c g0 = d0) as H by done.
  revert H. generalize g0. generalize (gs_available_cpus g). clear.
  intros l. induction l as [|[k cpus] l IH]; intros g H; cbn; [done|]. apply IH. clear IH.
  revert g H. induction cpus as [|x cpus IH]; intros g H; cbn; [done|]. apply IH.
  rewrite calculate_set_cpu_utilization. by case_decide.
Qed.

Lemma initialize_tracking_frame g :
  exists u, initialize_cpu_utilization_tracking g = g <| gs_cpu_utilization := u |>.
Proof.
  unfold initialize_cpu_utilization_tracking.
  assert (forall l g u, exists u', fold_left (fun g e =>
      fold_left (fun g cpu => set_cpu_utilization e.1 cpu d0 g) e.2 g) l
      (g <| gs_cpu_utilization := u |>) = g <| gs_cpu_utilization := u' |>) as H; [|apply H].
  clear. intros l. induction l as [|[k cpus] l IH]; intros g u; cbn [fold_left fst snd]; [by exists u|].
  assert (exists u', fold_left (fun g cpu => set_cpu_utilization k cpu d0 g) cpus
    (g <| gs_cpu_utilization := u |>) = g <| gs_cpu_utilization := u' |>) as [u' ->]; [|apply IH].
  clear. revert u. induction cpus as [|x cpus IH]; intros u; cbn [fold_left]; [by exists u|].
  unfold set_cpu_utilization at 2. cbn [upd eta GlobalScheduler_eta]. apply IH.
Qed.

(** The CPUs each configured node offers. *)
Definition cpus_of (m : NodeConfigManager) : cmap (list byte) (list Z) :=
  (fun e => (e.1, nc_available_cpus e.2)) <$> ncm_nodes m.

Lemma initialize_available_spec g m :
  config_loaded g = Some m -> map_ok (ncm_nodes m) ->
  initialize_available_cpus g = g <| gs_available_cpus := cpus_of m |>.
Proof.
  intros Hc Hok. unfold initialize_available_cpus.
  assert (config_loaded (g <| gs_available_cpus := [] |>) = Some m) as -> by done.
  unfold GetAllNodes, cpus_of. cbn [upd eta GlobalScheduler_eta].
  enough (forall l acc, map_ok (acc ++ ((fun e => (e.1, nc_available_cpus e.2)) <$> l)) ->
    fold_left (fun g e => g <| gs_available_cpus ::= map_set e.1 (nc_available_cpus e.2) |>) l
      (g <| gs_available_cpus := acc |>) =
    g <| gs_available_cpus := acc ++ ((fun e => (e.1, nc_available_cpus e.2)) <$> l) |>) as H.
  { apply (H _ []). by apply map_ok_fmap. }
  clear. induction l as [|[k c] l IH]; intros acc Hok; cbn; [by rewrite app_nil_r|].
  cbn in Hok. rewrite map_set_last by by eapply map_ok_app_cons.
  specialize (IH (acc ++ [(k, nc_available_cpus c)])). rewrite <- app_assoc in IH. by apply IH.
Qed.

(** ** Choosing a CPU *)

Section choice.
Context {SS : StdSort}.

Lemma std_sort_greater_elem x l : x ∈ std_sort greater l <-> x ∈ l.
Proof. by rewrite (std_sort_perm greater l greater_swo). Qed.

(** The CPU chosen when the affinity does not decide: the highest that fits. *)
Lemma find_highest (P : Z -> bool) l :
  match list_find (fun c => P c = true) (std_sort greater l) with
  | Some (_, c) => c ∈ l /\ P c = true /\ forall d, d ∈ l -> P d = true -> d <= c
  | None => forall d, d ∈ l -> P d = false
  end.
Proof.
  destruct (list_find _ _) as [[i c]|] eqn:E.
  - apply list_find_Some in E as (Hi & HP & Hbefore). split_and!; [|done|].
    { apply std_sort_greater_elem. by eapply list_elem_of_lookup_2. }
    intros d Hd Pd. apply std_sort_greater_elem, list_elem_of_lookup_1 in Hd as [j Hj].
    destruct (decide (d <= c)) as [|Hn]; [done|]. exfalso.
    pose proof (std_sort_sorted greater l greater_swo) as Hs.
    destruct (decide (j < i)%nat) as [Hlt|Hge]; [by eapply Hbefore|].
    assert (i <> j) by (intros ->; simplify_eq; lia).
    rewrite <- (take_drop (S i) (std_sort greater l)) in Hs.
    assert (greater d c = false) as Hgr.
    { clear Hbefore Pd HP. revert Hi Hj Hs. generalize (std_sort greater l). clear -H Hge.
      intros s Hi Hj Hs. rewrite take_drop in Hs. revert i j Hi Hj H Hge.
      induction Hs as [|x s Hs IH Hall]; intros i j Hi Hj Hne Hge; [done|].
      destruct i as [|i], j as [|j]; try lia; cbn in Hi, Hj.
      - simplify_eq. rewrite Forall_forall in Hall. apply Hall. by eapply list_elem_of_lookup_2.
      - apply (IH i j); [done|done|lia|lia]. }
    unfold greater in Hgr. apply Z.ltb_ge in Hgr. lia.
  - apply list_find_None in E. intros d Hd. rewrite Forall_forall in E.
    apply std_sort_greater_elem, E in Hd. by destruct (P d).
Qed.

Lemma affinity_cpu_fits task node cpus g c :
  affinity_cpu task node cpus g = Some c -> c ∈ cpus /\ fits task node g c = true.
Proof.
  unfold affinity_cpu. intros H. repeat case_match; simplify_eq.
  apply andb_true_iff in H2 as [?%bool_decide_eq_true ?]. done.
Qed.

Lemma find_best_cpu_choice task node cpus g :
  map_find node (gs_available_cpus g) = Some cpus ->
  exists r, find_best_cpu_for_task task node g = (r, g) /\
    match affinity_cpu task node cpus g with
    | Some c => r = c
    | None =>
        (r ∈ cpus /\ fits task node g r = true /\ forall d, d ∈ cpus -> fits task node g d = true -> d <= r) \/
        (r = -1 /\ forall d, d ∈ cpus -> fits task node g d = false)
    end.
Proof.
  intros Hf. unfold find_best_cpu_for_task, map_index. rewrite Hf.
  assert (g <| gs_available_cpus := gs_available_cpus g |> = g) as -> by by destruct g.
  destruct cpus as [|c0 cpus].
  { exists (-1). split; [done|]. destruct (affinity_cpu task node [] g) as [c|] eqn:E.
    - apply affinity_cpu_fits in E as [Hc _]. by apply not_elem_of_nil in Hc.
    - right. split; [done|]. intros d Hd. by apply not_elem_of_nil in Hd. }
  destruct (affinity_cpu task node (c0 :: cpus) g) as [c|]; [by exists c|].
  pose proof (find_highest (fits task node g) (c0 :: cpus)) as H.
  destruct (list_find _ _) as [[i c]|]; [exists c|exists (-1)]; auto.
Qed.

(** On a node with CPUs [cpus], find_best_cpu_for_task returns: the CPU the
    task's affinity names, when it is one of them and the task fits under the
    threshold there; otherwise the highest-numbered CPU the task fits on;
    otherwise -1.  It changes nothing. *)
Theorem find_best_cpu_spec task node cpus g :
  map_find node (gs_available_cpus g) = Some cpus ->
  exists r, find_best_cpu_for_task task node g = (r, g) /\
    match affinity_cpu task node cpus g with
    | Some c => r = c
    | None =>
        (r ∈ cpus /\ fits task node g r = true /\ forall d, d ∈ cpus -> fits task node g d = true -> d <= r) \/
        (r = -1 /\ forall d, d ∈ cpus -> fits task node g d = false)
    end.
Proof. apply find_best_cpu_choice. Qed.

End choice.

(** ** Placement on the target nodes *)

(** As [ConvertTaskInfoToTasks] makes them: not yet assigned. *)
Definition fresh_task (t : Task) : Prop := tk_assigned_node t = [] /\ tk_assigned_cpu t = -1.

(** The task can be placed at all: it names a workload and a configured node
    that offers CPUs. *)
Definition eligible (avail : cmap (list byte) (list Z)) (t : Task) : bool :=
  negb (bool_decide (tk_workload_id t = [])) && negb (bool_decide (tk_target_node t = [])) &&
  match map_find (tk_target_node t) avail with None | Some [] => false | Some _ => true end.

Lemma eligible_target avail t : eligible avail t = true -> tk_target_node t <> [].
Proof.
  unfold eligible. intros [[_ Hx]%andb_true_iff _]%andb_true_iff.
  by apply negb_true_iff, bool_decide_eq_false in Hx.
Qed.

(** What scheduling may do to a task: nothing if it is not eligible; otherwise
    it is assigned to its target node, with one of the node's CPUs or none. *)
Definition placed (avail : cmap (list byte) (list Z)) (t t' : Task) : Prop :=
  if eligible avail t then
    exists cpu, t' = t <| tk_assigned_node := tk_target_node t |> <| tk_assigned_cpu := cpu |> /\
      (cpu = tk_assigned_cpu t \/
       cpu <> -1 /\ exists cpus, map_find (tk_target_node t) avail = Some cpus /\ cpu ∈ cpus)
  else t' = t.

Lemma placed_cases avail t t' : placed avail t t' ->
  (eligible avail t = true /\ exists cpu,
     t' = t <| tk_assigned_node := tk_target_node t |> <| tk_assigned_cpu := cpu |> /\
     (cpu = tk_assigned_cpu t \/
      cpu <> -1 /\ exists cpus, map_find (tk_target_node t) avail = Some cpus /\ cpu ∈ cpus)) \/
  (eligible avail t = false /\ t' = t).
Proof. unfold placed. destruct (eligible avail t); [by left|by right]. Qed.

(** The utilization of a CPU: the sum, in task order and in [double]
    arithmetic, over the tasks assigned to it. *)
Definition on_cpu (n : list byte) (c : Z) (t : Task) : Prop :=
  tk_assigned_node t = n /\ tk_assigned_cpu t = c.
#[export] Instance on_cpu_dec n c t : Decision (on_cpu n c t).
Proof. unfold on_cpu. apply _. Defined.

Definition cpu_load (n : list byte) (c : Z) (ts : list Task) : double :=
  fold_left dadd (task_utilization <$> filter (on_cpu n c) ts) d0.

Lemma cpu_load_snoc n c ts t :
  cpu_load n c (ts ++ [t]) =
    if decide (on_cpu n c t) then dadd (cpu_load n c ts) (task_utilization t) else cpu_load n c ts.
Proof.
  unfold cpu_load. rewrite filter_app, filter_cons, filter_nil.
  case_decide; [|by rewrite app_nil_r]. by rewrite fmap_app, fold_left_app.
Qed.

(** A task is left without a CPU only when, at its turn, it fits on none of the
    CPUs its node offers. *)
Definition rejections_justified (avail : cmap (list byte) (list Z)) (ts : list Task) : Prop :=
  forall i t cpus, ts !! i = Some t -> tk_assigned_node t <> [] -> tk_assigned_cpu t = -1 ->
    map_find (tk_assigned_node t) avail = Some cpus -> -1 ∉ cpus -> forall c, c ∈ cpus ->
    dleb (dadd (cpu_load (tk_assigned_node t) c (take i ts)) (task_utilization t))
      CPU_UTILIZATION_THRESHOLD = false.

Lemma rejections_justified_snoc avail ts t :
  rejections_justified avail ts ->
  (tk_assigned_node t <> [] -> tk_assigned_cpu t = -1 ->
   forall cpus, map_find (tk_assigned_node t) avail = Some cpus -> -1 ∉ cpus -> forall c, c ∈ cpus ->
     dleb (dadd (cpu_load (tk_assigned_node t) c ts) (task_utilization t))
       CPU_UTILIZATION_THRESHOLD = false) ->
  rejections_justified avail (ts ++ [t]).
Proof.
  intros Hts Ht i t' cpus Hi Hn Hc Hf Hm c Hin. apply lookup_app_Some in Hi as [Hi|[Hge Hi]].
  - pose proof (lookup_lt_Some _ _ _ Hi). rewrite take_app_le by lia. by eapply Hts.
  - apply list_lookup_singleton_Some in Hi as [Hi ->].
    rewrite take_app_le, take_ge by lia. by eapply Ht.
Qed.

Section target.
Context {SS : StdSort}.

(** What holds of the scheduler after the tasks [pre] have become [dn]. *)
Record placing (g0 : GlobalScheduler) (pre dn : list Task) (g : GlobalScheduler) : Prop := {
  pl_same : g = g0 <| gs_tasks := gs_tasks g |> <| gs_cpu_utilization := gs_cpu_utilization g |>;
  pl_placed : Forall2 (placed (gs_available_cpus g0)) pre dn;
  pl_tracked : forall n c, c <> -1 -> calculate_cpu_utilization n c g = cpu_load n c dn;
  pl_bounded : forall n c, c <> -1 -> dleb (cpu_load n c dn) CPU_UTILIZATION_THRESHOLD = true;
  pl_rejected : rejections_justified (gs_available_cpus g0) dn;
}.

Lemma assign_fits task node cpus g c :
  map_find node (gs_available_cpus g) = Some cpus -> c ∈ cpus -> fits task node g c = true ->
  assign_task_to_node_cpu task node c g =
    (true, task <| tk_assigned_cpu := c |>,
     set_cpu_utilization node c (dadd (calculate_cpu_utilization node c g) (task_utilization task)) g).
Proof.
  intros Hf Hin Hfit. unfold assign_task_to_node_cpu, map_index. rewrite Hf.
  assert (g <| gs_available_cpus := gs_available_cpus g |> = g) as -> by by destruct g.
  rewrite bool_decide_true by done. by rewrite (dleb_not_dltb _ _ Hfit).
Qed.

(** One step either leaves the scheduler alone or adds the task's utilization
    to a CPU of its target node where it fits. *)
Lemma target_node_step_cases t g :
  let t1 := t <| tk_assigned_node := tk_target_node t |> in
  if eligible (gs_available_cpus g) t then
    (target_node_step t g = (t1, g) /\
     forall cpus, map_find (tk_target_node t) (gs_available_cpus g) = Some cpus -> -1 ∉ cpus ->
       forall c, c ∈ cpus -> fits t (tk_target_node t) g c = false) \/
    exists c cpus, map_find (tk_target_node t) (gs_available_cpus g) = Some cpus /\ c ∈ cpus /\
      c <> -1 /\ fits t (tk_target_node t) g c = true /\
      target_node_step t g =
        (t1 <| tk_assigned_cpu := c |>,
         set_cpu_utilization (tk_target_node t) c
           (dadd (calculate_cpu_utilization (tk_target_node t) c g) (task_utilization t)) g)
  else target_node_step t g = (t, g).
Proof.
  intros t1. unfold eligible, target_node_step.
  destruct (decide (tk_workload_id t = [])) as [Hw|Hw]; [by rewrite bool_decide_true|].
  destruct (decide (tk_target_node t = [])) as [Ht|Ht];
    [by rewrite (bool_decide_true (tk_target_node t = [])), andb_false_r|].
  rewrite !bool_decide_false by done. cbn [negb andb].
  destruct (map_find (tk_target_node t) (gs_available_cpus g)) as [[|c0 cpus]|] eqn:Ef; [done| |done].
  destruct (find_best_cpu_choice t1 (tk_target_node t) (c0 :: cpus) g Ef) as (r & Hr & Hc).
  cbv zeta. fold t1. change (tk_target_node t1) with (tk_target_node t).
  rewrite Hr. cbv beta iota. case_decide as Hr1.
  { left. split; [done|]. intros cs [= <-] Hm c Hcs.
    destruct (affinity_cpu t1 (tk_target_node t) (c0 :: cpus) g) eqn:Ea.
    - apply affinity_cpu_fits in Ea as [? _]. by subst.
    - destruct Hc as [(? & _)|[_ Hno]]; [by subst|]. by apply Hno. }
  right.
  assert (r ∈ c0 :: cpus /\ fits t1 (tk_target_node t) g r = true) as [Hin Hfit].
  { destruct (affinity_cpu t1 (tk_target_node t) (c0 :: cpus) g) eqn:Ea.
    - subst. by eapply affinity_cpu_fits.
    - destruct Hc as [(? & ? & _)|[? _]]; done. }
  exists r, (c0 :: cpus). split_and!; [done..|].
  by rewrite (assign_fits _ _ (c0 :: cpus)).
Qed.

(** A task that got no CPU adds no load. *)
Lemma placing_unplaced g0 pre dn g t t' todo :
  placing g0 pre dn g -> placed (gs_available_cpus g0) t t' -> tk_assigned_cpu t' = -1 ->
  rejections_justified (gs_available_cpus g0) (dn ++ [t']) ->
  placing g0 (pre ++ [t]) (dn ++ [t']) (g <| gs_tasks := dn ++ t' :: todo |>).
Proof.
  intros [Hsame Hpl Htr Hbd Hrj] Ht Hcpu Hrj'.
  assert (forall n c, c <> -1 -> cpu_load n c (dn ++ [t']) = cpu_load n c dn) as Hload.
  { intros n c Hc. rewrite cpu_load_snoc, decide_False; [done|]. intros [_ E]. congruence. }
  split; [by rewrite Hsame|by apply Forall2_app; [|repeat constructor]| | |done];
    intros n c Hc; rewrite Hload by done; [by apply Htr|by apply Hbd].
Qed.

Lemma target_node_rule g0 :
  forall pre dn t todo g, Forall fresh_task (pre ++ t :: todo) ->
  gs_tasks g = dn ++ t :: todo -> placing g0 pre dn g ->
  let '(t', g') := target_node_step t g in
  gs_tasks g' = gs_tasks g /\
  placing g0 (pre ++ [t]) (dn ++ [t']) (g' <| gs_tasks := dn ++ t' :: todo |>).
Proof.
  intros pre dn t todo g Hfresh Hg Hplacing. pose proof Hplacing as [Hsame Hpl Htr Hbd Hrj].
  apply Forall_app in Hfresh as [_ [[Hf1 Hf2] _]%Forall_cons].
  assert (gs_available_cpus g = gs_available_cpus g0) as Hav by by rewrite Hsame.
  pose proof (target_node_step_cases t g) as Hstep. rewrite Hav in Hstep. cbn zeta in Hstep.
  destruct (eligible (gs_available_cpus g0) t) eqn:He.
  - destruct Hstep as [[-> Hno]|(c & cpus & Hfind & Hin & Hc & Hfit & ->)].
    + split; [done|]. apply placing_unplaced; [done| |done|].
      * unfold placed. rewrite He. exists (tk_assigned_cpu t). split; [by destruct t|by left].
      * apply rejections_justified_snoc; [done|]. intros _ _ cpus Hcp Hm c Hin. cbn in Hcp |- *.
        rewrite <- Htr by (by intros ->). by eapply Hno.
    + split; [done|].
      assert (forall n d, d <> -1 -> cpu_load n d (dn ++ [t <| tk_assigned_node := tk_target_node t |>
          <| tk_assigned_cpu := c |>]) =
          if decide (n = tk_target_node t /\ d = c)
          then dadd (calculate_cpu_utilization (tk_target_node t) c g) (task_utilization t)
          else cpu_load n d dn) as Hload.
      { intros n d Hd. rewrite cpu_load_snoc. unfold on_cpu. cbn.
        destruct (decide (n = tk_target_node t /\ d = c)) as [[-> ->]|Hne].
        - by rewrite decide_True, Htr by done.
        - rewrite decide_False by naive_solver. done. }
      split.
      * by rewrite Hsame.
      * apply Forall2_app; [done|]. repeat constructor. unfold placed. rewrite He.
        exists c. split; [done|]. right. split; [done|]. by exists cpus.
      * intros n d Hd. rewrite Hload by done.
        etransitivity; [apply calculate_set_cpu_utilization|]. case_decide; [done|by apply Htr].
      * intros n d Hd. rewrite Hload by done. case_decide; [exact Hfit|by apply Hbd].
      * by apply rejections_justified_snoc.
  - rewrite Hstep. split; [done|]. apply placing_unplaced; [done| |done|].
    + unfold placed. by rewrite He.
    + by apply rejections_justified_snoc.
Qed.

Lemma target_scheduling g :
  (forall n c, calculate_cpu_utilization n c g = d0) -> Forall fresh_task (gs_tasks g) ->
  exists g', schedule_with_target_node_priority g = Ret g' /\ placing g (gs_tasks g) (gs_tasks g') g'.
Proof.
  intros Hz Hf. unfold schedule_with_target_node_priority.
  destruct (for_tasks_rule (fun task g => Ret (target_node_step task g))
    (fun pre dn g' => placing g pre dn g' /\ pre ++ drop (length dn) (gs_tasks g') = gs_tasks g)
    ) with (g := g) as (g' & E & HI & _).
  - intros pre dn t todo g1 Hg1 Hlen [HI Hpre].
    rewrite Hg1, drop_app_length in Hpre. pose proof (target_node_rule g pre dn t todo g1) as H.
    rewrite Hpre in H. destruct (target_node_step t g1) as [t' g'].
    destruct H as [Hts HI']; [done..|]. exists t', g'. split_and!; [done|done|done|].
    change (dn ++ t' :: todo) with (dn ++ [t'] ++ todo). cbn [gs_tasks upd eta GlobalScheduler_eta].
    by rewrite (app_assoc dn), drop_app_length, <- app_assoc.
  - split; [|done]. split; [by destruct g|constructor|intros n c _; apply Hz|done|done].
  - by exists g'.
Qed.

End target.

(** ** The generated arrays *)

(** Blocks lie below the next address. *)
Definition heap_ok (h : heap) : Prop :=
  0 < h_next h /\ forall p l, h_blocks h !! p = Some l -> 0 < p < h_next h.

(** A schedule map as a value: its nodes with the tasks of their arrays. *)
Definition schedule_view := list (list byte * list sched_task_t).

Definition entry_holds (h : heap) (e : list byte * sched_info_t) (x : list byte * list sched_task_t) : Prop :=
  e.1 = x.1 /\ si_num_tasks e.2 = blen x.2 /\ si_ptr e.2 <> 0 /\ h_blocks h !! si_ptr e.2 = Some x.2.

Definition ptrs (m : NodeSchedInfoMap) : list Z := (fun e => si_ptr e.2) <$> m.

(** Every entry of [m] points to a live block of its own with the tasks of the
    view. *)
Definition owns (m : NodeSchedInfoMap) (h : heap) (v : schedule_view) : Prop :=
  Forall2 (entry_holds h) m v /\ NoDup (ptrs m).

Lemma owns_nil h : owns [] h [].
Proof. split; constructor. Qed.

Lemma owns_cons e m h x v :
  owns (e :: m) h (x :: v) <-> entry_holds h e x /\ si_ptr e.2 ∉ ptrs m /\ owns m h v.
Proof. unfold owns, ptrs. cbn. rewrite Forall2_cons, NoDup_cons. tauto. Qed.

(** Ownership depends only on the blocks pointed to. *)
Lemma owns_mono m h h' v :
  owns m h v -> (forall p, p ∈ ptrs m -> h_blocks h' !! p = h_blocks h !! p) -> owns m h' v.
Proof.
  revert v. induction m as [|e m IH]; intros v [H Hnd] Heq.
  { apply Forall2_nil_inv_l in H as ->. apply owns_nil. }
  apply Forall2_cons_inv_l in H as (x & v' & (H1 & H2 & H3 & H4) & Hm & ->).
  apply owns_cons. pose proof (NoDup_cons_1_1 _ _ Hnd). split_and!; [|done|].
  - split_and!; [done..|]. rewrite Heq; [done|]. left.
  - apply IH; [split; [done|by eapply NoDup_cons_1_2]|]. intros p Hp. apply Heq. by right.
Qed.

(** [free] of a whole map: all of its blocks are released, no other is
    touched. *)
Lemma free_schedules_spec m h v :
  owns m h v -> heap_ok h ->
  exists h', free_schedules m h = Ret h' /\ heap_ok h' /\ h_next h' = h_next h /\
    (forall p, p ∈ ptrs m -> h_blocks h' !! p = None) /\
    (forall p, p ∉ ptrs m -> h_blocks h' !! p = h_blocks h !! p).
Proof.
  revert h v. induction m as [|[n si] m IH]; intros h v Hown Hok; cbn [free_schedules].
  { exists h. split_and!; try done. intros p Hp. by apply not_elem_of_nil in Hp. }
  destruct v as [|x v]; [by destruct Hown as [H%Forall2_length _]|].
  apply owns_cons in Hown as ((_ & _ & Hne & Hl) & Hnin & Hown). cbn in Hne, Hl.
  rewrite decide_False by done. unfold h_free. rewrite Hl. cbn [mbind outcome_bind].
  set (h1 := mk_heap (delete (si_ptr si) (h_blocks h)) (h_next h)).
  assert (owns m h1 v) as Hown1.
  { eapply owns_mono; [exact Hown|]. intros p Hp. cbn. apply lookup_delete_ne. by intros <-. }
  assert (heap_ok h1) as Hok1.
  { destruct Hok as [? Hok]. split; [done|]. intros p l Hpl. cbn in Hpl.
    apply lookup_delete_Some in Hpl as [_ ?]. by eapply Hok. }
  destruct (IH h1 v Hown1 Hok1) as (h' & -> & Hok' & Hnx & Hfreed & Hkept).
  exists h'. split_and!; [done..| |].
  - intros p [->|Hp]%elem_of_cons; [|by apply Hfreed]. cbn.
    rewrite Hkept by done. cbn. apply lookup_delete_eq.
  - intros p [Hp1 Hp2]%not_elem_of_cons. rewrite Hkept by done. cbn. by apply lookup_delete_ne.
Qed.

(** *** Counting *)

Lemma count_tasks_snoc ts t :
  count_tasks (ts ++ [t]) =
    if decide (tk_assigned_node t = []) then count_tasks ts
    else let '(n, m) := map_index 0 (tk_assigned_node t) (count_tasks ts) in
         map_set (tk_assigned_node t) (n + 1) m.
Proof. unfold count_tasks. by rewrite fold_left_app. Qed.

Lemma tasks_of_node_snoc n ts t :
  tasks_of_node n (ts ++ [t]) =
    tasks_of_node n ts ++ if decide (tk_assigned_node t = n) then [t] else [].
Proof.
  unfold tasks_of_node. rewrite filter_app, filter_cons, filter_nil. by case_decide.
Qed.

Lemma count_tasks_spec ts :
  map_ok (count_tasks ts) /\
  forall n, map_find n (count_tasks ts) =
    if decide (n = [] \/ tasks_of_node n ts = []) then None else Some (blen (tasks_of_node n ts)).
Proof.
  induction ts as [|t ts [Hok Hf]] using rev_ind.
  { split; [apply map_ok_nil|]. intros n. rewrite decide_True; [done|by right]. }
  rewrite count_tasks_snoc. destruct (decide (tk_assigned_node t = [])) as [Ht|Ht].
  { split; [done|]. intros n. rewrite Hf, tasks_of_node_snoc.
    destruct (decide (tk_assigned_node t = n)) as [<-|Hn].
    - rewrite !decide_True by (by left). done.
    - by rewrite app_nil_r. }
  set (a := tk_assigned_node t) in *.
  assert (exists m, map_index 0 a (count_tasks ts) = (blen (tasks_of_node a ts), m) /\ map_ok m /\
    forall n, n <> a -> map_find n m = map_find n (count_tasks ts)) as (m & -> & Hm & Hmf).
  { unfold map_index. rewrite Hf. case_decide as Hd.
    - destruct Hd as [?|Hd]; [done|]. rewrite Hd. eexists. split_and!; [done|by apply map_ok_set|].
      intros n Hn. by apply map_find_set_ne.
    - by eexists. }
  split; [by apply map_ok_set|]. intros n. rewrite tasks_of_node_snoc. fold a.
  destruct (decide (a = n)) as [<-|Hn].
  - rewrite map_find_set, decide_False; [|intros [?|?%app_nil]; naive_solver].
    rewrite length_app, Nat2Z.inj_add. done.
  - rewrite map_find_set_ne, Hmf, Hf, app_nil_r by done. done.
Qed.

(** The nodes that received tasks, each once and in order. *)
Definition nodes_with_tasks (ts : list Task) : list (list byte) :=
  set_of (filter (fun n => n <> []) (tk_assigned_node <$> ts)).

Lemma elem_of_nodes_with_tasks n ts :
  n ∈ nodes_with_tasks ts <-> n <> [] /\ tasks_of_node n ts <> [].
Proof.
  unfold nodes_with_tasks. rewrite elem_of_set_of, list_elem_of_filter, list_elem_of_fmap.
  split; (intros [Hn Ht]; split; [done|]).
  - destruct Ht as (t & -> & Ht). intros E.
    assert (t ∈ tasks_of_node (tk_assigned_node t) ts) as Hin by (by apply list_elem_of_filter).
    rewrite E in Hin. by apply not_elem_of_nil in Hin.
  - destruct (tasks_of_node n ts) as [|t l] eqn:E; [done|].
    assert (t ∈ tasks_of_node n ts) as [<- ?]%list_elem_of_filter by (rewrite E; left). eauto.
Qed.

(** These nodes with their tasks, in the order of the list. *)
Definition schedule_of (ts : list Task) : schedule_view :=
  (fun n => (n, make_sched_task <$> tasks_of_node n ts)) <$> nodes_with_tasks ts.

(** The code's counters are for the same nodes. *)
Lemma nodes_counted ts : nodes_with_tasks ts = fst <$> count_tasks ts.
Proof.
  destruct (count_tasks_spec ts) as [Hok Hf].
  assert (count_tasks ts = (fun n => (n, blen (tasks_of_node n ts))) <$> nodes_with_tasks ts) as ->.
  2:{ rewrite <- list_fmap_compose. cbn. by rewrite list_fmap_id. }
  assert (map_ok ((fun n => (n, blen (tasks_of_node n ts))) <$> nodes_with_tasks ts)) as Hok'.
  { unfold map_ok. rewrite <- list_fmap_compose. unfold nodes_with_tasks.
    cbn. rewrite list_fmap_id. apply sorted_set_of. }
  apply map_ext; [done|done|]. intros n. rewrite Hf. case_decide as Hd.
  - destruct (map_find n _) as [c|] eqn:E; [|done]. apply map_find_elem in E; [|done].
    apply list_elem_of_fmap in E as (n' & [= -> _] & Hin). apply elem_of_nodes_with_tasks in Hin. naive_solver.
  - symmetry. apply map_find_elem; [done|]. apply list_elem_of_fmap. exists n. split; [done|].
    apply elem_of_nodes_with_tasks. naive_solver.
Qed.

Lemma schedule_counted ts :
  schedule_of ts = (fun e => (e.1, make_sched_task <$> tasks_of_node e.1 ts)) <$> count_tasks ts.
Proof. unfold schedule_of. by rewrite nodes_counted, <- list_fmap_compose. Qed.

Lemma elem_of_schedule_of n l ts :
  (n, l) ∈ schedule_of ts <->
    n <> [] /\ l <> [] /\ l = make_sched_task <$> tasks_of_node n ts.
Proof.
  unfold schedule_of. rewrite list_elem_of_fmap. split.
  - intros (n' & [= -> ->] & [Hn Ht]%elem_of_nodes_with_tasks). split_and!; [done| |done].
    by intros E%fmap_nil_inv.
  - intros (Hn & Hl & ->). exists n. split; [done|]. apply elem_of_nodes_with_tasks. split; [done|].
    intros E. by rewrite E in Hl.
Qed.

Section generate.
Context {AL : Allocator}.

(** The arrays of up to [k] tasks can be allocated. *)
Definition mem_ok (k : nat) : Prop :=
  forall n, 0 <= n <= Z.of_nat k -> al_ok (sizeof_sched_task_t * n) = true.

Lemma length_tasks_of_node n ts : (length (tasks_of_node n ts) <= length ts)%nat.
Proof. apply length_filter. Qed.

Lemma owns_snoc m h v e x :
  owns m h v -> entry_holds h e x -> si_ptr e.2 ∉ ptrs m -> owns (m ++ [e]) h (v ++ [x]).
Proof.
  intros [Hm Hnd] He Hnin. split; [apply Forall2_app; [done|constructor; [done|constructor]]|].
  unfold ptrs in *. rewrite fmap_app. apply NoDup_app. split_and!; [done| |apply NoDup_singleton].
  intros p Hp. cbn. rewrite list_elem_of_singleton. by intros ->.
Qed.

Lemma owns_ptrs_lt m h v p : owns m h v -> heap_ok h -> p ∈ ptrs m -> 0 < p < h_next h.
Proof.
  intros [Hm _] [_ Hok] Hp. unfold ptrs in Hp. apply list_elem_of_fmap in Hp as (e & -> & He).
  apply list_elem_of_lookup_1 in He as [i Hi].
  destruct (Forall2_lookup_l _ _ _ _ _ Hm Hi) as (x & _ & (_ & _ & _ & Hl)). by eapply Hok.
Qed.

(** Arrays of at most [k] tasks each are allocated at the end of the map. *)
Lemma allocate_nodes_spec k l m0 h v :
  mem_ok k -> heap_ok h -> owns m0 h v ->
  StronglySorted klt ((fst <$> m0) ++ (fst <$> l)) -> Forall (fun e => (length e.2 <= k)%nat) l ->
  exists m h', allocate_nodes l m0 h = Ret (m, h') /\
    heap_ok h' /\ (forall p, p < h_next h -> h_blocks h' !! p = h_blocks h !! p) /\
    (forall p, p ∉ ptrs m -> h_blocks h' !! p = h_blocks h !! p) /\
    fst <$> m = (fst <$> m0) ++ (fst <$> l) /\ (exists new, m = m0 ++ new) /\ owns m h' (v ++ l).
Proof.
  intros Hmem. revert m0 h v. induction l as [|[n ts] l IH]; intros m0 h v Hok Hown Hs Hl.
  { exists m0, h. cbn. rewrite !app_nil_r. split_and!; try done. exists []. by rewrite app_nil_r. }
  apply Forall_cons in Hl as [Hn Hl]. cbn in Hn. cbn [allocate_nodes].
  unfold h_malloc. rewrite Hmem, Z.leb_refl by lia. cbn [andb mbind outcome_bind].
  set (h1 := mk_heap (<[h_next h:=ts]> (h_blocks h)) (h_next h + 1)).
  set (e := (n, mk_sched_info_t (blen ts) (h_next h))).
  rewrite map_set_last by by eapply sorted_before. fold e.
  assert (owns (m0 ++ [e]) h1 (v ++ [(n, ts)])) as Hown1.
  { apply owns_snoc.
    - eapply owns_mono; [exact Hown|]. intros p Hp. cbn. apply lookup_insert_ne.
      pose proof (owns_ptrs_lt _ _ _ _ Hown Hok Hp). lia.
    - split_and!; cbn; [done|done| |apply lookup_insert_eq]. destruct Hok. lia.
    - intros Hp. pose proof (owns_ptrs_lt _ _ _ _ Hown Hok Hp). cbn in *. lia. }
  assert (heap_ok h1) as Hok1.
  { destruct Hok as [Hpos Hok]. split; cbn; [lia|]. intros p x Hp.
    apply lookup_insert_Some in Hp as [[<- _]|[_ Hp]]; [lia|]. apply Hok in Hp. lia. }
  destruct (IH (m0 ++ [e]) h1 (v ++ [(n, ts)]))
    as (m & h' & E & Hok' & Hkeep & Hother & Hkeys & [new Hnew] & Hown'); [done..| |done|].
  { rewrite fmap_app, <- app_assoc. done. }
  rewrite E. exists m, h'. rewrite fmap_app, <- app_assoc in Hkeys. rewrite <- app_assoc in Hown'.
  split_and!; [done|done| | |done| |done].
  - intros p Hp. rewrite Hkeep by (cbn; lia). cbn. apply lookup_insert_ne. lia.
  - intros p Hp. rewrite Hother by done. cbn. apply lookup_insert_ne. intros <-. apply Hp.
    rewrite Hnew. unfold ptrs. rewrite !fmap_app. cbn. set_solver.
  - exists (e :: new). rewrite Hnew. by rewrite <- app_assoc.
Qed.

(** [generate_schedules] is such a loop over the counted nodes. *)
Lemma generate_for_allocates counts g h :
  Forall (fun e => e.2 = blen (tasks_of_node e.1 (gs_tasks g))) counts ->
  generate_for counts g h =
    '(m, h') ← allocate_nodes ((fun e => (e.1, make_sched_task <$> tasks_of_node e.1 (gs_tasks g))) <$> counts)
                 (gs_sched_info_map g) h;
    Ret (g <| gs_sched_info_map := m |>, h').
Proof.
  revert g h. induction counts as [|[n c] counts IH]; intros g h Hc; cbn [generate_for fmap list_fmap allocate_nodes].
  { by destruct g. }
  apply Forall_cons in Hc as [Hc Hcs]. cbn in Hc. cbn [fst snd]. rewrite length_fmap, <- Hc.
  destruct (h_malloc c _ h) as [[p h1]|]; cbn [mbind outcome_bind]; [|done]. rewrite IH by done. done.
Qed.

(** The arrays of [generate_schedules] on an empty map. *)
Lemma generate_schedules_spec g h :
  mem_ok (length (gs_tasks g)) -> heap_ok h -> gs_sched_info_map g = [] ->
  exists m h', generate_schedules g h = Ret (g <| gs_sched_info_map := m |>, h') /\
    heap_ok h' /\ map_ok m /\ (forall p, p < h_next h -> h_blocks h' !! p = h_blocks h !! p) /\
    (forall p, p ∉ ptrs m -> h_blocks h' !! p = h_blocks h !! p) /\
    owns m h' (schedule_of (gs_tasks g)).
Proof.
  intros Hmem Hok Hm. destruct (count_tasks_spec (gs_tasks g)) as [Hcok Hcf].
  unfold generate_schedules. rewrite generate_for_allocates.
  2:{ apply Forall_forall. intros [n c] Hin. cbn. apply map_find_elem in Hin; [|done].
      rewrite Hcf in Hin. case_decide; [done|]. by injection Hin as <-. }
  rewrite <- schedule_counted, Hm.
  assert (fst <$> schedule_of (gs_tasks g) = fst <$> count_tasks (gs_tasks g)) as Hkeys0.
  { by rewrite schedule_counted, <- list_fmap_compose. }
  destruct (allocate_nodes_spec (length (gs_tasks g)) (schedule_of (gs_tasks g)) [] h [])
    as (m & h' & -> & Hok' & Hkeep & Hother & Hkeys & _ & Hown); [done|done|apply owns_nil| | |].
  - cbn. by rewrite Hkeys0.
  - apply Forall_fmap, Forall_forall. intros n _. cbn. rewrite length_fmap. apply length_tasks_of_node.
  - exists m, h'. split_and!; [done|done| |done|done|done]. unfold map_ok. by rewrite Hkeys, Hkeys0.
Qed.

End generate.

(** ** [schedule] with the target node algorithm *)

Section schedule_target.
Context {SS : StdSort} {AL : Allocator}.

Definition target_algorithm : list byte := str "target_node_priority".

(** A scheduler that [schedule] can work on: a loaded configuration with
    ordered nodes, fresh tasks, an intact heap, enough memory. *)
Record schedulable (g : GlobalScheduler) (h : heap) (mgr : NodeConfigManager) (v : schedule_view) : Prop := {
  sc_config : config_loaded g = Some mgr;
  sc_nodes : map_ok (ncm_nodes mgr);
  sc_tasks : gs_tasks g <> [];
  sc_fresh : Forall fresh_task (gs_tasks g);
  sc_owns : owns (gs_sched_info_map g) h v;
  sc_heap : heap_ok h;
  sc_mem : mem_ok (length (gs_tasks g));
}.

(** The state in which the algorithms start. *)
Definition prepared (g : GlobalScheduler) (mgr : NodeConfigManager) (g1 : GlobalScheduler) : Prop :=
  exists u, g1 = g <| gs_sched_info_map := [] |> <| gs_available_cpus := cpus_of mgr |>
                   <| gs_cpu_utilization := u |> /\
  forall n c, calculate_cpu_utilization n c g1 = d0.

Lemma prepare_spec g mgr :
  config_loaded g = Some mgr -> map_ok (ncm_nodes mgr) ->
  prepared g mgr (initialize_cpu_utilization_tracking
    (initialize_available_cpus (g <| gs_sched_info_map := [] |>))).
Proof.
  intros Hc Hn. rewrite (initialize_available_spec _ mgr) by done.
  destruct (initialize_tracking_frame (g <| gs_sched_info_map := [] |> <| gs_available_cpus := cpus_of mgr |>))
    as [u E].
  exists u. split; [exact E|]. intros n c. apply initialize_tracking_zero.
Qed.

(** What [schedule] does before and after an algorithm that ends in [g2] and
    leaves the schedule map alone. *)
Lemma schedule_around g h mgr v g2 :
  schedulable g h mgr v ->
  gs_sched_info_map g2 = [] -> length (gs_tasks g2) = length (gs_tasks g) ->
  exists h1 m h', cleanup_schedules g h = Ret (g <| gs_sched_info_map := [] |>, h1) /\
    generate_schedules g2 h1 = Ret (g2 <| gs_sched_info_map := m |>, h') /\
    heap_ok h' /\ map_ok m /\ owns m h' (schedule_of (gs_tasks g2)) /\
    (forall p, p < h_next h -> h_blocks h' !! p = if decide (p ∈ ptrs (gs_sched_info_map g)) then None else h_blocks h !! p) /\
    (forall p, p ∉ ptrs m -> h_blocks h' !! p = if decide (p ∈ ptrs (gs_sched_info_map g)) then None else h_blocks h !! p).
Proof.
  intros [Hc Hn Ht Hf Hown Hok Hmem] Hm2 Hlen.
  destruct (free_schedules_spec _ _ _ Hown Hok) as (h1 & E1 & Hok1 & Hnx & Hfreed & Hkeep1).
  destruct (generate_schedules_spec g2 h1) as (m & h' & E2 & Hok2 & Hmok & Hkeep2 & Hother & Hown2);
    [by rewrite Hlen|done|done|].
  exists h1, m, h'. split_and!; try done.
  - unfold cleanup_schedules. by rewrite E1.
  - intros p Hp. rewrite Hkeep2 by (by rewrite Hnx). case_decide; auto.
  - intros p Hp. rewrite Hother by done. case_decide; auto.
Qed.

Lemma has_schedules_view m h v g :
  owns m h v -> has_schedules (g <| gs_sched_info_map := m |>) = negb (bool_decide (v = [])).
Proof.
  intros [H _]. unfold has_schedules. cbn. by destruct H as [|[? ?] ? ? ? _ _].
Qed.

Lemma target_schedule_effect g h mgr v :
  schedulable g h mgr v ->
  exists g' h', schedule target_algorithm g h
      = Ret (negb (bool_decide (schedule_of (gs_tasks g') = [])), g', h') /\
    Forall2 (placed (cpus_of mgr)) (gs_tasks g) (gs_tasks g') /\
    (forall n c, c <> -1 -> calculate_cpu_utilization n c g' = cpu_load n c (gs_tasks g')) /\
    (forall n c, c <> -1 -> dleb (cpu_load n c (gs_tasks g')) CPU_UTILIZATION_THRESHOLD = true) /\
    owns (gs_sched_info_map g') h' (schedule_of (gs_tasks g')) /\
    map_ok (gs_sched_info_map g') /\ heap_ok h' /\
    gs_node_config_manager g' = gs_node_config_manager g /\
    (forall p, p < h_next h -> h_blocks h' !! p = if decide (p ∈ ptrs (gs_sched_info_map g)) then None else h_blocks h !! p) /\
    (forall p, p ∉ ptrs (gs_sched_info_map g') -> h_blocks h' !! p = if decide (p ∈ ptrs (gs_sched_info_map g)) then None else h_blocks h !! p) /\
    rejections_justified (cpus_of mgr) (gs_tasks g').
Proof.
  intros Hs. pose proof Hs as [Hc Hn Ht Hf Hown Hok Hmem].
  pose proof (prepare_spec g mgr Hc Hn) as Hp. set (g1 := initialize_cpu_utilization_tracking _) in Hp.
  destruct Hp as (u & Eg1 & Hz).
  destruct (target_scheduling g1) as (g2 & E2 & [Hsame Hpl Htr Hbd Hrj]); [done|by rewrite Eg1|].
  assert (gs_available_cpus g1 = cpus_of mgr) as Ha by by rewrite Eg1.
  assert (gs_tasks g1 = gs_tasks g) as Hts by by rewrite Eg1. rewrite Ha, Hts in Hpl. rewrite Ha in Hrj.
  destruct (schedule_around g h mgr v g2) as (h1 & m & h' & Ec & Eg & Hok' & Hmok & Hown' & Hkeep & Hother);
    [done|by rewrite Hsame, Eg1| |].
  { symmetry. by eapply Forall2_length. }
  exists (g2 <| gs_sched_info_map := m |>), h'. cbn [gs_tasks gs_sched_info_map upd eta GlobalScheduler_eta].
  split_and!; try done.
  - unfold schedule. rewrite Hc. destruct (gs_tasks g) eqn:Et; [done|]. rewrite Ec.
    cbn [mbind outcome_bind]. fold g1. unfold target_algorithm. rewrite decide_True by done.
    rewrite E2. cbn [mbind outcome_bind]. rewrite Eg. cbn [mbind outcome_bind].
    by rewrite (has_schedules_view _ _ _ _ Hown').
  - by rewrite Hsame, Eg1.
Qed.

(** C10: After scheduling a workload by target nodes, every task sits on its
    target node and, if it got a CPU, on one the node offers; and no CPU is
    loaded beyond the threshold: the sum of runtime/period over the tasks placed
    on it, in the order and precision the code adds them, is at most 0.90, and
    it is the value the scheduler tracks.  A task is left without a CPU only when
    it fitted on none of its node's CPUs at its turn. *)
Theorem target_cpus_within_budget g h mgr v :
  schedulable g h mgr v ->
  exists ok g' h', schedule target_algorithm g h = Ret (ok, g', h') /\
    Forall2 (placed (cpus_of mgr)) (gs_tasks g) (gs_tasks g') /\
    rejections_justified (cpus_of mgr) (gs_tasks g') /\
    forall n c, c <> -1 ->
      calculate_cpu_utilization n c g' = cpu_load n c (gs_tasks g') /\
      dleb (cpu_load n c (gs_tasks g')) CPU_UTILIZATION_THRESHOLD = true.
Proof.
  intros Hs. destruct (target_schedule_effect g h mgr v Hs)
    as (g' & h' & E & Hpl & Htr & Hbd & _ & _ & _ & _ & _ & _ & Hrj).
  eexists _, g', h'. split_and!; [exact E|done|done|]. intros n c Hc. auto.
Qed.

Lemma placed_node avail t t' : placed avail t t' -> fresh_task t ->
  tk_assigned_node t' = if eligible avail t then tk_target_node t else [].
Proof.
  unfold placed. intros H [Hf _]. destruct (eligible avail t); [|by subst].
  by destruct H as (cpu & -> & _).
Qed.

(** C22: The schedule map that results has one entry per node, in order, whose
    array holds exactly the tasks that name a workload and this node (if the
    node is configured with CPUs), each once and in the order of the request;
    schedule reports success exactly when there is such a task; every array is a
    live block of its own, every array of the previous schedule has been
    released, and no other block is touched.  (There is memory for the arrays:
    the code does not check malloc.) *)
Theorem target_schedule_arrays g h mgr v :
  schedulable g h mgr v ->
  exists ok g' h', schedule target_algorithm g h = Ret (ok, g', h') /\
    (ok = true <-> Exists (fun t => eligible (cpus_of mgr) t = true) (gs_tasks g)) /\
    (forall n, n <> [] -> Forall2 (placed (cpus_of mgr))
      (filter (fun t => eligible (cpus_of mgr) t = true /\ tk_target_node t = n) (gs_tasks g))
      (tasks_of_node n (gs_tasks g'))) /\
    owns (gs_sched_info_map g') h' (schedule_of (gs_tasks g')) /\ map_ok (gs_sched_info_map g') /\
    (forall p, p ∈ ptrs (gs_sched_info_map g) -> h_blocks h' !! p = None) /\
    (forall p, p ∉ ptrs (gs_sched_info_map g') -> h_blocks h' !! p = None \/ h_blocks h' !! p = h_blocks h !! p) /\
    (forall p, p < h_next h -> h_blocks h' !! p = if decide (p ∈ ptrs (gs_sched_info_map g)) then None else h_blocks h !! p).
Proof.
  intros Hs. pose proof (sc_fresh _ _ _ _ Hs) as Hfresh.
  destruct (target_schedule_effect g h mgr v Hs) as (g' & h' & E & Hpl & _ & _ & Hown & Hmok & _ & _ & Hkeep & Hother & _).
  assert (forall n, n <> [] -> Forall2 (placed (cpus_of mgr))
      (filter (fun t => eligible (cpus_of mgr) t = true /\ tk_target_node t = n) (gs_tasks g))
      (tasks_of_node n (gs_tasks g'))) as Hlen.
  { intros n Hn. clear -Hpl Hfresh Hn. induction Hpl as [|t t' ts ts' Ht _ IH]; [done|].
    apply Forall_cons in Hfresh as [Hf Hfs]. pose proof (placed_node _ _ _ Ht Hf) as Ha.
    unfold tasks_of_node in *. rewrite !filter_cons, Ha.
    destruct (eligible (cpus_of mgr) t) eqn:He.
    - destruct (decide (tk_target_node t = n)) as [Hx|Hx].
      + rewrite decide_True by done. constructor; auto.
      + rewrite decide_False by naive_solver. auto.
    - rewrite !decide_False by naive_solver. auto. }
  eexists _, g', h'. split_and!; try done; clear E.
  2:{ intros p Hp. rewrite Hkeep, decide_True by (done || by eapply owns_ptrs_lt, Hp; apply Hs). done. }
  2:{ intros p Hp. rewrite Hother by done. case_decide; auto. }
  rewrite negb_true_iff, bool_decide_eq_false. split.
  - intros Hne. destruct (schedule_of (gs_tasks g')) as [|[n l] rest] eqn:Es; [done|].
    assert ((n, l) ∈ schedule_of (gs_tasks g')) as Hin by (rewrite Es; left).
    apply elem_of_schedule_of in Hin as (Hn & Hl & ->).
    specialize (Hlen n Hn). apply Forall2_length in Hlen.
    apply Exists_exists. destruct (filter _ (gs_tasks g)) as [|t ts] eqn:Ef.
    { destruct (tasks_of_node n (gs_tasks g')); [done|]. cbn in Hlen. lia. }
    assert (t ∈ t :: ts) as Hin by left. rewrite <- Ef in Hin.
    apply list_elem_of_filter in Hin as [[? _] ?]. by exists t.
  - intros (t & Ht & He)%Exists_exists Es. set (n := tk_target_node t).
    pose proof (eligible_target _ _ He : n <> []) as Hn.
    specialize (Hlen n Hn). apply Forall2_length in Hlen.
    assert (tasks_of_node n (gs_tasks g') <> []) as Hne.
    { intros E0. rewrite E0 in Hlen.
      assert (t ∈ filter (fun t => eligible (cpus_of mgr) t = true /\ tk_target_node t = n) (gs_tasks g)) as Hin
        by (by apply list_elem_of_filter). by destruct (filter _ _); [apply not_elem_of_nil in Hin|]. }
    assert ((n, make_sched_task <$> tasks_of_node n (gs_tasks g')) ∈ schedule_of (gs_tasks g')) as Hin.
    { apply elem_of_schedule_of. split_and!; [done| |done]. by intros ?%fmap_nil_inv. }
    rewrite Es in Hin. by apply not_elem_of_nil in Hin.
Qed.

End schedule_target.

(** ** A task that fits nowhere *)

Section rejected.
Context {SS : StdSort}.

(** C30: A task that does not fit on any CPU of its target node gets no CPU, but
    it has already been assigned to the node: it is still part of the node's
    array, with the CPU affinity (uint64_t)-1, and its utilization is counted
    nowhere. *)
Theorem rejected_task_is_sent t g c0 cpus ts :
  fresh_task t -> tk_workload_id t <> [] -> tk_target_node t <> [] ->
  map_find (tk_target_node t) (gs_available_cpus g) = Some (c0 :: cpus) ->
  (forall c, c ∈ c0 :: cpus -> fits t (tk_target_node t) g c = false) ->
  exists t', target_node_step t g = (t', g) /\
    st_cpu_affinity (make_sched_task t') = 2 ^ 64 - 1 /\
    (t' ∈ ts -> exists l, (tk_target_node t, l) ∈ schedule_of ts /\ make_sched_task t' ∈ l).
Proof.
  intros [Hf1 Hf2] Hw Ht Hfind Hno. set (t' := t <| tk_assigned_node := tk_target_node t |>).
  exists t'. split_and!.
  - pose proof (target_node_step_cases t g) as H. cbn zeta in H. unfold eligible in H.
    rewrite !bool_decide_false, Hfind in H by done. cbn in H.
    destruct H as [[H _]|(c & cs & Hc & Hin & _ & Hfit & _)]; [exact H|].
    injection Hc as <-. by rewrite Hno in Hfit.
  - cbn. by rewrite Hf2.
  - intros Hin. exists (make_sched_task <$> tasks_of_node (tk_target_node t) ts).
    assert (t' ∈ tasks_of_node (tk_target_node t) ts) as Hin' by (by apply list_elem_of_filter).
    split; [|by apply list_elem_of_fmap_2]. apply elem_of_schedule_of. split_and!; [done| |done].
    intros E%fmap_nil_inv. rewrite E in Hin'. by apply not_elem_of_nil in Hin'.
Qed.

End rejected.

(** The comparator of [get_sorted_cpus_by_utilization] is not a strict weak
    ordering: differences of utilization below 1% do not add up, so the order
    it asks of [std::sort] can be cyclic. *)
Definition ex_tracked : GlobalScheduler :=
  mk_GlobalScheduler None []
    [(str "n", [(1, ddiv (double_of 500) (double_of 1000)); (2, ddiv (double_of 508) (double_of 1000));
                (3, ddiv (double_of 516) (double_of 1000))])] [] [].

Lemma cpu_before_not_ordering : ~ strict_weak_order (cpu_before (str "n") false ex_tracked).
Proof.
  intros H. pose proof (swo_trans _ H 3 2 1 eq_refl eq_refl) as H31.
  vm_compute in H31. discriminate.
Qed.

(** ** Concrete runs *)

#[local] Instance ex_sort : StdSort := insertion_StdSort.
#[local] Program Instance ex_alloc : Allocator :=
  {| al_ok := fun n => n <? 2 ^ 63; al_junk := fun _ _ => x00 |}.
Next Obligation. intros n H. by apply Z.ltb_lt in H. Qed.

Definition ex_load (name node : string) (runtime period : Z) : Task :=
  (Task_ctor 1 0 3) <| tk_name := str name |> <| tk_workload_id := str "w" |>
    <| tk_target_node := str node |> <| tk_priority := 50 |> <| tk_period_us := period |>
    <| tk_runtime_us := runtime |> <| tk_deadline_us := period |> <| tk_affinity := str "any" |>.

Definition ex_manager : NodeConfigManager := mk_NodeConfigManager ex_config true.

(** Five tasks for node01 with CPUs 2 and 3: two share CPU 3, the third and
    fourth go to CPU 2, the last fits nowhere. *)
Definition ex_scheduler : GlobalScheduler :=
  set_tasks [ex_load "a" "node01" 4000 10000; ex_load "b" "node01" 5000 10000;
             ex_load "c" "node01" 6000 10000; ex_load "d" "node01" 3000 10000;
             ex_load "e" "node01" 500 1000; ex_load "f" "node02" 1 10]
    (GlobalScheduler_ctor (Some ex_manager)).

Lemma ex_mem_ok k : (k <= 1000)%nat -> mem_ok k.
Proof. intros Hk n Hn. apply Z.ltb_lt. unfold sizeof_sched_task_t. lia. Qed.

Lemma heap_empty_ok : heap_ok heap_empty.
Proof. split; [done|]. intros p l H. cbn in H. by rewrite lookup_empty in H. Qed.

Lemma ex_schedulable : schedulable ex_scheduler heap_empty ex_manager [].
Proof.
  split; [done|repeat constructor|done|by repeat constructor|apply owns_nil|apply heap_empty_ok|].
  apply ex_mem_ok. cbn. lia.
Qed.

Lemma target_cpus_within_budget_witness :
  exists ok g' h', schedule target_algorithm ex_scheduler heap_empty = Ret (ok, g', h') /\
    dleb (cpu_load (str "node01") 3 (gs_tasks g')) CPU_UTILIZATION_THRESHOLD = true.
Proof.
  destruct (target_cpus_within_budget ex_scheduler heap_empty ex_manager [] ex_schedulable)
    as (ok & g' & h' & E & _ & _ & H).
  exists ok, g', h'. split; [exact E|]. by apply H.
Defined.

Lemma target_schedule_arrays_witness :
  exists g' h', schedule target_algorithm ex_scheduler heap_empty = Ret (true, g', h') /\
    owns (gs_sched_info_map g') h' (schedule_of (gs_tasks g')).
Proof.
  destruct (target_schedule_arrays ex_scheduler heap_empty ex_manager [] ex_schedulable)
    as (ok & g' & h' & E & Hok & _ & Hown & _).
  assert (ok = true) as ->.
  { apply Hok. apply Exists_cons_hd. vm_compute. reflexivity. }
  exists g', h'. auto.
Defined.

Lemma find_best_cpu_spec_witness :
  find_best_cpu_for_task (ex_load "a" "node01" 4000 10000) (str "node01") ex_scheduler = (3, ex_scheduler).
Proof.
  destruct (find_best_cpu_spec (ex_load "a" "node01" 4000 10000) (str "node01") [2; 3] ex_scheduler)
    as (r & E & H); [reflexivity|].
  assert (3 ∈ [2; 3]) as H3 by (right; left).
  assert (forall r, r ∈ [2; 3] -> 3 <= r -> r = 3) as Hr.
  { intros r' Hin Hle. repeat (apply elem_of_cons in Hin as [->|Hin]; [lia|]). by apply not_elem_of_nil in Hin. }
  rewrite E. f_equal. change (affinity_cpu _ _ _ _) with (@None Z) in H.
  assert (fits (ex_load "a" "node01" 4000 10000) (str "node01") ex_scheduler 3 = true) as Hf
    by (vm_compute; reflexivity).
  destruct H as [(Hin & _ & Hmax)|[_ Hno]].
  - exact (Hr r Hin (Hmax 3 H3 Hf)).
  - rewrite (Hno 3 H3) in Hf. discriminate Hf.
Defined.

(** The CPUs of the run: -1 for the task that fits nowhere (it is sent all the
    same) and an untouched task for the node without CPUs. *)
Example ex_run :
  match schedule target_algorithm ex_scheduler heap_empty with
  | Ret (ok, g, _) => (ok, (fun t => (tk_assigned_node t, tk_assigned_cpu t)) <$> gs_tasks g)
  | UB => (false, [])
  end = (true, [(str "node01", 3); (str "node01", 3); (str "node01", 2); (str "node01", 2);
                (str "node01", -1); ([], -1)]).
Proof. vm_compute. reflexivity. Qed.

Lemma rejected_task_is_sent_witness :
  exists t', target_node_step (ex_load "e" "node01" 95 100) ex_scheduler = (t', ex_scheduler) /\
    st_cpu_affinity (make_sched_task t') = 2 ^ 64 - 1.
Proof.
  destruct (rejected_task_is_sent (ex_load "e" "node01" 95 100) ex_scheduler 2 [3] [])
    as (t' & E & Ha & _); [split; reflexivity|discriminate|discriminate|reflexivity| |exists t'; split; [exact E|exact Ha]].
  intros c Hc. repeat (apply elem_of_cons in Hc as [->|Hc]; [vm_compute; reflexivity|]).
  by apply not_elem_of_nil in Hc.
Defined.
