(* ===== verification/Utilization.v ===== *)
(** * Utilizations in floating point

    The scheduler compares sums of [(double)runtime / period] with the
    [double] 0.90.  For times below 2^53 the quotient of a task that uses at most
    nine tenths of its period is not above that bound in spite of rounding, so
    such a task always fits on an idle CPU. *)

From S2P Require Import CppStd Serialize SchedInfo OrchHyperperiod NodeConfig GlobalScheduler.

Local Opaque Z.pow.

(** ** Digits and shifts of binary numbers *)

Lemma digits2_log2 p : Zpos (digits2_pos p) = Z.log2 (Zpos p) + 1.
Proof.
  induction p as [p IH|p IH|]; cbn [digits2_pos]; [| |done]; rewrite Pos2Z.inj_succ, IH.
  - change (Z.pos p~1) with (2 * Z.pos p + 1). rewrite Z.log2_succ_double by lia. lia.
  - change (Z.pos p~0) with (2 * Z.pos p). rewrite Z.log2_double by lia. lia.
Qed.

Lemma Zdigits2_pos q : 0 < q -> Zdigits2 q = Z.log2 q + 1.
Proof. destruct q; [lia| |lia]. intros _. apply digits2_log2. Qed.

Lemma digits_53 q : 2 ^ 52 <= q < 2 ^ 53 -> Zdigits2 q = 53.
Proof.
  intros Hq. assert (0 < 2 ^ 52) by (apply Z.pow_pos_nonneg; lia).
  rewrite Zdigits2_pos by lia. rewrite (Z.log2_unique q 52); [done|done|]. by change (Z.succ 52) with 53.
Qed.

Lemma digits_54 q : 2 ^ 53 <= q < 2 ^ 54 -> Zdigits2 q = 54.
Proof.
  intros Hq. assert (0 < 2 ^ 53) by (apply Z.pow_pos_nonneg; lia).
  rewrite Zdigits2_pos by lia. rewrite (Z.log2_unique q 53); [done|done|]. by change (Z.succ 53) with 54.
Qed.

Lemma iter_xO m k : Zpos (Pos.iter xO m k) = Zpos m * 2 ^ Zpos k.
Proof.
  induction k as [|k IH] using Pos.peano_ind.
  - change (Pos.iter xO m 1) with (xO m). change (2 ^ 1) with 2. lia.
  - rewrite Pos.iter_succ, Pos2Z.inj_xO, IH, Pos2Z.inj_succ, Z.pow_succ_r by lia. lia.
Qed.

(** ** Rounding *)

Lemma fexp_53 x : -1000 <= x <= 2000 -> fexp 53 1024 x = x - 53.
Proof. intros Hx. unfold fexp, emin. lia. Qed.

Lemma shr_fexp_53 q e l :
  2 ^ 52 <= q < 2 ^ 53 -> -1000 <= e <= 1000 ->
  shr_fexp 53 1024 q e l = (shr_record_of_loc q l, e).
Proof.
  intros Hq He. unfold shr_fexp. rewrite digits_53, fexp_53 by lia.
  by replace (53 + e - 53 - e) with 0 by lia.
Qed.

Lemma shr_m_of_loc q l : shr_m (shr_record_of_loc q l) = q.
Proof. by destruct l as [|[]]. Qed.

Lemma shr_1_half q l : 0 < q -> shr_m (shr_1 (shr_record_of_loc q l)) = q / 2.
Proof.
  intros Hq. destruct q as [|p|p]; [lia| |lia].
  assert (shr_m (shr_1 (shr_record_of_loc (Z.pos p) l)) = Z.div2 (Z.pos p)) as ->.
  { destruct l as [|[]], p; reflexivity. }
  by rewrite Z.div2_div.
Qed.

Lemma shr_fexp_54 q e l :
  2 ^ 53 <= q < 2 ^ 54 -> -1000 <= e <= 1000 ->
  exists mrs, shr_fexp 53 1024 q e l = (mrs, e + 1) /\ shr_m mrs = q / 2.
Proof.
  intros Hq He. unfold shr_fexp. rewrite digits_54, fexp_53 by lia.
  replace (54 + e - 53 - e) with 1 by lia. eexists. split; [done|].
  apply shr_1_half. assert (0 < 2 ^ 53) by (apply Z.pow_pos_nonneg; lia). lia.
Qed.

Lemma round_up m l : m <= round_nearest_even m l <= m + 1.
Proof. destruct l as [|[]]; cbn; try lia. destruct (Z.even m); lia. Qed.

Lemma pow_facts : 0 < 2 ^ 52 /\ 2 ^ 53 = 2 * 2 ^ 52 /\ 2 ^ 54 = 4 * 2 ^ 52.
Proof. repeat split; reflexivity. Qed.

(** The second step of rounding, on a mantissa of 53 bits or the power of two
    just above. *)
Lemma finish_round m e (sx : bool) :
  2 ^ 52 <= m <= 2 ^ 53 -> -1000 <= e <= 900 ->
  exists p e2, (let '(mrs, e'') := shr_fexp 53 1024 m e loc_Exact in
    match shr_m mrs with
    | 0 => S754_zero sx
    | Z.pos m => if e'' <=? 1024 - 53 then S754_finite sx m e'' else S754_infinity sx
    | Z.neg _ => S754_nan
    end) = S754_finite sx p e2 /\
    (e2 = e /\ Zpos p = m /\ m < 2 ^ 53 \/ e2 = e + 1 /\ Zpos p = 2 ^ 52 /\ m = 2 ^ 53).
Proof.
  intros Hm He. destruct pow_facts as (Hp & H53 & H54). destruct (decide (m < 2 ^ 53)) as [Hlt|Hge].
  - rewrite shr_fexp_53 by lia. rewrite shr_m_of_loc. destruct m as [|p|p]; [lia| |lia].
    rewrite (proj2 (Z.leb_le _ _)) by lia. exists p, e. split; [done|]. left. auto.
  - assert (m = 2 ^ 53) as -> by lia.
    destruct (shr_fexp_54 (2 ^ 53) e loc_Exact) as (mrs & -> & Hmrs); [lia|lia|].
    replace (2 ^ 53 / 2) with (2 ^ 52) in Hmrs by reflexivity. rewrite Hmrs.
    destruct (2 ^ 52) as [|p|p] eqn:Ep; [lia| |lia].
    rewrite (proj2 (Z.leb_le _ _)) by lia. exists p, (e + 1). split; [done|]. right. auto.
Qed.

Lemma binary_round_aux_spec q e l :
  2 ^ 52 <= q < 2 ^ 54 -> -900 <= e <= 800 ->
  exists p e2, binary_round_aux 53 1024 false q e l = S754_finite false p e2 /\
    ((q < 2 ^ 53 /\ e2 = e /\ q <= Zpos p <= q + 1) \/
     (2 ^ 53 <= q /\ e2 = e + 1 /\ Zpos p <= q / 2 + 1) \/
     (q < 2 ^ 53 /\ e2 = e + 1 /\ Zpos p = 2 ^ 52 /\ q + 1 = 2 ^ 53) \/
     (2 ^ 53 <= q /\ e2 = e + 2 /\ Zpos p = 2 ^ 52 /\ q / 2 + 1 = 2 ^ 53)).
Proof.
  intros Hq He. destruct pow_facts as (Hp & H53 & H54). unfold binary_round_aux.
  destruct (decide (q < 2 ^ 53)) as [Hlt|Hge].
  - rewrite shr_fexp_53 by lia. rewrite shr_m_of_loc.
    pose proof (round_up q (loc_of_shr_record (shr_record_of_loc q l))) as Hr.
    set (m := round_nearest_even q _) in *.
    destruct (finish_round m e false) as (p & e2 & E & Hc); [lia|lia|].
    exists p, e2. split; [exact E|]. destruct Hc as [(-> & Hpm & _)|(-> & Hpm & Hm)].
    + left. lia. + right; right; left. lia.
  - destruct (shr_fexp_54 q e l) as (mrs & -> & Hmrs); [lia|lia|]. rewrite Hmrs.
    assert (2 ^ 52 <= q / 2 < 2 ^ 53) as Hh.
    { split; [apply Z.div_le_lower_bound; lia|apply Z.div_lt_upper_bound; lia]. }
    pose proof (round_up (q / 2) (loc_of_shr_record mrs)) as Hr. set (m := round_nearest_even _ _) in *.
    destruct (finish_round m (e + 1) false) as (p & e2 & E & Hc); [lia|lia|].
    exists p, e2. split; [exact E|]. destruct Hc as [(-> & Hpm & _)|(-> & Hpm & Hm)].
    + right; left. lia. + right; right; right. lia.
Qed.

(** ** Integers as doubles *)

Lemma double_of_pos r : 0 < r < 2 ^ 53 ->
  exists p k, double_of r = S754_finite false p (- k) /\ 0 <= k <= 52 /\
    Zpos p = r * 2 ^ k /\ 2 ^ 52 <= Zpos p < 2 ^ 53.
Proof.
  intros Hr. destruct r as [|m|m]; [lia| |lia]. unfold double_of, binary_normalize, binary_round.
  pose proof (digits2_log2 m) as Hd. pose proof (Z.log2_nonneg (Z.pos m)).
  assert (Z.log2 (Z.pos m) < 53) as Hlog by (apply Z.log2_lt_pow2; lia).
  set (d := Z.pos (digits2_pos m)) in *. replace (d + 0) with d by lia. rewrite fexp_53 by lia.
  set (k := 53 - d). assert (0 <= k <= 52) as Hk by lia.
  assert (exists p, shl_align m 0 (d - 53) = (p, - k) /\ Zpos p = Zpos m * 2 ^ k) as (p & -> & Hpv).
  { replace (d - 53) with (- k) by lia. clearbody k. unfold shl_align. rewrite Z.sub_0_r.
    destruct k as [|j|j]; [| |lia].
    - exists m. cbn. split; [done|]. change (2 ^ 0) with 1. lia.
    - exists (Pos.iter xO m j). split; [done|apply iter_xO]. }
  assert (2 ^ 52 <= Zpos p < 2 ^ 53) as Hrange.
  { pose proof (Z.log2_spec (Zpos m) ltac:(lia)) as [Hl Hu]. rewrite Hpv.
    replace 52 with (Z.log2 (Z.pos m) + k) by lia. replace 53 with (Z.succ (Z.log2 (Z.pos m)) + k) by lia.
    rewrite !Z.pow_add_r by lia. assert (0 < 2 ^ k) by (apply Z.pow_pos_nonneg; lia). nia. }
  exists p, k. split; [|auto]. unfold binary_round_aux.
  rewrite shr_fexp_53 by lia. rewrite shr_m_of_loc. cbn [loc_of_shr_record shr_record_of_loc round_nearest_even].
  rewrite shr_fexp_53 by lia. rewrite shr_m_of_loc. by rewrite (proj2 (Z.leb_le _ _)) by lia.
Qed.

(** ** Quotients up to nine tenths *)

Definition threshold_mantissa : Z := 8106479329266893.

(** [threshold_mantissa] is 0.9 * 2^53 rounded up. *)
Lemma threshold_ceil x : 10 * x <= 9 * 2 ^ 53 -> x + 1 <= threshold_mantissa.
Proof. change (2 ^ 53) with 9007199254740992. unfold threshold_mantissa. lia. Qed.

Lemma below_mantissa p t e :
  Zpos p <= Zpos t -> dleb (S754_finite false p e) (S754_finite false t e) = true.
Proof.
  intros H. unfold dleb, SFleb. cbn [SFcompare]. rewrite Z.compare_refl.
  pose proof (Pos.compare_spec p t) as Hs. unfold Pos.compare in Hs.
  destruct Hs as [|?|]; [done|done|lia].
Qed.

Lemma below_threshold p e :
  e < -53 \/ e = -53 /\ Zpos p <= threshold_mantissa ->
  dleb (S754_finite false p e) CPU_UTILIZATION_THRESHOLD = true.
Proof.
  intros [H|[-> H]]; [|by apply below_mantissa].
  unfold dleb, SFleb, CPU_UTILIZATION_THRESHOLD. cbn [SFcompare].
  by rewrite (proj2 (Z.compare_lt_iff e (-53)) H).
Qed.

(** The quotient [q] of the mantissas, in units of 2^([k2 - k1 - 53]), after
    rounding: the mantissa [m] and exponent [e] are not above 0.9. *)
Lemma rounded_below m1 m2 k1 k2 q m e :
  2 ^ 52 <= m1 < 2 ^ 53 -> 2 ^ 52 <= m2 < 2 ^ 53 -> 0 <= k1 -> 0 <= k2 ->
  10 * m1 * 2 ^ k2 <= 9 * m2 * 2 ^ k1 -> m2 * q <= m1 * 2 ^ 53 ->
  (q < 2 ^ 53 /\ e = k2 - k1 - 53 /\ q <= m <= q + 1) \/
  (2 ^ 53 <= q /\ e = k2 - k1 - 53 + 1 /\ m <= q / 2 + 1) \/
  (q < 2 ^ 53 /\ e = k2 - k1 - 53 + 1 /\ m = 2 ^ 52 /\ q + 1 = 2 ^ 53) \/
  (2 ^ 53 <= q /\ e = k2 - k1 - 53 + 2 /\ m = 2 ^ 52 /\ q / 2 + 1 = 2 ^ 53) ->
  e < -53 \/ e = -53 /\ m <= threshold_mantissa.
Proof.
  intros Hb1 Hb2 Hk1 Hk2 Hscaled Hq Hc. destruct pow_facts as (Hpw & H53 & H54).
  assert (2 ^ 52 <= threshold_mantissa < 2 ^ 53) as Ht by done.
  destruct (Z.lt_trichotomy k2 k1) as [Hk|[->|Hk]].
  - destruct (decide (k2 = k1 - 1)) as [Hk'|Hk']; [|lia].
    (* one binade lower before normalization *)
    replace k1 with (k2 + 1) in Hscaled by lia. rewrite Z.pow_add_r in Hscaled by lia.
    assert (0 < 2 ^ k2) by (apply Z.pow_pos_nonneg; lia). change (2 ^ 1) with 2 in Hscaled.
    assert (10 * m1 <= 18 * m2) as Hm by nia.
    assert (10 * q <= 18 * 2 ^ 53) by nia. pose proof (Z.mul_div_le q 2 ltac:(lia)).
    assert (10 * (q / 2) <= 9 * 2 ^ 53) as Hh%threshold_ceil by lia. lia.
  - assert (0 < 2 ^ k1) by (apply Z.pow_pos_nonneg; lia).
    assert (10 * m1 <= 9 * m2) as Hm by nia.
    assert (10 * q <= 9 * 2 ^ 53) as Hh%threshold_ceil by nia. lia.
  - exfalso. replace k2 with ((k2 - k1 - 1) + (k1 + 1)) in Hscaled by lia.
    rewrite !Z.pow_add_r in Hscaled by lia. change (2 ^ 1) with 2 in Hscaled.
    assert (1 <= 2 ^ (k2 - k1 - 1)) by (pose proof (Z.pow_pos_nonneg 2 (k2 - k1 - 1)); lia).
    assert (0 < 2 ^ k1) by (apply Z.pow_pos_nonneg; lia).
    set (P := 2 ^ (k2 - k1 - 1)) in *. set (Q := 2 ^ k1) in *.
    assert (Q * (20 * m1 * P) <= Q * (9 * m2)) as Hle by lia. apply Z.mul_le_mono_pos_l in Hle; [|done].
    assert (20 * m1 * 1 <= 20 * m1 * P) by (apply Z.mul_le_mono_nonneg_l; lia). lia.
Qed.

Lemma quotient_below r p :
  0 < r < 2 ^ 53 -> 0 < p < 2 ^ 53 -> 10 * r <= 9 * p ->
  exists m e, ddiv (double_of r) (double_of p) = S754_finite false m e /\
    dleb (S754_finite false m e) CPU_UTILIZATION_THRESHOLD = true.
Proof.
  intros Hr Hp Hle. destruct pow_facts as (Hpw & H53 & H54).
  destruct (double_of_pos r Hr) as (m1 & k1 & -> & Hk1 & Hm1 & Hb1).
  destruct (double_of_pos p Hp) as (m2 & k2 & -> & Hk2 & Hm2 & Hb2).
  unfold ddiv, SFdiv, SFdiv_core_binary. cbn [xorb]. rewrite !digits_53 by lia.
  rewrite fexp_53 by lia.
  replace (Z.min (53 + - k1 - (53 + - k2) - 53) (- k1 - - k2)) with (k2 - k1 - 53) by lia.
  replace (- k1 - - k2 - (k2 - k1 - 53)) with 53 by lia.
  rewrite Z.shiftl_mul_pow2 by lia.
  destruct (Z.div_eucl (Z.pos m1 * 2 ^ 53) (Z.pos m2)) as [q rr] eqn:Eq.
  assert (q = Z.pos m1 * 2 ^ 53 / Z.pos m2) as Hq by (unfold Z.div; by rewrite Eq).
  assert (2 ^ 52 <= q < 2 ^ 54) as Hqb.
  { rewrite Hq. split; [apply Z.div_le_lower_bound; nia|apply Z.div_lt_upper_bound; nia]. }
  destruct (binary_round_aux_spec q (k2 - k1 - 53) (new_location (Z.pos m2) rr)) as (m & e & -> & Hc);
    [done|lia|].
  exists m, e. split; [done|]. apply below_threshold.
  apply (rounded_below (Z.pos m1) (Z.pos m2) k1 k2 q); [exact Hb1|exact Hb2|lia|lia| |rewrite Hq; by apply Z.mul_div_le|exact Hc].
  rewrite Hm1, Hm2. assert (0 < 2 ^ k1 * 2 ^ k2) by (apply Z.mul_pos_pos; apply Z.pow_pos_nonneg; lia). nia.
Qed.

(** ** A light task gets a CPU *)

Lemma quotient_zero p : 0 < p < 2 ^ 53 -> ddiv (double_of 0) (double_of p) = d0.
Proof. intros Hp. by destruct (double_of_pos p Hp) as (m & k & -> & _). Qed.

(** A task that needs at most nine tenths of its period. *)
Definition light (t : Task) : Prop :=
  0 < tk_period_us t < 2 ^ 53 /\ 0 <= tk_runtime_us t /\ 10 * tk_runtime_us t <= 9 * tk_period_us t.

Lemma light_utilization t :
  light t -> dleb (dadd d0 (task_utilization t)) CPU_UTILIZATION_THRESHOLD = true.
Proof.
  intros ((Hp0 & Hp) & Hr & Hle). unfold task_utilization.
  rewrite (proj2 (Z.ltb_lt _ _)) by done. destruct (decide (tk_runtime_us t = 0)) as [->|Hr0].
  - by rewrite quotient_zero.
  - destruct (quotient_below (tk_runtime_us t) (tk_period_us t)) as (m & e & -> & Hb); [lia..|]. done.
Qed.

(** ** Workloads that always fit *)

Lemma pigeonhole (used cpus : list Z) :
  NoDup cpus -> (length used < length cpus)%nat -> exists c, c ∈ cpus /\ c ∉ used.
Proof.
  intros Hnd Hlt. destruct (decide (Exists (fun c => c ∉ used) cpus)) as [(c & ? & ?)%Exists_exists|Hall].
  - by exists c.
  - exfalso. assert (cpus ⊆+ used) as Hsub%submseteq_length; [|lia].
    apply NoDup_submseteq; [done|]. intros c Hc. destruct (decide (c ∈ used)) as [|Hn]; [done|].
    exfalso. apply Hall, Exists_exists. by exists c.
Qed.

Lemma cpu_load_unused n c ts :
  c ∉ (tk_assigned_cpu <$> tasks_of_node n ts) -> cpu_load n c ts = d0.
Proof.
  intros Hc. unfold cpu_load. assert (filter (on_cpu n c) ts = []) as ->; [|done].
  destruct (filter (on_cpu n c) ts) as [|t l] eqn:Ef; [done|]. exfalso.
  assert (t ∈ filter (on_cpu n c) ts) as [[Hn Hcpu] Ht]%list_elem_of_filter by (rewrite Ef; left).
  apply Hc. rewrite <- Hcpu. apply list_elem_of_fmap_2. by apply list_elem_of_filter.
Qed.

Lemma length_placed_on_node avail ts ts' n :
  n <> [] -> Forall2 (placed avail) ts ts' -> Forall fresh_task ts ->
  (length (tasks_of_node n ts') <= length (filter (fun t => tk_target_node t = n) ts))%nat.
Proof.
  intros Hn H Hf. induction H as [|t t' ts ts' Ht _ IH]; [done|].
  apply Forall_cons in Hf as [Hft Hfs]. specialize (IH Hfs).
  pose proof (placed_node _ _ _ Ht Hft) as Ha. unfold tasks_of_node in *.
  rewrite !filter_cons, Ha. destruct (eligible avail t).
  - case_decide; cbn; lia.
  - rewrite decide_False by congruence. case_decide; cbn; lia.
Qed.

Section light_workload.
Context {SS : StdSort} {AL : Allocator}.

(** C20: No light workload is turned away.  If every task needs at most nine
    tenths of its period and no node is the target of more tasks than it has
    CPUs, then scheduling by target nodes gives every task that is sent to a
    node one of the node's CPUs, whatever affinities the tasks ask for; the
    rounding of the divisions never pushes a task over the threshold. *)
Theorem light_workload_placed g h mgr v :
  schedulable g h mgr v -> Forall light (gs_tasks g) ->
  (forall n cpus, map_find n (cpus_of mgr) = Some cpus ->
     NoDup cpus /\ -1 ∉ cpus /\
     (length (filter (fun t => tk_target_node t = n) (gs_tasks g)) <= length cpus)%nat) ->
  exists ok g' h', schedule target_algorithm g h = Ret (ok, g', h') /\
    forall t', t' ∈ gs_tasks g' -> tk_assigned_node t' <> [] ->
    exists cpus, map_find (tk_assigned_node t') (cpus_of mgr) = Some cpus /\ tk_assigned_cpu t' ∈ cpus.
Proof.
  intros Hs Hlight Hroom. pose proof (sc_fresh _ _ _ _ Hs) as Hfresh.
  destruct (target_schedule_effect g h mgr v Hs)
    as (g' & h' & E & Hpl & _ & _ & _ & _ & _ & _ & _ & _ & Hrj).
  eexists _, g', h'. split; [exact E|]. clear E. intros t' [i Hi]%list_elem_of_lookup Hn.
  destruct (Forall2_lookup_r _ _ _ _ _ Hpl Hi) as (t & Hti & Ht).
  pose proof (Forall_lookup_1 _ _ _ _ Hfresh Hti) as Hft.
  apply placed_cases in Ht as [(He & cpu & -> & Hcpu)|[_ ->]]; [|by destruct Hft].
  cbn [tk_assigned_node tk_assigned_cpu upd eta Task_eta] in *. set (n := tk_target_node t) in *.
  destruct (map_find n (cpus_of mgr)) as [cpus|] eqn:Ef;
    [|unfold eligible in He; fold n in He; by rewrite Ef, andb_false_r in He].
  exists cpus. split; [done|]. destruct Hcpu as [->|(_ & cs & [= <-] & ?)]; [|done].
  exfalso. destruct (Hroom n cpus Ef) as (Hnd & Hm1 & Hlen).
  destruct (pigeonhole (tk_assigned_cpu <$> tasks_of_node n (take i (gs_tasks g'))) cpus) as (c & Hc & Hun);
    [done| |].
  - pose proof (length_placed_on_node _ _ _ n Hn Hpl Hfresh) as Hle.
    rewrite length_fmap. rewrite <- (take_drop_middle _ _ _ Hi) in Hle at 1. unfold tasks_of_node in *.
    rewrite filter_app, length_app, filter_cons_True in Hle by done. cbn in Hle. lia.
  - pose proof (Hrj i _ cpus Hi Hn (proj2 Hft) Ef Hm1 c Hc) as Hno.
    change (tk_assigned_node _) with n in Hno. rewrite (cpu_load_unused n c _ Hun) in Hno.
    change (dleb (dadd d0 (task_utilization t)) CPU_UTILIZATION_THRESHOLD = false) in Hno.
    pose proof (light_utilization t (Forall_lookup_1 _ _ _ _ Hlight Hti)) as Hy. congruence.
Qed.

End light_workload.

#[local] Existing Instance ex_alloc.
#[local] Existing Instance ex_sort.

(** Two tasks at exactly nine tenths of their periods (one of which has no exact
    quotient) for the two CPUs of node01, both asking for CPU 3. *)
Definition ex_light : GlobalScheduler :=
  set_tasks [(ex_load "a" "node01" 9 10) <| tk_affinity := str "3" |>;
             (ex_load "b" "node01" 26999999 29999999) <| tk_affinity := str "3" |>]
    (GlobalScheduler_ctor (Some ex_manager)).

Lemma ex_light_schedulable : schedulable ex_light heap_empty ex_manager [].
Proof.
  split; [done|repeat constructor|done|by repeat constructor|apply owns_nil|apply heap_empty_ok|].
  apply ex_mem_ok. cbn. lia.
Qed.

Lemma light_workload_placed_witness :
  exists ok g' h', schedule target_algorithm ex_light heap_empty = Ret (ok, g', h') /\
    forall t', t' ∈ gs_tasks g' -> tk_assigned_node t' <> [] ->
    exists cpus, map_find (tk_assigned_node t') (cpus_of ex_manager) = Some cpus /\ tk_assigned_cpu t' ∈ cpus.
Proof.
  apply (light_workload_placed ex_light heap_empty ex_manager []); [exact ex_light_schedulable| |].
  - repeat constructor; unfold light; cbn; lia.
  - intros n cpus. cbn. repeat case_match; intros [= <-]; subst; (split; [|split]); try set_solver;
      try (vm_compute; lia); repeat constructor; set_solver.
Defined.

Example ex_light_run :
  match schedule target_algorithm ex_light heap_empty with
  | Ret (ok, g, _) => (ok, tk_assigned_cpu <$> gs_tasks g)
  | UB => (false, [])
  end = (true, [3; 2]).
Proof. vm_compute. reflexivity. Qed.
