(* ===== verification/LegacyScheduling.v ===== *)
(** * The legacy placement algorithms

    [schedule_with_least_loaded] and [schedule_with_best_fit_decreasing] of
    timpani-o/src/global_scheduler.cpp give every task a CPU of its own.  The
    CPUs handed out on a node and the CPUs still available are always, together,
    the CPUs the configuration lists. *)

From S2P Require Import CppStd Serialize SchedInfo OrchHyperperiod NodeConfig GlobalScheduler.
From Stdlib Require Import Permutation.

(** The CPUs of [node] still available. *)
Definition avail_at (g : GlobalScheduler) (n : list byte) : list Z :=
  default [] (map_find n (gs_available_cpus g)).

(** The CPUs handed out on [node]. *)
Definition cpus_taken (n : list byte) (ts : list Task) : list Z :=
  tk_assigned_cpu <$> tasks_of_node n ts.

(** One step gives the task no CPU, or one of the available CPUs of one node,
    which is then no longer available. *)
Definition takes_one (t : Task) (g : GlobalScheduler) (t' : Task) (g' : GlobalScheduler) : Prop :=
  g' = g <| gs_available_cpus := gs_available_cpus g' |> /\ map_ok (gs_available_cpus g') /\
  ((t' = t /\ forall n, avail_at g' n = avail_at g n) \/
   exists n c, n <> [] /\ t' = t <| tk_assigned_node := n |> <| tk_assigned_cpu := c |> /\
     c :: avail_at g' n ≡ₚ avail_at g n /\ forall m, m <> n -> avail_at g' m = avail_at g m).

Record sharing (g0 : GlobalScheduler) (pre dn : list Task) (g : GlobalScheduler) : Prop := {
  sh_same : g = g0 <| gs_tasks := gs_tasks g |> <| gs_available_cpus := gs_available_cpus g |>;
  sh_ok : map_ok (gs_available_cpus g);
  sh_pre : Forall fresh_task (drop (length dn) (gs_tasks g));
  sh_perm : forall n, n <> [] -> cpus_taken n dn ++ avail_at g n ≡ₚ avail_at g0 n;
}.

Lemma cpus_taken_snoc n ts t :
  cpus_taken n (ts ++ [t]) =
    cpus_taken n ts ++ if decide (tk_assigned_node t = n) then [tk_assigned_cpu t] else [].
Proof. unfold cpus_taken. rewrite tasks_of_node_snoc, fmap_app. by case_decide. Qed.

(** A loop of such steps keeps the CPUs of every node together. *)
Lemma exclusive_loop body g0 :
  (forall t g, fresh_task t -> map_ok (gs_available_cpus g) ->
     exists t' g', body t g = Ret (t', g') /\ takes_one t g t' g') ->
  Forall fresh_task (gs_tasks g0) -> map_ok (gs_available_cpus g0) ->
  exists g', for_tasks body (all_indices g0) g0 = Ret g' /\ sharing g0 (gs_tasks g0) (gs_tasks g') g' /\
    length (gs_tasks g') = length (gs_tasks g0).
Proof.
  intros Hbody Hfresh Hok.
  destruct (for_tasks_rule body (fun pre dn g => sharing g0 pre dn g /\ length pre = length dn))
    with (g := g0) as (g' & E & HI & Hlen).
  - intros pre dn t todo g Hg Hlen [[Hsame Hmok Hpre Hperm] _].
    rewrite Hg, drop_app_length in Hpre. apply Forall_cons in Hpre as [Ht Htodo].
    destruct (Hbody t g Ht Hmok) as (t' & g' & Eb & Hs' & Hmok' & Hcase).
    exists t', g'. split_and!; [done|by rewrite Hs'| |by rewrite !length_app, Hlen].
    change (dn ++ t' :: todo) with (dn ++ [t'] ++ todo). rewrite app_assoc. split.
    + cbn. by rewrite Hs', Hsame.
    + done.
    + cbn [gs_tasks upd eta GlobalScheduler_eta]. by rewrite drop_app_length.
    + intros n Hn. change (avail_at (g' <| gs_tasks := (dn ++ [t']) ++ todo |>) n) with (avail_at g' n).
      rewrite cpus_taken_snoc, <- (Hperm n Hn). destruct Hcase as [[-> Hav]|(m & c & Hm & -> & Hp & Hav)].
      * destruct Ht as [Ht _]. rewrite Ht, decide_False, app_nil_r, Hav by done. done.
      * cbn. case_decide as Hd.
        -- subst m. rewrite <- app_assoc. cbn. by rewrite Hp.
        -- by rewrite app_nil_r, Hav.
  - split; [|done]. split; [by destruct g0|done|done|done].
  - by exists g'.
Qed.

(** ** The steps *)

Lemma avail_set g n cs m :
  avail_at (g <| gs_available_cpus := map_set n cs (gs_available_cpus g) |>) m =
    if decide (m = n) then cs else avail_at g m.
Proof.
  unfold avail_at. cbn. case_decide as H; [subst; by rewrite map_find_set|by rewrite map_find_set_ne].
Qed.

Lemma take_front_takes t g n c cs :
  n <> [] -> map_ok (gs_available_cpus g) -> map_find n (gs_available_cpus g) = Some (c :: cs) ->
  exists t' g', take_front_cpu (t <| tk_assigned_node := n |>) n g = Ret (t', g') /\ takes_one t g t' g'.
Proof.
  intros Hn Hok Hf. unfold take_front_cpu, map_index. rewrite Hf. eexists _, _. split; [done|].
  split_and!; [done|by apply map_ok_set|]. right. exists n, c. split_and!; [done|done| |].
  - rewrite avail_set, decide_True by done. unfold avail_at. by rewrite Hf.
  - intros m Hm. by rewrite avail_set, decide_False.
Qed.

(** The node the searches return has a CPU left. *)
Definition usable (g : GlobalScheduler) (n : list byte) : Prop :=
  n = [] \/ exists c cs, map_find n (gs_available_cpus g) = Some (c :: cs).

Lemma find_node_usable {B} (step : list byte * B -> list byte * list Z -> list byte * B) g (b : B) :
  (forall acc n cpus, (step acc (n, cpus)).1 = acc.1 \/ cpus <> [] /\ (step acc (n, cpus)).1 = n) ->
  map_ok (gs_available_cpus g) ->
  usable g (fold_left step (gs_available_cpus g) ([], b)).1.
Proof.
  intros Hstep Hok.
  enough (forall l acc, (forall e, e ∈ l -> e ∈ gs_available_cpus g) -> usable g acc.1 ->
    usable g (fold_left step l acc).1) as H by (apply H; [done|by left]).
  induction l as [|[n cpus] l IH]; intros acc Hsub Hacc; [done|]. cbn. apply IH.
  { intros e He. apply Hsub. by right. }
  destruct (Hstep acc n cpus) as [->|[Hne ->]]; [done|]. right.
  destruct cpus as [|c cs]; [done|]. exists c, cs. apply map_find_elem; [done|]. apply Hsub. left.
Qed.

Lemma least_loaded_takes t g :
  fresh_task t -> map_ok (gs_available_cpus g) ->
  exists t' g', least_loaded_step t g = Ret (t', g') /\ takes_one t g t' g'.
Proof.
  intros Ht Hok. unfold least_loaded_step.
  assert (usable g (find_best_node_least_loaded t g)) as Hu.
  { apply find_node_usable; [|done]. intros [b u] n cpus. cbn.
    destruct cpus as [|c cs]; [by left|]. repeat case_match; auto. }
  case_decide as Hn.
  - exists t, g. split; [done|]. split_and!; [by destruct g|done|]. by left.
  - destruct Hu as [?|(c & cs & Hf)]; [done|]. by eapply take_front_takes.
Qed.

Lemma erase_first_perm x l : x ∈ l -> x :: erase_first x l ≡ₚ l.
Proof.
  induction l as [|y l IH]; [by intros ?%not_elem_of_nil|]. intros Hin. cbn. case_decide as Hd; [by subst|].
  apply elem_of_cons in Hin as [?|Hin]; [done|]. rewrite <- (IH Hin) at 2. apply Permutation_swap.
Qed.

Section best_fit.
Context {SS : StdSort}.

(** What [best_fit_step] does once a node with a CPU is chosen. *)
Lemma best_fit_takes_from t g n :
  fresh_task t -> map_ok (gs_available_cpus g) -> usable g n -> n <> [] ->
  exists t' g', (let task := t <| tk_assigned_node := n |> in
    if affinity_given task then
      match stoi (tk_affinity task) with
      | Some required_cpu =>
          let '(cpus, m) := map_index [] n (gs_available_cpus g) in
          if bool_decide (required_cpu ∈ cpus) then
            Ret (task <| tk_assigned_cpu := required_cpu |>,
                 g <| gs_available_cpus := map_set n (erase_first required_cpu cpus) m |>)
          else take_front_cpu task n g
      | None => take_front_cpu task n g
      end
    else take_front_cpu task n g) = Ret (t', g') /\ takes_one t g t' g'.
Proof.
  intros Ht Hok [?|(c & cs & Hf)] Hn; [done|].
  pose proof (take_front_takes t g n c cs Hn Hok Hf) as Hfront. cbv zeta.
  destruct (affinity_given _); [|done]. destruct (stoi _) as [r|]; [|done].
  unfold map_index. rewrite Hf. case_bool_decide as Hr; [|done].
  eexists _, _. split; [done|]. split_and!; [done|by apply map_ok_set|].
  right. exists n, r. split_and!; [done|done| |].
  - rewrite avail_set, decide_True by done. unfold avail_at at 1. rewrite Hf. by apply erase_first_perm.
  - intros m Hm. by rewrite avail_set, decide_False.
Qed.

Lemma takes_one_after t g g1 t' g' :
  g1 = g <| gs_available_cpus := gs_available_cpus g1 |> -> (forall n, avail_at g1 n = avail_at g n) ->
  takes_one t g1 t' g' -> takes_one t g t' g'.
Proof.
  intros H1 Hav (Hs & Hok & Hc). split_and!; [by rewrite Hs, H1|done|].
  destruct Hc as [[-> H]|(n & c & Hn & -> & Hp & H)]; [left|right].
  - split; [done|]. intros n. by rewrite H, Hav.
  - exists n, c. split_and!; [done|done|by rewrite Hp, Hav|]. intros m Hm. by rewrite H, Hav.
Qed.

Lemma best_fit_takes t g :
  fresh_task t -> map_ok (gs_available_cpus g) ->
  exists t' g', best_fit_step t g = Ret (t', g') /\ takes_one t g t' g'.
Proof.
  intros Ht Hok. unfold best_fit_step.
  assert (exists n g1, (if decide (tk_target_node t = []) then (find_best_node_best_fit_decreasing t g, g)
     else if is_task_schedulable_on_node t (tk_target_node t) g then
       let '(cpus, m) := map_index [] (tk_target_node t) (gs_available_cpus g) in
       (match cpus with [] => [] | _ => tk_target_node t end, g <| gs_available_cpus := m |>)
     else ([], g)) = (n, g1) /\ usable g1 n /\ map_ok (gs_available_cpus g1) /\
     g1 = g <| gs_available_cpus := gs_available_cpus g1 |> /\ forall m, avail_at g1 m = avail_at g m)
    as (n & g1 & -> & Hu & Hok1 & Hs1 & Hav1).
  { case_decide as Htn.
    - eexists _, g. split_and!; [done| |done|by destruct g|done].
      apply find_node_usable; [|done]. intros [b u] n cpus. cbn.
      destruct cpus as [|c cs]; [by left|]. repeat case_match; auto.
    - destruct (is_task_schedulable_on_node _ _ _);
        [|eexists [], g; split_and!; [done|by left|done|by destruct g|done]].
      unfold map_index. destruct (map_find _ _) as [cpus|] eqn:Ef.
      + eexists _, _. split_and!; [done| |done|done|done].
        destruct cpus as [|c cs]; [by left|]. right. by exists c, cs.
      + eexists _, _. split_and!; [done|by left|by apply map_ok_set|done|].
        intros m. rewrite avail_set. case_decide as Hm; [subst|done]. unfold avail_at. by rewrite Ef. }
  case_decide as Hn.
  - exists t, g1. split; [done|]. eapply takes_one_after; [done|done|].
    split_and!; [by destruct g1|done|]. by left.
  - destruct (best_fit_takes_from t g1 n) as (t' & g' & E & Ht'); [done..|].
    exists t', g'. split; [exact E|]. by eapply takes_one_after.
Qed.

Lemma runtime_greater_swo : strict_weak_order runtime_greater.
Proof. split; unfold runtime_greater; intros; rewrite ?Z.ltb_ge, ?Z.ltb_lt in *; lia. Qed.

Context {AL : Allocator}.

(** Both algorithms, as [schedule] runs them. *)
Lemma legacy_run g mgr g1 alg run :
  (alg = str "least_loaded" /\ run = schedule_with_least_loaded \/
   alg = str "best_fit_decreasing" /\ run = schedule_with_best_fit_decreasing) ->
  prepared g mgr g1 -> map_ok (ncm_nodes mgr) -> Forall fresh_task (gs_tasks g) ->
  exists g2, run g1 = Ret g2 /\ gs_sched_info_map g2 = [] /\
    length (gs_tasks g2) = length (gs_tasks g) /\
    forall n, n <> [] -> cpus_taken n (gs_tasks g2) ⊆+ default [] (map_find n (cpus_of mgr)).
Proof.
  intros Halg (u & -> & _) Hn Hfresh.
  set (g1 := g <| gs_sched_info_map := [] |> <| gs_available_cpus := cpus_of mgr |>
               <| gs_cpu_utilization := u |>).
  assert (map_ok (cpus_of mgr)) as Hok by (by apply map_ok_fmap).
  assert (forall g3 g2, sharing g3 (gs_tasks g3) (gs_tasks g2) g2 -> gs_available_cpus g3 = cpus_of mgr ->
    forall n, n <> [] -> cpus_taken n (gs_tasks g2) ⊆+ default [] (map_find n (cpus_of mgr))) as Hfin.
  { intros g3 g2 [_ _ _ Hperm] Ha n Hn'. specialize (Hperm n Hn').
    unfold avail_at at 2 in Hperm. rewrite Ha in Hperm. rewrite <- Hperm. apply submseteq_inserts_r. done. }
  destruct Halg as [[_ ->]|[_ ->]].
  - destruct (exclusive_loop least_loaded_step g1) as (g2 & E & Hsh & Hlen);
      [apply least_loaded_takes|done|done|].
    exists g2. split_and!; [done| |done|by apply (Hfin g1)]. by rewrite (sh_same _ _ _ _ Hsh).
  - set (g3 := g1 <| gs_tasks ::= std_sort runtime_greater |>).
    pose proof (std_sort_perm runtime_greater (gs_tasks g) runtime_greater_swo) as Hperm.
    destruct (exclusive_loop best_fit_step g3) as (g2 & E & Hsh & Hlen);
      [apply best_fit_takes|cbn; by rewrite Hperm|done|].
    exists g2. split_and!; [done| | |by apply (Hfin g3)].
    + by rewrite (sh_same _ _ _ _ Hsh).
    + rewrite Hlen. cbn. by rewrite Hperm.
Qed.

(** The legacy algorithms never fail on fresh tasks and never hand out a
    CPU twice: on every node the CPUs given to tasks are a sub-multiset of the
    CPUs the configuration lists for it (none for an unknown node), so with a
    list without repetitions all tasks of a node have distinct CPUs. *)
Theorem legacy_cpus_exclusive alg g h mgr v :
  schedulable g h mgr v -> alg = str "least_loaded" \/ alg = str "best_fit_decreasing" ->
  exists ok g' h', schedule alg g h = Ret (ok, g', h') /\
    length (gs_tasks g') = length (gs_tasks g) /\
    (forall n, n <> [] -> cpus_taken n (gs_tasks g') ⊆+ default [] (map_find n (cpus_of mgr))) /\
    (forall n cpus, n <> [] -> map_find n (cpus_of mgr) = Some cpus -> NoDup cpus ->
       NoDup (cpus_taken n (gs_tasks g'))).
Proof.
  intros Hs Halg. pose proof Hs as [Hc Hn Ht Hf Hown Hok Hmem].
  pose proof (prepare_spec g mgr Hc Hn) as Hp. set (g1 := initialize_cpu_utilization_tracking _) in Hp.
  assert (exists run, (alg = str "least_loaded" /\ run = schedule_with_least_loaded \/
    alg = str "best_fit_decreasing" /\ run = schedule_with_best_fit_decreasing)) as [run Hrun].
  { destruct Halg; eauto. }
  destruct (legacy_run g mgr g1 alg run) as (g2 & E2 & Hm2 & Hlen & Hsub); [done..|].
  destruct (schedule_around g h mgr v g2) as (h1 & m & h' & Ec & Eg & _); [done..|].
  exists (has_schedules (g2 <| gs_sched_info_map := m |>)), (g2 <| gs_sched_info_map := m |>), h'.
  split_and!; [|done|done|].
  - unfold schedule. rewrite Hc. destruct (gs_tasks g) eqn:Et; [done|]. rewrite Ec.
    cbn [mbind outcome_bind]. fold g1.
    destruct Hrun as [[-> ->]|[-> ->]]; rewrite decide_False by done;
      [rewrite decide_True by done|rewrite decide_False, decide_True by done];
      rewrite E2; cbn [mbind outcome_bind]; by rewrite Eg.
  - intros n cpus Hne Hfind Hnd. specialize (Hsub n Hne). rewrite Hfind in Hsub. cbn in Hsub.
    apply submseteq_Permutation in Hsub as [k Hk]. rewrite Hk in Hnd. by apply NoDup_app in Hnd as [? _].
Qed.

End best_fit.

Lemma legacy_cpus_exclusive_witness :
  exists ok g' h', @schedule ex_sort ex_alloc (str "best_fit_decreasing") ex_scheduler heap_empty = Ret (ok, g', h') /\
    NoDup (cpus_taken (str "node01") (gs_tasks g')).
Proof.
  destruct (@legacy_cpus_exclusive ex_sort ex_alloc (str "best_fit_decreasing") ex_scheduler heap_empty
    ex_manager [] ex_schedulable) as (ok & g' & h' & E & _ & _ & H); [by right|].
  exists ok, g', h'. split; [exact E|].
  apply (H (str "node01") [2; 3]); [done|reflexivity|].
  apply (bool_decide_eq_true_1 (NoDup [2; 3])). reflexivity.
Defined.
