(* ===== verification/SchedInfoService.v ===== *)
(** * The schedule service (timpani-o/src/schedinfo_service.cpp)

    Receives workloads over gRPC, computes their hyperperiod and schedule, and
    keeps the current one for the D-Bus side.  The map it keeps is a shallow
    copy of the scheduler's: both hold the same pointers, so the proofs are about
    one heap. *)

From S2P Require Import CppStd Serialize SchedInfo OrchHyperperiod NodeConfig GlobalScheduler.

(** ** Messages (proto/schedinfo.proto) *)

Record TaskInfo := mk_TaskInfo {
  gt_name : list byte;
  gt_priority : Z;
  gt_policy : Z;
  gt_cpu_affinity : Z;
  gt_period : Z;
  gt_release_time : Z;
  gt_runtime : Z;
  gt_deadline : Z;
  gt_node_id : list byte;
  gt_max_dmiss : Z;
}.

Record SchedInfoRequest := mk_SchedInfoRequest {
  rq_workload_id : list byte;
  rq_tasks : list TaskInfo;
}.

Definition SchedPolicyToInt (policy : Z) : Z :=
  if policy =? 0 then 0 else if policy =? 1 then 1 else if policy =? 2 then 2 else -1.

(** [while (affinity > 1) { affinity >>= 1; cpu_id++; }] on a [uint32_t]; 32
    turns are enough ([affinity_loop_log2]). *)
Fixpoint affinity_loop (fuel : nat) (affinity cpu_id : Z) : Z :=
  match fuel with
  | O => cpu_id
  | S fuel => if 1 <? affinity then affinity_loop fuel (Z.shiftr affinity 1) (cpu_id + 1) else cpu_id
  end.

Definition convert_affinity (cpu_affinity : Z) : list byte :=
  if (cpu_affinity =? 4294967295) || (cpu_affinity =? 0) then str "any"
  else fmt_d (affinity_loop 32 (u32 cpu_affinity) 0).

(** One turn of the loop of [ConvertTaskInfoToTasks]. *)
Definition convert_task (workload_id : list byte) (g : TaskInfo) : Task :=
  (Task_ctor (SchedPolicyToInt (gt_policy g)) (gt_release_time g) (gt_max_dmiss g))
    <| tk_name := gt_name g |>
    <| tk_workload_id := workload_id |>
    <| tk_priority := gt_priority g |>
    <| tk_cpu_affinity := i32 (gt_cpu_affinity g) |>
    <| tk_period_us := u64 (gt_period g) |>
    <| tk_runtime_us := u64 (gt_runtime g) |>
    <| tk_deadline_us := u64 (gt_deadline g) |>
    <| tk_target_node := gt_node_id g |>
    <| tk_affinity := convert_affinity (gt_cpu_affinity g) |>
    <| tk_memory_mb := 256 |>
    <| tk_assigned_node := [] |>
    <| tk_assigned_cpu := -1 |>.

Definition ConvertTaskInfoToTasks (request : SchedInfoRequest) : list Task :=
  convert_task (rq_workload_id request) <$> rq_tasks request.

(** ** The service *)

Record service := mk_service {
  sv_sched_info_map : cmap (list byte) NodeSchedInfoMap;
  sv_sched_info_changed : bool;
  sv_global_scheduler : GlobalScheduler;
  sv_hyperperiod_map : hyperperiod_map;
}.

#[export] Instance service_eta : Eta service := fun s =>
  mk_service (sv_sched_info_map s) (sv_sched_info_changed s) (sv_global_scheduler s) (sv_hyperperiod_map s).

Definition SchedInfoServiceImpl (m : option NodeConfigManager) : service :=
  mk_service [] false (GlobalScheduler_ctor m) [].

Definition apex_os : list byte := str "Apex.OS".

Section service_ops.
Context {SS : StdSort} {AL : Allocator}.

(** The block that clears the previous workload. *)
Definition clear_previous (s : service) (h : heap) : outcome (service * heap) :=
  match sv_sched_info_map s with
  | [] => Ret (s, h)
  | (prev_workload, node_sched_map) :: _ =>
      h ← (if decide (prev_workload = apex_os) then free_schedules node_sched_map h else Ret h);
      '(g, h) ← clear (sv_global_scheduler s) h;
      Ret (mk_service [] true g (ClearWorkload prev_workload (sv_hyperperiod_map s)), h)
  end.

(** [memset], [strncpy] and the assignments of the Apex.OS branch. *)
Definition apex_sched_task (g : TaskInfo) : sched_task_t := {|
  st_task_name := set_char (strncpy (zeros 16) (gt_name g) 15) 15 x00;
  st_period_ns := u64 (u64 (gt_period g) * 1000);
  st_runtime_ns := 0;
  st_deadline_ns := 0;
  st_release_time := 0;
  st_cpu_affinity := gt_cpu_affinity g;
  st_sched_policy := 0;
  st_sched_priority := 0;
  st_max_dmiss := gt_max_dmiss g;
  st_assigned_node := set_char (strncpy (zeros 64) (gt_node_id g) 63) 63 x00;
|}.

Definition group_by_node (tasks : list TaskInfo) : cmap (list byte) (list sched_task_t) :=
  fold_left (fun m g =>
    let '(l, m) := map_index [] (gt_node_id g) m in
    map_set (gt_node_id g) (l ++ [apex_sched_task g]) m) tasks [].

(** The status of the reply, the service and the heap. *)
Definition AddSchedInfo (request : SchedInfoRequest) (s : service) (h : heap)
  : outcome (Z * service * heap) :=
  let workload_id := rq_workload_id request in
  '(s, h) ← clear_previous s h;
  if decide (workload_id = apex_os) then
    '(node_sched_map, h) ← allocate_nodes (group_by_node (rq_tasks request)) [] h;
    Ret (0, s <| sv_sched_info_map ::= map_set workload_id node_sched_map |>, h)
  else
    let tasks := ConvertTaskInfoToTasks request in
    let '(hyperperiod, hp) := CalculateHyperperiod workload_id tasks (sv_hyperperiod_map s) in
    let s := s <| sv_hyperperiod_map := hp |> in
    if hyperperiod =? 0 then Ret (-1, s, h)
    else
      '(g, h) ← clear (sv_global_scheduler s) h;
      '(scheduling_success, g, h) ← schedule (str "target_node_priority") (set_tasks tasks g) h;
      let s := s <| sv_global_scheduler := g |> in
      if (scheduling_success : bool)
      then Ret (0, s <| sv_sched_info_map ::= map_set workload_id (gs_sched_info_map g) |>, h)
      else Ret (-1, s, h).

(** The map, [*changed] and the service after the call; [changed] says whether
    the caller passes a pointer. *)
Definition GetSchedInfoMap (changed : bool) (s : service)
  : cmap (list byte) NodeSchedInfoMap * option bool * service :=
  if changed then (sv_sched_info_map s, Some (sv_sched_info_changed s), s <| sv_sched_info_changed := false |>)
  else (sv_sched_info_map s, None, s).

Definition service_GetHyperperiodInfo (workload_id : list byte) (s : service) : option HyperperiodInfo :=
  GetHyperperiodInfo workload_id (sv_hyperperiod_map s).

End service_ops.

(** ** Affinity of a task *)

Lemma affinity_loop_log2 fuel a c :
  0 <= a < 2 ^ Z.of_nat (S fuel) -> affinity_loop fuel a c = c + Z.log2 a.
Proof.
  revert a c. induction fuel as [|fuel IH]; intros a c Ha; cbn [affinity_loop].
  { change (2 ^ Z.of_nat 1) with 2 in Ha. assert (a = 0 \/ a = 1) as [-> | ->] by lia; cbn; lia. }
  destruct (Z.ltb_spec 1 a) as [H1|H1].
  - rewrite IH.
    + rewrite Z.log2_shiftr, Z.max_r by (pose proof (Z.log2_pos a); lia). lia.
    + rewrite Z.shiftr_div_pow2 by lia. change (2 ^ 1) with 2.
      rewrite Nat2Z.inj_succ, Z.pow_succ_r in Ha by lia.
      split; [apply Z.div_pos; lia|]. apply Z.div_lt_upper_bound; lia.
  - assert (a = 0 \/ a = 1) as [-> | ->] by lia; cbn; lia.
Qed.

(** The affinity handed to the scheduler: a mask that is empty or has
    exactly its low 32 bits set means any CPU; any other mask names the highest CPU set in
    its low 32 bits (CPU 0 if none is), as a number std::stoi reads back. *)
Theorem convert_affinity_spec a :
  convert_affinity a = (if bool_decide (a = 0 \/ a = 2 ^ 32 - 1) then str "any"
                        else fmt_d (Z.log2 (u32 a))) /\
  0 <= Z.log2 (u32 a) < 32 /\ stoi (fmt_d (Z.log2 (u32 a))) = Some (Z.log2 (u32 a)).
Proof.
  pose proof (wrapu_range 32 a ltac:(lia)) as Hr. unfold in_u in Hr.
  assert (0 <= Z.log2 (u32 a) < 32) as Hl.
  { split; [apply Z.log2_nonneg|]. destruct (decide (u32 a = 0)) as [->|]; [cbn; lia|].
    apply Z.log2_lt_pow2; lia. }
  split_and!; try lia.
  - unfold convert_affinity. change (2 ^ 32 - 1) with 4294967295.
    destruct (Z.eqb_spec a 4294967295), (Z.eqb_spec a 0); cbn [orb];
      try (rewrite bool_decide_true by lia; done). rewrite bool_decide_false by lia.
    rewrite affinity_loop_log2; [done|].
    change (Z.of_nat 33) with 33. assert (2 ^ 32 <= 2 ^ 33) by (apply Z.pow_le_mono_r; lia). lia.
  - apply stoi_fmt_d. range.
Qed.

(** ** The schedule of an Apex.OS workload *)

Definition apex_tasks_of (n : list byte) (ts : list TaskInfo) : list sched_task_t :=
  apex_sched_task <$> filter (fun g => gt_node_id g = n) ts.

Lemma apex_tasks_of_snoc n ts t :
  apex_tasks_of n (ts ++ [t]) =
    apex_tasks_of n ts ++ if decide (gt_node_id t = n) then [apex_sched_task t] else [].
Proof.
  unfold apex_tasks_of. rewrite filter_app, filter_cons, filter_nil, fmap_app. by case_decide.
Qed.

(** The tasks grouped by their node, each group in the order of the request. *)
Lemma group_by_node_spec ts :
  map_ok (group_by_node ts) /\
  forall n, map_find n (group_by_node ts) =
    if decide (apex_tasks_of n ts = []) then None else Some (apex_tasks_of n ts).
Proof.
  induction ts as [|t ts [Hok Hf]] using rev_ind; [split; [apply map_ok_nil|done]|].
  unfold group_by_node. rewrite fold_left_app. cbn. fold (group_by_node ts).
  set (a := gt_node_id t).
  assert (exists m, map_index [] a (group_by_node ts) = (apex_tasks_of a ts, m) /\ map_ok m /\
    forall n, n <> a -> map_find n m = map_find n (group_by_node ts)) as (m & -> & Hm & Hmf).
  { unfold map_index. rewrite Hf. case_decide as Hd.
    - rewrite Hd. eexists. split_and!; [done|by apply map_ok_set|]. intros n Hn. by apply map_find_set_ne.
    - by eexists. }
  split; [by apply map_ok_set|]. intros n. rewrite apex_tasks_of_snoc. fold a.
  destruct (decide (a = n)) as [<-|Hn].
  - rewrite map_find_set, decide_False; [done|]. intros E%app_nil. by destruct E.
  - rewrite map_find_set_ne, Hmf, Hf, app_nil_r by done. done.
Qed.

(** What the array of an Apex.OS workload is to hold of a task: its name and
    node, period, affinity mask and tolerance; priority, policy, runtime,
    deadline and release time are zero, whatever the request says. *)
Definition apex_entry (g : TaskInfo) : sched_task_t := {|
  st_task_name := in_array 16 (substr0 (gt_name g) 15);
  st_period_ns := u64 (u64 (gt_period g) * 1000);
  st_runtime_ns := 0;
  st_deadline_ns := 0;
  st_release_time := 0;
  st_cpu_affinity := gt_cpu_affinity g;
  st_sched_policy := 0;
  st_sched_priority := 0;
  st_max_dmiss := gt_max_dmiss g;
  st_assigned_node := in_array 64 (substr0 (gt_node_id g) 63);
|}.

(** The nodes the tasks name, each once and in order, whether they are
    configured or not, with their tasks in the order of the request. *)
Definition apex_schedule (ts : list TaskInfo) : schedule_view :=
  (fun n => (n, apex_entry <$> filter (fun g => gt_node_id g = n) ts)) <$> set_of (gt_node_id <$> ts).

Lemma array_filled n s : set_char (strncpy (zeros (S n)) s n) n x00 = in_array (S n) (substr0 s n).
Proof.
  unfold set_char, strncpy, in_array, substr0. set (x := take n (cstr s)).
  assert (length x <= n)%nat as Hx by (unfold x; rewrite length_take; lia). clearbody x.
  assert (drop n (zeros (S n)) = [x00]) as ->.
  { unfold zeros. rewrite drop_replicate. by replace (S n - n)%nat with 1%nat by lia. }
  rewrite app_assoc, insert_app_r_alt by (rewrite length_app, length_zeros; lia).
  rewrite length_app, length_zeros. replace (n - (length x + (n - length x)))%nat with 0%nat by lia.
  cbn. rewrite <- app_assoc. f_equal. unfold zeros.
  replace (S n - length x)%nat with (n - length x + 1)%nat by lia. by rewrite replicate_add.
Qed.

Lemma apex_entry_made g : apex_sched_task g = apex_entry g.
Proof. unfold apex_sched_task, apex_entry. by rewrite (array_filled 15), (array_filled 63). Qed.

Lemma apex_schedule_grouped ts : group_by_node ts = apex_schedule ts.
Proof.
  destruct (group_by_node_spec ts) as [Hok Hf].
  assert (map_ok (apex_schedule ts)) as Hok'.
  { unfold map_ok, apex_schedule. rewrite <- list_fmap_compose. cbn. rewrite list_fmap_id. apply sorted_set_of. }
  assert (forall n, apex_tasks_of n ts = apex_entry <$> filter (fun g => gt_node_id g = n) ts) as Ht.
  { intros n. apply list_fmap_ext. intros i g _. apply apex_entry_made. }
  apply map_ext; [done|done|]. intros n. rewrite Hf, Ht. case_decide as Hd.
  - destruct (map_find n _) as [l|] eqn:E; [|done]. apply map_find_elem in E; [|done].
    apply list_elem_of_fmap in E as (n' & [= -> _] & Hin).
    apply elem_of_set_of, list_elem_of_fmap in Hin as (g & -> & Hg). apply fmap_nil_inv in Hd.
    assert (g ∈ filter (fun g' => gt_node_id g' = gt_node_id g) ts) as Hin by (by apply list_elem_of_filter).
    rewrite Hd in Hin. by apply not_elem_of_nil in Hin.
  - symmetry. apply map_find_elem; [done|]. apply list_elem_of_fmap. exists n. split; [done|].
    apply elem_of_set_of, list_elem_of_fmap. destruct (filter _ ts) as [|g l] eqn:E; [done|].
    assert (g ∈ filter (fun g => gt_node_id g = n) ts) as [<- ?]%list_elem_of_filter by (rewrite E; left). eauto.
Qed.

Lemma group_by_node_lengths ts :
  Forall (fun e : list byte * list sched_task_t => (length e.2 <= length ts)%nat) (group_by_node ts).
Proof.
  destruct (group_by_node_spec ts) as [Hok Hf]. apply Forall_forall. intros [n l] Hin.
  apply map_find_elem in Hin; [|done]. rewrite Hf in Hin. case_decide; [done|]. injection Hin as <-.
  cbn. unfold apex_tasks_of. rewrite length_fmap. apply length_filter.
Qed.

(** ** Consistency of the service *)

(** The workload being served and its schedule, or none. *)
Definition current := option (list byte * schedule_view).

Definition live_ptrs (s : service) : list Z := concat ((fun e => ptrs e.2) <$> sv_sched_info_map s).

Record service_ok (s : service) (h : heap) (cur : current) : Prop := {
  so_heap : heap_ok h;
  so_nodes : forall m, gs_node_config_manager (sv_global_scheduler s) = Some m -> map_ok (ncm_nodes m);
  (* at most one workload, whose pointers are live and its own; the scheduler
     holds the same pointers, or none for Apex.OS *)
  so_map :
    match cur with
    | None => sv_sched_info_map s = [] /\ gs_sched_info_map (sv_global_scheduler s) = []
    | Some (w, v) => exists m, sv_sched_info_map s = [(w, m)] /\ map_ok m /\ owns m h v /\
        gs_sched_info_map (sv_global_scheduler s) = if decide (w = apex_os) then [] else m
    end;
  (* nothing else is allocated *)
  so_live : forall p, p ∉ live_ptrs s -> h_blocks h !! p = None;
  so_hyper : map_ok (sv_hyperperiod_map s) /\ map_find apex_os (sv_hyperperiod_map s) = None;
}.

Section service_proofs.
Context {SS : StdSort} {AL : Allocator}.

Lemma service_init_ok m :
  (forall c, m = Some c -> map_ok (ncm_nodes c)) ->
  service_ok (SchedInfoServiceImpl m) heap_empty None.
Proof.
  intros Hm. assert (exists a u, GlobalScheduler_ctor m = mk_GlobalScheduler m a u [] []) as (a & u & E).
  { unfold GlobalScheduler_ctor. destruct (config_loaded _) as [c|] eqn:Ec; [|by eexists _, _].
    assert (m = Some c) as -> by (unfold config_loaded in Ec; cbn in Ec; repeat case_match; naive_solver).
    rewrite (initialize_available_spec _ c) by (done || by apply Hm).
    edestruct initialize_tracking_frame as [u ->]. cbn. by eexists _, _. }
  split; cbn [SchedInfoServiceImpl sv_global_scheduler sv_sched_info_map]; rewrite ?E; cbn.
  - apply heap_empty_ok.
  - exact Hm.
  - done.
  - intros p _. apply lookup_empty.
  - split; [apply map_ok_nil|done].
Qed.

Lemma clear_spec g h v :
  owns (gs_sched_info_map g) h v -> heap_ok h ->
  exists h', clear g h = Ret (mk_GlobalScheduler (gs_node_config_manager g) [] [] [] [], h') /\ heap_ok h' /\
    h_next h' = h_next h /\
    (forall p, p ∈ ptrs (gs_sched_info_map g) -> h_blocks h' !! p = None) /\
    (forall p, p ∉ ptrs (gs_sched_info_map g) -> h_blocks h' !! p = h_blocks h !! p).
Proof.
  intros Hown Hok. destruct (free_schedules_spec _ _ _ Hown Hok) as (h' & E & Hok' & Hnx & H1 & H2).
  exists h'. split_and!; try done. unfold clear, cleanup_schedules. rewrite E. done.
Qed.

(** Replacing a workload releases exactly its arrays. *)
Lemma clear_previous_spec s h cur :
  service_ok s h cur ->
  exists s' h', clear_previous s h = Ret (s', h') /\ service_ok s' h' None /\
    gs_node_config_manager (sv_global_scheduler s') = gs_node_config_manager (sv_global_scheduler s) /\
    (forall p, h_blocks h' !! p = None) /\ h_next h' = h_next h /\
    sv_sched_info_changed s' = (sv_sched_info_changed s || bool_decide (cur <> None)).
Proof.
  intros [Hh Hn Hm Hl [Hp1 Hp2]]. unfold clear_previous. destruct cur as [[w v]|].
  - destruct Hm as (m & Em & Hmok & Hown & Hg). rewrite Em.
    assert (live_ptrs s = ptrs m) as Elp by (unfold live_ptrs; rewrite Em; cbn; apply app_nil_r).
    rewrite Elp in Hl.
    assert (exists h1, (if decide (w = apex_os) then free_schedules m h else Ret h) = Ret h1 /\ heap_ok h1 /\
      h_next h1 = h_next h /\ exists v1, owns (gs_sched_info_map (sv_global_scheduler s)) h1 v1 /\
      forall p, p ∉ ptrs (gs_sched_info_map (sv_global_scheduler s)) -> h_blocks h1 !! p = None)
      as (h1 & -> & Hh1 & Hnx1 & v1 & Hown1 & Hd1).
    { case_decide as Hw.
      - destruct (free_schedules_spec _ _ _ Hown Hh) as (h1 & E1 & Hh1 & Hnx & Hf & Hk).
        exists h1. split_and!; [done|done|done|]. rewrite Hg. exists []. split; [apply owns_nil|].
        intros p _. destruct (decide (p ∈ ptrs m)); [by apply Hf|]. rewrite Hk by done. by apply Hl.
      - exists h. split_and!; [done|done|done|]. rewrite Hg. by exists v. }
    cbn [mbind outcome_bind].
    destruct (clear_spec _ _ _ Hown1 Hh1) as (h2 & -> & Hh2 & Hnx2 & Hf2 & Hk2). cbn [mbind outcome_bind].
    assert (forall p, h_blocks h2 !! p = None) as Hnone.
    { intros p. destruct (decide (p ∈ ptrs (gs_sched_info_map (sv_global_scheduler s)))); [by apply Hf2|].
      rewrite Hk2 by done. by apply Hd1. }
    eexists _, h2. split; [done|]. split_and!; [|done|done|congruence|by rewrite bool_decide_true, orb_true_r].
    split; [done|exact Hn|done|by intros p _|]. cbn [sv_hyperperiod_map]. unfold ClearWorkload.
    destruct (map_find w (sv_hyperperiod_map s)) as [i|] eqn:Ef; [|done].
    split; [by apply map_ok_erase|]. rewrite map_find_erase_ne; [done|done|]. intros <-. congruence.
  - destruct Hm as [Em Eg]. rewrite Em.
    assert (forall p, h_blocks h !! p = None) as Hnone.
    { intros p. apply Hl. unfold live_ptrs. rewrite Em. apply not_elem_of_nil. }
    eexists s, h. split; [done|]. split_and!; [done|done|done|done|].
    by rewrite bool_decide_false, orb_false_r by (intros H; by apply H).
Qed.

(** ** Adding a workload *)

Lemma CalculateHyperperiod_uniform w ts :
  exists o, forall m, CalculateHyperperiod w ts m =
    match o with None => (0, m) | Some info => (hi_hyperperiod_us info, map_set w info m) end.
Proof.
  unfold CalculateHyperperiod. destruct ts as [|t ts]; [by exists None|].
  destruct (filter _ (t :: ts)) as [|t1 ts1]; [by exists None|].
  set (ps := fold_left _ _ _). clearbody ps. destruct ps as [|p ps]; [by exists None|].
  by exists (Some (mk_HyperperiodInfo w (CalculateLcm (p :: ps)) (p :: ps) (Z.of_nat (length (t1 :: ts1))))).
Qed.

Definition hyperperiod_of (req : SchedInfoRequest) : Z :=
  (CalculateHyperperiod (rq_workload_id req) (ConvertTaskInfoToTasks req) []).1.

(** What AddSchedInfo promises: the status of the reply and the workload served
    afterwards, for a configuration [cfg] ([None] if none is loaded). *)
Inductive add_result (cfg : option NodeConfigManager) (req : SchedInfoRequest) : Z -> current -> Prop :=
  | add_apex :
      rq_workload_id req = apex_os ->
      add_result cfg req 0 (Some (apex_os, apex_schedule (rq_tasks req)))
  | add_no_hyperperiod :
      rq_workload_id req <> apex_os -> hyperperiod_of req = 0 -> add_result cfg req (-1) None
  | add_no_config :
      rq_workload_id req <> apex_os -> hyperperiod_of req <> 0 -> cfg = None ->
      add_result cfg req (-1) None
  | add_nothing_eligible mgr :
      rq_workload_id req <> apex_os -> hyperperiod_of req <> 0 -> cfg = Some mgr ->
      Forall (fun t => eligible (cpus_of mgr) t = false) (ConvertTaskInfoToTasks req) ->
      add_result cfg req (-1) None
  | add_scheduled mgr ts :
      rq_workload_id req <> apex_os -> hyperperiod_of req <> 0 -> cfg = Some mgr ->
      Forall2 (placed (cpus_of mgr)) (ConvertTaskInfoToTasks req) ts ->
      (forall n c, c <> -1 -> dleb (cpu_load n c ts) CPU_UTILIZATION_THRESHOLD = true) ->
      schedule_of ts <> [] ->
      add_result cfg req 0 (Some (rq_workload_id req, schedule_of ts)).

Lemma convert_fresh req : Forall fresh_task (ConvertTaskInfoToTasks req).
Proof. apply Forall_fmap, Forall_forall. by intros g _. Qed.

Lemma add_apex_effect req s h :
  rq_workload_id req = apex_os -> service_ok s h None -> (forall p, h_blocks h !! p = None) ->
  mem_ok (length (rq_tasks req)) ->
  exists s' h', ('(m, h1) ← allocate_nodes (group_by_node (rq_tasks req)) [] h;
      Ret (0, s <| sv_sched_info_map ::= map_set (rq_workload_id req) m |>, h1)) = Ret (0, s', h') /\
    service_ok s' h' (Some (apex_os, group_by_node (rq_tasks req))) /\
    sv_sched_info_changed s' = sv_sched_info_changed s /\
    gs_node_config_manager (sv_global_scheduler s') = gs_node_config_manager (sv_global_scheduler s) /\
    sv_hyperperiod_map s' = sv_hyperperiod_map s /\
    (forall p, p < h_next h -> h_blocks h' !! p = None).
Proof.
  intros Hw [Hh Hn [Em Eg] Hl Hhp] Hnone Hmem.
  destruct (group_by_node_spec (rq_tasks req)) as [Hgok _].
  destruct (allocate_nodes_spec (length (rq_tasks req)) (group_by_node (rq_tasks req)) [] h [])
    as (m & h' & -> & Hh' & Hkeep & Hother & Hkeys & _ & Hown); try done.
  { apply owns_nil. } { apply group_by_node_lengths. }
  cbn [mbind outcome_bind]. eexists _, h'. split; [done|]. cbn. rewrite Hw, Em. cbn.
  split_and!; [|done..|intros p Hp; by rewrite Hkeep]. split; [done|exact Hn| | |exact Hhp]; cbn.
  - exists m. split_and!; [done| |done|done]. unfold map_ok. by rewrite Hkeys.
  - intros p. unfold live_ptrs. cbn. rewrite app_nil_r. intros Hp. by rewrite Hother.
Qed.

(** An empty schedule means that no task was eligible. *)
Lemma empty_schedule_ineligible avail ts ts' :
  Forall2 (placed avail) ts ts' -> Forall fresh_task ts -> schedule_of ts' = [] ->
  Forall (fun t => eligible avail t = false) ts.
Proof.
  intros Hpl Hfresh Hs. apply Forall_forall. intros t Ht.
  destruct (eligible avail t) eqn:He; [|done]. exfalso.
  apply list_elem_of_lookup_1 in Ht as [i Hi].
  destruct (Forall2_lookup_l _ _ _ _ _ Hpl Hi) as (t' & Hi' & Hp).
  apply (placed_node _ _ _) in Hp; [|by eapply Forall_lookup_1, Hi].
  rewrite He in Hp. pose proof (eligible_target _ _ He) as Hne.
  assert ((tk_target_node t, make_sched_task <$> tasks_of_node (tk_target_node t) ts') ∈ schedule_of ts') as Hin.
  { apply elem_of_schedule_of. split_and!; [done| |done]. intros E%fmap_nil_inv.
    assert (t' ∈ tasks_of_node (tk_target_node t) ts') as Hin'.
    { apply list_elem_of_filter. split; [done|]. by eapply list_elem_of_lookup_2. }
    rewrite E in Hin'. by apply not_elem_of_nil in Hin'. }
  rewrite Hs in Hin. by apply not_elem_of_nil in Hin.
Qed.

Lemma add_workload_effect req s h :
  rq_workload_id req <> apex_os -> service_ok s h None -> (forall p, h_blocks h !! p = None) ->
  mem_ok (length (rq_tasks req)) -> hyperperiod_of req <> 0 ->
  let tasks := ConvertTaskInfoToTasks req in
  exists st s' h' cur',
    ('(g, h1) ← clear (sv_global_scheduler s) h;
     '(ok, g, h1) ← schedule (str "target_node_priority") (set_tasks tasks g) h1;
     let s := s <| sv_global_scheduler := g |> in
     if (ok : bool)
     then Ret (0, s <| sv_sched_info_map ::= map_set (rq_workload_id req) (gs_sched_info_map g) |>, h1)
     else Ret (-1, s, h1)) = Ret (st, s', h') /\
    service_ok s' h' cur' /\ add_result (config_loaded (sv_global_scheduler s)) req st cur' /\
    sv_sched_info_changed s' = sv_sched_info_changed s /\
    gs_node_config_manager (sv_global_scheduler s') = gs_node_config_manager (sv_global_scheduler s) /\
    sv_hyperperiod_map s' = sv_hyperperiod_map s /\
    (forall p, p < h_next h -> h_blocks h' !! p = None).
Proof.
  intros Hw [Hh Hn [Em Eg] Hl Hhp] Hnone Hmem Hhyp tasks.
  destruct (clear_spec (sv_global_scheduler s) h []) as (h1 & -> & Hh1 & Hnx1 & _ & Hk1);
    [rewrite Eg; apply owns_nil|done|].
  assert (forall p, h_blocks h1 !! p = None) as Hnone1.
  { intros p. rewrite Hk1 by (rewrite Eg; apply not_elem_of_nil). apply Hnone. }
  cbn [mbind outcome_bind]. set (g1 := set_tasks tasks _).
  assert (tasks <> []) as Hts.
  { intros E. apply Hhyp. unfold hyperperiod_of. fold tasks. by rewrite E. }
  assert (config_loaded g1 = config_loaded (sv_global_scheduler s)) as Hcfg by done.
  destruct (config_loaded (sv_global_scheduler s)) as [mgr|] eqn:Ec.
  - assert (gs_node_config_manager (sv_global_scheduler s) = Some mgr) as Emgr.
    { unfold config_loaded in Ec. repeat case_match; naive_solver. }
    destruct (target_schedule_effect g1 h1 mgr []) as (g' & h' & E & Hpl & _ & Hbd & Hown & Hmok & Hh' & Hcm & Hkeep & Hother & _).
    { split; [done|by apply Hn|done|apply convert_fresh|apply owns_nil|done|].
      cbn. unfold tasks, ConvertTaskInfoToTasks. by rewrite length_fmap. }
    unfold target_algorithm in E. rewrite E. cbn [mbind outcome_bind]. clear E.
    assert (forall p, p < h_next h -> h_blocks h' !! p = None) as Hold.
    { intros p Hp. rewrite Hkeep by lia. case_decide; [done|apply Hnone1]. }
    case_bool_decide as Hs; cbn [negb].
    + eexists _, _, h', None. split; [done|]. split_and!; [|eapply add_nothing_eligible; try done|done|done|done|done].
      * rewrite Hs in Hown. destruct Hown as [Hown%Forall2_nil_inv_r _]. split; [done| | | |exact Hhp]; cbn.
        -- rewrite Hcm. exact Hn.
        -- done.
        -- intros p _. rewrite Hother; [by apply Hnone1|]. rewrite Hown. apply not_elem_of_nil.
      * eapply empty_schedule_ineligible; [exact Hpl|apply convert_fresh|done].
    + eexists _, _, h', (Some (rq_workload_id req, schedule_of (gs_tasks g'))). split; [done|].
      split_and!; [|by eapply add_scheduled|done|done|done|done].
      split; [done| | | |exact Hhp]; cbn; rewrite ?Em; cbn.
      * rewrite Hcm. exact Hn.
      * exists (gs_sched_info_map g'). split_and!; [done..|]. by rewrite decide_False.
      * intros p. unfold live_ptrs. cbn. rewrite ?Em. cbn. rewrite app_nil_r. intros Hp.
        rewrite Hother by done. by apply Hnone1.
  - exists (-1), (s <| sv_global_scheduler := g1 |>), h1, None.
    unfold schedule. rewrite Hcfg. destruct (gs_tasks g1) eqn:Et; [done|].
    cbn [mbind outcome_bind]. split; [done|]. split_and!; [|by apply add_no_config|done|done|done|done].
    split; [done|exact Hn|done|by intros p _|done].
Qed.

Lemma AddSchedInfo_effect req s h cur :
  service_ok s h cur -> mem_ok (length (rq_tasks req)) ->
  exists st s' h' cur', AddSchedInfo req s h = Ret (st, s', h') /\ service_ok s' h' cur' /\
    add_result (config_loaded (sv_global_scheduler s)) req st cur' /\
    sv_sched_info_changed s' = (sv_sched_info_changed s || bool_decide (cur <> None)) /\
    gs_node_config_manager (sv_global_scheduler s') = gs_node_config_manager (sv_global_scheduler s) /\
    (st = 0 -> rq_workload_id req <> apex_os ->
       hi_hyperperiod_us <$> service_GetHyperperiodInfo (rq_workload_id req) s' = Some (hyperperiod_of req)) /\
    (forall p, p < h_next h -> h_blocks h' !! p = None).
Proof.
  intros Hok Hmem. unfold AddSchedInfo.
  destruct (clear_previous_spec s h cur Hok) as (s1 & h1 & -> & Hok1 & Hcm & Hnone & Hnx & Hch).
  cbn [mbind outcome_bind]. assert (config_loaded (sv_global_scheduler s) = config_loaded (sv_global_scheduler s1)) as ->
    by (unfold config_loaded; by rewrite Hcm).
  rewrite <- Hcm, <- Hch, <- Hnx. clear Hcm Hch Hnx Hok s h.
  destruct (decide (rq_workload_id req = apex_os)) as [Hw|Hw].
  - destruct (add_apex_effect req s1 h1) as (s' & h' & E & Hok' & ? & ? & _ & ?); [done..|].
    rewrite E. exists 0, s', h', (Some (apex_os, apex_schedule (rq_tasks req))). rewrite apex_schedule_grouped in Hok'.
    split_and!; try done. by apply add_apex.
  - pose proof (so_hyper _ _ _ Hok1) as [Hpok Hpa].
    destruct (CalculateHyperperiod_uniform (rq_workload_id req) (ConvertTaskInfoToTasks req)) as [o Ho].
    assert (hyperperiod_of req = match o with None => 0 | Some i => hi_hyperperiod_us i end) as Hhyp.
    { unfold hyperperiod_of. rewrite Ho. by destruct o. }
    set (hp' := match o with None => sv_hyperperiod_map s1 | Some i => map_set (rq_workload_id req) i (sv_hyperperiod_map s1) end).
    assert (CalculateHyperperiod (rq_workload_id req) (ConvertTaskInfoToTasks req) (sv_hyperperiod_map s1)
            = (hyperperiod_of req, hp')) as ->.
    { rewrite Ho, Hhyp. by destruct o. }
    assert (service_ok (s1 <| sv_hyperperiod_map := hp' |>) h1 None) as Hok2.
    { destruct Hok1 as [? ? ? ? ?]. split; try done. unfold hp'. cbn. destruct o; [|done].
      split; [by apply map_ok_set|]. by rewrite map_find_set_ne. }
    destruct (Z.eqb_spec (hyperperiod_of req) 0) as [Hz|Hz].
    + eexists _, _, h1, None. split; [done|]. split_and!; try done. by apply add_no_hyperperiod.
    + destruct (add_workload_effect req (s1 <| sv_hyperperiod_map := hp' |>) h1 Hw Hok2 Hnone Hmem Hz)
        as (st & s' & h' & cur' & E & Hok' & Hres & ? & ? & Hhp & ?).
      exists st, s', h', cur'. split; [exact E|]. split_and!; try done.
      intros _ _. unfold service_GetHyperperiodInfo, GetHyperperiodInfo. rewrite Hhp. unfold hp'. cbn.
      destruct o; [|congruence]. rewrite map_find_set. cbn. by rewrite Hhyp.
Qed.

(** C14: AddSchedInfo implements its contract, provided malloc succeeds for the
    arrays of the request (the code does not check it): it has no undefined
    behaviour, and the reply and the workload served afterwards are as
    [add_result] says.  The workload served before, if any, is replaced.  The
    workload "Apex.OS" is always accepted: each task is listed under the node it
    names, configured or not, with its name, period, affinity mask and
    tolerance, and with priority, policy, runtime, deadline and release time
    zero; any other workload is scheduled on its target nodes within the CPU
    budget, or refused, which leaves no workload.  A change of an existing
    workload is flagged to the D-Bus side, and the hyperperiod of an accepted
    workload other than Apex.OS is on record. *)
Theorem add_sched_info_refines req s h cur :
  service_ok s h cur -> mem_ok (length (rq_tasks req)) ->
  exists st s' h' cur', AddSchedInfo req s h = Ret (st, s', h') /\ service_ok s' h' cur' /\
    add_result (config_loaded (sv_global_scheduler s)) req st cur' /\
    sv_sched_info_changed s' = (sv_sched_info_changed s || bool_decide (cur <> None)) /\
    (st = 0 -> rq_workload_id req <> apex_os ->
       hi_hyperperiod_us <$> service_GetHyperperiodInfo (rq_workload_id req) s' = Some (hyperperiod_of req)).
Proof.
  intros Hok Hmem. destruct (AddSchedInfo_effect req s h cur Hok Hmem) as (st & s' & h' & cur' & ? & ? & ? & ? & _ & ? & _).
  by exists st, s', h', cur'.
Qed.

(** Without a loaded node configuration every workload except Apex.OS is
    refused, whatever its tasks: there is no fallback to default nodes. *)
Theorem no_configuration_refuses req s h cur :
  service_ok s h cur -> mem_ok (length (rq_tasks req)) ->
  config_loaded (sv_global_scheduler s) = None -> rq_workload_id req <> apex_os ->
  exists s' h', AddSchedInfo req s h = Ret (-1, s', h') /\ service_ok s' h' None.
Proof.
  intros Hok Hmem Hc Hw.
  destruct (AddSchedInfo_effect req s h cur Hok Hmem) as (st & s' & h' & cur' & E & Hok' & Hres & _).
  rewrite Hc in Hres. destruct Hres; try done; by exists s', h'.
Qed.

End service_proofs.

(** ** Concrete requests *)

Definition ex_grpc_task (name node : string) (mask runtime period : Z) : TaskInfo :=
  mk_TaskInfo (str name) 50 1 mask period 0 runtime period (str node) 3.

Definition ex_request : SchedInfoRequest :=
  mk_SchedInfoRequest (str "wl-1")
    [ex_grpc_task "sensor" "node01" 0 4000 10000; ex_grpc_task "control" "node01" 4 5000 20000;
     ex_grpc_task "lost" "node09" 0 1 30000].

Definition ex_service : service := SchedInfoServiceImpl (Some ex_manager).

Lemma ex_service_ok : service_ok ex_service heap_empty None.
Proof. apply service_init_ok. intros c [= <-]. repeat constructor. Qed.

Lemma add_sched_info_refines_witness :
  exists s' h' cur', @AddSchedInfo ex_sort ex_alloc ex_request ex_service heap_empty = Ret (0, s', h') /\
    add_result (Some ex_manager) ex_request 0 cur' /\
    hi_hyperperiod_us <$> service_GetHyperperiodInfo (str "wl-1") s' = Some 60000.
Proof.
  destruct (@add_sched_info_refines ex_sort ex_alloc ex_request ex_service heap_empty None ex_service_ok)
    as (st & s' & h' & cur' & E & _ & Hres & _ & Hhp); [apply ex_mem_ok; cbn; lia|].
  assert (st = 0) as ->.
  { assert (match @AddSchedInfo ex_sort ex_alloc ex_request ex_service heap_empty with
            | Ret (st, _, _) => st | UB => 7 end = 0) as H by (vm_compute; reflexivity).
    by rewrite E in H. }
  exists s', h', cur'. split_and!; [exact E|exact Hres|].
  transitivity (Some (hyperperiod_of ex_request)); [by apply Hhp|vm_compute; reflexivity].
Defined.

Lemma no_configuration_refuses_witness :
  exists s' h', @AddSchedInfo ex_sort ex_alloc ex_request (SchedInfoServiceImpl None) heap_empty = Ret (-1, s', h').
Proof.
  destruct (@no_configuration_refuses ex_sort ex_alloc ex_request (SchedInfoServiceImpl None) heap_empty None)
    as (s' & h' & E & _); [by apply service_init_ok|apply ex_mem_ok; cbn; lia|done|done|].
  by exists s', h'.
Defined.
