(* ===== verification/OrchServer.v ===== *)
(** * The D-Bus server of the orchestrator

    timpani-o/src/dbus_server.cpp with fault_client.cpp: the callbacks that
    answer the nodes.  The gRPC service (SchedInfoService) and these callbacks
    share the schedule map and its heap. *)

From S2P Require Import CppStd Serialize Time SchedInfo OrchHyperperiod NodeConfig GlobalScheduler SchedInfoService.

(** ** fault_client.cpp *)

Inductive FaultType := FAULT_UNKNOWN | FAULT_DMISS.

Record FaultInfo := mk_FaultInfo {
  fi_workload_id : list byte;
  fi_node_id : list byte;
  fi_task_name : list byte;
  fi_type : FaultType;
}.

(** gRPC and Pullpiri: whether a channel and a stub can be created for an
    address ([CreateChannel] catches exceptions), and the answer to the call
    after the calls [sent]: transport ok and [Response.status]. *)
Class FaultRpc := {
  rpc_channel : list byte -> bool;
  rpc_stub : list byte -> bool;
  rpc_notify : list FaultInfo -> FaultInfo -> bool * Z;
}.

Record FaultServiceClient := mk_FaultServiceClient {
  fc_initialized : bool;
  fc_sent : list FaultInfo;
}.

#[export] Instance FaultServiceClient_eta : Eta FaultServiceClient := fun c =>
  mk_FaultServiceClient (fc_initialized c) (fc_sent c).

Section fault.
Context {FR : FaultRpc}.

Definition CreateChannel (server_address : list byte) : bool :=
  rpc_channel server_address && rpc_stub server_address.

Definition Initialize (server_address : list byte) (c : FaultServiceClient) : bool * FaultServiceClient :=
  if fc_initialized c then (true, c)
  else match server_address with
       | [] => (false, c)
       | _ => if CreateChannel server_address then (true, c <| fc_initialized := true |>) else (false, c)
       end.

Definition NotifyFault (workload_id node_id task_name : list byte) (fault_type : FaultType)
    (c : FaultServiceClient) : bool * FaultServiceClient :=
  if fc_initialized c then
    let request := mk_FaultInfo workload_id node_id task_name fault_type in
    let '(status_ok, status) := rpc_notify (fc_sent c) request in
    (status_ok && (status =? 0), c <| fc_sent ::= fun l => l ++ [request] |>)
  else (false, c).

End fault.

(** ** dbus_server.cpp *)

(** The members the callbacks use.  [node_sync_map_] is an [unordered_map]; its
    order does not matter to the code. *)
Record DBusServer := mk_DBusServer {
  ds_sched_info_server : bool;
  ds_sched_info_buf : option serial_buf_t;
  ds_node_sync_map : cmap (list byte) bool;
}.

#[export] Instance DBusServer_eta : Eta DBusServer := fun d =>
  mk_DBusServer (ds_sched_info_server d) (ds_sched_info_buf d) (ds_node_sync_map d).

(** The orchestrator process. *)
Record orch := mk_orch {
  or_service : service;
  or_heap : heap;
  or_dbus : DBusServer;
  or_client : FaultServiceClient;
}.

#[export] Instance orch_eta : Eta orch := fun o =>
  mk_orch (or_service o) (or_heap o) (or_dbus o) (or_client o).

(** The tasks [tasks[0..num_tasks-1]] of an entry. *)
Definition read_tasks (si : sched_info_t) (h : heap) : outcome (list sched_task_t) :=
  if si_num_tasks si <=? 0 then Ret []
  else
    l ← h_read (si_ptr si) h;
    if si_num_tasks si <=? blen l then Ret (take (Z.to_nat (si_num_tasks si)) l) else UB.

Fixpoint read_nodes (m : NodeSchedInfoMap) (h : heap) : outcome schedule_view :=
  match m with
  | [] => Ret []
  | (n, si) :: m =>
      l ← read_tasks si h;
      v ← read_nodes m h;
      Ret ((n, l) :: v)
  end.

Section callbacks.
Context {HO : Host} {AL : Allocator} {SS : StdSort} {FR : FaultRpc}.

Definition FreeSchedInfoBuf (d : DBusServer) : DBusServer := d <| ds_sched_info_buf := None |>.

(** [SerializeSchedInfo(map)]: returns early if a buffer exists; [map.begin()]
    of an empty map must not be dereferenced. *)
Definition serialize_map (map : cmap (list byte) NodeSchedInfoMap) (o : orch) : outcome (bool * orch) :=
  match ds_sched_info_buf (or_dbus o) with
  | Some _ => Ret (true, o)
  | None =>
      match map with
      | [] => UB
      | (workload_id, node_sched_info) :: _ =>
          let hyperperiod_info :=
            if ds_sched_info_server (or_dbus o)
            then service_GetHyperperiodInfo workload_id (or_service o) else None in
          match new_serial_buf (1024 + 256) with
          | None => Ret (false, o)
          | Some _ =>
              v ← read_nodes node_sched_info (or_heap o);
              r ← SerializeSchedInfo workload_id (hi_hyperperiod_us <$> hyperperiod_info) v;
              match r with
              | None => Ret (false, o)
              | Some (_, buf) => Ret (true, o <| or_dbus ::= fun d => d <| ds_sched_info_buf := buf |> |>)
              end
          end
      end
  end.

(** The bytes [data[0..pos-1]] handed to libtrpc, or none. *)
Definition SchedInfoCallback (name : list byte) (o : orch) : outcome (option (list byte) * orch) :=
  if ds_sched_info_server (or_dbus o) then
    let '(sched_info_map, changed, s) := GetSchedInfoMap true (or_service o) in
    let o := o <| or_service := s |> in
    let o := if bool_decide (changed = Some true) then o <| or_dbus ::= FreeSchedInfoBuf |> else o in
    match sched_info_map with
    | [] => Ret (None, o)
    | _ =>
        '(ok, o) ← serialize_map sched_info_map o;
        match ds_sched_info_buf (or_dbus o) with
        | Some b => if (ok : bool) then Ret (Some (readable b), o) else Ret (None, o)
        | None => Ret (None, o)
        end
    end
  else Ret (None, o).

(** Does the array of this entry hold the task? *)
Definition has_task (task : list byte) (si : sched_info_t) (h : heap) : outcome bool :=
  l ← read_tasks si h;
  Ret (existsb (fun t => bool_decide (cstr (st_task_name t) = task)) l).

Fixpoint find_task_in_nodes (name task : list byte) (m : NodeSchedInfoMap) (h : heap) : outcome bool :=
  match m with
  | [] => Ret false
  | (node_id, si) :: m =>
      if decide (node_id = name) then
        found ← has_task task si h;
        if (found : bool) then Ret true else find_task_in_nodes name task m h
      else find_task_in_nodes name task m h
  end.

Fixpoint find_workload (name task : list byte) (map : cmap (list byte) NodeSchedInfoMap) (h : heap)
  : outcome (option (list byte)) :=
  match map with
  | [] => Ret None
  | (wl_id, nodes) :: map =>
      found ← find_task_in_nodes name task nodes h;
      if (found : bool) then Ret (Some wl_id) else find_workload name task map h
  end.

Definition DMissCallback (name task : list byte) (o : orch) : outcome orch :=
  workload_id ←
    (if ds_sched_info_server (or_dbus o) then
       let '(map, _, _) := GetSchedInfoMap false (or_service o) in
       match map with
       | [] => Ret []
       | (first, _) :: _ =>
           r ← find_workload name task map (or_heap o);
           Ret (match r with Some w => w | None => first end)
       end
     else Ret []);
  let '(_, c) := NotifyFault workload_id name task FAULT_DMISS (or_client o) in
  Ret (o <| or_client := c |>).

(** [*ack] and [*ts] as written by the callback; [ts] is written when the
    pointers are given, as the D-Bus server gives them. *)
Definition SyncCallback (name : list byte) (now : timespec) (o : orch)
  : Z * option timespec * orch :=
  let d := or_dbus o in
  let sync_map :=
    match ds_node_sync_map d with
    | [] =>
        if ds_sched_info_server d then
          let '(map, _, _) := GetSchedInfoMap false (or_service o) in
          match map with
          | [] => []
          | (_, node_sched_info) :: _ =>
              fold_left (fun m e => map_set e.1 false m) node_sched_info []
          end
        else []
    | m => m
    end in
  match map_find name sync_map with
  | None => (0, None, o <| or_dbus := d <| ds_node_sync_map := sync_map |> |>)
  | Some _ =>
      let sync_map := map_set name true sync_map in
      let o := o <| or_dbus := d <| ds_node_sync_map := sync_map |> |> in
      if forallb snd sync_map
      then (1, Some (mk_timespec (tv_sec now + 1) (tv_nsec now)), o)
      else (0, None, o)
  end.

(** A gRPC request, handled between callbacks. *)
Definition orch_add (request : SchedInfoRequest) (o : orch) : outcome (Z * orch) :=
  '(st, s, h) ← AddSchedInfo request (or_service o) (or_heap o);
  Ret (st, o <| or_service := s |> <| or_heap := h |>).

End callbacks.

(** ** Reading a live map *)

Lemma read_nodes_owned m h v : owns m h v -> read_nodes m h = Ret v.
Proof.
  revert v. induction m as [|[n si] m IH]; intros v Hown.
  { destruct Hown as [H%Forall2_nil_inv_l _]. by subst. }
  destruct v as [|[n' l] v]; [by destruct Hown as [H%Forall2_length _]|].
  apply owns_cons in Hown as ((Hn & Hl & _ & Hp) & _ & Hown). cbn in *. subst n'.
  unfold read_tasks. rewrite Hl. destruct (Z.leb_spec (blen l) 0) as [H0|H0].
  - cbn. rewrite (IH v) by done. cbn. by destruct l.
  - unfold h_read. rewrite Hp. cbn [mbind outcome_bind]. rewrite Z.leb_refl, Nat2Z.id.
    cbn [mbind outcome_bind]. rewrite (IH v) by done. cbn. by rewrite take_ge.
Qed.

Section orch_proofs.
Context {HO : Host} {AL : Allocator} {SS : StdSort} {FR : FaultRpc}.

(** Serializing never fails to return. *)
Lemma SerializeSchedInfo_total wl hp nodes :
  SerializeSchedInfo wl hp nodes = Ret None \/
  exists rs b, SerializeSchedInfo wl hp nodes = Ret (Some (rs, Some b)).
Proof.
  unfold SerializeSchedInfo. destruct (new_serial_buf (1024 + 256)) as [b0|] eqn:E0; [|by left].
  apply new_serial_buf_wf in E0 as [Hwf0 _]; [|lia]. right.
  set (ts := concat (snd <$> nodes)).
  edestruct (serialize_seq_spec) as (rs & b' & E & _); [|exact Hwf0|].
  - apply Forall2_app; [constructor; [apply ser_int64_pushes|]|].
    + constructor; [apply (ser_str_pushes wl 63); lia|constructor].
    + apply Forall2_app; [apply ser_tasks_pushes|]. constructor; [apply ser_int32_pushes|constructor].
  - rewrite E. cbn. by exists rs, b'.
Qed.

(** ** What the process keeps true *)

Definition current_hyperperiod (o : orch) (w : list byte) : option Z :=
  hi_hyperperiod_us <$> service_GetHyperperiodInfo w (or_service o).

(** A buffer that was not invalidated is the serialization of the workload
    being served. *)
Record orch_ok (o : orch) (cur : current) : Prop := {
  oo_service : service_ok (or_service o) (or_heap o) cur;
  oo_server : ds_sched_info_server (or_dbus o) = true;
  oo_buf : forall b, ds_sched_info_buf (or_dbus o) = Some b ->
    sv_sched_info_changed (or_service o) = false ->
    exists w v rs, cur = Some (w, v) /\
      SerializeSchedInfo w (current_hyperperiod o w) v = Ret (Some (rs, Some b));
}.

Lemma service_ok_flag s h cur b : service_ok s h cur -> service_ok (s <| sv_sched_info_changed := b |>) h cur.
Proof. intros [? ? ? ? ?]. by split. Qed.

(** A poll answers with the schedule of the current workload. *)
Lemma SchedInfoCallback_effect name o cur :
  orch_ok o cur ->
  exists reply o', SchedInfoCallback name o = Ret (reply, o') /\ orch_ok o' cur /\
    or_heap o' = or_heap o /\ ds_node_sync_map (or_dbus o') = ds_node_sync_map (or_dbus o) /\
    or_client o' = or_client o /\ or_service o' = (or_service o) <| sv_sched_info_changed := false |> /\
    match cur with
    | None => reply = None
    | Some (w, v) =>
        (exists rs b, SerializeSchedInfo w (current_hyperperiod o w) v = Ret (Some (rs, Some b)) /\
           reply = Some (readable b)) \/
        (SerializeSchedInfo w (current_hyperperiod o w) v = Ret None /\ reply = None)
    end.
Proof.
  intros [Hs Hsrv Hbuf]. unfold SchedInfoCallback. rewrite Hsrv. cbn [GetSchedInfoMap].
  set (s1 := (or_service o) <| sv_sched_info_changed := false |>).
  set (o1 := if bool_decide (Some (sv_sched_info_changed (or_service o)) = Some true) then _ else _).
  assert (or_service o1 = s1 /\ or_heap o1 = or_heap o /\ ds_sched_info_server (or_dbus o1) = true /\
    ds_node_sync_map (or_dbus o1) = ds_node_sync_map (or_dbus o) /\ or_client o1 = or_client o /\
    forall b, ds_sched_info_buf (or_dbus o1) = Some b ->
      exists w v rs, cur = Some (w, v) /\
        SerializeSchedInfo w (current_hyperperiod o w) v = Ret (Some (rs, Some b)))
    as (Es & Eh & Esrv & Esync & Ecl & Hb).
  { unfold o1. case_bool_decide as Hc; cbn; split_and!; try done.
    intros b Eb. apply Hbuf; [done|]. by destruct (sv_sched_info_changed (or_service o)). }
  assert (service_ok s1 (or_heap o) cur) as Hs1 by (by apply service_ok_flag).
  assert (forall o2, or_service o2 = s1 -> forall w, current_hyperperiod o2 w = current_hyperperiod o w) as Hhp.
  { intros o2 E2 w. unfold current_hyperperiod. by rewrite E2. }
  destruct cur as [[w v]|].
  - destruct (so_map _ _ _ Hs) as (m & Em & _ & Hown & _). rewrite Em.
    unfold serialize_map. destruct (ds_sched_info_buf (or_dbus o1)) as [b|] eqn:Eb.
    + cbn [mbind outcome_bind]. rewrite Eb. destruct (Hb b eq_refl) as (w' & v' & rs & [= <- <-] & Er).
      exists (Some (readable b)), o1. split_and!; [done| |done..|left; by exists rs, b].
      split; [by rewrite Es, Eh|done|]. intros b' Eb' _. rewrite Eb in Eb'. injection Eb' as <-.
      exists w, v, rs. by rewrite Hhp.
    + rewrite Esrv. destruct (new_serial_buf (1024 + 256)) eqn:En.
      2:{ cbn [mbind outcome_bind]. rewrite Eb. exists None, o1.
          assert (SerializeSchedInfo w (current_hyperperiod o w) v = Ret None) as E
            by (unfold SerializeSchedInfo; by rewrite En).
          split_and!; [done| |done..|by right].
          split; [by rewrite Es, Eh|done|]. intros b Hb'. congruence. }
      rewrite Eh, (read_nodes_owned m _ v) by done. cbn [mbind outcome_bind].
      fold (current_hyperperiod o1 w). rewrite (Hhp o1 Es).
      destruct (SerializeSchedInfo_total w (current_hyperperiod o w) v) as [E|(rs & b & E)]; rewrite E;
        cbn [mbind outcome_bind].
      * rewrite Eb. exists None, o1. split_and!; [done| |done..|by right].
        split; [by rewrite Es, Eh|done|]. intros b Hb'. congruence.
      * cbn. eexists _, _. split; [done|]. cbn. split_and!; [|done..|left; by exists rs, b].
        split; cbn; [by rewrite Es, Eh|done|]. intros b' [= <-] _. exists w, v, rs. split; [done|].
        rewrite Hhp; [done|exact Es].
  - destruct (so_map _ _ _ Hs) as [Em _]. rewrite Em.
    exists None, o1. split_and!; [done| |done..]. split; [by rewrite Es, Eh|done|].
    intros b Eb. destruct (Hb b Eb) as (w & v & rs & ? & _). done.
Qed.

Lemma orch_add_effect req o cur :
  orch_ok o cur -> mem_ok (length (rq_tasks req)) ->
  exists st o' cur', orch_add req o = Ret (st, o') /\ orch_ok o' cur' /\
    add_result (config_loaded (sv_global_scheduler (or_service o))) req st cur' /\
    gs_node_config_manager (sv_global_scheduler (or_service o')) =
      gs_node_config_manager (sv_global_scheduler (or_service o)) /\
    or_dbus o' = or_dbus o /\ or_client o' = or_client o /\
    (st = 0 -> rq_workload_id req <> apex_os ->
       current_hyperperiod o' (rq_workload_id req) = Some (hyperperiod_of req)) /\
    (forall p, p < h_next (or_heap o) -> h_blocks (or_heap o') !! p = None).
Proof.
  intros [Hs Hsrv Hbuf] Hmem.
  destruct (AddSchedInfo_effect req _ _ _ Hs Hmem) as (st & s' & h' & cur' & E & Hs' & Hres & Hch & Hcm & Hhp & Hold).
  unfold orch_add. rewrite E. cbn [mbind outcome_bind]. eexists st, _, cur'. split; [done|].
  split_and!; try done. split; cbn; [done|done|]. intros b Eb Hc. exfalso.
  rewrite Hch in Hc. apply orb_false_iff in Hc as [Hc1 Hc2%bool_decide_eq_false].
  destruct (Hbuf b Eb Hc1) as (w & v & rs & -> & _). by apply Hc2.
Qed.

(** ** Deadline misses *)

Lemma find_task_in_nodes_owned name task m h v :
  owns m h v -> exists b, find_task_in_nodes name task m h = Ret b.
Proof.
  revert v. induction m as [|[n si] m IH]; intros v Hown; cbn; [by eexists|].
  destruct v as [|x v]; [by destruct Hown as [H%Forall2_length _]|].
  apply owns_cons in Hown as ((_ & Hl & _ & Hp) & _ & Hown). destruct (IH v Hown) as [b Hb].
  case_decide; [|by eexists]. unfold has_task, read_tasks. cbn in Hl, Hp. rewrite Hl.
  destruct (Z.leb_spec (blen x.2) 0); cbn; [by exists b|].
  unfold h_read. rewrite Hp. cbn [mbind outcome_bind]. rewrite Z.leb_refl. cbn [mbind outcome_bind].
  destruct (existsb _ _); by eexists.
Qed.

Lemma DMissCallback_effect name task o cur :
  orch_ok o cur ->
  let w := match cur with Some (w, _) => w | None => [] end in
  DMissCallback name task o = Ret (o <| or_client := (NotifyFault w name task FAULT_DMISS (or_client o)).2 |>).
Proof.
  intros [Hs Hsrv _] w. unfold DMissCallback. rewrite Hsrv. cbn [GetSchedInfoMap].
  destruct cur as [[w' v]|].
  - destruct (so_map _ _ _ Hs) as (m & -> & _ & Hown & _). cbn [find_workload].
    destruct (find_task_in_nodes_owned name task m _ _ Hown) as [b ->]. cbn [mbind outcome_bind].
    assert ((if b then Ret (Some w') else Ret None) = Ret (if b then Some w' else None)) as -> by by destruct b.
    cbn [mbind outcome_bind]. assert ((match (if b then Some w' else None) with Some w0 => w0 | None => w' end) = w) as ->
      by by destruct b. by destruct (NotifyFault _ _ _ _ _).
  - destruct (so_map _ _ _ Hs) as [-> _]. cbn [mbind outcome_bind]. by destruct (NotifyFault _ _ _ _ _).
Qed.

(** A deadline miss a node reports reaches Pullpiri as one fault of type
    DMISS that names the node, the task and the workload being served (no
    workload: an empty id), whether or not the task is found in the schedule; a
    client that was not initialized sends nothing.  The schedule is not
    disturbed. *)
Theorem deadline_miss_forwarded name task o cur :
  orch_ok o cur ->
  exists o', DMissCallback name task o = Ret o' /\ orch_ok o' cur /\
    fc_sent (or_client o') = fc_sent (or_client o) ++
      if fc_initialized (or_client o)
      then [mk_FaultInfo (match cur with Some (w, _) => w | None => [] end) name task FAULT_DMISS]
      else [].
Proof.
  intros Hok. eexists. split; [by apply DMissCallback_effect|]. split.
  - destruct Hok as [? ? ?]. by split.
  - cbn. unfold NotifyFault. destruct (fc_initialized (or_client o)); [|by rewrite app_nil_r].
    by destruct (rpc_notify _ _).
Qed.

(** ** Synchronized start *)

(** The sync map when the nodes in [called] have reported. *)
Definition marks (nodes called : list (list byte)) : cmap (list byte) bool :=
  (fun n => (n, bool_decide (n ∈ called))) <$> nodes.

Lemma marks_find nodes called name :
  StronglySorted klt nodes ->
  map_find name (marks nodes called) =
    if decide (name ∈ nodes) then Some (bool_decide (name ∈ called)) else None.
Proof.
  intros Hs. assert (map_ok (marks nodes called)) as Hok.
  { unfold map_ok, marks. rewrite <- list_fmap_compose. by rewrite list_fmap_id. }
  case_decide as Hn.
  - apply map_find_elem; [done|]. unfold marks. apply list_elem_of_fmap. by exists name.
  - destruct (map_find name _) as [b|] eqn:E; [|done]. exfalso. apply Hn.
    apply map_find_elem in E; [|done]. unfold marks in E. apply list_elem_of_fmap in E as (n & [= -> _] & ?). done.
Qed.

Lemma marks_set nodes called name :
  StronglySorted klt nodes -> name ∈ nodes ->
  map_set name true (marks nodes called) = marks nodes (name :: called).
Proof.
  intros Hs Hn. assert (forall c, map_ok (marks nodes c)) as Hok.
  { intros c. unfold map_ok, marks. rewrite <- list_fmap_compose. by rewrite list_fmap_id. }
  apply map_ext; [by apply map_ok_set|done|]. intros k. rewrite (marks_find nodes (name :: called)) by done.
  destruct (decide (k = name)) as [->|Hne].
  - rewrite map_find_set, decide_True by done. f_equal. symmetry. apply bool_decide_true. left.
  - rewrite map_find_set_ne, marks_find by done. case_decide; [|done]. f_equal.
    apply bool_decide_ext. set_solver.
Qed.

Lemma marks_all nodes called : forallb snd (marks nodes called) = bool_decide (Forall (fun n => n ∈ called) nodes).
Proof.
  unfold marks. induction nodes as [|n nodes IH]; cbn; [done|]. cbn in IH. rewrite IH.
  destruct (bool_decide_reflect (n ∈ called)), (bool_decide_reflect (Forall (fun n => n ∈ called) nodes)); cbn;
    symmetry; first [apply bool_decide_true; by constructor|apply bool_decide_false; by intros [? ?]%Forall_cons].
Qed.

(** The map the next call works on. *)
Definition sync_view (o : orch) : cmap (list byte) bool :=
  match ds_node_sync_map (or_dbus o) with
  | [] => match sv_sched_info_map (or_service o) with
          | [] => []
          | (_, m) :: _ => fold_left (fun m e => map_set e.1 false m) m []
          end
  | m => m
  end.

Lemma sync_view_start o w v :
  orch_ok o (Some (w, v)) -> ds_node_sync_map (or_dbus o) = [] ->
  StronglySorted klt (fst <$> v) /\ sync_view o = marks (fst <$> v) [].
Proof.
  intros [Hs _ _] Hm. destruct (so_map _ _ _ Hs) as (m & Em & Hok & [Hown _] & _).
  assert (fst <$> m = fst <$> v) as Hk.
  { clear -Hown. induction Hown as [|e x m v (He & _) _ IH]; cbn; [done|]. by rewrite He, IH. }
  split; [by rewrite <- Hk|]. unfold sync_view. rewrite Hm, Em, <- Hk.
  assert (forall l acc, fold_left (fun m (e : list byte * sched_info_t) => map_set e.1 false m) l acc =
    fold_left (fun m e => map_set e.1 e.2 m) ((fun e => (e.1, false)) <$> l) acc) as ->.
  { induction l as [|e l IH]; intros acc; cbn; [done|]. apply IH. }
  rewrite (fold_map_set _ []).
  - cbn. unfold marks. rewrite <- list_fmap_compose. apply list_fmap_ext. intros i e _. cbn. done.
  - cbn. by apply (map_ok_fmap (fun _ => false)).
Qed.

(** What the callback answers. *)
Definition sync_answer (nodes seen : list (list byte)) (name : list byte) (now : timespec)
  : Z * option timespec :=
  if bool_decide (name ∈ nodes /\ Forall (fun n => n ∈ name :: seen) nodes)
  then (1, Some (mk_timespec (tv_sec now + 1) (tv_nsec now))) else (0, None).

Lemma SyncCallback_effect name now o cur nodes seen :
  orch_ok o cur -> StronglySorted klt nodes -> nodes <> [] -> sync_view o = marks nodes seen ->
  exists o', SyncCallback name now o = (sync_answer nodes seen name now, o') /\ orch_ok o' cur /\
    ds_node_sync_map (or_dbus o') = marks nodes (name :: seen) /\
    or_service o' = or_service o /\ or_heap o' = or_heap o /\ or_client o' = or_client o.
Proof.
  intros [Hs Hsrv Hbuf] Hsort Hne Hv. unfold SyncCallback. rewrite Hsrv. cbn [GetSchedInfoMap].
  assert (match ds_node_sync_map (or_dbus o) with
    | [] => match sv_sched_info_map (or_service o) with
            | [] => []
            | (_, m) :: _ => fold_left (fun m e => map_set e.1 false m) m []
            end
    | p :: c => p :: c end = marks nodes seen) as -> by exact Hv.
  assert (forall x, orch_ok (o <| or_dbus := (or_dbus o) <| ds_node_sync_map := x |> |>) cur) as Hok'.
  { intros x. by split. }
  rewrite marks_find by done. unfold sync_answer. case_decide as Hn.
  - rewrite marks_set, marks_all by done.
    destruct (bool_decide_reflect (Forall (fun n => n ∈ name :: seen) nodes)) as [Ha|Ha].
    + rewrite bool_decide_true by done. eexists. split; [done|]. split_and!; done.
    + rewrite bool_decide_false by naive_solver. eexists. split; [done|]. split_and!; done.
  - rewrite bool_decide_false by naive_solver. eexists. split; [done|]. split_and!; try done.
    cbn. unfold marks. apply list_fmap_ext. intros i n Hi. cbn. f_equal. apply bool_decide_ext.
    assert (n <> name) by (intros ->; by apply Hn, (list_elem_of_lookup_2 _ i)). set_solver.
Qed.

End orch_proofs.
