(* ===== verification/Orchestrator.v ===== *)
(** * The orchestrator as a whole

    Runs of requests and callbacks in any order, against an abstract machine
    that holds only the workload being served; the synchronized start; the path
    of a workload from the gRPC request to the task list of a node; and what
    happens when a request overlaps a callback. *)

From S2P Require Import CppStd Serialize Time SchedInfo OrchHyperperiod NodeConfig GlobalScheduler SchedInfoService OrchServer.
From S2P Require Import Types Kernel Sched.

(** ** Events *)

Inductive oevent :=
  | EvAdd (req : SchedInfoRequest)
  | EvPoll (name : list byte)
  | EvDmiss (name task : list byte)
  | EvSync (name : list byte) (now : timespec).

Inductive reply :=
  | RStatus (st : Z)
  | RSchedule (bytes : option (list byte))
  | RFaults (sent : list FaultInfo)
  | RSync (ack : Z) (ts : option timespec).

Section run.
Context {HO : Host} {AL : Allocator} {SS : StdSort} {FR : FaultRpc}.

(** One event.  The reply to a deadline miss is what was sent to Pullpiri. *)
Definition orch_event (e : oevent) (o : orch) : outcome (reply * orch) :=
  match e with
  | EvAdd req => '(st, o) ← orch_add req o; Ret (RStatus st, o)
  | EvPoll name => '(r, o) ← SchedInfoCallback name o; Ret (RSchedule r, o)
  | EvDmiss name task =>
      o' ← DMissCallback name task o;
      Ret (RFaults (drop (length (fc_sent (or_client o))) (fc_sent (or_client o'))), o')
  | EvSync name now => let '(ack, ts, o) := SyncCallback name now o in Ret (RSync ack ts, o)
  end.

Fixpoint orch_run (evs : list oevent) (o : orch) : outcome (list reply * orch) :=
  match evs with
  | [] => Ret ([], o)
  | e :: evs =>
      '(r, o) ← orch_event e o;
      '(rs, o) ← orch_run evs o;
      Ret (r :: rs, o)
  end.

(** Enough memory for the arrays of a request. *)
Definition event_fits (e : oevent) : Prop :=
  match e with EvAdd req => mem_ok (length (rq_tasks req)) | _ => True end.

(** ** The abstract machine *)

(** The workload being served, its schedule, and the hyperperiod sent with it. *)
Definition served := option (list byte * schedule_view * option Z).

Definition served_hyperperiod (req : SchedInfoRequest) : option Z :=
  if decide (rq_workload_id req = apex_os) then None else Some (hyperperiod_of req).

(** What is served, and the answers that depend on it: a request replaces the
    workload or leaves none; a poll gets the serialized schedule of the workload (nothing if there
    is none or no memory for the buffer); a miss is forwarded under the
    workload's name; a sync call changes nothing (its answer is below). *)
Inductive serve (cfg : option NodeConfigManager) (client : bool) : served -> oevent -> reply -> served -> Prop :=
  | s_add a req st w v :
      add_result cfg req st (Some (w, v)) ->
      serve cfg client a (EvAdd req) (RStatus st) (Some (w, v, served_hyperperiod req))
  | s_refuse a req st :
      add_result cfg req st None -> serve cfg client a (EvAdd req) (RStatus st) None
  | s_poll w v hp name rs b :
      SerializeSchedInfo w hp v = Ret (Some (rs, Some b)) ->
      serve cfg client (Some (w, v, hp)) (EvPoll name) (RSchedule (Some (readable b))) (Some (w, v, hp))
  | s_poll_nomem w v hp name :
      SerializeSchedInfo w hp v = Ret None ->
      serve cfg client (Some (w, v, hp)) (EvPoll name) (RSchedule None) (Some (w, v, hp))
  | s_poll_none name : serve cfg client None (EvPoll name) (RSchedule None) None
  | s_dmiss a name task :
      serve cfg client a (EvDmiss name task)
        (RFaults (if client then [mk_FaultInfo (match a with Some (w, _, _) => w | None => [] end) name task FAULT_DMISS]
                  else [])) a
  | s_sync a name now ack ts : serve cfg client a (EvSync name now) (RSync ack ts) a.

(** The synchronized start: nothing yet, or the nodes that are waited for and
    those that have called. *)
Definition sync_state := option (list (list byte) * list (list byte)).

(** Who is waited for at the next sync call: the first one takes the nodes of
    the workload that is served at that moment, for good. *)
Definition waits_for (a : served) (b : sync_state) : list (list byte) * list (list byte) :=
  match b with
  | Some x => x
  | None => (match a with Some (_, v, _) => fst <$> v | None => [] end, [])
  end.

(** The answer to a sync call, and the state after an event. *)
Definition sync_right (a : served) (b : sync_state) (e : oevent) (r : reply) : Prop :=
  match e with
  | EvSync name now => let '(nodes, seen) := waits_for a b in
      let '(ack, ts) := sync_answer nodes seen name now in r = RSync ack ts
  | _ => True
  end.

Definition sync_next (a : served) (b : sync_state) (e : oevent) : sync_state :=
  match e with
  | EvSync name _ => let '(nodes, seen) := waits_for a b in
      match nodes with [] => None | _ => Some (nodes, name :: seen) end
  | _ => b
  end.

(** The machine: the workload that is served and the synchronized start; its
    answer to every event is determined, up to the placement of an accepted
    workload and the memory for a reply. *)
Inductive machine (cfg : option NodeConfigManager) (client : bool)
  : served * sync_state -> oevent -> reply -> served * sync_state -> Prop :=
  | m_event a b e r a' :
      serve cfg client a e r a' -> sync_right a b e r -> machine cfg client (a, b) e r (a', sync_next a b e).

Inductive machine_run (cfg : option NodeConfigManager) (client : bool)
  : served * sync_state -> list oevent -> list reply -> served * sync_state -> Prop :=
  | mr_nil a : machine_run cfg client a [] [] a
  | mr_cons a e r a1 evs rs a2 :
      machine cfg client a e r a1 -> machine_run cfg client a1 evs rs a2 ->
      machine_run cfg client a (e :: evs) (r :: rs) a2.

(** The process represents the abstract state. *)
Record represents (o : orch) (a : served) : Prop := {
  rp_ok : orch_ok o (match a with Some (w, v, _) => Some (w, v) | None => None end);
  rp_hp : forall w v hp, a = Some (w, v, hp) -> current_hyperperiod o w = hp;
}.

(** The map of the D-Bus server and the state of the synchronized start. *)
Definition syncs (o : orch) (b : sync_state) : Prop :=
  match b with
  | None => ds_node_sync_map (or_dbus o) = []
  | Some (nodes, seen) =>
      StronglySorted klt nodes /\ nodes <> [] /\ ds_node_sync_map (or_dbus o) = marks nodes seen
  end.

Lemma sync_step_ok name now o cur :
  orch_ok o cur ->
  exists ack ts o', SyncCallback name now o = (ack, ts, o') /\ orch_ok o' cur /\
    or_service o' = or_service o /\ or_heap o' = or_heap o /\ or_client o' = or_client o.
Proof.
  intros [Hs Hsrv Hbuf]. assert (forall x, orch_ok (o <| or_dbus := (or_dbus o) <| ds_node_sync_map := x |> |>) cur) as Hok'.
  { intros x. by split. }
  unfold SyncCallback. destruct (map_find name _); [destruct (forallb _ _)|]; by eexists _, _, _.
Qed.

Lemma event_simulated e o a :
  represents o a -> event_fits e ->
  exists r o' a', orch_event e o = Ret (r, o') /\ represents o' a' /\
    serve (config_loaded (sv_global_scheduler (or_service o))) (fc_initialized (or_client o)) a e r a' /\
    config_loaded (sv_global_scheduler (or_service o')) = config_loaded (sv_global_scheduler (or_service o)) /\
    fc_initialized (or_client o') = fc_initialized (or_client o).
Proof.
  intros [Hok Hhp] Hfit. destruct e as [req|name|name task|name now]; cbn [orch_event].
  - destruct (orch_add_effect req o _ Hok Hfit) as (st & o' & cur' & -> & Hok' & Hres & Hcm & _ & Hcl & Hh & _).
    cbn [mbind outcome_bind]. exists (RStatus st), o'.
    assert (config_loaded (sv_global_scheduler (or_service o')) = config_loaded (sv_global_scheduler (or_service o))) as Hc
      by (unfold config_loaded; by rewrite Hcm).
    destruct cur' as [[w v]|].
    + exists (Some (w, v, served_hyperperiod req)). split_and!; [done| |by constructor|done|by rewrite Hcl].
      split; [done|]. intros w' v' hp [= <- <- <-]. unfold served_hyperperiod.
      inversion Hres; subst.
      * rewrite decide_True by done. unfold current_hyperperiod, service_GetHyperperiodInfo, GetHyperperiodInfo.
        by rewrite (proj2 (so_hyper _ _ _ (oo_service _ _ Hok'))).
      * rewrite decide_False by done. by apply Hh.
    + exists None. split_and!; [done| |by constructor|done|by rewrite Hcl]. by split.
  - destruct (SchedInfoCallback_effect name o _ Hok) as (r & o' & -> & Hok' & _ & _ & Hcl & Hsv & Hr).
    cbn [mbind outcome_bind]. exists (RSchedule r), o', a.
    assert (forall w, current_hyperperiod o' w = current_hyperperiod o w) as Hhp'.
    { intros w. unfold current_hyperperiod. by rewrite Hsv. }
    split_and!; [done| | |by rewrite Hsv|by rewrite Hcl].
    + split; [done|]. intros w v hp Ha. rewrite Hhp'. by eapply Hhp.
    + destruct a as [[[w v] hp]|]; [|subst; constructor]. rewrite (Hhp w v hp eq_refl) in Hr.
      destruct Hr as [(rs & b & Hr & ->)|[Hr ->]]; by econstructor.
  - set (w := match a with Some (w, _, _) => w | None => [] end).
    assert (DMissCallback name task o =
      Ret (o <| or_client := (NotifyFault w name task FAULT_DMISS (or_client o)).2 |>)) as ->.
    { rewrite (DMissCallback_effect name task o _ Hok). unfold w. by destruct a as [[[? ?] ?]|]. }
    cbn [mbind outcome_bind]. eexists _, _, a. split; [done|]. cbn [or_client upd eta orch_eta].
    split_and!; [| |done|].
    + split; [destruct Hok; by split|exact Hhp].
    + unfold NotifyFault. destruct (fc_initialized (or_client o)) eqn:Ei.
      * destruct (rpc_notify _ _). cbn. rewrite drop_app_length. rewrite <- Ei. rewrite Ei. constructor.
      * cbn. rewrite drop_all. constructor.
    + unfold NotifyFault. destruct (fc_initialized (or_client o)) eqn:Ei; [|done]. by destruct (rpc_notify _ _).
  - destruct (sync_step_ok name now o _ Hok) as (ack & ts & o' & -> & Hok' & Hsv & _ & Hcl).
    exists (RSync ack ts), o', a. split_and!; [done| |constructor|by rewrite Hsv|by rewrite Hcl].
    split; [done|]. intros w v hp Ha. unfold current_hyperperiod. rewrite Hsv. by eapply Hhp.
Qed.

(** Events other than sync calls leave the synchronized start alone. *)
Lemma event_keeps_syncs e o a r o' :
  represents o a -> event_fits e -> orch_event e o = Ret (r, o') -> (forall name now, e <> EvSync name now) ->
  ds_node_sync_map (or_dbus o') = ds_node_sync_map (or_dbus o).
Proof.
  intros [Hok _] Hfit E Hne. destruct e as [req|name|name task|name now]; cbn [orch_event] in E; [..|by destruct (Hne name now)].
  - destruct (orch_add_effect req o _ Hok Hfit) as (st & o1 & cur' & E' & _ & _ & _ & Hd & _).
    rewrite E' in E. cbn in E. injection E as _ <-. by rewrite Hd.
  - destruct (SchedInfoCallback_effect name o _ Hok) as (r' & o1 & E' & _ & _ & Hd & _).
    rewrite E' in E. cbn in E. injection E as _ <-. by rewrite Hd.
  - rewrite (DMissCallback_effect name task o _ Hok) in E. cbn in E. by injection E as _ <-.
Qed.

(** A sync call does what the machine says. *)
Lemma sync_event name now o a b r o' :
  represents o a -> syncs o b -> orch_event (EvSync name now) o = Ret (r, o') ->
  sync_right a b (EvSync name now) r /\ syncs o' (sync_next a b (EvSync name now)).
Proof.
  intros Hr Hb E. unfold sync_right, sync_next. destruct (waits_for a b) as [nodes seen] eqn:Ew.
  destruct (decide (nodes = [])) as [->|Hne].
  - (* nobody is waited for: nothing is served *)
    destruct b as [[nodes seen']|]; [injection Ew as -> ->; by destruct Hb as (_ & [] & _)|].
    unfold waits_for in Ew. injection Ew as Ew <-. cbn in Hb. unfold sync_answer.
    rewrite bool_decide_false by (intros [?%not_elem_of_nil _]; done).
    cbn [orch_event] in E. unfold SyncCallback in E. rewrite Hb, (oo_server _ _ (rp_ok _ _ Hr)) in E. cbn [GetSchedInfoMap] in E.
    assert (match sv_sched_info_map (or_service o) with
            | [] => []
            | (_, m) :: _ => fold_left (fun m (e : list byte * sched_info_t) => map_set e.1 false m) m []
            end = []) as Em.
    { pose proof (so_map _ _ _ (oo_service _ _ (rp_ok _ _ Hr))) as Hm. destruct a as [[[w v] hp]|].
      - destruct Hm as (m & -> & _ & [Hown _] & _). apply fmap_nil_inv in Ew as ->.
        apply Forall2_nil_inv_r in Hown as ->. done.
      - by destruct Hm as [-> _]. }
    rewrite Em in E. cbn in E. by injection E as <- <-.
  - assert (StronglySorted klt nodes /\ sync_view o = marks nodes seen) as [Hs Hv].
    { destruct b as [[nodes' seen']|]; injection Ew as <- <-.
      - destruct Hb as (? & ? & Hm). split; [done|]. unfold sync_view. rewrite Hm. by destruct nodes'.
      - destruct a as [[[w v] hp]|]; [|done]. by apply (sync_view_start o w v (rp_ok _ _ Hr)). }
    destruct (SyncCallback_effect name now o _ nodes seen (rp_ok _ _ Hr) Hs Hne Hv) as (o1 & E' & _ & Hd & _).
    cbn [orch_event] in E. rewrite E' in E. destruct (sync_answer nodes seen name now) as [ack ts].
    injection E as <- <-. split; [done|]. by destruct nodes.
Qed.

Lemma orchestrator_run evs o a b :
  represents o a -> syncs o b -> Forall event_fits evs ->
  exists rs o' a' b', orch_run evs o = Ret (rs, o') /\ represents o' a' /\ syncs o' b' /\
    machine_run (config_loaded (sv_global_scheduler (or_service o))) (fc_initialized (or_client o)) (a, b) evs rs (a', b').
Proof.
  intros Hr Hb Hf. revert o a b Hr Hb. induction Hf as [|e evs He _ IH]; intros o a b Hr Hb; cbn [orch_run].
  { exists [], o, a, b. split_and!; [done..|constructor]. }
  destruct (event_simulated e o a Hr He) as (r & o1 & a1 & E & Hr1 & Hm & Hc & Hcl).
  assert (sync_right a b e r /\ syncs o1 (sync_next a b e)) as [Hsr Hsn].
  { destruct e as [| | |name now]; [| | |by eapply sync_event].
    all: split; [done|]; pose proof (event_keeps_syncs _ _ _ _ _ Hr He E ltac:(done)) as Hd;
      unfold syncs, sync_next; rewrite Hd; exact Hb. }
  rewrite E. cbn [mbind outcome_bind].
  destruct (IH o1 a1 (sync_next a b e) Hr1 Hsn) as (rs & o2 & a2 & b2 & -> & Hr2 & Hb2 & Hms). cbn [mbind outcome_bind].
  exists (r :: rs), o2, a2, b2. split_and!; [done..|]. econstructor; [by constructor|].
  rewrite <- Hc, <- Hcl. exact Hms.
Qed.

(** C6: Any sequence of workload requests, schedule polls, deadline misses and
    sync calls, from a state that serves [a] and has the synchronized start [b]
    (at first there is neither), runs without undefined behaviour, provided
    malloc succeeds for the arrays of each workload (the code does not check
    it), and its replies are those of the abstract machine: a request replaces
    the workload that is served, and a refused one leaves none; a poll is
    always answered with the schedule and hyperperiod of the workload accepted
    last, never with a stale buffer, and with nothing after a refused one; a
    miss is forwarded under the workload's name; a sync call is acknowledged
    exactly when the caller and all other nodes of the workload that was served
    at the first sync call have called. *)
Theorem orchestrator_refines_machine evs o a b :
  represents o a -> syncs o b -> Forall event_fits evs ->
  exists rs o' a' b', orch_run evs o = Ret (rs, o') /\ represents o' a' /\ syncs o' b' /\
    machine_run (config_loaded (sv_global_scheduler (or_service o))) (fc_initialized (or_client o)) (a, b) evs rs (a', b').
Proof. apply orchestrator_run. Qed.

(** ** The barrier *)

(** The sync calls of a run and their answers. *)
Fixpoint sync_replies (rs : list reply) : list (Z * option timespec) :=
  match rs with
  | [] => []
  | RSync ack ts :: rs => (ack, ts) :: sync_replies rs
  | _ :: rs => sync_replies rs
  end.

(** A barrier over [nodes]: each call is answered by whether all of them have
    called by then. *)
Fixpoint barrier (nodes seen : list (list byte)) (evs : list oevent) : list (Z * option timespec) :=
  match evs with
  | [] => []
  | EvSync name now :: evs => sync_answer nodes seen name now :: barrier nodes (name :: seen) evs
  | _ :: evs => barrier nodes seen evs
  end.

Lemma run_marked evs o a nodes seen :
  represents o a -> Forall event_fits evs -> StronglySorted klt nodes -> nodes <> [] ->
  ds_node_sync_map (or_dbus o) = marks nodes seen ->
  exists rs o', orch_run evs o = Ret (rs, o') /\ sync_replies rs = barrier nodes seen evs.
Proof.
  intros Hr Hf Hs Hne. revert o a seen Hr. induction Hf as [|e evs He Hf IH]; intros o a seen Hr Hm; cbn [orch_run].
  { by exists [], o. }
  assert (sync_view o = marks nodes seen) as Hv.
  { unfold sync_view. rewrite Hm. by destruct nodes. }
  destruct (event_simulated e o a Hr He) as (r & o1 & a1 & E & Hr1 & Hmach & _).
  destruct e as [req|name|name task|name now].
  4:{ destruct (SyncCallback_effect name now o _ nodes seen (rp_ok _ _ Hr) Hs Hne Hv) as (o' & E' & _ & Hd & _).
      cbn [orch_event] in E |- *. rewrite E' in E |- *.
      destruct (sync_answer nodes seen name now) as [ack ts] eqn:Ea. injection E as <- <-. cbn [mbind outcome_bind].
      destruct (IH o' a1 (name :: seen) Hr1 Hd) as (rs & o2 & -> & Hrs).
      eexists _, o2. split; [done|]. cbn. by rewrite Ea, Hrs. }
  all: pose proof (event_keeps_syncs _ _ _ _ _ Hr He E ltac:(done)) as Hd; rewrite E; cbn [mbind outcome_bind];
    destruct (IH o1 a1 seen Hr1) as (rs & o2 & -> & Hrs); [by rewrite Hd|]; eexists _, o2; (split; [done|]);
    cbn [sync_replies barrier]; rewrite <- Hrs; inversion Hmach; by subst.
Qed.

(** From the first call on, the answers are those of the barrier. *)
Lemma first_sync_run name now evs o w v hp :
  represents o (Some (w, v, hp)) -> v <> [] -> ds_node_sync_map (or_dbus o) = [] ->
  Forall event_fits evs ->
  exists rs o', orch_run (EvSync name now :: evs) o = Ret (rs, o') /\
    sync_replies rs = barrier (fst <$> v) [] (EvSync name now :: evs).
Proof.
  intros Hr Hne Hm Hf. destruct (sync_view_start o w v (rp_ok _ _ Hr) Hm) as [Hs Hv].
  assert (fst <$> v <> []) as Hnn by by destruct v.
  cbn [orch_run orch_event].
  destruct (SyncCallback_effect name now o _ _ [] (rp_ok _ _ Hr) Hs Hnn Hv) as (o1 & -> & Hok1 & Hd & Hsv & _).
  destruct (sync_answer (fst <$> v) [] name now) as [ack ts] eqn:Ea. cbn [mbind outcome_bind].
  assert (represents o1 (Some (w, v, hp))) as Hr1.
  { split; [done|]. intros w' v' hp' Ha. unfold current_hyperperiod. rewrite Hsv. by eapply (rp_hp _ _ Hr). }
  destruct (run_marked evs o1 _ (fst <$> v) [name] Hr1 Hf Hs Hnn Hd) as (rs & o2 & -> & Hrs).
  cbn [mbind outcome_bind]. eexists _, o2. split; [done|]. cbn. by rewrite Ea, Hrs.
Qed.

(** C12: The synchronized start is a barrier over the nodes of the workload that
    is served when the first node asks: from then on, whatever requests, polls
    and misses come in between, a call is acknowledged exactly when the caller
    is one of these nodes and all of them have called by then, and the start
    time it gets is one second after that call.  A call that comes too early
    does not wait: it is answered 0 at once, and the node has to ask again.
    (malloc succeeds for the arrays of each request that comes in.) *)
Theorem sync_is_barrier name now evs o w v hp :
  represents o (Some (w, v, hp)) -> v <> [] -> ds_node_sync_map (or_dbus o) = [] ->
  Forall event_fits evs ->
  exists rs o', orch_run (EvSync name now :: evs) o = Ret (rs, o') /\
    sync_replies rs = barrier (fst <$> v) [] (EvSync name now :: evs).
Proof. apply first_sync_run. Qed.

(** The set of nodes the barrier waits for is never renewed: once the first
    call has fixed it, a node of a later workload that is not in it is answered
    0 for ever, so a Timpani-N on that node never starts. *)
Theorem new_nodes_never_start evs o a nodes seen name :
  represents o a -> StronglySorted klt nodes -> nodes <> [] ->
  ds_node_sync_map (or_dbus o) = marks nodes seen -> name ∉ nodes -> Forall event_fits evs ->
  Forall (fun e => match e with EvSync n _ => n = name | _ => True end) evs ->
  exists rs o', orch_run evs o = Ret (rs, o') /\ Forall (fun r => r = (0, None)) (sync_replies rs).
Proof.
  intros Hr Hs Hne Hm Hn Hf Hname.
  destruct (run_marked evs o a nodes seen Hr Hf Hs Hne Hm) as (rs & o' & E & Hrs).
  exists rs, o'. split; [done|]. rewrite Hrs. clear -Hn Hname. revert seen.
  induction Hname as [|e evs He _ IH]; intros seen; cbn; [constructor|].
  destruct e; try apply IH. subst. constructor; [|apply IH].
  unfold sync_answer. by rewrite bool_decide_false by naive_solver.
Qed.

End run.

(** ** From the request to the node *)

Lemma concat_keys_perm {X} (key : X -> list byte) (xs : list X) ns :
  NoDup ns -> concat ((fun n => filter (fun x => key x = n) xs) <$> ns) ≡ₚ filter (fun x => key x ∈ ns) xs.
Proof.
  induction 1 as [|n ns Hn _ IH]; cbn [fmap list_fmap concat].
  { induction xs as [|x xs IH]; [done|]. by rewrite filter_cons, decide_False by apply not_elem_of_nil. }
  rewrite IH. clear IH. induction xs as [|x xs IH]; [done|].
  rewrite !filter_cons. destruct (decide (key x = n)) as [Ht|Ht].
  - rewrite (decide_False (P := _ ∈ ns)) by (by rewrite Ht).
    rewrite decide_True by (rewrite Ht; left). cbn. by rewrite IH.
  - destruct (decide (key x ∈ ns)) as [Hi|Hi].
    + rewrite decide_True by by right. rewrite <- Permutation_middle. by rewrite IH.
    + rewrite decide_False by (intros [?|?]%elem_of_cons; done). done.
Qed.

Lemma sorted_NoDup (l : list (list byte)) : StronglySorted klt l -> NoDup l.
Proof.
  intros H. pose proof (map_ok_NoDup (V := unit) ((fun n => (n, tt)) <$> l)) as Hd. unfold map_ok in Hd.
  rewrite <- list_fmap_compose in Hd. cbn in Hd. rewrite list_fmap_id in Hd. auto.
Qed.

Lemma list_filter_all {X} (P : X -> Prop) `{forall x, Decision (P x)} (l : list X) :
  (forall x, x ∈ l -> P x) -> filter P l = l.
Proof.
  induction l as [|x l IH]; intros Hl; [done|]. rewrite filter_cons, decide_True by (apply Hl; left).
  f_equal. apply IH. intros y Hy. apply Hl. by right.
Qed.

(** All tasks of a schedule, over its nodes. *)
Lemma schedule_of_tasks ts :
  concat (snd <$> schedule_of ts) ≡ₚ make_sched_task <$> filter (fun t => tk_assigned_node t <> []) ts.
Proof.
  destruct (count_tasks_spec ts) as [Hok Hf]. rewrite schedule_counted.
  assert (concat (snd <$> ((fun e => (e.1, make_sched_task <$> tasks_of_node e.1 ts)) <$> count_tasks ts)) =
    make_sched_task <$> concat ((fun n => tasks_of_node n ts) <$> (fst <$> count_tasks ts))) as ->.
  { rewrite <- !list_fmap_compose. clear. induction (count_tasks ts) as [|e l IH]; cbn; [done|].
    rewrite fmap_app. f_equal. exact IH. }
  apply fmap_Permutation. unfold tasks_of_node. rewrite concat_keys_perm by by apply map_ok_NoDup.
  assert (forall t, t ∈ ts -> tk_assigned_node t ∈ (fst <$> count_tasks ts) <-> tk_assigned_node t <> []) as Hiff.
  { intros t Ht. rewrite list_elem_of_fmap. split.
    - intros ([n c] & Hn & Hin). cbn in Hn. rewrite Hn. apply map_find_elem in Hin; [|done].
      rewrite Hf in Hin. case_decide; naive_solver.
    - intros Hne. exists (tk_assigned_node t, blen (tasks_of_node (tk_assigned_node t) ts)). split; [done|].
      apply map_find_elem; [done|]. rewrite Hf, decide_False; [done|]. intros [?|E]; [done|].
      assert (t ∈ tasks_of_node (tk_assigned_node t) ts) as Hin by (by apply list_elem_of_filter).
      rewrite E in Hin. by apply not_elem_of_nil in Hin. }
  revert Hiff. generalize (fst <$> count_tasks ts). clear. intros ks.
  induction ts as [|t ts IH]; intros Hiff; [done|]. rewrite !filter_cons.
  pose proof (Hiff t ltac:(left)) as Ht.
  assert (filter (fun t => tk_assigned_node t ∈ ks) ts ≡ₚ filter (fun t => tk_assigned_node t <> []) ts) as Hts.
  { apply IH. intros t' Ht'. apply Hiff. by right. }
  repeat case_decide; try tauto; by rewrite Hts.
Qed.

Section to_node.
Context {AL : Allocator} {SS : StdSort} {FR : FaultRpc}.

(** What the node is to see of a task of the request that was given [cpu]. *)
Definition node_task (g : TaskInfo) (cpu : Z) : task_info :=
  {| ti_pid := 0; ti_pidfd := 0;
     ti_name := in_array 16 (substr0 (gt_name g) 15);
     ti_sched_priority := u32 (gt_priority g);
     ti_sched_policy := u32 (SchedPolicyToInt (gt_policy g));
     ti_period := gt_period g;
     ti_release_time := u32 (gt_release_time g);
     ti_runtime := gt_runtime g;
     ti_deadline := gt_deadline g;
     ti_cpu_affinity := u64 cpu;
     ti_allowable_deadline_misses := u32 (gt_max_dmiss g);
     ti_node_id := in_array 64 (substr0 (gt_node_id g) 63) |}.

Definition int_times (g : TaskInfo) : Prop :=
  0 <= gt_period g < 2 ^ 31 /\ 0 <= gt_runtime g < 2 ^ 31 /\ 0 <= gt_deadline g < 2 ^ 31.

Lemma ns_roundtrip x : 0 <= x < 2 ^ 31 -> u32 (u64 (u64 x * 1000) / 1000) = x.
Proof.
  intros Hx. rewrite (wrapu_id 64 x) by range. rewrite (wrapu_id 64) by range.
  rewrite Z.div_mul by lia. apply wrapu_id. range.
Qed.

Lemma array_text n s : (n < 64)%nat -> substr0 (set_char (strncpy (zeros (S n)) s n) n x00) n = substr0 s n.
Proof.
  intros Hn. unfold substr0. assert (zeros (S n) !! n = Some x00) as Hz by (apply lookup_replicate; split; [done|apply Nat.lt_succ_diag_r]).
  assert (set_char (strncpy (zeros (S n)) s n) n x00 = strncpy (zeros (S n)) s n) as ->.
  { unfold set_char. apply list_insert_id. unfold strncpy.
    pose proof (length_take (cstr s) n). set (x := take n (cstr s)) in *.
    assert (length x <= n)%nat as Hx by lia. clearbody x. clear H.
    rewrite lookup_app_r by lia. rewrite lookup_app_r by (rewrite length_zeros; lia).
    rewrite length_zeros, lookup_drop.
    replace (n + (n - length x - (n - length x)))%nat with n by lia. done. }
  rewrite cstr_strncpy by done. by rewrite take_take, Nat.min_id.
Qed.

Lemma node_task_made w g n cpu :
  int_times g -> n = gt_node_id g ->
  task_info_of (make_sched_task ((convert_task w g) <| tk_assigned_node := n |> <| tk_assigned_cpu := cpu |>))
    = node_task g cpu.
Proof.
  intros (Hp & Hr & Hd) ->. unfold task_info_of, make_sched_task, node_task.
  cbn -[substr0 set_char strncpy zeros in_array wrapu Z.div Z.mul].
  rewrite !ns_roundtrip by done. rewrite wrapu_idemp.
  rewrite (array_text 15), (array_text 63) by lia. done.
Qed.

(** The tasks of a request that are placed at all. *)
Definition sent_of (mgr : NodeConfigManager) (w : list byte) (gs : list TaskInfo) : list TaskInfo :=
  filter (fun g => eligible (cpus_of mgr) (convert_task w g) = true) gs.

(** The CPU is one the node of the task offers. *)
Definition cpu_of_node (mgr : NodeConfigManager) (g : TaskInfo) (cpu : Z) : Prop :=
  cpu = -1 \/ exists cs, map_find (gt_node_id g) (cpus_of mgr) = Some cs /\ cpu ∈ cs.

Lemma sent_tasks_of mgr w gs ts :
  Forall int_times gs -> Forall2 (placed (cpus_of mgr)) (convert_task w <$> gs) ts ->
  exists cpus, task_info_of <$> (make_sched_task <$> filter (fun t => tk_assigned_node t <> []) ts) =
      zip_with node_task (sent_of mgr w gs) cpus /\
    Forall2 (cpu_of_node mgr) (sent_of mgr w gs) cpus.
Proof.
  intros Hint. revert ts. induction Hint as [|g gs Hg _ IH]; intros ts Hpl; cbn [fmap list_fmap] in Hpl.
  { apply Forall2_nil_inv_l in Hpl as ->. exists []. split; [done|constructor]. }
  apply Forall2_cons_inv_l in Hpl as (t & ts' & Ht & Hpl & ->).
  destruct (IH ts' Hpl) as (cpus & Heq & Hc). unfold sent_of in *. rewrite !filter_cons.
  apply placed_cases in Ht as [[He (cpu & -> & Hcpu)]|[He ->]]; rewrite He.
  - pose proof (eligible_target _ _ He) as Hne.
    rewrite !decide_True by done. exists (cpu :: cpus). split.
    + rewrite !fmap_cons, Heq, (node_task_made w g (tk_target_node (convert_task w g)) cpu Hg eq_refl). reflexivity.
    + constructor; [|done]. destruct Hcpu as [->|[_ Hcpu]]; [by left|by right].
  - rewrite !decide_False by (done || (intros H; by apply H)). by exists cpus.
Qed.

(** What the node is to see of a task of an Apex.OS workload. *)
Definition apex_node_task (g : TaskInfo) : task_info :=
  {| ti_pid := 0; ti_pidfd := 0;
     ti_name := in_array 16 (substr0 (gt_name g) 15);
     ti_sched_priority := 0;
     ti_sched_policy := 0;
     ti_period := gt_period g;
     ti_release_time := 0;
     ti_runtime := 0;
     ti_deadline := 0;
     ti_cpu_affinity := u64 (gt_cpu_affinity g);
     ti_allowable_deadline_misses := u32 (gt_max_dmiss g);
     ti_node_id := in_array 64 (substr0 (gt_node_id g) 63) |}.

Lemma apex_node_task_made g : int_times g -> task_info_of (apex_entry g) = apex_node_task g.
Proof.
  intros (Hp & _). rewrite <- apex_entry_made. unfold task_info_of, apex_sched_task, apex_node_task.
  cbn -[substr0 set_char strncpy zeros in_array wrapu Z.div Z.mul].
  rewrite ns_roundtrip by done. rewrite (array_text 15), (array_text 63) by lia. done.
Qed.

(** Grouping keeps the tasks. *)
Lemma apex_schedule_tasks ts : concat (snd <$> apex_schedule ts) ≡ₚ apex_entry <$> ts.
Proof.
  assert (forall ns, NoDup ns -> concat ((fun n => filter (fun g => gt_node_id g = n) ts) <$> ns) ≡ₚ
    filter (fun g => gt_node_id g ∈ ns) ts) as Hperm by (intros; by apply concat_keys_perm).
  assert (concat (snd <$> apex_schedule ts) =
    apex_entry <$> concat ((fun n => filter (fun g => gt_node_id g = n) ts) <$> set_of (gt_node_id <$> ts))) as ->.
  { unfold apex_schedule. rewrite <- !list_fmap_compose. induction (set_of _) as [|n l IH]; cbn; [done|].
    rewrite fmap_app. f_equal. exact IH. }
  apply fmap_Permutation. rewrite Hperm by apply sorted_NoDup, sorted_set_of.
  assert (filter (fun g => gt_node_id g ∈ set_of (gt_node_id <$> ts)) ts = ts) as ->; [|done].
  apply list_filter_all. intros g Hg. apply elem_of_set_of. by apply list_elem_of_fmap_2.
Qed.

(** The tasks a node is to receive for a request, for some placement. *)
Definition delivered (mgr : NodeConfigManager) (req : SchedInfoRequest) (l : list task_info) : Prop :=
  if decide (rq_workload_id req = apex_os) then l ≡ₚ apex_node_task <$> rq_tasks req
  else exists cpus, Forall2 (cpu_of_node mgr) (sent_of mgr (rq_workload_id req) (rq_tasks req)) cpus /\
         l ≡ₚ zip_with node_task (sent_of mgr (rq_workload_id req) (rq_tasks req)) cpus.

(** An accepted request is served with a schedule that delivers its tasks. *)
Lemma accepted_delivers mgr req w v :
  Forall int_times (rq_tasks req) -> add_result (Some mgr) req 0 (Some (w, v)) ->
  w = rq_workload_id req /\ delivered mgr req (task_info_of <$> concat (snd <$> v)) /\
  (length (concat (snd <$> v)) <= length (rq_tasks req))%nat.
Proof.
  intros Hint Hadd. unfold delivered.
  inversion Hadd as [Hw|?|?|?|mgr' ts Hw _ Hmgr Hpl _ _]; subst; case_decide; try done.
  - rewrite Hw. split_and!; [done| |].
    + rewrite apex_schedule_tasks, <- list_fmap_compose.
      assert (task_info_of ∘ apex_entry <$> rq_tasks req = apex_node_task <$> rq_tasks req) as ->; [|done].
      apply Forall_fmap_ext_1. eapply Forall_impl; [exact Hint|]. intros g Hg. by apply apex_node_task_made.
    + rewrite (Permutation_length (apex_schedule_tasks _)), length_fmap. done.
  - injection Hmgr as <-.
    destruct (sent_tasks_of mgr (rq_workload_id req) (rq_tasks req) ts Hint Hpl) as (cpus & Heq & Hcpus).
    split_and!; [done| |].
    + exists cpus. split; [done|]. rewrite <- Heq. apply fmap_Permutation, schedule_of_tasks.
    + rewrite (Permutation_length (schedule_of_tasks ts)), <- (length_fmap task_info_of), Heq, length_zip_with.
      pose proof (length_filter (fun g => eligible (cpus_of mgr) (convert_task (rq_workload_id req) g) = true) (rq_tasks req)) as Hl.
      fold (sent_of mgr (rq_workload_id req) (rq_tasks req)) in Hl. lia.
Qed.

(** C5: End to end: a workload the orchestrator accepts reaches a node that
    polls.  The bytes of the reply, if all of them could be put on the wire,
    unpacked by Timpani-N on a host of any byte order give the workload's id
    and a task list.  For a workload other than "Apex.OS" the list is a
    permutation of the tasks of the request that name a configured node with
    CPUs, each with the name, priority, policy, times, tolerance and node of
    the request and a CPU of that node (or none), and the hyperperiod is the
    workload's.  For the workload "Apex.OS" it is a permutation of all tasks of
    the request, whatever nodes they name, each with its name, period, affinity
    mask, tolerance and node, while priority, policy, runtime, deadline and
    release time are zero, and the hyperperiod is 0.  (Times are between 0 and
    2^31 - 1 microseconds, there are less than 2^31 tasks, and malloc succeeds
    for their arrays.) *)
Theorem workload_reaches_node (h1 h2 : Host) {K : Kernel} `{!MallocOk K} req name o a mgr bytes o' s :
  represents (HO := h1) o a -> mem_ok (length (rq_tasks req)) ->
  config_loaded (sv_global_scheduler (or_service o)) = Some mgr ->
  Forall int_times (rq_tasks req) -> blen (rq_tasks req) < 2 ^ 31 ->
  length (si_workload_id (sinfo_of s)) = 64%nat ->
  orch_run (HO := h1) [EvAdd req; EvPoll name] o = Ret ([RStatus 0; RSchedule (Some bytes)], o') ->
  exists v rs b, SerializeSchedInfo (HO := h1) (rq_workload_id req) (served_hyperperiod req) v
      = Ret (Some (rs, Some b)) /\ bytes = readable b /\
    (Forall (fun r => r = 0) rs ->
     wp (deserialize_sched_info (HO := h2) (received bytes)) (fun '(r, b') s' =>
       r = TT_SUCCESS /\ readable b' = [] /\
       cstr (si_workload_id (sinfo_of s')) = substr0 (rq_workload_id req) 63 /\
       hp_hyperperiod_us (cx_hp (n_ctx s')) =
         (if decide (rq_workload_id req = apex_os) then 0 else u64 (hyperperiod_of req)) /\
       delivered mgr req (snd <$> si_tasks (sinfo_of s'))) s).
Proof.
  intros Hr Hmem Hcfg Hint Hlen Hwl Hrun. cbn [orch_run] in Hrun.
  destruct (event_simulated (EvAdd req) o a Hr Hmem) as (r1 & o1 & a1 & E1 & Hr1 & Hm1 & _).
  rewrite E1 in Hrun. cbn [mbind outcome_bind] in Hrun.
  destruct (event_simulated (EvPoll name) o1 a1 Hr1 I) as (r2 & o2 & a2 & E2 & _ & Hm2 & _).
  rewrite E2 in Hrun. cbn [mbind outcome_bind] in Hrun. injection Hrun as -> -> _. rewrite Hcfg in Hm1.
  inversion Hm2 as [| |w v hp ? rs b Hser| | | |]; subst. clear Hm2.
  inversion Hm1 as [? ? ? ? ? Hadd| | | | | |]; subst. clear Hm1.
  destruct (accepted_delivers mgr req w v Hint Hadd) as (-> & Hdel & Hcount).
  exists v, rs, b. split_and!; [done|done|]. intros Hrs. eapply wp_mono.
  - eapply (unpack_serialized h1 h2 (rq_workload_id req) (served_hyperperiod req) v); [done|done|lia|done].
  - intros [r b'] s' (-> & Hb' & Ht & _ & Hwid & Hhp). split_and!; [done|done|exact Hwid| |by rewrite Ht].
    rewrite Hhp. unfold served_hyperperiod. by case_decide.
Qed.

(** ** A request during a callback *)

(** GetSchedInfoMap gives the callbacks a copy of the pointers and releases
    the lock.  A request that is handled before the callback has read the arrays
    frees them, whatever the outcome of the request: the callback then reads
    freed memory. *)
Theorem request_frees_snapshot {HO : Host} req o w n t l v :
  orch_ok o (Some (w, (n, t :: l) :: v)) -> mem_ok (length (rq_tasks req)) ->
  exists m st o', (GetSchedInfoMap false (or_service o)).1.1 = [(w, m)] /\
    read_nodes m (or_heap o) = Ret ((n, t :: l) :: v) /\
    orch_add req o = Ret (st, o') /\ read_nodes m (or_heap o') = UB.
Proof.
  intros Hok Hmem. pose proof (oo_service _ _ Hok) as Hs.
  destruct (so_map _ _ _ Hs) as (m & Em & _ & Hown & _).
  destruct (orch_add_effect req o _ Hok Hmem) as (st & o' & cur' & E & _ & _ & _ & _ & _ & _ & Hold).
  exists m, st, o'. split_and!; [done|by apply read_nodes_owned|done|].
  destruct m as [|[n' si] m]; [by destruct Hown as [H%Forall2_length _]|].
  pose proof (owns_ptrs_lt _ _ _ (si_ptr si) Hown (so_heap _ _ _ Hs) ltac:(left)) as Hlt.
  apply owns_cons in Hown as ((_ & Hl & _ & _) & _ & _). cbn in Hl. cbn [read_nodes]. unfold read_tasks.
  rewrite Hl, (proj2 (Z.leb_gt _ _)) by (cbn; lia). unfold h_read. rewrite Hold by lia. done.
Qed.

End to_node.

(** ** Starting the event loop *)

(** The threads of [DBusServer::Start]: the constructor of the thread object,
    [running_.store(true)], and the loop that tests [running_]. *)
Inductive loop_thread := LoopNotStarted | Looping | LoopExited.
Inductive main_thread := MainSpawns | MainStores | MainReturnsTrue.

Record start_state := mk_start_state { ss_running : bool; ss_loop : loop_thread; ss_main : main_thread }.

Inductive start_step : start_state -> start_state -> Prop :=
  | st_spawn r : start_step (mk_start_state r LoopNotStarted MainSpawns) (mk_start_state r Looping MainStores)
  | st_store r l : start_step (mk_start_state r l MainStores) (mk_start_state true l MainReturnsTrue)
  | st_turn m : start_step (mk_start_state true Looping m) (mk_start_state true Looping m)
  | st_exit m : start_step (mk_start_state false Looping m) (mk_start_state false LoopExited m).

Definition start_init : start_state := mk_start_state false LoopNotStarted MainSpawns.

(** Start stores [running_] after it has created the thread that loops while
    [running_] holds.  Start always gets to return true, and then the server is
    marked running, but there is a run in which the loop has ended before its
    first turn, and it can never be entered again. *)
Theorem event_loop_start_race :
  (exists s, rtc start_step start_init s /\ ss_main s = MainReturnsTrue /\ ss_loop s = Looping) /\
  (exists s, rtc start_step start_init s /\ ss_main s = MainReturnsTrue /\ ss_running s = true /\
     ss_loop s = LoopExited /\ forall s', rtc start_step s s' -> ss_loop s' = LoopExited).
Proof.
  split.
  - exists (mk_start_state true Looping MainReturnsTrue). split; [|done].
    eapply rtc_l; [apply st_spawn|]. eapply rtc_l; [apply st_store|]. apply rtc_refl.
  - exists (mk_start_state true LoopExited MainReturnsTrue). split_and!; [|done..|].
    + eapply rtc_l; [apply st_spawn|]. eapply rtc_l; [apply st_exit|]. eapply rtc_l; [apply st_store|].
      apply rtc_refl.
    + intros s' Hs. remember (mk_start_state true LoopExited MainReturnsTrue) as s eqn:E.
      induction Hs as [|x y z Hxy _ _]; subst; [done|]. inversion Hxy.
Qed.

(** ** Concrete runs *)

#[local] Instance ex_rpc : FaultRpc :=
  {| rpc_channel := fun _ => true; rpc_stub := fun _ => true; rpc_notify := fun _ _ => (true, 0) |}.
#[local] Existing Instance ex_sort.
#[local] Existing Instance ex_alloc.

Definition ex_orch : orch :=
  mk_orch ex_service heap_empty (mk_DBusServer true None [])
    (Initialize (str "localhost:50053") (mk_FaultServiceClient false [])).2.

Lemma ex_orch_represents (h : Host) : represents (HO := h) ex_orch None.
Proof. split; [|done]. split; [apply ex_service_ok|done|done]. Qed.

Lemma ex_fits evs : Forall (fun e => match e with EvAdd req => (length (rq_tasks req) <= 1000)%nat | _ => True end) evs ->
  Forall event_fits evs.
Proof. intros H. eapply Forall_impl; [exact H|]. intros [] He; [|done..]. by apply ex_mem_ok. Qed.

Definition ex_events : list oevent :=
  [EvPoll (str "node01"); EvAdd ex_request; EvPoll (str "node01"); EvDmiss (str "node01") (str "sensor");
   EvSync (str "node01") (mk_timespec 5 0)].

Lemma orchestrator_refines_machine_witness :
  exists rs o' a', orch_run (HO := le_host) ex_events ex_orch = Ret (rs, o') /\
    machine_run (HO := le_host) (Some ex_manager) true (None, None) ex_events rs a'.
Proof.
  destruct (orchestrator_refines_machine (HO := le_host) ex_events ex_orch None None) as (rs & o' & a' & b' & E & _ & _ & H).
  - apply ex_orch_represents.
  - reflexivity.
  - apply ex_fits. repeat (constructor; cbn; try done; try lia).
  - exists rs, o', (a', b'). split; [exact E|exact H].
Defined.

(** A state that serves the example workload. *)
Lemma ex_serving : exists o w v, represents (HO := le_host) o (Some (w, v, Some 60000)) /\
  v <> [] /\ fst <$> v = [str "node01"] /\ ds_node_sync_map (or_dbus o) = [] /\
  (exists n t l v', v = (n, t :: l) :: v').
Proof.
  destruct (orch_add_effect (HO := le_host) ex_request ex_orch None (rp_ok _ _ (ex_orch_represents le_host)))
    as (st & o & cur & E & Hok & Hres & _ & Hd & _ & Hhp & _); [apply ex_mem_ok; cbn; lia|].
  assert (match orch_add ex_request ex_orch with
          | Ret (st, o) => (st, match read_nodes (match sv_sched_info_map (or_service o) with (_, m) :: _ => m | [] => [] end) (or_heap o)
                                with Ret v => (fun e => (e.1, length e.2)) <$> v | UB => [] end)
          | UB => (7, []) end = (0, [(str "node01", 2%nat)])) as Hv by (vm_compute; reflexivity).
  rewrite E in Hv. injection Hv as -> Hv.
  inversion Hres as [Hx|?|?|?|mgr ts _ _ _ _ _ Hne Hz Hcur]; [done|].
  subst cur. pose proof (so_map _ _ _ (oo_service _ _ Hok)) as (m & Em & _ & Hown & _).
  rewrite Em, (read_nodes_owned _ _ _ Hown) in Hv.
  exists o, (str "wl-1"), (schedule_of ts). split; [split; [exact Hok|]|].
  { intros w' v' hp' [= <- <- <-]. transitivity (Some (hyperperiod_of ex_request)); [by apply Hhp|].
    vm_compute. reflexivity. }
  split; [done|]. destruct (schedule_of ts) as [|[n l] v]; [done|]. cbn in Hv. injection Hv as -> Hl Hv.
  destruct v; [|done]. destruct l as [|t l]; [done|].
  split_and!; [done|by rewrite Hd|]. by exists (str "node01"), t, l, [].
Qed.

Lemma sync_is_barrier_witness :
  exists o rs o', orch_run (HO := le_host) [EvSync (str "node01") (mk_timespec 5 0)] o = Ret (rs, o') /\
    sync_replies rs = [(1, Some (mk_timespec 6 0))].
Proof.
  destruct ex_serving as (o & w & v & Hr & Hne & Hk & Hm & _).
  destruct (sync_is_barrier (HO := le_host) (str "node01") (mk_timespec 5 0) [] o w v (Some 60000) Hr Hne Hm)
    as (rs & o' & E & H); [constructor|].
  exists o, rs, o'. split; [exact E|]. rewrite H, Hk. vm_compute. reflexivity.
Defined.

Definition ex_started : orch :=
  ex_orch <| or_dbus ::= fun d => d <| ds_node_sync_map := marks [str "node01"] [str "node01"] |> |>.

Lemma new_nodes_never_start_witness :
  exists rs o', orch_run (HO := le_host) [EvAdd ex_request; EvSync (str "node02") (mk_timespec 9 0)] ex_started
      = Ret (rs, o') /\ Forall (fun r => r = (0, None)) (sync_replies rs).
Proof.
  apply (new_nodes_never_start (HO := le_host) _ ex_started None [str "node01"] [str "node01"] (str "node02")).
  - split; [|done]. split; [apply ex_service_ok|done|done].
  - repeat constructor.
  - done.
  - reflexivity.
  - apply (bool_decide_eq_true_1 (_ ∉ _)). reflexivity.
  - apply ex_fits. repeat (constructor; cbn; try done; try lia).
  - repeat constructor.
Defined.

Definition ex_reply : list byte :=
  match orch_run (HO := le_host) [EvAdd ex_request; EvPoll (str "node01")] ex_orch with
  | Ret ([_; RSchedule (Some b)], _) => b
  | _ => []
  end.

Definition ex_after : orch :=
  match orch_run (HO := le_host) [EvAdd ex_request; EvPoll (str "node01")] ex_orch with
  | Ret (_, o) => o
  | UB => ex_orch
  end.

Lemma workload_reaches_node_witness :
  exists v rs b, SerializeSchedInfo (HO := le_host) (str "wl-1") (Some 60000) v = Ret (Some (rs, Some b)) /\
    ex_reply = readable b.
Proof.
  destruct (workload_reaches_node le_host be_host (K := default_kernel) ex_request (str "node01") ex_orch None
    ex_manager ex_reply ex_after nstate_init) as (v & rs & b & E & Hb & _).
  - apply ex_orch_represents.
  - apply ex_mem_ok. cbn. lia.
  - done.
  - repeat constructor; cbn; lia.
  - cbn. lia.
  - reflexivity.
  - vm_compute. reflexivity.
  - exists v, rs, b. split; [|exact Hb]. exact E.
Defined.

Lemma request_frees_snapshot_witness :
  exists o m st o', orch_add ex_request o = Ret (st, o') /\ read_nodes m (or_heap o') = UB.
Proof.
  destruct ex_serving as (o & w & v & Hr & _ & _ & _ & (n & t & l & v' & ->)).
  destruct (request_frees_snapshot (HO := le_host) ex_request o w n t l v' (rp_ok _ _ Hr))
    as (m & st & o' & _ & _ & E & Hub); [apply ex_mem_ok; cbn; lia|].
  by exists o, m, st, o'.
Defined.

Lemma deadline_miss_forwarded_witness :
  exists o', DMissCallback (str "node01") (str "sensor") ex_orch = Ret o' /\
    fc_sent (or_client o') = [mk_FaultInfo [] (str "node01") (str "sensor") FAULT_DMISS].
Proof.
  destruct (deadline_miss_forwarded (HO := le_host) (str "node01") (str "sensor") ex_orch None
    (rp_ok _ _ (ex_orch_represents le_host))) as (o' & E & _ & H).
  exists o'. split; [exact E|exact H].
Defined.
