(* ===== verification/DBusLifecycle.v ===== *)
(** * Starting and stopping the orchestrator's servers

    [DBusServer::Start], [Stop] and [EventLoop] (timpani-o/src/dbus_server.cpp)
    and [SchedInfoServer::Start] and [Stop] (schedinfo_service.cpp) with the
    handles they own: event loop, event source, listening socket, threads and
    gRPC server.  A result [None] stands for an exception that leaves the
    function. *)

From S2P Require Import Prelude Time Types Kernel TrpcServer.

(** ** Handles *)

(** The members that are handles.  [dh_thread] is [event_thread_ &&
    event_thread_->joinable()]; [dh_buf] is [sched_info_buf_ != nullptr]. *)
Record dbus_handles := mk_dbus_handles {
  dh_event_source : option Z;
  dh_event : option Z;
  dh_thread : bool;
  dh_server_fd : Z;
  dh_running : bool;
  dh_sched_info_server : bool;
  dh_buf : bool;
}.

#[export] Instance dbus_handles_eta : Eta dbus_handles := fun d =>
  mk_dbus_handles (dh_event_source d) (dh_event d) (dh_thread d) (dh_server_fd d) (dh_running d)
    (dh_sched_info_server d) (dh_buf d).

(** The constructor. *)
Definition DBusServer_ctor : dbus_handles := mk_dbus_handles None None false (-1) false false false.

Section servers.
Context {K : Kernel}.

Definition SetSchedInfoServer (server : bool) (d : dbus_handles) : dbus_handles :=
  d <| dh_sched_info_server := server |>.

Definition trpc_ops : trpc_server_ops_t := mk_trpc_server_ops true true true true.

(** [event_source_ = sd_event_source_unref(event_source_)] and the like. *)
Definition unref (c : Z -> call unit) (p : option Z) : N unit :=
  match p with Some x => sys (c x) | None => mret tt end.

Definition Stop (d : dbus_handles) : N dbus_handles :=
  d ← (if dh_running d then
         (if dh_thread d then sys (ThreadJoin T_events) else mret tt) ;;
         mret (d <| dh_running := false |> <| dh_thread := false |>)
       else mret d);
  let d := SetSchedInfoServer false (d <| dh_buf := false |>) in
  unref SdEventSourceUnref (dh_event_source d) ;;
  unref SdEventUnref (dh_event d) ;;
  (if 0 <=? dh_server_fd d then _ ← sys (Close (dh_server_fd d)); mret tt else mret tt) ;;
  mret (d <| dh_event_source := None |> <| dh_event := None |>
          <| dh_server_fd := if 0 <=? dh_server_fd d then -1 else dh_server_fd d |>).

(** Assigning to [event_thread_] destroys the thread it held, which must not be
    joinable; a thread that cannot be created is an exception, so the test of
    [joinable()] that follows never fails. *)
Definition start_thread (d : dbus_handles) : N (option dbus_handles) :=
  ok ← sys (ThreadStart T_events);
  if (ok : bool) then (if dh_thread d then undef else mret (Some (d <| dh_thread := true |>)))
  else mret None.

Definition Start (port : Z) (sinfo_server : bool) (d : dbus_handles)
  : N (option bool * dbus_handles) :=
  if dh_running d then mret (Some false, d)
  else
    '(ret, event) ← sys SdEventNew;
    if ret <? 0 then mret (Some false, d)
    else
      let d := d <| dh_event := Some event |> in
      '(ret, source) ← trpc_server_create port event (Some trpc_ops);
      if ret <? 0 then (d ← Stop d; mret (Some false, d))
      else
        let d := SetSchedInfoServer sinfo_server
                   (d <| dh_event_source := source |> <| dh_server_fd := ret |>) in
        r ← start_thread d;
        match r with
        | None => mret (None, d)
        | Some d => mret (Some true, d <| dh_running := true |>)
        end.

(** The loop of the thread; [running] is what its reads of [running_] give, and
    the result tells whether it ended before they were used up. *)
Fixpoint EventLoop (running : list bool) (event : Z) : N bool :=
  match running with
  | [] => mret false
  | false :: _ => mret true
  | true :: running =>
      ret ← sys (SdEventRun event 100000);
      if (ret <? 0) && negb (ret =? - EAGAIN) && negb (ret =? - EINTR) then mret true
      else EventLoop running event
  end.

(** ** SchedInfoServer *)

Record sinfo_handles := mk_sinfo_handles { sh_server : bool; sh_thread : bool }.

Definition sinfo_Start (port : Z) (d : sinfo_handles) : N (option bool * sinfo_handles) :=
  ok ← sys (GrpcBuildAndStart (str "0.0.0.0:" ++ fmt_d port));
  if (ok : bool) then
    t ← sys (ThreadStart T_grpc);
    if (t : bool) then (if sh_thread d then undef else mret (Some true, mk_sinfo_handles true true))
    else mret (None, mk_sinfo_handles true (sh_thread d))
  else mret (Some false, mk_sinfo_handles false (sh_thread d)).

Definition sinfo_Stop (d : sinfo_handles) : N sinfo_handles :=
  (if sh_server d then sys GrpcShutdown else mret tt) ;;
  (if sh_thread d then sys (ThreadJoin T_grpc) else mret tt) ;;
  mret (mk_sinfo_handles (sh_server d) false).

(** Calls of the public functions of [DBusServer], in any order; an exception
    ends the sequence. *)
Inductive dbus_op := OpStart (port : Z) (sinfo_server : bool) | OpStop.

Definition dbus_op_run (o : dbus_op) (d : dbus_handles) : N (bool * dbus_handles) :=
  match o with
  | OpStart port srv => '(r, d) ← Start port srv d; mret (bool_decide (is_Some r), d)
  | OpStop => d ← Stop d; mret (true, d)
  end.

Fixpoint dbus_ops_run (ops : list dbus_op) (d : dbus_handles) : N (bool * dbus_handles) :=
  match ops with
  | [] => mret (true, d)
  | o :: ops =>
      '(ok, d) ← dbus_op_run o d;
      if (ok : bool) then dbus_ops_run ops d else mret (false, d)
  end.

End servers.

(** ** Accounting *)

(** [k] if [y] is the handle [x]. *)
Definition at_handle (x y k : Z) : Z := if y =? x then k else 0.

(** For each handle [x]: references to the event loop [x], to the event source
    [x], and the open socket [x] (obtained minus released); running event
    threads. *)
Definition ev_loop (x : Z) (e : event) : Z :=
  match e with
  | Event SdEventNew r => if fst r <? 0 then 0 else at_handle x (snd r) 1
  | Event (SdEventUnref y) _ => at_handle x y (-1)
  | _ => 0
  end.
Definition ev_source (x : Z) (e : event) : Z :=
  match e with
  | Event (SdEventAddIo _ _) r => if fst r <? 0 then 0 else at_handle x (snd r) 1
  | Event (SdEventSourceUnref y) _ => if y =? 0 then 0 else at_handle x y (-1)
  | _ => 0
  end.
Definition ev_sock (x : Z) (e : event) : Z :=
  match e with
  | Event SocketInet r => if fst r <? 0 then 0 else at_handle x (fst r) 1
  | Event (Close y) _ => at_handle x y (-1)
  | _ => 0
  end.
Definition ev_thread (e : event) : Z :=
  match e with
  | Event (ThreadStart T_events) r => if r : bool then 1 else 0
  | Event (ThreadJoin T_events) _ => -1
  | _ => 0
  end.

(** The times the listening socket [x] could not be configured, bound or set
    listening: the code returns without closing it. *)
Definition ev_lost (x : Z) (e : event) : Z :=
  match e with
  | Event (Setsockopt y l o _) r =>
      if (l =? SOL_SOCKET) && (o =? SO_REUSEADDR) && (fst r <? 0) then at_handle x y 1 else 0
  | Event (BindInet y _) r => if fst r <? 0 then at_handle x y 1 else 0
  | Event (Listen y) r => if fst r <? 0 then at_handle x y 1 else 0
  | _ => 0
  end.

Definition one_if (b : bool) : Z := if b then 1 else 0.

(** The members name exactly what is held, handle by handle, up to the sockets
    the code has lost. *)
Record accounted (d : dbus_handles) (s : nstate) : Prop := {
  ac_loop : forall x, tally_of (ev_loop x) s = one_if (bool_decide (dh_event d = Some x));
  ac_source : forall x, tally_of (ev_source x) s = one_if (bool_decide (dh_event_source d = Some x));
  ac_sock : forall x, tally_of (ev_sock x) s =
    one_if (bool_decide (0 <= dh_server_fd d /\ dh_server_fd d = x)) + tally_of (ev_lost x) s;
  ac_thread : tally_of ev_thread s = one_if (dh_thread d);
  ac_null : dh_event_source d <> Some 0;
}.

(** Nothing is held but the sockets the code has lost. *)
Definition nothing_held (s : nstate) : Prop := accounted DBusServer_ctor s.

Lemma nothing_held_sockets s x : nothing_held s -> tally_of (ev_sock x) s = tally_of (ev_lost x) s.
Proof. intros H. rewrite (ac_sock _ _ H x), bool_decide_false by (cbn; lia). done. Qed.

(** Between calls that did not throw: either everything is there or nothing. *)
Definition settled (d : dbus_handles) : Prop :=
  if dh_running d
  then dh_thread d = true /\ is_Some (dh_event d) /\ is_Some (dh_event_source d) /\ 0 <= dh_server_fd d
  else d = DBusServer_ctor.

(** sd_event_add_io(3): the source is stored on success and only then. *)
Class AddIoStores (K : Kernel) := {
  addio_source : forall tr ev fd,
    fst (kresp tr (SdEventAddIo ev fd)) < 0 <-> snd (kresp tr (SdEventAddIo ev fd)) = 0;
}.

Section lifecycle.
Context {K : Kernel} {SE : SetsErrno K} {AI : AddIoStores K}.

(** Everything that counts for the handle [x]; sockets without the lost ones. *)
Definition holdings (x : Z) (s : nstate) : Z * Z * Z * Z :=
  (tally_of (ev_loop x) s, tally_of (ev_source x) s, tally_of (ev_sock x) s - tally_of (ev_lost x) s,
   tally_of ev_thread s).

Lemma accounted_holdings d s s' :
  (forall x, holdings x s' = holdings x s) -> accounted d s -> accounted d s'.
Proof.
  intros H [H1 H2 H3 H4 H5]. unfold holdings in H. split; try intros x; [| | |specialize (H 0)|done].
  1-3: specialize (H x); specialize (H1 x); specialize (H2 x); specialize (H3 x); injection H as E1 E2 E3 E4; lia.
  injection H as _ _ _ E. lia.
Qed.

Ltac holdings_tac :=
  unfold holdings, tally_of; cbn -[Z.add Z.sub at_handle]; repeat (apply pair_equal_spec; split); try lia.

Lemma bool_decide_handle x y : 0 <= y -> one_if (bool_decide (0 <= y /\ y = x)) = at_handle x y 1.
Proof.
  intros Hy. unfold at_handle. destruct (Z.eqb_spec y x); [rewrite bool_decide_true by done|
    rewrite bool_decide_false by naive_solver]; done.
Qed.

(** What making the socket adds to the holdings of [x]. *)
Lemma create_server_socket_holdings x port s :
  wp (create_server_socket port) (fun r s' =>
    holdings x s' = (tally_of (ev_loop x) s, tally_of (ev_source x) s,
      tally_of (ev_sock x) s - tally_of (ev_lost x) s + one_if (bool_decide (0 <= r /\ r = x)), tally_of ev_thread s)) s.
Proof.
  assert (Hno : forall n, 0 < n -> one_if (bool_decide (0 <= - n /\ - n = x)) = 0).
  { intros n Hn. by rewrite bool_decide_false by lia. }
  unfold create_server_socket. apply wp_bind, wp_sys. pose proof (errno_socket (n_trace s)) as He.
  destruct (kresp _ SocketInet) as [fd errno] eqn:Es. simpl in He. destruct (Z.ltb_spec fd 0) as [Hfd|Hfd].
  { apply wp_ret. rewrite (Hno _ (He Hfd)). holdings_tac. rewrite (proj2 (Z.ltb_lt fd 0)) by done. lia. }
  assert (Hs : ev_sock x (Event SocketInet (fd, errno)) = at_handle x fd 1).
  { cbn. by rewrite (proj2 (Z.ltb_ge fd 0)) by done. }
  apply or_errno_spec.
  { intros H. rewrite Hno by (by apply errno_setsockopt). holdings_tac. cbn in Hs, H. rewrite Hs.
    rewrite (proj2 (Z.ltb_lt _ _) H). cbn. lia. }
  intros H1%Z.ltb_ge. apply or_errno_spec.
  { intros H. rewrite Hno by (by apply errno_bind). holdings_tac. cbn in Hs, H, H1. rewrite Hs, H1.
    rewrite (proj2 (Z.ltb_lt _ _) H). cbn. lia. }
  intros H2%Z.ltb_ge. apply or_errno_spec.
  { intros H. rewrite Hno by (by apply errno_listen). holdings_tac. cbn in Hs, H, H1, H2. rewrite Hs, H1, H2.
    rewrite (proj2 (Z.ltb_lt _ _) H). cbn. lia. }
  intros H3%Z.ltb_ge. apply wp_ret. rewrite bool_decide_handle by done. holdings_tac.
  cbn in Hs, H1, H2, H3. rewrite Hs, H1, H2, H3. cbn. lia.
Qed.

(** The effect of creating the server on what is held. *)
Lemma trpc_server_create_holdings x port event ops s :
  wp (trpc_server_create port event ops) (fun '(r, source) s' =>
    holdings x s' = (tally_of (ev_loop x) s,
      tally_of (ev_source x) s + one_if (bool_decide (source = Some x)),
      tally_of (ev_sock x) s - tally_of (ev_lost x) s + one_if (bool_decide (0 <= r /\ r = x)), tally_of ev_thread s) /\
    (r < 0 <-> source = None) /\ source <> Some 0) s.
Proof.
  unfold trpc_server_create. apply wp_bind. eapply wp_mono; [apply (create_server_socket_holdings x)|].
  intros fd s1 H1. unfold holdings in H1.
  apply pair_equal_spec in H1 as [[[E1 E2]%pair_equal_spec E3]%pair_equal_spec E4].
  unfold tally_of in *. destruct (Z.ltb_spec fd 0) as [Hlt|Hge].
  - rewrite bool_decide_false in E3 by lia. apply wp_bind, wp_sys, wp_ret.
    rewrite !bool_decide_false by (done || lia). split; [|split; [split; [done|lia]|done]].
    holdings_tac; cbn -[Z.add] in *; lia.
  - do 2 wp_step. apply wp_bind, wp_sys.
    pose proof (addio_source (n_trace s1) event fd) as Hai. cbn in Hai |- *.
    destruct (kresp _ (SdEventAddIo event fd)) as [ret source]. cbn in Hai.
    rewrite bool_decide_handle in E3 by done.
    destruct (Z.ltb_spec ret 0) as [Hr|Hr].
    + do 2 (apply wp_bind, wp_sys). apply wp_ret. rewrite !bool_decide_false by (done || lia).
      split; [|split; [split; [done|lia]|done]]. rewrite (proj1 Hai) by done.
      assert (at_handle x fd (-1) = - at_handle x fd 1) by (unfold at_handle; destruct (fd =? x); lia).
      holdings_tac; cbn in *; rewrite ?(proj2 (Z.ltb_lt ret 0)) by done; cbn in *; lia.
    + apply wp_ret. rewrite bool_decide_handle by done.
      assert (source <> 0) as Hnz by (intros E; apply Hai in E; lia).
      split; [|split; [split; [lia|done]|congruence]].
      assert (at_handle x source 1 = one_if (bool_decide (Some source = Some x))) as Hx.
      { unfold at_handle. destruct (Z.eqb_spec source x) as [->|]; [by rewrite bool_decide_true|].
        rewrite bool_decide_false by congruence. done. }
      holdings_tac; cbn in *; rewrite ?(proj2 (Z.ltb_ge ret 0)) by done; rewrite ?Hx; cbn in *; lia.
Qed.

Lemma unref_spec c p Q s :
  Q tt (match p with Some x => log (c x) tt s | None => s end) ->
  wp (unref c p) Q s.
Proof. destruct p; intros H; [apply wp_sys; by destruct (kresp _ _)|by apply wp_ret]. Qed.

Lemma at_handle_release x y : at_handle x y (-1) = - one_if (bool_decide (Some y = Some x)).
Proof.
  unfold at_handle. destruct (Z.eqb_spec y x) as [->|]; [by rewrite bool_decide_true|].
  by rewrite bool_decide_false by congruence.
Qed.

(** [Stop] releases what the members name and nothing else. *)
Lemma Stop_holdings x d s :
  dh_event_source d <> Some 0 -> (dh_thread d = true -> dh_running d = true) ->
  (dh_server_fd d < 0 -> dh_server_fd d = -1) ->
  wp (Stop d) (fun d' s' => d' = DBusServer_ctor /\
    holdings x s' = (tally_of (ev_loop x) s - one_if (bool_decide (dh_event d = Some x)),
      tally_of (ev_source x) s - one_if (bool_decide (dh_event_source d = Some x)),
      tally_of (ev_sock x) s - tally_of (ev_lost x) s - one_if (bool_decide (0 <= dh_server_fd d /\ dh_server_fd d = x)),
      tally_of ev_thread s - one_if (dh_thread d))) s.
Proof.
  intros H0 Ht Hfd. unfold Stop. apply wp_bind.
  apply (wp_mono _ (fun d' s' => d' = d <| dh_running := false |> <| dh_thread := false |> /\
    holdings x s' = (tally_of (ev_loop x) s, tally_of (ev_source x) s, tally_of (ev_sock x) s - tally_of (ev_lost x) s,
      tally_of ev_thread s - one_if (dh_thread d)))).
  { destruct d as [so ev th fd run srv buf]. cbn in *. destruct run, th; try by specialize (Ht eq_refl).
    - apply wp_bind, wp_sys, wp_ret. split; [done|]. holdings_tac.
    - apply wp_bind, wp_ret, wp_ret. split; [done|]. holdings_tac; cbn; lia.
    - apply wp_ret. split; [done|]. holdings_tac; cbn; lia. }
  intros d1 s1 [-> [[[E1 E2]%pair_equal_spec E3]%pair_equal_spec E4]%pair_equal_spec].
  unfold tally_of in *. destruct d as [so ev th fd run srv buf]. cbn in *.
  apply wp_bind, unref_spec. apply wp_bind, unref_spec. apply wp_bind.
  assert (Hso : forall y, so = Some y -> (y =? 0) = false) by (intros y ->; apply Z.eqb_neq; congruence).
  destruct (Z.leb_spec 0 fd) as [Hge|Hlt].
  - apply wp_bind, wp_sys, wp_ret, wp_ret. split; [done|]. rewrite bool_decide_handle by done.
    assert (at_handle x fd (-1) = - at_handle x fd 1) by (unfold at_handle; destruct (fd =? x); lia).
    destruct so as [y|], ev as [z|]; holdings_tac; cbn; rewrite ?(Hso _ eq_refl), ?at_handle_release;
      cbn in *; rewrite ?(bool_decide_false (None = Some x)) by done; cbn; lia.
  - apply wp_ret, wp_ret. split; [by rewrite Hfd|]. rewrite (bool_decide_false (0 <= fd /\ _)) by lia.
    destruct so as [y|], ev as [z|]; holdings_tac; cbn; rewrite ?(Hso _ eq_refl), ?at_handle_release;
      cbn in *; rewrite ?(bool_decide_false (None = Some x)) by done; cbn; lia.
Qed.

(** What holds for each handle holds for all of them. *)
Lemma wp_forall {A X} (x0 : X) (m : N A) (Q : X -> A -> nstate -> Prop) s :
  (forall x, wp m (Q x) s) -> wp m (fun a s' => forall x, Q x a s') s.
Proof. intros H. pose proof (H x0) as H0. unfold wp in *. destruct (m s) as [[a s']|]; [|done]. intros x. apply (H x). Qed.

Lemma Stop_spec d s :
  accounted d s -> (dh_thread d = true -> dh_running d = true) ->
  (dh_server_fd d < 0 -> dh_server_fd d = -1) ->
  wp (Stop d) (fun d' s' => accounted d' s' /\ d' = DBusServer_ctor) s.
Proof.
  intros [H1 H2 H3 H4 H5] Ht Hfd.
  eapply wp_mono; [apply (wp_forall 0); intros x; by apply (Stop_holdings x)|].
  intros d' s' H. split; [|by destruct (H 0)]. destruct (H 0) as [-> H0].
  injection H0 as _ _ _ Hth. split; [| | |cbn in *; lia|done]; intros x; destruct (H x) as [_ [= E1 E2 E3 _]];
    specialize (H1 x); specialize (H2 x); specialize (H3 x); rewrite bool_decide_false by (cbn; done || lia); cbn; lia.
Qed.

Lemma settled_ctor : settled DBusServer_ctor.
Proof. done. Qed.

Lemma Start_spec port srv d s :
  accounted d s -> settled d ->
  wp (Start port srv d) (fun '(r, d') s' =>
    accounted d' s' /\
    match r with
    | Some true => dh_running d' = true /\ settled d' /\ dh_sched_info_server d' = srv /\ dh_running d = false
    | Some false => d' = d
    | None => True
    end) s.
Proof.
  intros Hac Hset. unfold Start. destruct (dh_running d) eqn:Hrun; [by apply wp_ret|].
  unfold settled in Hset. rewrite Hrun in Hset. subst d. pose proof Hac as [H1 H2 H3 H4 _].
  apply wp_bind, wp_sys. destruct (kresp _ SdEventNew) as [ret event] eqn:Er.
  destruct (Z.ltb_spec ret 0) as [Hr|Hr].
  { apply wp_ret. split; [|done]. apply (accounted_holdings _ s); [|done]. intros x.
    holdings_tac. rewrite (proj2 (Z.ltb_lt ret 0)) by done. done. }
  apply wp_bind. eapply wp_mono; [apply (wp_forall 0); intros x; apply (trpc_server_create_holdings x)|].
  intros [fd source] s1 Hall. destruct (Hall 0) as (_ & Hsrc & Hnz).
  assert (Hx : forall x, tally_of (ev_loop x) s1 = one_if (bool_decide (Some event = Some x)) /\
    tally_of (ev_source x) s1 = one_if (bool_decide (source = Some x)) /\
    tally_of (ev_sock x) s1 = one_if (bool_decide (0 <= fd /\ fd = x)) + tally_of (ev_lost x) s1 /\
    tally_of ev_thread s1 = 0).
  { intros x. destruct (Hall x) as [[= E1 E2 E3 E4] _]. specialize (H1 x). specialize (H2 x). specialize (H3 x).
    unfold tally_of in *. cbn -[Z.add at_handle] in *. rewrite (proj2 (Z.ltb_ge ret 0)) in E1 by done.
    rewrite (bool_decide_false (None = Some x)) in H1, H2 by done. rewrite (bool_decide_false (0 <= -1 /\ _)) in H3 by lia.
    cbn [one_if] in *. split_and!; [|lia|lia|lia]. rewrite E1. unfold at_handle.
    destruct (Z.eqb_spec event x) as [->|]; [rewrite bool_decide_true by done|rewrite bool_decide_false by congruence];
      cbn; lia. }
  clear Hall. destruct (Z.ltb_spec fd 0) as [Hf|Hf].
  - rewrite (proj1 Hsrc Hf) in *. apply wp_bind. eapply wp_mono; [apply Stop_spec; [|done|done]|].
    + split; cbn; try done; intros; destruct (Hx x) as (? & ? & E & ?) || destruct (Hx 0) as (? & ? & E & ?); try done.
      rewrite !bool_decide_false in E |- * by lia. done.
    + intros d' s2 [Hac' ->]. by apply wp_ret.
  - destruct source as [src|]; [|by destruct Hsrc as [_ H]; specialize (H eq_refl); lia].
    apply wp_bind. unfold start_thread. apply wp_bind, wp_sys. cbn [dh_thread SetSchedInfoServer upd eta].
    destruct (kresp _ (ThreadStart _)) as [|] eqn:Et; apply wp_ret, wp_ret; (split; [|done]);
      (split; [| | | |done]); try intros x; first [destruct (Hx x) as (Ea & Eb & Ec & Ed) | destruct (Hx 0) as (Ea & Eb & Ec & Ed)];
      unfold tally_of in *; cbn -[Z.add] in *; lia.
Qed.

Lemma settled_stop d s :
  accounted d s -> settled d ->
  wp (Stop d) (fun d' s' => accounted d' s' /\ d' = DBusServer_ctor) s.
Proof.
  intros Hac Hs. unfold settled in Hs. destruct (dh_running d) eqn:E.
  - apply Stop_spec; [done|done|]. destruct Hs as (_ & _ & _ & ?). lia.
  - subst d. by apply Stop_spec.
Qed.

Lemma dbus_op_spec o d s :
  accounted d s -> settled d ->
  wp (dbus_op_run o d) (fun '(ok, d') s' => accounted d' s' /\ (ok = true -> settled d')) s.
Proof.
  intros Hac Hs. destruct o as [port srv|]; cbn [dbus_op_run]; apply wp_bind.
  - eapply wp_mono; [by apply Start_spec|]. intros [r d'] s' [Hac' Hr]. apply wp_ret. split; [done|].
    destruct r as [[|]|]; [by intros _; destruct Hr as (_ & ? & _)|by intros _; subst|].
    by rewrite bool_decide_false by (by intros []).
  - eapply wp_mono; [by apply settled_stop|]. intros d' s' [Hac' ->]. by apply wp_ret.
Qed.

Lemma dbus_ops_spec ops d s :
  accounted d s -> settled d ->
  wp (dbus_ops_run ops d) (fun '(ok, d') s' => accounted d' s' /\ (ok = true -> settled d')) s.
Proof.
  revert d s. induction ops as [|o ops IH]; intros d s Hac Hs; cbn [dbus_ops_run]; [by apply wp_ret|].
  apply wp_bind. eapply wp_mono; [by apply dbus_op_spec|]. intros [[|] d'] s' [Hac' Hs'].
  - apply IH; auto.
  - by apply wp_ret.
Qed.

(** C24: However Start and Stop are called, also with failures of the system in
    between, the server's members name exactly the event loop, the event source,
    the listening socket and the thread it holds, handle by handle: what it
    releases is what it obtained, once each, and no running thread is dropped.
    The only handles it loses are the listening sockets that could not be
    configured, bound or set listening, which the code leaves open.  While no
    exception was thrown the server is either running with all of its handles,
    or as constructed with none; Stop gets it back there, with nothing held but
    those lost sockets. *)
Theorem dbus_server_lifecycle ops :
  wp (dbus_ops_run ops DBusServer_ctor) (fun '(ok, d) s =>
    accounted d s /\
    (ok = true -> settled d /\
       wp (Stop d) (fun d' s' => d' = DBusServer_ctor /\ nothing_held s') s)) nstate_init.
Proof.
  eapply wp_mono; [by apply dbus_ops_spec|]. intros [ok d] s [Hac Hs]. split; [done|].
  intros Hok. specialize (Hs Hok). split; [done|].
  eapply wp_mono; [by apply settled_stop|]. intros d' s' [Hac' ->]. done.
Qed.

(** The thread makes no call after it has read [false], and it ends. *)
Lemma EventLoop_ends event before after s :
  Forall (eq true) before ->
  wp (EventLoop (before ++ false :: after) event) (fun ended s' =>
    ended = true /\ (length (n_trace s') <= length (n_trace s) + length before)%nat) s.
Proof.
  intros Hb. revert s. induction Hb as [|b l <- _ IH]; intros s; cbn [EventLoop app].
  - apply wp_ret. cbn. lia.
  - apply wp_bind, wp_sys. destruct (_ && _ && _).
    + apply wp_ret. cbn. lia.
    + eapply wp_mono; [apply IH|]. cbn. intros ended s' [? ?]. split; [done|lia].
Qed.

End lifecycle.

(** ** A busy port *)

#[export] Instance busy_port_addio : AddIoStores busy_port.
Proof. split; simpl; lia. Qed.

Lemma dbus_server_lifecycle_witness :
  wp (dbus_ops_run (K := busy_port) [OpStart 7777 true; OpStop; OpStart 7778 true] DBusServer_ctor)
    (fun '(_, d) s => accounted d s) nstate_init.
Proof.
  eapply wp_mono;
    [apply (dbus_server_lifecycle (K := busy_port) (SE := busy_port_errno) (AI := busy_port_addio))|].
  by intros [ok d] s [? _].
Defined.

(** Start, serve, stop. *)
Example ex_start_stop :
  wp (dbus_ops_run (K := default_kernel) [OpStart 7777 true; OpStart 7777 true; OpStop] DBusServer_ctor)
    (fun '(ok, d) s => ok = true /\ d = DBusServer_ctor /\ length (n_trace s) = 11%nat) nstate_init.
Proof. vm_compute. auto. Qed.
