(* ===== verification/OrchMain.v ===== *)
(** * The orchestrator's program (timpani-o/src/main.cpp)

    Command line, start-up of the servers and the loop of the main thread; the
    state in which the program starts to serve is one the theorems of
    Orchestrator apply to. *)

From S2P Require Import CppStd Serialize NodeConfig GlobalScheduler SchedInfoService OrchServer Orchestrator.
From S2P Require Import Prelude Types Kernel Config Getopt TrpcServer DBusLifecycle.

(** ** The options *)

Definition long_opts : list long_opt :=
  [ mk_long_opt (str "help") false "h"; mk_long_opt (str "sinfoport") true "s";
    mk_long_opt (str "faulthost") true "f"; mk_long_opt (str "faultport") true "p";
    mk_long_opt (str "dbusport") true "d"; mk_long_opt (str "notifyfault") false "n";
    mk_long_opt (str "node-config") true "c" ]%byte.

(** The option string "hs:f:p:d:nc:". *)
Definition short_kind (c : byte) : opt_kind :=
  if bool_decide (c ∈ [ "h"; "n" ]%byte) then NoArg
  else if bool_decide (c ∈ [ "s"; "f"; "p"; "d"; "c" ]%byte) then WithArg
  else Unknown.

(** What the calls of [getopt_long] report. *)
Definition orch_getopt (args : list (list byte)) : list opt_event := (getopt_long short_kind long_opts args).1.

(** ** GetOptions *)

Record options := mk_options {
  op_sinfo_port : Z;
  op_fault_addr : list byte;
  op_fault_port : Z;
  op_dbus_port : Z;
  op_notify_fault : bool;
  op_node_config_file : list byte;
}.
#[export] Instance options_eta : Eta options := fun o =>
  mk_options (op_sinfo_port o) (op_fault_addr o) (op_fault_port o) (op_dbus_port o)
    (op_notify_fault o) (op_node_config_file o).

(** The initial values in [main]. *)
Definition default_options : options := mk_options 50052 (str "localhost") 50053 7777 false [].

(** The function returns [true] or [false], or [std::stoi] throws. *)
Inductive opt_result := OptTrue (o : options) | OptUsage | OptThrow.

Fixpoint GetOptions (evs : list opt_event) (o : options) : opt_result :=
  match evs with
  | [] => OptTrue o
  | OptError :: _ => OptUsage
  | Opt c optarg :: evs =>
      let port (set : Z -> options) :=
        match stoi optarg with Some n => GetOptions evs (set n) | None => OptThrow end in
      if decide (c = "s"%byte) then port (fun n => o <| op_sinfo_port := n |>)
      else if decide (c = "f"%byte) then GetOptions evs (o <| op_fault_addr := optarg |>)
      else if decide (c = "p"%byte) then port (fun n => o <| op_fault_port := n |>)
      else if decide (c = "d"%byte) then port (fun n => o <| op_dbus_port := n |>)
      else if decide (c = "n"%byte) then GetOptions evs (o <| op_notify_fault := true |>)
      else if decide (c = "c"%byte) then GetOptions evs (o <| op_node_config_file := optarg |>)
      else OptUsage
  end.

(** ** main *)

(** How [main] ends, or the state in which it enters its loop. *)
Inductive main_result :=
  | Exit (status : Z)
  | Terminate
  | Serving (o : orch) (sinfo : sinfo_handles) (dbus : dbus_handles) (notify_fault : bool).

Section main.
Context {K : Kernel} {FR : FaultRpc}.

(** [None] when [LoadFromFile] throws. *)
Definition load_config (file : list byte) : N (option NodeConfigManager) :=
  match file with
  | [] => mret (Some NodeConfigManager_ctor)
  | _ =>
      content ← sys (ReadFile file);
      r ← lift (LoadFromFile content NodeConfigManager_ctor);
      mret (snd <$> r)
  end.

Definition InitFaultClient (addr : list byte) (port : Z) : bool * FaultServiceClient :=
  Initialize (addr ++ str ":" ++ fmt_d port) (mk_FaultServiceClient false []).

(** [return EXIT_FAILURE] destroys the gRPC server and the D-Bus server. *)
Definition orch_main (args : list (list byte)) : N main_result :=
  match GetOptions (orch_getopt args) default_options with
  | OptUsage => mret (Exit 1)
  | OptThrow => mret Terminate
  | OptTrue opts =>
      m ← load_config (op_node_config_file opts);
      match m with
      | None => mret Terminate
      | Some mgr =>
          '(r, sinfo) ← sinfo_Start (op_sinfo_port opts) (mk_sinfo_handles false false);
          match r with
          | None => mret Terminate
          | Some false => _ ← sinfo_Stop sinfo; mret (Exit 1)
          | Some true =>
              let '(ok, client) := InitFaultClient (op_fault_addr opts) (op_fault_port opts) in
              if (ok : bool) then
                '(r, dbus) ← Start (op_dbus_port opts) true DBusServer_ctor;
                match r with
                | None => mret Terminate
                | Some false => _ ← sinfo_Stop sinfo; _ ← Stop dbus; mret (Exit 1)
                | Some true =>
                    mret (Serving
                      (mk_orch (SchedInfoServiceImpl (Some mgr)) heap_empty
                         (mk_DBusServer (dh_sched_info_server dbus) None []) client)
                      sinfo dbus (op_notify_fault opts))
                end
              else (_ ← sinfo_Stop sinfo; mret (Exit 1))
          end
      end
  end.

(** The body of the loop: [NotifyFaultDemo] until it succeeds once. *)
Definition main_turn (notify_fault : bool) (o : orch) : bool * orch :=
  if notify_fault then
    let '(ok, c) := NotifyFault (str "workload_demo") (str "node_demo") (str "task_demo") FAULT_DMISS (or_client o) in
    (negb ok, o <| or_client := c |>)
  else (false, o).

End main.

(** ** The command line *)

(** A command line for the options, with long and short forms. *)
Definition render_options (o : options) : list (list byte) :=
  [assign "sinfoport" (fmt_d (op_sinfo_port o)); [dash; "f"%byte]; op_fault_addr o;
   assign "faultp" (fmt_d (op_fault_port o)); [dash; "d"%byte]; fmt_d (op_dbus_port o)]
  ++ (if op_notify_fault o then [[dash; "n"%byte]] else [])
  ++ [assign "node-config" (op_node_config_file o)].

(** The options given on a command line, in long, abbreviated and short
    forms, are the ones the program runs with. *)
Theorem options_roundtrip o :
  in_s 32 (op_sinfo_port o) -> in_s 32 (op_fault_port o) -> in_s 32 (op_dbus_port o) ->
  GetOptions (orch_getopt (render_options o)) default_options = OptTrue o.
Proof.
  intros H1 H2 H3. unfold render_options, assign, orch_getopt. cbn [app].
  rewrite (getopt_long_assign _ _ _ (mk_long_opt (str "sinfoport") true "s")) by (reflexivity || decided).
  rewrite getopt_long_next by (reflexivity || done).
  rewrite (getopt_long_assign _ _ _ (mk_long_opt (str "faultport") true "p")) by (reflexivity || decided).
  rewrite getopt_long_next by (reflexivity || done).
  assert (forall rest, getopt_long short_kind long_opts ((if op_notify_fault o then [[dash; "n"%byte]] else []) ++ rest)
    = (if op_notify_fault o then add_opt (Opt "n"%byte []) else id) (getopt_long short_kind long_opts rest)) as Hn
    by (intros rest; destruct (op_notify_fault o); [by apply getopt_long_flag|done]).
  rewrite Hn, (getopt_long_assign _ _ _ (mk_long_opt (str "node-config") true "c")) by (reflexivity || decided).
  cbn [GetOptions lo_val add_opt fst]. rewrite !decide_True by done. cbn. rewrite !stoi_fmt_d by done. cbn.
  destruct o as [p1 a p2 p3 [] f]; cbn; by rewrite ?stoi_fmt_d.
Qed.

Example ex_options :
  (GetOptions (orch_getopt [str "-nd7000"; str "x"; str "--faulth"; str "host"]) default_options,
   GetOptions (orch_getopt [str "--fault=1"]) default_options,
   GetOptions (orch_getopt [str "-s"; str "many"]) default_options)
  = (OptTrue (mk_options 50052 (str "host") 50053 7000 true []), OptUsage, OptThrow).
Proof. vm_compute. reflexivity. Qed.

(** ** Start-up *)

(** Threads that run the gRPC server. *)
Definition ev_grpc (e : event) : Z :=
  match e with
  | Event (ThreadStart T_grpc) r => if r : bool then 1 else 0
  | Event (ThreadJoin T_grpc) _ => -1
  | _ => 0
  end.

Section startup.
Context {K : Kernel} {SE : SetsErrno K} {AI : AddIoStores K} {FR : FaultRpc}.
Context {HO : Host} {AL : Allocator} {SS : StdSort}.

(** The configuration file, if it can be opened, has no property without a
    value (reading one is undefined). *)
Definition config_files_defined : Prop := forall tr path content,
  kresp tr (ReadFile path) = Some content -> LoadFromFile (Some content) NodeConfigManager_ctor <> UB.

(** Of the handles of both servers nothing is held but the sockets the code has
    lost. *)
Definition all_balances (s : nstate) : Prop := nothing_held s /\ tally_of ev_grpc s = 0.

(** Functions that do not touch the handles of the D-Bus server. *)
Lemma accounted_frame {A} (m : N A) (Q : A -> nstate -> Prop) d s :
  (forall x, frames (keeps (holdings x)) m) -> accounted d s -> wp m Q s ->
  wp m (fun a s' => Q a s' /\ accounted d s') s.
Proof.
  intros Hf Hac Hm. eapply wp_mono.
  - eapply wp_and; [exact Hm|]. apply (wlp_mono _ (fun _ s' => forall x, holdings x s' = holdings x s)).
    + unfold wlp. destruct (m s) as [[a s']|] eqn:E; [|done]. intros x. pose proof (Hf x s) as H. unfold wlp in H.
      by rewrite E in H.
    + intros a s' H. exact H.
  - intros a s' [HQ Hh]. split; [done|]. by eapply accounted_holdings.
Qed.

Lemma load_config_spec file s :
  config_files_defined -> all_balances s ->
  wp (load_config file) (fun r s' => all_balances s' /\
    forall mgr, r = Some mgr -> map_ok (ncm_nodes mgr)) s.
Proof.
  intros Hf [Hb Hg]. unfold load_config. destruct file as [|c file].
  { apply wp_ret. split; [done|]. intros mgr [= <-]. apply map_ok_nil. }
  apply wp_bind, wp_sys. pose proof (Hf (n_trace s) (c :: file)) as Hc.
  set (content := kresp (n_trace s) (ReadFile (c :: file))) in *.
  set (s1 := log _ _ s). assert (all_balances s1) as H1.
  { split; [|exact Hg]. eapply accounted_holdings; [|exact Hb]. done. }
  apply wp_bind, wp_lift. destruct (LoadFromFile content NodeConfigManager_ctor) as [[[b m]|]|] eqn:E.
  - apply wp_ret. split; [exact H1|]. intros mgr [= <-]. by apply load_file_ok in E as [[? _] _].
  - by apply wp_ret.
  - destruct content as [text|]; [|done]. by apply (Hc text).
Qed.

Lemma sinfo_Start_spec port s :
  all_balances s ->
  wp (sinfo_Start port (mk_sinfo_handles false false)) (fun '(r, d) s' =>
    nothing_held s' /\ tally_of ev_grpc s' = one_if (sh_thread d) /\
    match r with Some b => sh_thread d = b | None => True end) s.
Proof.
  intros [Hb Hg]. eapply wp_mono.
  - apply (accounted_frame _ (fun '(r, d) s' => tally_of ev_grpc s' = one_if (sh_thread d) /\
      match r with Some b => sh_thread d = b | None => True end) DBusServer_ctor); [|exact Hb|].
    + intros x. unfold sinfo_Start. frames_tac.
    + unfold tally_of in *. unfold sinfo_Start. apply wp_bind, wp_sys.
      destruct (kresp _ _); [apply wp_bind, wp_sys; destruct (kresp _ _)|]; apply wp_ret;
        unfold tally_of; simpl; by rewrite Hg.
  - intros [r d] s' [[? ?] ?]. done.
Qed.

Lemma sinfo_Stop_spec d s :
  nothing_held s -> tally_of ev_grpc s = one_if (sh_thread d) -> wp (sinfo_Stop d) (fun _ s' => all_balances s') s.
Proof.
  intros Hb Hg. eapply wp_mono.
  - apply (accounted_frame _ (fun _ s' => tally_of ev_grpc s' = 0) DBusServer_ctor); [|exact Hb|].
    + intros x. unfold sinfo_Stop. frames_tac.
    + unfold sinfo_Stop, tally_of in *. destruct d as [[|] [|]]; do 2 (apply wp_bind; first [apply wp_sys|apply wp_ret]);
        apply wp_ret; cbn in *; unfold tally_of; cbn; rewrite ?Hg; reflexivity.
  - intros _ s' [? ?]. done.
Qed.

Lemma Stop_grpc d : frames (keeps (tally_of ev_grpc)) (Stop d).
Proof. unfold Stop, unref. frames_tac. Qed.

Lemma trpc_server_create_grpc port event ops :
  frames (keeps (tally_of ev_grpc)) (trpc_server_create port event ops).
Proof. unfold trpc_server_create, create_server_socket, or_errno. frames_tac. Qed.

#[local] Hint Resolve Stop_grpc trpc_server_create_grpc : frames.

Lemma Start_grpc port srv d : frames (keeps (tally_of ev_grpc)) (Start port srv d).
Proof. unfold Start, start_thread. frames_tac. Qed.

Lemma nothing_held_init : nothing_held nstate_init.
Proof. split; intros; cbn; rewrite ?bool_decide_false by (done || lia); done. Qed.

Lemma initial_represents mgr client :
  map_ok (ncm_nodes mgr) ->
  represents (mk_orch (SchedInfoServiceImpl (Some mgr)) heap_empty (mk_DBusServer true None []) client) None.
Proof. intros Hm. split; [|done]. split; [|done|done]. apply service_init_ok. by intros c [= <-]. Qed.

(** C15: If the program gets to its loop, the D-Bus server runs with all its
    handles, the fault client is initialized, and the state is one from which
    every sequence of requests and callbacks behaves as the abstract machine
    that serves nothing at first (as long as malloc succeeds for the arrays of
    each workload).  If it exits instead, the status is 1 and every event loop,
    event source, listening socket and thread has been released, each by its own
    handle, except for a listening socket that could not be configured, bound or
    set listening, which the code leaves open.  (The configuration file has no
    property without a value, whose reading is undefined; an exception ends the
    program and is not followed further.) *)
Theorem main_serves args :
  config_files_defined ->
  wp (orch_main args) (fun r s =>
    match r with
    | Serving o sinfo dbus _ =>
        dh_running dbus = true /\ settled dbus /\ accounted dbus s /\ sh_thread sinfo = true /\
        fc_initialized (or_client o) = true /\
        forall evs, Forall event_fits evs ->
        exists rs o' a', orch_run evs o = Ret (rs, o') /\
          machine_run (config_loaded (sv_global_scheduler (or_service o))) true (None, None) evs rs a'
    | Exit status => status = 1 /\ all_balances s
    | Terminate => True
    end) nstate_init.
Proof.
  intros Hf. assert (all_balances nstate_init) as H0 by (split; [apply nothing_held_init|done]).
  unfold orch_main. destruct (GetOptions _ _) as [opts| |]; [|by apply wp_ret..].
  apply wp_bind. eapply wp_mono; [by apply load_config_spec|]. intros [mgr|] s [Hb Hmgr]; [|by apply wp_ret].
  apply wp_bind. eapply wp_mono; [by apply sinfo_Start_spec|]. intros [r sinfo] s1 (Hb1 & Hg1 & Hr).
  destruct r as [[|]|]; [| |by apply wp_ret].
  2:{ apply wp_bind. eapply wp_mono; [by apply sinfo_Stop_spec|]. intros ? s2 Hx. by apply wp_ret. }
  destruct (InitFaultClient _ _) as [[|] client] eqn:Ec.
  2:{ apply wp_bind. eapply wp_mono; [by apply sinfo_Stop_spec|]. intros ? s2 Hx. by apply wp_ret. }
  apply wp_bind. eapply wp_mono; [apply frames_wp; [apply Start_grpc|by apply Start_spec]|].
  intros [r dbus] s2 [[Hac Hres] Hgr]. unfold keeps in Hgr. destruct r as [[|]|]; [| |by apply wp_ret].
  - assert (fc_initialized client = true) as Hinit.
    { unfold InitFaultClient, Initialize in Ec. cbn in Ec. repeat case_match; by simplify_eq. }
    apply wp_ret. destruct Hres as (Hrun & Hset & Hsrv & _). split_and!; try done.
    + intros evs Hevs. rewrite Hsrv.
      destruct (orchestrator_run evs _ None None (initial_represents mgr client (Hmgr _ eq_refl)) eq_refl Hevs)
        as (rs & o' & a' & b' & E & _ & _ & Hm).
      exists rs, o', (a', b'). split; [exact E|].
      change (fc_initialized (or_client _)) with (fc_initialized client) in Hm. by rewrite Hinit in Hm.
  - subst dbus. apply wp_bind. eapply wp_mono; [apply sinfo_Stop_spec; [done|by rewrite Hgr]|].
    intros ? s3 [Hb3 Hg3].
    apply wp_bind. eapply wp_mono; [apply frames_wp; [apply Stop_grpc|by apply settled_stop]|].
    intros d' s4 [[Hac' ->] Hgr']. apply wp_ret. split; [done|]. split; [done|]. unfold keeps in Hgr'. by rewrite Hgr'.
Qed.

End startup.

(** ** Concrete starts *)

#[local] Existing Instance ex_rpc.
#[local] Existing Instance ex_sort.
#[local] Existing Instance ex_alloc.

(** The configuration file names node01; everything succeeds. *)
Definition config_kernel : Kernel := {| kresp := fun _ _ c =>
  match c in call A return A with
  | ReadFile _ => Some (str "nodes:" ++ [newline] ++ str "  node01:" ++ [newline] ++
                        str "    available_cpus: [2, 3]" ++ [newline])
  | c => default_reply c
  end |}.

#[local] Instance config_errno : SetsErrno config_kernel.
Proof. split; simpl; lia. Qed.
#[local] Instance config_addio : AddIoStores config_kernel.
Proof. split; simpl; lia. Qed.

Definition ex_args : list (list byte) := [str "-c"; str "nodes.yaml"; str "--dbusport=7777"].

Lemma main_serves_witness :
  wp (orch_main (K := config_kernel) ex_args) (fun r _ =>
    match r with
    | Serving o _ _ _ => exists rs o' a', orch_run (HO := le_host) ex_events o = Ret (rs, o') /\
        machine_run (HO := le_host) (config_loaded (sv_global_scheduler (or_service o))) true (None, None) ex_events rs a'
    | _ => True
    end) nstate_init.
Proof.
  eapply wp_mono; [apply (main_serves (K := config_kernel) (HO := le_host) ex_args)|].
  - intros tr path content [= <-]. vm_compute. discriminate.
  - intros [st| |o sinfo dbus nf] s H; [exact I|exact I|].
    destruct H as (_ & _ & _ & _ & _ & H). apply H. apply ex_fits. repeat (constructor; cbn; try done; try lia).
Defined.

Example ex_serving_start :
  match orch_main (K := config_kernel) ex_args nstate_init with
  | Ret (Serving o _ dbus _, _) => (ncm_nodes <$> gs_node_config_manager (sv_global_scheduler (or_service o)), dh_server_fd dbus)
  | _ => (None, 0)
  end = (Some [(str "node01", mk_NodeConfig (str "node01") [2; 3] 4096 [] [] [])], 4).
Proof. vm_compute. reflexivity. Qed.

Lemma options_roundtrip_witness :
  GetOptions (orch_getopt (render_options (mk_options 50052 (str "10.0.0.2") 4000 7777 true (str "n.yaml"))))
    default_options = OptTrue (mk_options 50052 (str "10.0.0.2") 4000 7777 true (str "n.yaml")).
Proof. apply options_roundtrip; cbn; range. Defined.
