(* ===== verification/Cluster.v ===== *)
(** * A node served by the orchestrator

    The node's [init_trpc] and [sync_timer_with_server] (timpani-n/src/trpc.c)
    against an environment whose D-Bus replies are computed by the orchestrator's
    callbacks: the assumptions Trpc makes about a server ([ServerUpAfter],
    [SyncServer]) are discharged by the model of timpani-o, whose other clients
    act between the calls of this node.  A reply is for the node that asked, and
    requests to other objects or methods are refused. *)

From S2P Require Import CppStd Serialize Time SchedInfo OrchHyperperiod NodeConfig GlobalScheduler SchedInfoService OrchServer Orchestrator.
From S2P Require Import Types Kernel PeerDbus Trpc.

(** ** Starts without a new workload *)

Definition calm (e : oevent) : Prop := match e with EvAdd _ => False | _ => True end.

(** The nodes that have called [Sync], latest first. *)
Fixpoint synced (evs : list oevent) (seen : list (list byte)) : list (list byte) :=
  match evs with
  | [] => seen
  | EvSync name _ :: evs => synced evs (name :: seen)
  | _ :: evs => synced evs seen
  end.

Lemma synced_app evs1 evs2 seen : synced (evs1 ++ evs2) seen = synced evs2 (synced evs1 seen).
Proof. revert seen. induction evs1 as [|[] evs1 IH]; intros seen; cbn; auto. Qed.

Lemma elem_synced evs seen n : n ∈ synced evs seen <-> n ∈ seen \/ exists now, EvSync n now ∈ evs.
Proof.
  revert seen. induction evs as [|e evs IH]; intros seen; cbn [synced].
  { split; [auto|]. intros [?|[now H]]; [done|]. by apply not_elem_of_nil in H. }
  destruct e as [req|m|m t|m now]; rewrite IH; clear IH.
  1-3: split; (intros [?|[x Hx]]; [by left|right; exists x; set_solver]).
  split.
  - intros [[->|?]%elem_of_cons|[x H]]; [right; exists now; by left|by left|right; exists x; by right].
  - intros [?|[x [[= -> ->]|H]%elem_of_cons]]; [left; by right|left; by left|right; by exists x].
Qed.

(** libsystemd's local operations succeed; the connection is accepted after [k]
    waits. *)
Class LocalBus (K : Kernel) (k : Z) := {
  lb_event : forall tr, 0 <= fst (kresp tr SdEventDefault);
  lb_new : forall tr, 0 <= fst (kresp tr SdBusNew) /\ snd (kresp tr SdBusNew) <> 0;
  lb_desc : forall tr d x, 0 <= kresp tr (SdBusSetDescription d x);
  lb_trusted : forall tr d x, 0 <= kresp tr (SdBusSetTrusted d x);
  lb_address : forall tr d x, 0 <= kresp tr (SdBusSetAddress d x);
  lb_attach : forall tr d x, 0 <= kresp tr (SdBusAttachEvent d x);
  lb_start_down : forall tr d, tally ev_retry tr < k -> kresp tr (SdBusStart d) < 0;
  lb_start_up : forall tr d, k <= tally ev_retry tr -> 0 <= kresp tr (SdBusStart d);
}.

Section cluster.
Context {HO : Host} {AL : Allocator} {SS : StdSort} {FR : FaultRpc}.

Lemma orch_run_app evs1 evs2 o :
  orch_run (evs1 ++ evs2) o =
    ('(rs1, o) ← orch_run evs1 o; '(rs2, o) ← orch_run evs2 o; Ret (rs1 ++ rs2, o)).
Proof.
  revert o. induction evs1 as [|e evs1 IH]; intros o; cbn [app orch_run mbind outcome_bind].
  - by destruct (orch_run evs2 o) as [[? ?]|].
  - destruct (orch_event e o) as [[r o1]|]; cbn [mbind outcome_bind]; [|done]. rewrite IH.
    destruct (orch_run evs1 o1) as [[rs1 o2]|]; cbn [mbind outcome_bind]; [|done].
    by destruct (orch_run evs2 o2) as [[rs2 o3]|].
Qed.

(** Without requests, the barrier is the one over the nodes of the workload. *)
Lemma run_calm evs o a nodes seen :
  represents o a -> Forall calm evs -> StronglySorted klt nodes -> nodes <> [] ->
  sync_view o = marks nodes seen ->
  exists rs o', orch_run evs o = Ret (rs, o') /\ represents o' a /\
    sync_view o' = marks nodes (synced evs seen) /\ sync_replies rs = barrier nodes seen evs.
Proof.
  intros Hr Hc Hs Hne. revert o seen Hr. induction Hc as [|e evs He _ IH]; intros o seen Hr Hv; cbn [orch_run].
  { by exists [], o. }
  destruct e as [req|name|name task|name now]; [done| | |]; cbn [orch_event synced barrier].
  - destruct (SchedInfoCallback_effect name o _ (rp_ok _ _ Hr)) as (r & o1 & -> & Hok & _ & Hd & _ & Hsv & _).
    cbn [mbind outcome_bind]. destruct (IH o1 seen) as (rs & o2 & -> & ? & ? & Hrs).
    + split; [done|]. intros w v hp Ha. unfold current_hyperperiod. rewrite Hsv. by eapply (rp_hp _ _ Hr).
    + unfold sync_view in *. by rewrite Hd, Hsv.
    + cbn [mbind outcome_bind]. by eexists _, o2.
  - rewrite (DMissCallback_effect name task o _ (rp_ok _ _ Hr)). cbn [mbind outcome_bind].
    match goal with |- context [orch_run evs ?x] =>
      destruct (IH x seen) as (rs & o2 & -> & ? & ? & Hrs); [|done|] end.
    + destruct Hr as [[Hs1 Hs2 Hs3] Hhp]. split; [by split|done].
    + cbn [mbind outcome_bind]. by eexists _, o2.
  - destruct (SyncCallback_effect name now o _ nodes seen (rp_ok _ _ Hr) Hs Hne Hv)
      as (o1 & -> & Hok & Hd & Hsv & _).
    destruct (sync_answer nodes seen name now) as [ack ts] eqn:Ea. cbn [mbind outcome_bind].
    destruct (IH o1 (name :: seen)) as (rs & o2 & -> & ? & ? & Hrs).
    + split; [done|]. intros w v hp Ha. unfold current_hyperperiod. rewrite Hsv. by eapply (rp_hp _ _ Hr).
    + unfold sync_view. rewrite Hd. by destruct nodes.
    + cbn [mbind outcome_bind]. eexists _, o2. split_and!; try done. cbn. by rewrite Hrs.
Qed.

(** ** The node's view *)

Section bus.
(** The orchestrator when the node [name] starts; before its [i]-th [Sync] the
    orchestrator handles [env i], and the call arrives at [clock i].  [junk] is
    what the reply of a refused call holds for the time. *)
Context (o0 : orch) (name : list byte) (env : nat -> list oevent) (clock : nat -> timespec) (junk : timespec).

Definition poll_events (i : nat) : list oevent := env i ++ [EvSync name (clock i)].

Fixpoint history (i : nat) : list oevent :=
  match i with O => [] | S i => history i ++ poll_events i end.

(** The reply to the [i]-th [Sync] as libtrpc's server sends it. *)
Definition bus_reply (i : nat) : Z * Z * Z :=
  match orch_run (history (S i)) o0 with
  | Ret (rs, _) =>
      match last (sync_replies rs) with
      | Some (ack, ts) => let t := default junk ts in (ack, u64 (tv_sec t), u64 (tv_nsec t))
      | None => (0, 0, 0)
      end
  | UB => (0, 0, 0)
  end.

Definition bus_schedule (n : list byte) : list byte :=
  match SchedInfoCallback n o0 with Ret (Some b, _) => b | _ => [] end.

(** The orchestrator's object and its methods. *)
Definition served_method (dest path iface member : list byte) : bool :=
  bool_decide (dest = TRPC_SERVER_NAME /\ path = TRPC_OBJECT_PATH /\ iface = TRPC_OBJECT_INTERFACE /\
    member ∈ [TRPC_METHOD_REGISTER; TRPC_METHOD_SCHEDINFO; TRPC_METHOD_DMISS; TRPC_METHOD_SYNC]).

(** The method of the last request and its arguments. *)
Definition asked (tr : list event) : option (list byte * list (list byte)) :=
  match tr with
  | Event (SdBusCallMethod _ _ _ _ member args) _ :: _ => Some (member, args)
  | _ => None
  end.

(** [K] with the replies of the orchestrator: a request to its object is answered,
    the bytes of a reply are those for the node that asked, the polls of node
    [name] are answered in turn; anything else is refused. *)
Definition bus_kernel (K : Kernel) : Kernel :=
  {| kresp := fun _ tr c =>
       match c in call A return A with
       | SdBusCallMethod _ dest path iface member _ => if served_method dest path iface member then (0, 9) else (-22, 0)
       | SdBusMessageReadArray _ =>
           match asked tr with
           | Some (member, [n]) => if decide (member = TRPC_METHOD_SCHEDINFO) then (1, bus_schedule n) else (-6, [])
           | _ => (-6, [])
           end
       | SdBusMessageReadBTT _ =>
           match asked tr with
           | Some (member, [n]) =>
               if decide (member = TRPC_METHOD_SYNC /\ n = name) then (0, bus_reply (Z.to_nat (tally ev_poll tr)))
               else (-6, (0, 0, 0))
           | _ => (-6, (0, 0, 0))
           end
       | c => kresp tr c
       end |}.

Lemma served_requests :
  served_method TRPC_SERVER_NAME TRPC_OBJECT_PATH TRPC_OBJECT_INTERFACE TRPC_METHOD_SCHEDINFO = true /\
  served_method TRPC_SERVER_NAME TRPC_OBJECT_PATH TRPC_OBJECT_INTERFACE TRPC_METHOD_SYNC = true.
Proof. split; vm_compute; reflexivity. Qed.

#[export] Instance bus_sync K : SyncServer (bus_kernel K) name (fun i => bus_reply (Z.to_nat i)).
Proof.
  split; intros; unfold request; cbn [kresp bus_kernel asked].
  - by rewrite (proj2 served_requests).
  - by rewrite decide_True.
Qed.

#[export] Instance bus_malloc K : MallocOk K -> MallocOk (bus_kernel K).
Proof. intros H tr n. apply H. Qed.

#[export] Instance bus_up K k : LocalBus K k -> ServerUpAfter (bus_kernel K) k name (bus_schedule name).
Proof.
  intros []. split; unfold request; cbn [kresp bus_kernel asked]; auto; intros.
  - by rewrite (proj1 served_requests).
  - rewrite decide_True by done. split; [done|reflexivity].
Qed.

(** *** Loading the schedule *)

Lemma bus_schedule_served w v hp rs b :
  represents o0 (Some (w, v, hp)) -> SerializeSchedInfo w hp v = Ret (Some (rs, Some b)) ->
  bus_schedule name = readable b.
Proof.
  intros Hr Hser. unfold bus_schedule.
  destruct (SchedInfoCallback_effect name o0 _ (rp_ok _ _ Hr)) as (r & o' & -> & _ & _ & _ & _ & _ & H).
  rewrite (rp_hp _ _ Hr w v hp eq_refl), Hser in H. destruct H as [(rs' & b' & [= -> ->] & ->)|[? _]]; done.
Qed.

(** *** The replies *)

Lemma history_calm i : (forall j, Forall calm (env j)) -> Forall calm (history i).
Proof.
  intros H. induction i as [|i IH]; cbn; [constructor|]. unfold poll_events.
  apply Forall_app. split; [done|]. apply Forall_app. split; [done|]. by repeat constructor.
Qed.

Lemma barrier_app nodes seen evs1 evs2 :
  barrier nodes seen (evs1 ++ evs2) = barrier nodes seen evs1 ++ barrier nodes (synced evs1 seen) evs2.
Proof. revert seen. induction evs1 as [|[] evs1 IH]; intros seen; cbn; auto. by rewrite IH. Qed.

(** Who has called by the [i]-th poll of this node. *)
Definition called (i : nat) : list (list byte) := synced (history i ++ env i) [].

Lemma bus_reply_spec w v hp i :
  represents o0 (Some (w, v, hp)) -> v <> [] -> ds_node_sync_map (or_dbus o0) = [] ->
  (forall j, Forall calm (env j)) ->
  bus_reply i = (let '(ack, ts) := sync_answer (fst <$> v) (called i) name (clock i) in
                 let t := default junk ts in (ack, u64 (tv_sec t), u64 (tv_nsec t))).
Proof.
  intros Hr Hv Hm Hc. destruct (sync_view_start o0 w v (rp_ok _ _ Hr) Hm) as [Hs Hview].
  destruct (run_calm (history (S i)) o0 _ _ [] Hr (history_calm _ Hc) Hs ltac:(by destruct v) Hview)
    as (rs & o' & E & _ & _ & Hrs).
  unfold bus_reply. rewrite E, Hrs. cbn [history]. unfold poll_events.
  rewrite app_assoc, barrier_app. cbn [barrier]. rewrite last_snoc.
  fold (called i). by destruct (sync_answer _ _ _ _).
Qed.

(** All nodes of the workload have called, this one included. *)
Definition all_called (v : schedule_view) (i : nat) : Prop :=
  Forall (fun n => n ∈ name :: called i) (fst <$> v).
#[export] Instance all_called_dec v i : Decision (all_called v i).
Proof. unfold all_called. apply _. Defined.

Lemma bus_acks_after w v hp n :
  represents o0 (Some (w, v, hp)) -> v <> [] -> ds_node_sync_map (or_dbus o0) = [] ->
  (forall j, Forall calm (env j)) -> name ∈ (fst <$> v) ->
  all_called v n -> (forall i, (i < n)%nat -> ~ all_called v i) ->
  acks_after (answer := fun i => bus_reply (Z.to_nat i)) 0 n /\
  bus_reply n = (1, u64 (tv_sec (clock n) + 1), u64 (tv_nsec (clock n))).
Proof.
  intros Hr Hv Hm Hc Hin Hn Hlt.
  assert (bus_reply n = (1, u64 (tv_sec (clock n) + 1), u64 (tv_nsec (clock n)))) as En.
  { rewrite (bus_reply_spec w v hp) by done. unfold sync_answer. by rewrite bool_decide_true. }
  split; [|done]. split.
  - intros i Hi. rewrite (bus_reply_spec w v hp) by done. unfold sync_answer.
    rewrite bool_decide_false; [done|]. intros [_ H]. apply (Hlt (Z.to_nat i)); [lia|done].
  - rewrite Z.add_0_l, Nat2Z.id, En. done.
Qed.

End bus.

(** A node whose requests the orchestrator answers loads the workload the
    orchestrator serves: when the connection succeeds after [k] one-second
    waits, [k] below 300, [init_trpc] ends with success, the tasks of the
    workload in order, its id and its hyperperiod, whatever the byte orders of
    the two hosts. *)
Theorem node_loads_workload (h2 : Host) {K : Kernel} {k : Z} `{!MallocOk K} `{!LocalBus K k}
    o0 name env clock junk w v hp rs b s :
  represents (HO := HO) o0 (Some (w, v, hp)) ->
  SerializeSchedInfo (HO := HO) w hp v = Ret (Some (rs, Some b)) -> Forall (fun r => r = 0) rs ->
  blen (concat (snd <$> v)) < 2 ^ 31 ->
  cf_enable_apex (cx_config (n_ctx s)) = false -> cstr (cf_node_id (cx_config (n_ctx s))) = name ->
  length (si_workload_id (sinfo_of s)) = 64%nat -> disconnected s ->
  tally_of ev_retry s <= k < tally_of ev_retry s + 300 ->
  wp (init_trpc (HO := h2) (K := bus_kernel o0 name env clock junk K)) (fun r s' =>
    r = TT_SUCCESS /\
    snd <$> si_tasks (sinfo_of s') = task_info_of <$> concat (snd <$> v) /\
    cstr (si_workload_id (sinfo_of s')) = substr0 w 63 /\
    hp_hyperperiod_us (cx_hp (n_ctx s')) = u64 (default 0 hp) /\
    tally_of ev_retry s' = k) s.
Proof.
  intros Hr Hser Hrs Hlen Hapex Hname Hwl Hd Hk.
  pose proof (bus_up o0 name env clock junk K k _) as Hup.
  rewrite (bus_schedule_served o0 name w v hp rs b Hr Hser) in Hup. rewrite <- Hname in Hup at 2.
  eapply wp_mono.
  - apply (init_trpc_loads HO h2 (K := bus_kernel o0 name env clock junk K) w hp v rs b k s); try done.
  - intros r s' (-> & (? & _ & ? & ?) & ?). auto.
Qed.

(** The start of a node is synchronized with the other nodes of its workload.
    While the nodes poll and no new workload comes in, [sync_timer_with_server]
    returns at the first poll by which every node of the workload has called,
    not before, and it does return if all of them call by poll [last]; the start
    time it stores is one second after the time at which the orchestrator
    handled that poll. *)
Theorem node_starts_with_the_others {K : Kernel} o0 name env clock junk w v hp last fuel s :
  represents o0 (Some (w, v, hp)) -> v <> [] -> ds_node_sync_map (or_dbus o0) = [] ->
  (forall j, Forall calm (env j)) -> name ∈ (fst <$> v) ->
  (forall i, 0 <= tv_sec (clock i) < 2 ^ 62 /\ 0 <= tv_nsec (clock i) < 1000000000) ->
  all_called name env clock v last -> (last < fuel)%nat ->
  cf_enable_sync (cx_config (n_ctx s)) = true -> cstr (cf_node_id (cx_config (n_ctx s))) = name -> tally_of ev_poll s = 0 ->
  exists n, (n <= last)%nat /\ all_called name env clock v n /\
    (forall i, (i < n)%nat -> ~ all_called name env clock v i) /\
    wp (sync_timer_with_server (K := bus_kernel o0 name env clock junk K) fuel) (fun r s' =>
      r = Some TT_SUCCESS /\
      rt_starttimer_ts (cx_runtime (n_ctx s')) = mk_timespec (tv_sec (clock n) + 1) (tv_nsec (clock n)) /\
      tally_of ev_poll_wait s' = tally_of ev_poll_wait s + Z.of_nat n) s.
Proof.
  intros Hr Hv Hm Hc Hin Hclk Hall Hfuel Hsync Hname Hp0.
  destruct (least_nat (all_called name env clock v) last Hall) as (n & Hn & Hcn & Hlt).
  exists n. split_and!; [done|done|done|].
  destruct (bus_acks_after o0 name env clock junk w v hp n) as [Ha En]; [done..|].
  eapply wp_mono.
  - apply (sync_timer_with_server_spec (K := bus_kernel o0 name env clock junk K) (name := name) n fuel s); [done|by rewrite Hp0|lia].
  - rewrite Hsync, Hp0. intros r s' [-> H]. rewrite Z.add_0_l, Nat2Z.id, En in H. destruct H as [-> ->].
    split_and!; [done| |done]. destruct (Hclk n). f_equal; rewrite wraps_wrapu, wraps_id; change (2 ^ 62) with 4611686018427387904 in *; range || done.
Qed.

End cluster.

(** ** Two nodes *)

#[local] Existing Instance ex_rpc.
#[local] Existing Instance ex_sort.
#[local] Existing Instance ex_alloc.

Definition ex_apex : SchedInfoRequest :=
  mk_SchedInfoRequest apex_os
    [ex_grpc_task "nav" "node01" 2 0 10000; ex_grpc_task "cam" "node02" 1 0 20000].

Definition ex_view : schedule_view := Eval vm_compute in group_by_node (rq_tasks ex_apex).

Lemma ex_apex_served : exists o,
  represents (HO := le_host) o (Some (apex_os, ex_view, None)) /\ ds_node_sync_map (or_dbus o) = [] /\
  fc_initialized (or_client o) = true.
Proof.
  destruct (orch_add_effect (HO := le_host) ex_apex ex_orch None (rp_ok _ _ (ex_orch_represents le_host)))
    as (st & o & cur & _ & Hok & Hres & _ & Hd & Hcl & _); [apply ex_mem_ok; cbn; lia|].
  exists o. split; [|by rewrite Hd, Hcl].
  inversion Hres as [_|Hx|Hx|mgr Hx|mgr ts Hx]; subst; [|exfalso; exact (Hx eq_refl)..].
  split; [exact Hok|]. intros w v hp [= <- <- <-]. unfold current_hyperperiod, service_GetHyperperiodInfo, GetHyperperiodInfo.
  by rewrite (proj2 (so_hyper _ _ _ (oo_service _ _ Hok))).
Qed.

Definition ex_wire : list Z * serial_buf_t := Eval vm_compute in
  match SerializeSchedInfo (HO := le_host) apex_os None ex_view with
  | Ret (Some (rs, Some b)) => (rs, b)
  | _ => ([], mk_serial_buf [] 0 0)
  end.

(** The orchestrator can be reached after two waits. *)
Definition ex_network : Kernel :=
  {| kresp := fun _ tr c =>
       match c in call A return A with
       | SdBusStart _ => if tally ev_retry tr <? 2 then -111 else 0
       | c => default_reply c
       end |}.

#[local] Instance ex_network_malloc : MallocOk ex_network := fun _ _ => eq_refl.
#[local] Instance ex_network_local : LocalBus ex_network 2.
Proof.
  split; intros; cbn; try lia.
  - by rewrite (proj2 (Z.ltb_lt _ _)).
  - by rewrite (proj2 (Z.ltb_ge _ _)).
Qed.

(** node02 calls between the second and the third poll of node01. *)
Definition ex_env (i : nat) : list oevent :=
  if decide (i = 2%nat) then [EvPoll (str "node02"); EvSync (str "node02") (mk_timespec 12 0)] else [].
Definition ex_clock (i : nat) : timespec := mk_timespec (10 + Z.of_nat i mod 1000) 500.

Lemma node_loads_workload_witness : exists o,
  wp (init_trpc (HO := be_host) (K := bus_kernel (HO := le_host) o (str "node01") ex_env ex_clock ts_zero ex_network))
    (fun r s' => r = TT_SUCCESS /\ length (si_tasks (sinfo_of s')) = 2%nat) sync_state.
Proof.
  destruct ex_apex_served as (o & Hr & _). exists o. eapply wp_mono.
  - apply (node_loads_workload (HO := le_host) be_host (K := ex_network) (k := 2) o (str "node01") ex_env ex_clock
      ts_zero apex_os ex_view None ex_wire.1 ex_wire.2 sync_state Hr).
    + vm_compute. reflexivity.
    + vm_compute. repeat constructor.
    + vm_compute. reflexivity.
    + reflexivity.
    + reflexivity.
    + reflexivity.
    + split; reflexivity.
    + vm_compute. intuition congruence.
  - intros r s' (-> & Ht & _). split; [done|]. apply (f_equal length) in Ht. by rewrite !length_fmap in Ht.
Defined.

Lemma node_starts_with_the_others_witness : exists o n,
  wp (sync_timer_with_server
        (K := bus_kernel (HO := le_host) o (str "node01") ex_env ex_clock ts_zero ex_network) 4)
    (fun r s' => r = Some TT_SUCCESS /\ tally_of ev_poll_wait s' = Z.of_nat n) sync_state /\ n = 2%nat.
Proof.
  destruct ex_apex_served as (o & Hr & Hm & _).
  destruct (node_starts_with_the_others (HO := le_host) (K := ex_network) o (str "node01") ex_env ex_clock
    ts_zero apex_os ex_view None 2 4 sync_state Hr) as (n & Hn & Hall & Hno & Hwp).
  - done.
  - exact Hm.
  - intros j. unfold ex_env. case_decide; repeat constructor.
  - left.
  - intros i. unfold ex_clock. cbn. pose proof (Z.mod_pos_bound (Z.of_nat i) 1000).
    change (2 ^ 62) with 4611686018427387904. lia.
  - apply (bool_decide_eq_true_1 (all_called _ _ _ _ _)). vm_compute. reflexivity.
  - lia.
  - reflexivity.
  - reflexivity.
  - reflexivity.
  - exists o, n. split.
    + eapply wp_mono; [exact Hwp|]. intros r s' (-> & _ & ->). split; [done|]. cbn. lia.
    + assert (~ all_called (str "node01") ex_env ex_clock ex_view 0) as H0
        by (apply (bool_decide_eq_false_1 (all_called _ _ _ _ _)); vm_compute; reflexivity).
      assert (~ all_called (str "node01") ex_env ex_clock ex_view 1) as H1
        by (apply (bool_decide_eq_false_1 (all_called _ _ _ _ _)); vm_compute; reflexivity).
      destruct n as [|[|[|n]]]; [done|done|done|lia].
Defined.
