(* ===== verification/FaultPath.v ===== *)
(** * From a missed deadline to Pullpiri

    The path of a deadline miss through the three processes: the node detects
    it when a task's timer expires (core.c), counts it and calls the method
    DMiss of the orchestrator (trpc.c, peer_dbus.c); the orchestrator looks the
    workload up and notifies Pullpiri (dbus_server.cpp, fault_client.cpp).  The
    components' theorems are put together for any interleaving of the node's
    handlers and of the orchestrator's callbacks. *)

From S2P Require Import CppStd Serialize Time SchedInfo GlobalScheduler SchedInfoService OrchServer Orchestrator.
From S2P Require Import Prelude Types Kernel Hyperperiod PeerDbus Trpc Sched TraceBpf Config ApexMonitor Core Main Safety Cluster.

(** ** The node *)

(** What a report says about the node: the connection, the node's id and the
    names of its tasks. *)
Definition task_names (s : nstate) : list (list byte) :=
  (fun n => cstr (ti_name (tt_task n))) <$> rt_tt_list (cx_runtime (n_ctx s)).
Definition node_name (s : nstate) : list byte := cstr (cf_node_id (cx_config (n_ctx s))).
Definition identity (s : nstate) : Z * list byte * list (list byte) :=
  (cm_dbus (cx_comm (n_ctx s)), node_name s, task_names s).

(** The report of a miss of task [t]. *)
Definition report_of (s : nstate) (t : list byte) : Z * list byte * list byte :=
  (cm_dbus (cx_comm (n_ctx s)), node_name s, t).

Abbreviation total s := (hp_total_deadline_misses (cx_hp (n_ctx s))).

(** The run from [s] to [s'] reported the misses of the tasks [misses], in
    this order. *)
Definition reported (misses : list (list byte)) (s s' : nstate) : Prop :=
  identity s' = identity s /\ reports s' = reverse (report_of s <$> misses) ++ reports s /\
  Forall (fun t => t ∈ task_names s) misses /\ u32 (total s') = u32 (total s + blen misses).

Lemma reported_nil s s' : identity s' = identity s -> reports s' = reports s -> total s' = total s -> reported [] s s'.
Proof. intros Hi Hr Ht. split_and!; [done|done|constructor|]. by rewrite Ht, Z.add_0_r. Qed.

Lemma reported_trans m1 m2 s1 s2 s3 : reported m1 s1 s2 -> reported m2 s2 s3 -> reported (m1 ++ m2) s1 s3.
Proof.
  intros (I1 & R1 & F1 & T1) (I2 & R2 & F2 & T2).
  pose proof I1 as [[Hd Hn]%pair_equal_spec Ht]%pair_equal_spec.
  assert (report_of s2 = report_of s1) as Hrep by (unfold report_of; by rewrite Hd, Hn).
  split_and!; [congruence| | |].
  - rewrite R2, R1, Hrep, fmap_app, reverse_app, app_assoc. done.
  - apply Forall_app. split; [done|]. by rewrite <- Ht.
  - rewrite T2, <- wrapu_add_l, T1, wrapu_add_l, length_app. f_equal. lia.
Qed.

(** ** The misses of a run *)

Section misses.
Context {HO : Host} {K : Kernel} {SJ : StackJunk} {BC : BuildConfig}.

(** The task whose deadline is missed when [a] happens in state [s]: the timer
    of a node expires, and at this moment its task has been seen and is still
    running, went to wait too late, or has not waited since the last expiry. *)
Definition miss_of (a : async) (s : nstate) : list (list byte) :=
  match a with
  | A_timer p =>
      match find_node p (rt_tt_list (cx_runtime (n_ctx s))) with
      | Some n =>
          let now := snd (kresp (n_trace s) (ClockGettime (cf_clockid (cx_config (n_ctx s))))) in
          if missed n (tt_timespec_to_ns now) then [cstr (ti_name (tt_task n))] else []
      | None => []
      end
  | _ => []
  end.

(** The tasks that miss a deadline during [acts], in this order. *)
Fixpoint misses_during (acts : list async) (s : nstate) : list (list byte) :=
  match acts with
  | [] => []
  | a :: acts => miss_of a s ++
      match run_async a s with
      | Ret (_, s1) => misses_during acts s1
      | UB => []
      end
  end.

End misses.

Section node.
Context {HO : Host} {K : Kernel} {SJ : StackJunk} {BC : BuildConfig} (A B : list Z).
Hypothesis HA : NoDup A.
Hypothesis HB : NoDup B.

Lemma upd_node_names p f l :
  (forall n, tt_task (f n) = tt_task n) ->
  (fun n => cstr (ti_name (tt_task n))) <$> upd_node p f l = (fun n => cstr (ti_name (tt_task n))) <$> l.
Proof.
  intros Hf. unfold upd_by. rewrite <- list_fmap_compose. apply list_fmap_ext. intros i n _. cbn.
  destruct (decide _); [by rewrite Hf|done].
Qed.

Lemma write_node_identity p f : (forall n, tt_task (f n) = tt_task n) -> frames (keeps identity) (write_node p f).
Proof.
  intros Hf. unfold write_node, get_ctx. apply frames_bind; [apply _|frames_tac|]. intros c.
  destruct (find_by _ _); [|apply frames_undef]. unfold upd_rt, upd_ctx. apply frames_modify. intros s.
  unfold keeps, identity, task_names. cbn. by rewrite upd_node_names.
Qed.
Lemma read_apex_identity p : frames (keeps identity) (read_apex p).
Proof. unfold read_apex, get_ctx. frames_tac. Qed.
Lemma write_apex_identity p f : frames (keeps identity) (write_apex p f).
Proof. unfold write_apex, get_ctx, upd_rt, upd_ctx. frames_tac. Qed.
#[local] Hint Resolve read_apex_identity write_apex_identity : frames.

Lemma coredata_client_send_identity p : frames (keeps identity) (coredata_client_send p).
Proof. unfold coredata_client_send, coredata_client_init. frames_tac. Qed.
#[local] Hint Resolve coredata_client_send_identity : frames.

Lemma quiet_async_identity a : is_timer a = false -> frames (keeps identity) (run_async a).
Proof.
  destruct a; intros; try done; cbn [run_async];
    unfold hyperperiod_cycle_handler, get_ctx, upd_hp, coredata_timer_handler, handle_sigwait_bpf_event, handle_schedstat_bpf_event,
      write_schedstat, signal_handler, upd_rt, upd_ctx; frames_tac;
    first [reflexivity | by apply write_node_identity].
Qed.

Lemma cycle_books : frames (keeps (fun s => (reports s, total s))) hyperperiod_cycle_handler.
Proof. unfold hyperperiod_cycle_handler, get_ctx, upd_hp, upd_ctx. frames_tac. Qed.

Lemma run_async_reports a s :
  wf A B s -> async_ok A B a -> wp (run_async a) (fun _ s' => reported (miss_of a s) s s') s.
Proof.
  intros Hs Ha. destruct (is_timer a) eqn:Et.
  - destruct a as [p| | | | |]; try done. cbn in Ha. rewrite <- (wf_nodes A B s Hs) in Ha.
    apply list_elem_of_fmap in Ha as (n & -> & Hn).
    destruct (proj1 (Forall_forall _ _) (wf_node_ok A B s Hs) n Hn) as (Hne & Hctx & Hfd).
    assert (find_node (tt_addr n) (rt_tt_list (cx_runtime (n_ctx s))) = Some n) as Hfind.
    { apply find_by_in; [|done]. by rewrite (wf_nodes A B s Hs). }
    cbn [run_async miss_of]. rewrite Hfind. eapply wp_mono; [apply (timer_expired_effect (tt_addr n) n)|]; try done.
    { intros _. apply (wf_hp A B s Hs). }
    intros [] s' (Hc & Hr & _).
    assert (identity s' = identity s) as Hid.
    { unfold identity, task_names, node_name. rewrite Hc. unfold expire_ctx. cbn. rewrite upd_node_names; [done|]. intros m.
      unfold expire_node. by destruct (negb _). }
    unfold reports_if in Hr. destruct (missed _ _) eqn:Em.
    + split_and!; [done|done| |].
      * constructor; [|constructor]. apply list_elem_of_fmap. by exists n.
      * rewrite Hc. unfold expire_ctx, count_miss. rewrite Em. cbn. by rewrite wrapu_idemp.
    + apply reported_nil; [done|done|]. rewrite Hc. unfold expire_ctx. by rewrite Em.
  - assert (miss_of a s = []) as -> by (by destruct a).
    eapply wp_mono; [eapply frames_wp; [by apply quiet_async_identity|]|].
    { destruct (is_cycle a) eqn:Ec.
      - destruct a; try done. cbn [run_async]. eapply frames_wp; [apply cycle_books|by apply (hyperperiod_cycle_handler_safe A B)].
      - eapply wp_mono; [eapply frames_wp; [by apply quiet_async_books|by apply (run_async_safe A B)]|].
        cbn beta. intros [] s' [Hw Hb]. split; [exact Hw|]. unfold keeps, books in *. by injection Hb as -> ->. }
    cbn beta. intros [] s' [[_ [Hr Ht]%pair_equal_spec] Hid]. by apply reported_nil.
Qed.

Lemma run_asyncs_reports acts s :
  wf A B s -> Forall (async_ok A B) acts ->
  wp (run_asyncs acts) (fun _ s' => reported (misses_during acts s) s s') s.
Proof.
  intros Hs Hok. revert s Hs. induction Hok as [|a acts Ha _ IH]; intros s Hs; cbn [run_asyncs].
  { apply wp_ret. by apply reported_nil. }
  apply wp_bind. eapply wp_mono; [eapply wp_and; [apply wp_eqn; by apply run_async_reports|
    apply wp_wlp; by apply (run_async_safe A B HA HB)]|].
  cbn beta. intros [] s1 [[H1 E] Hs1]. eapply wp_mono; [by apply IH|]. cbn beta. intros [] s2 H2.
  cbn [misses_during]. rewrite E. by eapply reported_trans.
Qed.

End node.

(** ** The orchestrator *)

Definition dmiss_of (e : oevent) : option (list byte * list byte) :=
  match e with EvDmiss name task => Some (name, task) | _ => None end.

(** The misses that a node reported, and the faults that name it. *)
Definition misses_of (name : list byte) (evs : list oevent) : list (list byte * list byte) :=
  filter (fun m => m.1 = name) (omap dmiss_of evs).
Definition faults_of (name : list byte) (sent : list FaultInfo) : list FaultInfo :=
  filter (fun f => fi_node_id f = name) sent.

Definition fault (w : list byte) (m : list byte * list byte) : FaultInfo := mk_FaultInfo w m.1 m.2 FAULT_DMISS.

Section orchestrator.
Context {HO : Host} {AL : Allocator} {SS : StdSort} {FR : FaultRpc}.

(** While no new workload comes in, each miss becomes one fault of the served
    workload. *)
Lemma run_calm_faults evs o w v hp :
  represents o (Some (w, v, hp)) -> Forall calm evs -> fc_initialized (or_client o) = true ->
  exists rs o', orch_run evs o = Ret (rs, o') /\ represents o' (Some (w, v, hp)) /\
    fc_sent (or_client o') = fc_sent (or_client o) ++ (fault w <$> omap dmiss_of evs).
Proof.
  intros Hr Hc. revert o Hr. induction Hc as [|e evs He _ IH]; intros o Hr Hi; cbn [orch_run].
  { exists [], o. cbn. by rewrite app_nil_r. }
  assert (event_fits e) as Hf by (by destruct e).
  destruct (event_simulated e o _ Hr Hf) as (r & o1 & a1 & E & Hr1 & Hm & _ & Hi1).
  rewrite E. cbn [mbind outcome_bind]. assert (a1 = Some (w, v, hp)) as -> by (destruct e; [done|..]; by inversion Hm).
  destruct (IH o1 Hr1 ltac:(congruence)) as (rs & o2 & -> & Hr2 & Hs2). cbn [mbind outcome_bind].
  eexists _, o2. split_and!; [done|done|]. rewrite Hs2. cbn [omap list_omap].
  destruct e as [req|name|name task|name now]; [done|..]; cbn [orch_event dmiss_of] in *.
  - destruct (SchedInfoCallback_effect name o _ (rp_ok _ _ Hr)) as (b & o3 & E3 & _ & _ & _ & Hcl & _).
    rewrite E3 in E. cbn in E. injection E as <- <-. by rewrite Hcl.
  - rewrite (DMissCallback_effect name task o _ (rp_ok _ _ Hr)) in E. cbn in E. injection E as <- <-.
    cbn. unfold NotifyFault. rewrite Hi. destruct (rpc_notify _ _). cbn. by rewrite <- app_assoc.
  - destruct (sync_step_ok name now o _ (rp_ok _ _ Hr)) as (ack & ts & o3 & E3 & _ & _ & _ & Hcl).
    rewrite E3 in E. injection E as <- <-. by rewrite Hcl.
Qed.

Lemma faults_of_node w name (evs : list oevent) :
  faults_of name (fault w <$> omap dmiss_of evs) = fault w <$> misses_of name evs.
Proof.
  unfold faults_of, misses_of.
  induction (omap dmiss_of evs) as [|m l IH]; [done|]. rewrite fmap_cons, !filter_cons. cbn [fi_node_id fault].
  destruct (decide _); [by rewrite fmap_cons, IH|done].
Qed.

End orchestrator.

(** ** End to end *)

(** C7: Every deadline miss of the node reaches Pullpiri exactly once, with
    the id of the served workload, the node's id and the name of the task that
    missed.  The node runs any sequence of timer expiries, cycle expiries, BPF
    events, coredata timers and signals, one after the other; the misses are
    those of the timer expiries at which the task had been seen and was still
    running, or went to wait too late, or had not waited since its last expiry.
    The node reports exactly these, in this order, and adds their number to its
    total.  The orchestrator, which serves a workload and has a working client,
    handles the reports of this node in order, with polls, synchronizations and
    reports of other nodes in between, and sends Pullpiri one fault for each. *)
Theorem misses_become_faults {HO : Host} {AL : Allocator} {SS : StdSort} {FR : FaultRpc}
    {K : Kernel} {SJ : StackJunk} {BC : BuildConfig} A B acts s o w v hp :
  NoDup A -> NoDup B -> wf A B s -> Forall (async_ok A B) acts ->
  represents o (Some (w, v, hp)) -> fc_initialized (or_client o) = true ->
  let misses := misses_during acts s in
  wp (run_asyncs acts) (fun _ s' =>
    reports s' = reverse (report_of s <$> misses) ++ reports s /\
    u32 (total s') = u32 (total s + blen misses) /\
    forall evs : list oevent, Forall calm evs ->
      misses_of (node_name s) evs = (fun t => (node_name s, t)) <$> misses ->
      exists rs o' sent, orch_run evs o = Ret (rs, o') /\ represents o' (Some (w, v, hp)) /\
        fc_sent (or_client o') = fc_sent (or_client o) ++ sent /\
        faults_of (node_name s) sent = (fun t => mk_FaultInfo w (node_name s) t FAULT_DMISS) <$> misses) s.
Proof.
  intros HA HB Hs Hok Hr Hi misses. eapply wp_mono; [by apply (run_asyncs_reports A B)|]. cbn beta.
  intros [] s' (_ & Hrep & Hf & Ht). split_and!; [done|done|].
  intros evs Hc Hin. destruct (run_calm_faults evs o w v hp Hr Hc Hi) as (rs & o' & E & Hr' & Hsent).
  exists rs, o', (fault w <$> omap dmiss_of evs). split_and!; [done|done|done|].
  rewrite faults_of_node, Hin, <- list_fmap_compose. done.
Qed.

(** Two tasks of the node miss, while another node reports a miss and asks for
    its schedule. *)
#[local] Existing Instance ex_rpc.
#[local] Existing Instance ex_sort.
#[local] Existing Instance ex_alloc.

Definition ex_kernel : Kernel := clock_kernel (mk_timespec 7 500).
Definition ex_acts : list async := [A_timer 11; A_cycle; A_timer 10; A_timer 11].
Definition ex_misses : list (list byte) :=
  misses_during (K := ex_kernel) (SJ := zero_stack) (BC := no_trace) ex_acts running.

Lemma ex_misses_two : blen ex_misses = 2.
Proof. vm_compute. reflexivity. Qed.

Lemma misses_become_faults_witness : exists o,
  wp (run_asyncs (K := ex_kernel) (SJ := zero_stack) (BC := no_trace) ex_acts)
    (fun _ s' => forall evs : list oevent, Forall calm evs ->
         misses_of (node_name running) evs = (fun t => (node_name running, t)) <$> ex_misses ->
         exists rs o', orch_run (HO := le_host) evs o = Ret (rs, o') /\
           blen (faults_of (node_name running) (drop (length (fc_sent (or_client o))) (fc_sent (or_client o')))) = 2)
    running.
Proof.
  destruct ex_apex_served as (o & Hr & _ & Hi). exists o.
  assert (NoDup [10; 11]) as HA by decided. assert (NoDup [20]) as HB by decided.
  assert (Forall (async_ok [10; 11] [20]) ex_acts) as Hok
    by (repeat constructor; simpl; set_solver).
  pose proof (misses_become_faults (HO := le_host) (K := ex_kernel) (SJ := zero_stack) (BC := no_trace)
    [10; 11] [20] ex_acts running o apex_os ex_view None HA HB running_wf Hok Hr Hi) as H.
  cbv zeta in H. fold ex_misses in H. pose proof ex_misses_two as Hlen. revert H Hlen.
  generalize ex_misses. intros misses H Hlen.
  eapply wp_mono; [exact H|]. cbn beta. intros [] s' (_ & _ & Hev).
  intros evs Hc Hin. destruct (Hev evs Hc Hin) as (rs & o' & sent & E & _ & Hs & Hf). exists rs, o'.
  split; [exact E|]. rewrite Hs, drop_app_length, Hf, length_fmap. exact Hlen.
Defined.
