(* ===== verification/Races.v ===== *)
(** * The handlers of the node, access by access (timpani-n/src/core.c)

    The timers of the tasks notify by SIGEV_THREAD: the handlers of different
    expiries run in threads of their own, beside the thread that polls the BPF
    ring buffer, and they share the nodes and the counters of the hyperperiod
    manager without a lock.  Core models each handler as one action; here the
    deadline check of [timer_expired_handler] and the two stores of
    [handle_sigwait_bpf_event] are split into their loads and stores, and the
    threads interleave at every access. *)

From S2P Require Import Prelude Time Types Kernel Core.

(** ** Shared memory and threads *)

(** The fields of a node that two threads access. *)
Record cell := mk_cell { c_sigwait_ts : Z; c_sigwait_enter : Z; c_sigwait_ts_prev : Z }.
#[export] Instance eta_cell : Eta cell := fun c => mk_cell (c_sigwait_ts c) (c_sigwait_enter c) (c_sigwait_ts_prev c).

(** The nodes by address, the counters, and the nodes that were reported,
    latest first. *)
Record shared := mk_shared {
  sh_cells : gmap Z cell;
  sh_total : Z;
  sh_cycle : Z;
  sh_reports : list Z;
}.
#[export] Instance eta_shared : Eta shared := fun m => mk_shared (sh_cells m) (sh_total m) (sh_cycle m) (sh_reports m).

(** The next access of a handler; a value in a constructor is one the handler
    has loaded. *)
Inductive hpc :=
  | H_seen                      (** [if (tt_node->sigwait_ts)] *)
  | H_enter                     (** [if (!tt_node->sigwait_enter)] *)
  | H_late                      (** [tt_node->sigwait_ts > deadline_ns] *)
  | H_stuck                     (** [tt_node->sigwait_ts == ...] *)
  | H_stuck_prev (ts : Z)       (** [... == tt_node->sigwait_ts_prev] *)
  | H_load_total                (** [total_deadline_misses++] *)
  | H_store_total (x : Z)
  | H_load_cycle                (** [cycle_deadline_misses++] *)
  | H_store_cycle (x : Z)
  | H_report                    (** [report_deadline_miss] *)
  | H_load_ts                   (** [sigwait_ts_prev = sigwait_ts] *)
  | H_store_prev (ts : Z)
  | H_done.

(** A handler that runs for a node; [th_deadline] is [ts_ns(before)]. *)
Record thr := mk_thr { th_node : Z; th_deadline : Z; th_pc : hpc }.

Definition goto (h : thr) (pc : hpc) : thr := mk_thr (th_node h) (th_deadline h) pc.

(** One access of a handler; [None] at the end, or when the node is gone. *)
Definition hstep (m : shared) (h : thr) : option (shared * thr) :=
  match sh_cells m !! th_node h with
  | None => None
  | Some c =>
      match th_pc h with
      | H_seen => Some (m, goto h (if c_sigwait_ts c =? 0 then H_done else H_enter))
      | H_enter => Some (m, goto h (if c_sigwait_enter c =? 0 then H_load_total else H_late))
      | H_late => Some (m, goto h (if th_deadline h <? c_sigwait_ts c then H_load_total else H_stuck))
      | H_stuck => Some (m, goto h (H_stuck_prev (c_sigwait_ts c)))
      | H_stuck_prev ts => Some (m, goto h (if ts =? c_sigwait_ts_prev c then H_load_total else H_load_ts))
      | H_load_total => Some (m, goto h (H_store_total (sh_total m)))
      | H_store_total x => Some (m <| sh_total := u32 (x + 1) |>, goto h H_load_cycle)
      | H_load_cycle => Some (m, goto h (H_store_cycle (sh_cycle m)))
      | H_store_cycle x => Some (m <| sh_cycle := u32 (x + 1) |>, goto h H_report)
      | H_report => Some (m <| sh_reports ::= cons (th_node h) |>, goto h H_load_ts)
      | H_load_ts => Some (m, goto h (H_store_prev (c_sigwait_ts c)))
      | H_store_prev ts =>
          Some (m <| sh_cells ::= <[th_node h := c <| c_sigwait_ts_prev := ts |>]> |>, goto h H_done)
      | H_done => None
      end
  end.

(** The polling thread between the two stores of an event: the node and the
    value of [enter] that is still to be stored. *)
Record node_state := mk_node_state {
  ns_mem : shared;
  ns_handlers : list thr;
  ns_event : option (Z * Z);
}.

Definition set_cell (p : Z) (f : cell -> cell) (m : shared) : shared := m <| sh_cells ::= alter f p |>.

(** The steps of the process: a timer expires and its handler starts, a
    handler makes an access, the polling thread stores the time and then the
    flag of an event, and the cycle handler resets its counter. *)
Inductive node_step : node_state -> node_state -> Prop :=
  | ns_expire m hs ev p deadline :
      node_step (mk_node_state m hs ev) (mk_node_state m (hs ++ [mk_thr p deadline H_seen]) ev)
  | ns_access m hs ev i h m' h' :
      hs !! i = Some h -> hstep m h = Some (m', h') ->
      node_step (mk_node_state m hs ev) (mk_node_state m' (<[i := h']> hs) ev)
  | ns_event_ts m hs p ts enter :
      node_step (mk_node_state m hs None)
        (mk_node_state (set_cell p (fun c => c <| c_sigwait_ts := ts |>) m) hs (Some (p, enter)))
  | ns_event_enter m hs p enter :
      node_step (mk_node_state m hs (Some (p, enter)))
        (mk_node_state (set_cell p (fun c => c <| c_sigwait_enter := enter |>) m) hs None)
  | ns_cycle m hs ev :
      node_step (mk_node_state m hs ev) (mk_node_state (m <| sh_cycle := 0 |>) hs ev).

(** ** A handler that is not disturbed *)

Fixpoint hrun (fuel : nat) (m : shared) (h : thr) : shared * thr :=
  match fuel with
  | O => (m, h)
  | S fuel => match hstep m h with None => (m, h) | Some (m, h) => hrun fuel m h end
  end.

(** What the node holds for the two threads. *)
Definition cell_of (n : time_trigger) : cell := mk_cell (tt_sigwait_ts n) (tt_sigwait_enter n) (tt_sigwait_ts_prev n).

(** The memory after the check that Core describes. *)
Definition checked (p : Z) (n : time_trigger) (deadline : Z) (m : shared) : shared :=
  let miss := missed n deadline in
  mk_shared (<[p := cell_of (mark_seen (negb (tt_sigwait_ts n =? 0)) n)]> (sh_cells m))
    (if miss then u32 (sh_total m + 1) else sh_total m)
    (if miss then u32 (sh_cycle m + 1) else sh_cycle m)
    (if miss then p :: sh_reports m else sh_reports m).

Lemma hrun_S k m h m' h' : hstep m h = Some (m', h') -> hrun (S k) m h = hrun k m' h'.
Proof. intros E. cbn [hrun]. by rewrite E. Qed.

Lemma hrun_done k m p deadline : hrun k m (mk_thr p deadline H_done) = (m, mk_thr p deadline H_done).
Proof. destruct k; [done|]. cbn. unfold hstep. cbn. by destruct (sh_cells m !! p). Qed.

#[local] Arguments hrun : simpl never.

(** One undisturbed access of a handler for a node with the cell [Hc]. *)
Ltac access Hc := erewrite hrun_S; [|unfold hstep; cbn; rewrite Hc; reflexivity]; unfold goto; cbn.

(** Storing the time of the last wait. *)
Lemma hrun_store_prev k p n deadline cells tot cyc reps :
  cells !! p = Some (cell_of n) ->
  hrun (S (S k)) (mk_shared cells tot cyc reps) (mk_thr p deadline H_load_ts)
  = (mk_shared (<[p := cell_of (n <| tt_sigwait_ts_prev := tt_sigwait_ts n |>)]> cells) tot cyc reps, mk_thr p deadline H_done).
Proof. intros Hc. access Hc. access Hc. apply hrun_done. Qed.

(** Counting and reporting a miss. *)
Lemma hrun_miss k p n deadline cells tot cyc reps :
  cells !! p = Some (cell_of n) ->
  hrun (7 + k) (mk_shared cells tot cyc reps) (mk_thr p deadline H_load_total)
  = (mk_shared (<[p := cell_of (n <| tt_sigwait_ts_prev := tt_sigwait_ts n |>)]> cells)
       (u32 (tot + 1)) (u32 (cyc + 1)) (p :: reps), mk_thr p deadline H_done).
Proof. intros Hc. cbn [Nat.add]. do 5 access Hc. by apply hrun_store_prev. Qed.

(** Undisturbed, the accesses do what Core says the check does, within twelve
    steps. *)
Lemma hrun_checked p n deadline m :
  sh_cells m !! p = Some (cell_of n) ->
  hrun 12 m (mk_thr p deadline H_seen) = (checked p n deadline m, mk_thr p deadline H_done).
Proof.
  intros Hc. destruct m as [cells tot cyc reps]. cbn in Hc. unfold checked, missed, mark_seen. cbn [sh_cells sh_total sh_cycle sh_reports].
  access Hc. destruct (tt_sigwait_ts n =? 0) eqn:E0; cbn [negb andb].
  { rewrite hrun_done, insert_id; done. }
  access Hc. destruct (tt_sigwait_enter n =? 0) eqn:E1; cbn [orb].
  { by apply (hrun_miss 3). }
  access Hc. destruct (deadline <? tt_sigwait_ts n) eqn:E2; cbn [orb].
  { by apply (hrun_miss 2). }
  access Hc. access Hc. destruct (tt_sigwait_ts n =? tt_sigwait_ts_prev n) eqn:E3; cbn [orb].
  { by apply (hrun_miss 0). }
  by apply (hrun_store_prev 5).
Qed.

(** ** Every interleaving *)

(** Handlers that have stored the total, or the count of the cycle, and have
    not reported yet. *)
Definition in_report (pc : hpc) : Z := match pc with H_load_cycle | H_store_cycle _ | H_report => 1 | _ => 0 end.
Definition at_report (pc : hpc) : Z := match pc with H_report => 1 | _ => 0 end.
Definition wsum (w : hpc -> Z) (hs : list thr) : Z := foldr (fun h a => w (th_pc h) + a) 0 hs.

Lemma wsum_app w l k : wsum w (l ++ k) = wsum w l + wsum w k.
Proof. unfold wsum. induction l as [|h l IH]; cbn in *; [done|]. rewrite IH. lia. Qed.

Lemma wsum_insert w hs i h h' :
  hs !! i = Some h -> wsum w (<[i := h']> hs) = wsum w hs - w (th_pc h) + w (th_pc h').
Proof.
  unfold wsum. revert i. induction hs as [|g hs IH]; intros i E; [done|].
  destruct i as [|i]; [injection E as ->; cbn; lia|].
  change (<[S i := h']> (g :: hs)) with (g :: <[i := h']> hs). cbn [foldr]. specialize (IH i E). lia.
Qed.

(** Reports since [m0], with those that are certain to come. *)
Definition due (w : hpc -> Z) (m0 : shared) (st : node_state) : Z :=
  blen (sh_reports (ns_mem st)) - blen (sh_reports m0) + wsum w (ns_handlers st).

(** A counter is at most its old value plus the reports; [x] is a value that
    was loaded from it. *)
Definition loaded_ok (total cycle : Z) (h : thr) : Prop :=
  match th_pc h with
  | H_store_total x => 0 <= x <= total
  | H_store_cycle x => 0 <= x <= cycle
  | _ => True
  end.

Record bounded (m0 : shared) (st : node_state) : Prop := {
  bd_total : 0 <= sh_total (ns_mem st) <= sh_total m0 + due in_report m0 st;
  bd_cycle : 0 <= sh_cycle (ns_mem st) <= sh_cycle m0 + due at_report m0 st;
  bd_loaded : Forall (loaded_ok (sh_total m0 + due in_report m0 st) (sh_cycle m0 + due at_report m0 st)) (ns_handlers st);
}.

(** The effect of an access on the counters and on what is due. *)
Lemma hstep_effect m h m' h' :
  hstep m h = Some (m', h') ->
  let d w := blen (sh_reports m') - blen (sh_reports m) + w (th_pc h') - w (th_pc h) in
  0 <= d in_report /\ 0 <= d at_report /\
  sh_total m' = (if th_pc h is H_store_total x then u32 (x + 1) else sh_total m) /\
  sh_cycle m' = (if th_pc h is H_store_cycle x then u32 (x + 1) else sh_cycle m) /\
  (if th_pc h is H_store_total _ then d in_report = 1 else True) /\
  (if th_pc h is H_store_cycle _ then d at_report = 1 else True) /\
  match th_pc h' with
  | H_store_total x => x = sh_total m
  | H_store_cycle x => x = sh_cycle m
  | _ => True
  end.
Proof.
  unfold hstep. destruct (sh_cells m !! th_node h) as [c|]; [|done].
  destruct (th_pc h) eqn:Ep; intros [= <- <-]; cbn zeta; unfold goto; cbn [th_pc sh_reports sh_total sh_cycle upd eta_shared];
    repeat match goal with |- context [if ?b then _ else _] => is_var b || destruct b end;
    cbn; rewrite ?Ep; split_and!; try done; try lia.
Qed.

Lemma u32_succ_le x b : 0 <= x <= b -> 0 <= u32 (x + 1) <= b + 1.
Proof.
  intros Hx. pose proof (wrapu_range 32 (x + 1) ltac:(lia)) as [H _]. split; [exact H|].
  pose proof (Z.mod_le (x + 1) (2 ^ 32) ltac:(lia) ltac:(lia)). unfold wrapu. lia.
Qed.

Lemma loaded_mono t t' c c' hs :
  t <= t' -> c <= c' -> Forall (loaded_ok t c) hs -> Forall (loaded_ok t' c') hs.
Proof.
  intros Ht Hc H. eapply Forall_impl; [exact H|]. intros h. unfold loaded_ok. destruct (th_pc h); auto; lia.
Qed.

Lemma bounded_access m0 m hs ev i h m' h' :
  bounded m0 (mk_node_state m hs ev) -> hs !! i = Some h -> hstep m h = Some (m', h') ->
  bounded m0 (mk_node_state m' (<[i := h']> hs) ev).
Proof.
  intros [Ht Hc Hl] Hi E. destruct (hstep_effect m h m' h' E) as (D1 & D2 & Et & Ec & S1 & S2 & Hload).
  assert (loaded_ok (sh_total m0 + due in_report m0 (mk_node_state m hs ev))
    (sh_cycle m0 + due at_report m0 (mk_node_state m hs ev)) h) as Hh
    by (eapply (proj1 (Forall_forall _ _) Hl), list_elem_of_lookup_2, Hi).
  assert (forall w, due w m0 (mk_node_state m' (<[i := h']> hs) ev) = due w m0 (mk_node_state m hs ev)
    + (blen (sh_reports m') - blen (sh_reports m) + w (th_pc h') - w (th_pc h))) as Hd.
  { intros w. unfold due. cbn [ns_mem ns_handlers]. rewrite (wsum_insert w hs i h h' Hi). lia. }
  unfold loaded_ok in Hh. cbn [ns_mem] in *. split; cbn [ns_mem ns_handlers]; rewrite ?Hd.
  - rewrite Et. destruct (th_pc h); try lia. rewrite S1. apply u32_succ_le in Hh. lia.
  - rewrite Ec. destruct (th_pc h); try lia. rewrite S2. apply u32_succ_le in Hh. lia.
  - apply Forall_insert; [eapply loaded_mono; [| |exact Hl]; lia|].
    unfold loaded_ok. destruct (th_pc h'); auto; lia.
Qed.

Lemma bounded_step m0 st st' : node_step st st' -> bounded m0 st -> bounded m0 st'.
Proof.
  intros Hs Hb. destruct Hs as [m hs ev p deadline|m hs ev i h m' h' Hi E|m hs p ts enter|m hs p enter|m hs ev].
  - destruct Hb as [Ht Hc Hl]. assert (forall w, w H_seen = 0 -> due w m0 (mk_node_state m (hs ++ [mk_thr p deadline H_seen]) ev)
      = due w m0 (mk_node_state m hs ev)) as Hd.
    { intros w Hw. unfold due. cbn [ns_mem ns_handlers]. rewrite wsum_app. cbn. rewrite Hw. lia. }
    split; cbn [ns_mem ns_handlers] in *; rewrite ?Hd by done; [done|done|].
    apply Forall_app. split; [exact Hl|]. by repeat constructor.
  - by eapply bounded_access.
  - destruct Hb as [Ht Hc Hl]. by split.
  - destruct Hb as [Ht Hc Hl]. by split.
  - destruct Hb as [Ht Hc Hl]. split; [exact Ht| |exact Hl]. cbn in *. unfold due in *. cbn in *. lia.
Qed.

(** ** Schedules *)

(** A choice of the scheduler. *)
Inductive choice :=
  | C_expire (p deadline : Z)
  | C_access (i : nat)
  | C_ts (p ts enter : Z)
  | C_enter
  | C_cycle.

Definition exec_choice (c : choice) (st : node_state) : option node_state :=
  let '(mk_node_state m hs ev) := st in
  match c with
  | C_expire p deadline => Some (mk_node_state m (hs ++ [mk_thr p deadline H_seen]) ev)
  | C_access i =>
      h ← hs !! i;
      '(m', h') ← hstep m h;
      Some (mk_node_state m' (<[i := h']> hs) ev)
  | C_ts p ts enter =>
      if ev is None then Some (mk_node_state (set_cell p (fun c => c <| c_sigwait_ts := ts |>) m) hs (Some (p, enter)))
      else None
  | C_enter =>
      if ev is Some (p, enter) then Some (mk_node_state (set_cell p (fun c => c <| c_sigwait_enter := enter |>) m) hs None)
      else None
  | C_cycle => Some (mk_node_state (m <| sh_cycle := 0 |>) hs ev)
  end.

Fixpoint exec (cs : list choice) (st : node_state) : option node_state :=
  match cs with [] => Some st | c :: cs => st ← exec_choice c st; exec cs st end.

Lemma exec_sound cs st st' : exec cs st = Some st' -> rtc node_step st st'.
Proof.
  revert st. induction cs as [|c cs IH]; intros st; cbn [exec]; [by intros [= ->]|].
  destruct (exec_choice c st) as [st1|] eqn:E; [|done]. cbn. intros H. eapply rtc_l; [|by apply IH].
  destruct st as [m hs ev], c as [p d|i|p ts enter| |]; cbn in E.
  - injection E as <-. constructor.
  - destruct (hs !! i) as [h|] eqn:Eh; [|done]. cbn in E. destruct (hstep m h) as [[m' h']|] eqn:Es; [|done].
    injection E as <-. by econstructor.
  - destruct ev; [done|]. injection E as <-. constructor.
  - destruct ev as [[p enter]|]; [|done]. injection E as <-. constructor.
  - injection E as <-. constructor.
Qed.

Definition finished (st : node_state) : Prop := ns_event st = None /\ Forall (fun h => th_pc h = H_done) (ns_handlers st).

Lemma finished_due w st m0 : w H_done = 0 -> finished st ->
  due w m0 st = blen (sh_reports (ns_mem st)) - blen (sh_reports m0).
Proof.
  intros Hw [_ Hf]. unfold due. assert (wsum w (ns_handlers st) = 0) as ->; [|lia].
  unfold wsum. induction Hf as [|h hs Hh _ IH]; cbn; [done|]. rewrite Hh, Hw. exact IH.
Qed.

(** C4: However the handlers of the node and the polling thread interleave, the
    counters of deadline misses never run ahead of the reports: a counter is at
    most its value at the start plus the reports sent since and those of
    handlers that have counted and are about to report; when all handlers are
    done, plus the reports alone.  A handler that no other thread disturbs does
    exactly what the sequential model says: it reports and counts if and only if
    the deadline was missed. *)
Theorem interleaved_accounting m0 st :
  in_u 32 (sh_total m0) -> in_u 32 (sh_cycle m0) -> rtc node_step (mk_node_state m0 [] None) st ->
  let sent := blen (sh_reports (ns_mem st)) - blen (sh_reports m0) in
  sh_total (ns_mem st) <= sh_total m0 + sent + wsum in_report (ns_handlers st) /\
  sh_cycle (ns_mem st) <= sh_cycle m0 + sent + wsum at_report (ns_handlers st) /\
  (finished st -> sh_total (ns_mem st) <= sh_total m0 + sent /\ sh_cycle (ns_mem st) <= sh_cycle m0 + sent) /\
  (forall p n deadline, sh_cells (ns_mem st) !! p = Some (cell_of n) ->
     hrun 12 (ns_mem st) (mk_thr p deadline H_seen) = (checked p n deadline (ns_mem st), mk_thr p deadline H_done)).
Proof.
  intros Ht Hc Hr sent. assert (bounded m0 st) as [Bt Bc _].
  { assert (bounded m0 (mk_node_state m0 [] None)) as H0.
    { split; cbn; unfold due; cbn; [range|range|constructor]. }
    induction Hr as [|st1 st2 st3 Hs _ IH]; [exact H0|]. apply IH. by eapply bounded_step. }
  split_and!; [unfold due in *; lia|unfold due in *; lia| |].
  - intros Hf. rewrite !(finished_due _ st m0) in * by done. lia.
  - intros p n deadline. apply hrun_checked.
Qed.

(** ** What goes wrong *)

(** Two tasks that are still running when their timers expire. *)
Definition overrun_mem : shared :=
  mk_shared (<[1 := mk_cell 100 0 50]> (<[2 := mk_cell 110 0 60]> ∅)) 0 0 [].

(** Both handlers load the counters before either stores. *)
Definition lost_update : list choice :=
  [C_expire 1 200; C_expire 2 200] ++
  [C_access 0; C_access 0; C_access 0] ++ [C_access 1; C_access 1; C_access 1] ++
  [C_access 0; C_access 0; C_access 1; C_access 1; C_access 0; C_access 1; C_access 0; C_access 1] ++
  [C_access 0; C_access 0; C_access 1; C_access 1].

(** A task that waits since 100, which the previous check has seen. *)
Definition waiting_mem : shared := mk_shared (<[1 := mk_cell 100 1 100]> ∅) 0 0 [].
Definition finish (cs : list choice) (m : shared) : node_state :=
  default (mk_node_state m [] None) (exec cs (mk_node_state m [] None)).

(** Accesses of the two handlers, in the order of a proof. *)
Section two_handlers.
Context (st : node_state).

Lemma run_first m h1 h2 m' h1' ev :
  hstep m h1 = Some (m', h1') -> rtc node_step (mk_node_state m' [h1'; h2] ev) st ->
  rtc node_step (mk_node_state m [h1; h2] ev) st.
Proof. intros E. apply rtc_l. by apply (ns_access m [h1; h2] ev 0 h1). Qed.

Lemma run_second m h1 h2 m' h2' ev :
  hstep m h2 = Some (m', h2') -> rtc node_step (mk_node_state m' [h1; h2'] ev) st ->
  rtc node_step (mk_node_state m [h1; h2] ev) st.
Proof. intros E. apply rtc_l. by apply (ns_access m [h1; h2] ev 1 h2). Qed.

Lemma run_only m h m' h' ev :
  hstep m h = Some (m', h') -> rtc node_step (mk_node_state m' [h'] ev) st ->
  rtc node_step (mk_node_state m [h] ev) st.
Proof. intros E. apply rtc_l. by apply (ns_access m [h] ev 0 h). Qed.

End two_handlers.

(** The accesses of one handler, without the others. *)
Inductive looks : shared -> thr -> thr -> Prop :=
  | looks_nil m h : looks m h h
  | looks_cons m h h1 h2 : hstep m h = Some (m, h1) -> looks m h1 h2 -> looks m h h2.

(** One access, for a node with the cell [Hc]. *)
Ltac look Hc := eapply looks_cons; [unfold hstep; cbn; rewrite Hc; reflexivity|]; unfold goto; cbn.
Ltac first_step Hp := eapply run_first; [unfold hstep; cbn; rewrite Hp; reflexivity|]; unfold goto; cbn.
Ltac second_step Hq := eapply run_second; [unfold hstep; cbn; rewrite Hq; reflexivity|]; unfold goto; cbn.
Ltac only_step Hc := eapply run_only; [unfold hstep; cbn; rewrite Hc; reflexivity|]; unfold goto; cbn.

(** A missed deadline is found without writing anything. *)
Lemma miss_found m p n deadline :
  sh_cells m !! p = Some (cell_of n) -> missed n deadline = true ->
  looks m (mk_thr p deadline H_seen) (mk_thr p deadline H_load_total).
Proof.
  intros Hc Hm. unfold missed in Hm. apply andb_true_iff in Hm as [E0%negb_true_iff Hm].
  look Hc. rewrite E0. look Hc. destruct (tt_sigwait_enter n =? 0); [constructor|].
  look Hc. destruct (deadline <? tt_sigwait_ts n); [constructor|]. cbn [orb] in Hm.
  look Hc. look Hc. rewrite Hm. constructor.
Qed.

Lemma looks_first st m h1 h1' h2 ev :
  looks m h1 h1' -> rtc node_step (mk_node_state m [h1'; h2] ev) st -> rtc node_step (mk_node_state m [h1; h2] ev) st.
Proof. induction 1 as [|m h h' h'' E _ IH]; intros H; [done|]. eapply run_first; [exact E|]. by apply IH. Qed.

Lemma looks_second st m h1 h2 h2' ev :
  looks m h2 h2' -> rtc node_step (mk_node_state m [h1; h2'] ev) st -> rtc node_step (mk_node_state m [h1; h2] ev) st.
Proof. induction 1 as [|m h h' h'' E _ IH]; intros H; [done|]. eapply run_second; [exact E|]. by apply IH. Qed.

(** Any two misses: both handlers load the counters before either stores. *)
Lemma misses_counted_once m p q n1 n2 d1 d2 :
  p <> q -> sh_cells m !! p = Some (cell_of n1) -> sh_cells m !! q = Some (cell_of n2) ->
  missed n1 d1 = true -> missed n2 d2 = true ->
  exists st, rtc node_step (mk_node_state m [] None) st /\ finished st /\
    sh_reports (ns_mem st) = q :: p :: sh_reports m /\
    sh_total (ns_mem st) = u32 (sh_total m + 1) /\ sh_cycle (ns_mem st) = u32 (sh_cycle m + 1).
Proof.
  intros Hpq Hp Hq M1 M2. destruct m as [cells tot cyc reps]. cbn [sh_cells] in *. eexists. split.
  { eapply rtc_l; [apply (ns_expire _ [] None p d1)|]. eapply rtc_l; [apply (ns_expire _ _ None q d2)|]. cbn [app].
    eapply looks_first; [by eapply miss_found|]. eapply looks_second; [by eapply miss_found|].
    first_step Hp. second_step Hq. first_step Hp. second_step Hq. first_step Hp. second_step Hq.
    first_step Hp. second_step Hq. first_step Hp. second_step Hq. second_step Hq. second_step Hq.
    assert (Hp' : forall c, <[q:=c]> cells !! p = Some (cell_of n1)) by (intros c; by rewrite lookup_insert_ne by done).
    first_step Hp'. first_step Hp'. reflexivity. }
  split; [split; [done|repeat constructor]|]. done.
Qed.

(** The two stores of an event that the task has left its wait at [ts]. *)
Definition leave_wait (p ts : Z) (m : shared) : shared :=
  set_cell p (fun c => c <| c_sigwait_enter := 0 |>) (set_cell p (fun c => c <| c_sigwait_ts := ts |>) m).

Definition waits_seen (n : time_trigger) : Prop :=
  tt_sigwait_ts n <> 0 /\ tt_sigwait_enter n <> 0 /\ tt_sigwait_ts_prev n = tt_sigwait_ts n.

(** The handler looks between the two stores. *)
Lemma miss_overlooked m p n d ts :
  sh_cells m !! p = Some (cell_of n) -> waits_seen n -> ts <> 0 -> ts <> tt_sigwait_ts n -> ts <= d ->
  exists st, rtc node_step (mk_node_state m [] None) st /\ finished st /\ sh_reports (ns_mem st) = sh_reports m /\
    sh_total (ns_mem st) = sh_total m /\ sh_cycle (ns_mem st) = sh_cycle m /\
    sh_cells (ns_mem st) !! p = Some (mk_cell ts 0 ts).
Proof.
  intros Hp (H0 & He & Hv) Hts Hne Hd. destruct m as [cells tot cyc reps]. cbn [sh_cells] in Hp.
  remember (fun c : cell => c <| c_sigwait_ts := ts |>) as f eqn:Ef.
  assert (Hc : alter f p cells !! p = Some (mk_cell ts (tt_sigwait_enter n) (tt_sigwait_ts n))).
  { rewrite lookup_alter_eq, Hp, Ef. cbn. by rewrite Hv. }
  eexists. split.
  { eapply rtc_l; [apply (ns_expire _ [] None p d)|]. cbn [app].
    eapply rtc_l; [apply (ns_event_ts _ _ p ts 0)|]. unfold set_cell. rewrite <- Ef. cbn.
    only_step Hc. rewrite (proj2 (Z.eqb_neq ts 0) Hts). only_step Hc. rewrite (proj2 (Z.eqb_neq _ 0) He).
    only_step Hc. rewrite (proj2 (Z.ltb_ge d ts) Hd). only_step Hc. only_step Hc.
    rewrite (proj2 (Z.eqb_neq ts _) Hne). only_step Hc. only_step Hc.
    eapply rtc_l; [apply ns_event_enter|]. reflexivity. }
  split; [split; [done|repeat constructor]|]. split_and!; try done.
  cbn. rewrite lookup_alter_eq, lookup_insert_eq. done.
Qed.

(** A handler that runs before the event, or after it, reports the miss. *)
Lemma overrun_reported m p n d ts :
  sh_cells m !! p = Some (cell_of n) -> waits_seen n -> ts <> 0 ->
  sh_reports (hrun 12 m (mk_thr p d H_seen)).1 = p :: sh_reports m /\
  sh_reports (hrun 12 (leave_wait p ts m) (mk_thr p d H_seen)).1 = p :: sh_reports m.
Proof.
  intros Hp (H0 & He & Hv) Hts. split.
  - rewrite (hrun_checked p n) by done. unfold checked, missed. cbn.
    rewrite (proj2 (Z.eqb_neq _ 0) H0), Hv, Z.eqb_refl. cbn. by rewrite orb_true_r.
  - set (n' := n <| tt_sigwait_ts := ts |> <| tt_sigwait_enter := 0 |>).
    assert (sh_cells (leave_wait p ts m) !! p = Some (cell_of n')) as Hc.
    { unfold leave_wait, set_cell. cbn. by rewrite !lookup_alter_eq, Hp. }
    rewrite (hrun_checked p n' d _ Hc). unfold checked, missed. cbn. by rewrite (proj2 (Z.eqb_neq _ 0) Hts).
Qed.

(** C18: The handlers share their data without a lock, and this shows.  For any
    two tasks whose deadline is missed there is an interleaving of their
    handlers in which both misses are reported but the total and the cycle's
    counter grow by one only.  And for any task that has been waiting since its
    last check and leaves its wait at [ts], before its timer expires at [d],
    there is an interleaving in which the handler runs between the two stores of
    that wait event, sees neither the old nor the new state, and neither reports
    nor counts anything, although it reports a miss when it runs before the
    event and when it runs after it. *)
Theorem handlers_race m :
  (forall p q n1 n2 d1 d2,
     p <> q -> sh_cells m !! p = Some (cell_of n1) -> sh_cells m !! q = Some (cell_of n2) ->
     missed n1 d1 = true -> missed n2 d2 = true ->
     exists st, rtc node_step (mk_node_state m [] None) st /\ finished st /\
       sh_reports (ns_mem st) = q :: p :: sh_reports m /\
       sh_total (ns_mem st) = u32 (sh_total m + 1) /\ sh_cycle (ns_mem st) = u32 (sh_cycle m + 1)) /\
  (forall p n d ts,
     sh_cells m !! p = Some (cell_of n) -> waits_seen n -> ts <> 0 -> ts <> tt_sigwait_ts n -> ts <= d ->
     (exists st, rtc node_step (mk_node_state m [] None) st /\ finished st /\ sh_reports (ns_mem st) = sh_reports m /\
        sh_total (ns_mem st) = sh_total m /\ sh_cycle (ns_mem st) = sh_cycle m /\
        sh_cells (ns_mem st) !! p = Some (mk_cell ts 0 ts)) /\
     sh_reports (hrun 12 m (mk_thr p d H_seen)).1 = p :: sh_reports m /\
     sh_reports (hrun 12 (leave_wait p ts m) (mk_thr p d H_seen)).1 = p :: sh_reports m).
Proof.
  split.
  - intros. by eapply misses_counted_once.
  - intros. split; [by eapply miss_overlooked|by eapply overrun_reported].
Qed.

Definition race_node (ts enter prev : Z) : time_trigger :=
  mk_time_trigger 1 0 task_info_zero ts prev enter ts_zero true.

Lemma handlers_race_witness :
  (exists st, rtc node_step (mk_node_state overrun_mem [] None) st /\
     sh_reports (ns_mem st) = [2; 1] /\ sh_total (ns_mem st) = 1) /\
  (exists st, rtc node_step (mk_node_state waiting_mem [] None) st /\ sh_reports (ns_mem st) = []).
Proof.
  split.
  - destruct (proj1 (handlers_race overrun_mem) 1 2 (race_node 100 0 50) (race_node 110 0 60) 200 200)
      as (st & Hr & _ & H1 & H2 & _); [done|reflexivity|reflexivity|reflexivity|reflexivity|]. eauto.
  - destruct (proj2 (handlers_race waiting_mem) 1 (race_node 100 1 100) 300 211)
      as ((st & Hr & _ & H1 & _) & _); [reflexivity|done|lia|cbn; lia|lia|]. eauto.
Defined.

Lemma interleaved_accounting_witness :
  let st := finish lost_update overrun_mem in
  sh_total (ns_mem st) <= 0 + 2 + wsum in_report (ns_handlers st).
Proof.
  intros st. assert (rtc node_step (mk_node_state overrun_mem [] None) st) as Hr
    by (apply (exec_sound lost_update); vm_compute; reflexivity).
  assert (in_u 32 0) as H0 by range.
  destruct (interleaved_accounting overrun_mem st H0 H0 Hr) as (H & _). exact H.
Defined.
