(* ===== verification/NodeStart.v ===== *)
(** * Starting a node (timpani-n/src/main.c)

    [main] from the command line to its event loop, composed of the operations
    of the other files.  In any environment the state the loop is entered in is
    one that Safety is about; with an orchestrator that serves a workload and a
    system whose calls succeed, the loop is entered with the tasks of this node
    that have a process, all armed for the common start. *)

From S2P Require Import Prelude Time Types Kernel Serialize Hyperperiod SchedInfo PeerDbus.
From S2P Require Import Trpc Sched TraceBpf Task Config ApexMonitor Core Main Safety Shutdown.

Abbreviation tt_list_of s := (rt_tt_list (cx_runtime (n_ctx s))).
Abbreviation apex_list_of s := (rt_apex_list (cx_runtime (n_ctx s))).
Abbreviation cfg_of s := (cx_config (n_ctx s)).

(** ** What the steps of the start-up leave alone *)

(** Everything but the channel, the received schedule, the hyperperiod and the
    start time; heap addresses are not reused. *)
Definition core_of (s : nstate) : config * list time_trigger * list apex_info * bool * Z * list timer_op :=
  (cfg_of s, tt_list_of s, apex_list_of s, n_g_ctx s, tally_of ev_poll s, timer_ops s).
Definition quiet (s s' : nstate) : Prop := core_of s' = core_of s /\ n_brk s <= n_brk s'.

(** Steps that do not even touch the context. *)
Definition outer_of (s : nstate) : context * bool * Z * Z * Z * list timer_op :=
  (n_ctx s, n_g_ctx s, n_brk s, tally_of ev_retry s, tally_of ev_poll s, timer_ops s).

#[export] Instance quiet_preorder : PreOrder quiet.
Proof.
  split; [done|]. intros s1 s2 s3 [H1 B1] [H2 B2]. split; [congruence|lia].
Qed.

(** The last byte of the array the workload id is copied to is never written. *)
Definition id_ok (s : nstate) : Prop := hp_workload_id (cx_hp (n_ctx s)) !! 63%nat = Some x00.

(** The hyperperiod manager has been set up from the received schedule. *)
Definition linked (s : nstate) : Prop :=
  hp_ctx (cx_hp (n_ctx s)) = true /\
  cstr (hp_workload_id (cx_hp (n_ctx s))) = take 63 (cstr (si_workload_id (sinfo_of s))).

Ltac quiet_tac := frames_tac; intros; (split; [reflexivity|simpl; lia]).

Lemma strncpy_lookup_end dst src n : strncpy dst src n !! n = dst !! n.
Proof.
  unfold strncpy. rewrite app_assoc, lookup_app_r; rewrite length_app, length_zeros, length_take; [|lia].
  rewrite lookup_drop. f_equal. lia.
Qed.

Section steps.
Context {HO : Host} {K : Kernel} {SJ : StackJunk} {BC : BuildConfig} {IJ : IntJunk}.

Lemma alloc_quiet n : frames quiet (alloc n).
Proof. unfold alloc. quiet_tac. Qed.
#[local] Hint Resolve alloc_quiet : frames.

Lemma trpc_client_schedinfo_quiet dbus name : frames quiet (trpc_client_schedinfo dbus name).
Proof. unfold trpc_client_schedinfo, call_method, release_reply. quiet_tac. Qed.
#[local] Hint Resolve trpc_client_schedinfo_quiet : frames.

Lemma destroy_task_info_list_quiet tasks : frames quiet (destroy_task_info_list tasks).
Proof. induction tasks as [|[a t] tasks IH]; simpl; quiet_tac. Qed.
#[local] Hint Resolve destroy_task_info_list_quiet : frames.

Lemma drop_tasks_quiet : frames quiet drop_tasks.
Proof. unfold drop_tasks, get_sinfo, upd_sinfo, upd_rt, upd_ctx. quiet_tac. Qed.
#[local] Hint Resolve drop_tasks_quiet : frames.

Lemma deserialize_tasks_quiet i b : frames quiet (deserialize_tasks i b).
Proof.
  revert b. induction i as [|i IH]; intros b; simpl; unfold upd_sinfo, upd_rt, upd_ctx; quiet_tac.
Qed.
#[local] Hint Resolve deserialize_tasks_quiet : frames.

Lemma deserialize_sched_info_quiet b : frames quiet (deserialize_sched_info b).
Proof.
  unfold deserialize_sched_info, get_sinfo, init_hyperperiod, upd_hp, upd_sinfo, upd_rt, upd_ctx.
  quiet_tac.
Qed.
#[local] Hint Resolve deserialize_sched_info_quiet : frames.

Lemma try_connect_quiet : frames quiet try_connect.
Proof.
  unfold try_connect, init_trpc_connection, trpc_client_create, init_dbus_client, checked, get_sched_info,
    cleanup_trpc_connection, free_serial_buf, upd_comm, upd_ctx, get_ctx.
  quiet_tac.
Qed.
#[local] Hint Resolve try_connect_quiet : frames.

Lemma init_trpc_quiet : frames quiet init_trpc.
Proof.
  unfold init_trpc. induction TT_MAX_CONNECTION_RETRIES as [|n IH]; cbn [init_trpc_loop]; quiet_tac.
Qed.

(** The other steps before the task list. *)
Lemma setup_signal_handlers_spec s :
  wp setup_signal_handlers (fun _ s' => outer_of s' = outer_of (s <| n_g_ctx := true |>)) s.
Proof.
  unfold setup_signal_handlers. apply wp_bind, wp_modify, wp_bind, wp_sys.
  destruct (_ <? 0); [by apply wp_ret|]. apply wp_bind, wp_sys. destruct (_ <? 0); by apply wp_ret.
Qed.

Lemma set_affinity_outer p c : frames (keeps outer_of) (set_affinity p c).
Proof. unfold set_affinity. frames_tac. Qed.

Lemma set_schedattr_outer p a b : frames (keeps outer_of) (set_schedattr p a b).
Proof. unfold set_schedattr. frames_tac. Qed.

Lemma calibrate_outer : frames (keeps outer_of) calibrate_bpf_time_offset.
Proof.
  unfold calibrate_bpf_time_offset, calibrate_bpf_ktime_offset_internal.
  generalize 20%nat, UINT64_MAX. intros n. induction n as [|n IH]; intros best; cbn [calibrate_loop]; frames_tac.
Qed.

Lemma start_bpf_outer p : frames (keeps outer_of) (start_bpf p).
Proof. unfold start_bpf, bpf_fail, set_skel, set_rb. frames_tac. Qed.
#[local] Hint Resolve start_bpf_outer : frames.

Lemma bpf_on_outer : frames (keeps outer_of) bpf_on.
Proof. unfold bpf_on. frames_tac. Qed.

Lemma apex_monitor_init_quiet : frames quiet apex_monitor_init.
Proof. unfold apex_monitor_init, upd_comm, upd_ctx. quiet_tac. Qed.

(** *** The hyperperiod manager *)

Definition hp_of (s : nstate) : hyperperiod_manager := cx_hp (n_ctx s).

Lemma drop_tasks_hp : frames (keeps hp_of) drop_tasks.
Proof.
  assert (forall l, frames (keeps hp_of) (destroy_task_info_list l)) as Hl.
  { induction l as [|[a t] l IH]; simpl; frames_tac. }
  unfold drop_tasks, get_sinfo, upd_sinfo, upd_rt, upd_ctx. frames_tac.
Qed.

Lemma deserialize_tasks_hp i b : frames (keeps hp_of) (deserialize_tasks i b).
Proof.
  pose proof drop_tasks_hp. revert b.
  induction i as [|i IH]; intros b; simpl; unfold alloc, upd_sinfo, upd_rt, upd_ctx; frames_tac.
Qed.

Definition links {A} (ok : A -> Prop) (a : A) (s : nstate) : Prop := id_ok s /\ (ok a -> linked s).

(** A failure leaves the manager as it was. *)
Lemma links_failure {A} (m : N unit) (ok : A -> Prop) s (a : A) :
  frames (keeps hp_of) m -> id_ok s -> ~ ok a -> wlp (m ;; mret a) (links ok) s.
Proof.
  intros Hm Hid Ha. apply wlp_bind. eapply wlp_mono; [apply Hm|]. intros [] s1 H1. apply wlp_ret.
  split; [|done]. unfold id_ok in *. unfold keeps, hp_of in H1. by rewrite H1.
Qed.

Lemma deserialize_sched_info_links b s :
  id_ok s -> wlp (deserialize_sched_info b) (links (fun r => r.1 = TT_SUCCESS)) s.
Proof.
  intros Hid. unfold deserialize_sched_info. apply wlp_bind, wlp_lift.
  destruct (deserialize_int32_t b) as [[[nr|] b1]|]; [|by apply wlp_ret|done].
  unfold get_sinfo, upd_sinfo, upd_rt, upd_ctx. do 2 apply wlp_bind, wp_wlp, wp_modify.
  apply wlp_bind. eapply wlp_mono; [apply deserialize_tasks_hp|]. intros [r b2] s1 H1. unfold keeps, hp_of in H1.
  assert (id_ok s1) as Hid1 by (unfold id_ok; by rewrite H1).
  destruct (tt_ok_code r) eqn:Er; [|apply wlp_ret; split; [done|]; intros E; cbn in E; by rewrite E in Er].
  apply wlp_bind, wp_wlp, wp_gets. apply wlp_bind, wlp_lift.
  destruct (deserialize_str _ _) as [[[w|] b3]|]; [|by apply links_failure; [apply drop_tasks_hp|..]|done].
  apply wlp_bind, wp_wlp, wp_modify, wlp_bind, wlp_lift.
  destruct (deserialize_int64_t b3) as [[[hp|] b4]|]; [|by apply links_failure; [apply drop_tasks_hp|..]|done].
  apply wlp_bind, wp_wlp, wp_gets. unfold init_hyperperiod, upd_hp, upd_ctx.
  do 2 apply wlp_bind. apply wp_wlp, wp_modify, wlp_ret, wlp_ret. split.
  - unfold id_ok in *. simpl. by rewrite strncpy_lookup_end.
  - intros _. split; [done|]. simpl. by apply cstr_strncpy.
Qed.

Lemma try_connect_links s :
  id_ok s -> wlp try_connect (links (fun ok => ok = true /\ cf_enable_apex (cfg_of s) = false)) s.
Proof.
  assert (forall addr port, frames (keeps hp_of) (init_trpc_connection addr port)) as Hconn.
  { intros. unfold init_trpc_connection, trpc_client_create, init_dbus_client, checked, upd_comm, upd_ctx. frames_tac. }
  assert (forall d n, frames (keeps hp_of) (trpc_client_schedinfo d n)) as Hget.
  { intros. unfold trpc_client_schedinfo, call_method, release_reply, alloc. frames_tac. }
  assert (frames (keeps hp_of) cleanup_trpc_connection) as Hclean.
  { unfold cleanup_trpc_connection, upd_comm, upd_ctx, get_ctx. frames_tac. }
  intros Hid. unfold try_connect, get_ctx. apply wlp_bind, wp_wlp, wp_gets.
  apply wlp_bind. eapply wlp_mono; [apply Hconn|]. intros ret s1 H1. unfold keeps, hp_of in H1.
  assert (id_ok s1) as Hid1 by (unfold id_ok; by rewrite H1).
  destruct (ret =? 0); [|apply wlp_ret; split; [done|]; by intros []].
  destruct (cf_enable_apex _); [apply wlp_ret; split; [done|]; by intros []|].
  apply wlp_bind. apply (wlp_mono _ (links (fun r => r = 0))).
  - unfold get_sched_info, get_ctx. apply wlp_bind, wp_wlp, wp_gets.
    apply wlp_bind. eapply wlp_mono; [apply Hget|]. intros [r buf] s2 H2. unfold keeps, hp_of in H2.
    assert (id_ok s2) as Hid2 by (unfold id_ok; by rewrite H2).
    destruct (Z.ltb_spec r 0); [apply wlp_ret; split; [done|lia]|].
    destruct buf as [[p bytes]|]; [|by apply wlp_ret]. destruct (_ =? 0); [by apply wlp_ret|].
    apply wlp_bind. eapply wlp_mono.
    + apply (fun s => (ltac:(unfold alloc; frames_tac) : frames (keeps hp_of) (alloc sizeof_serial_buf_t)) s).
    + intros q s3 H3. unfold keeps, hp_of in H3. assert (id_ok s3) as Hid3 by (unfold id_ok; by rewrite H3).
      destruct q as [q|]; [|by apply wlp_ret]. apply wlp_bind.
      eapply wlp_mono; [by apply deserialize_sched_info_links|]. intros [r' b'] s4 [Hid4 Hl4].
      unfold free_serial_buf. do 2 apply wlp_bind. apply wp_wlp, wp_sys, wp_sys, wlp_ret.
      split; [done|]. intros E. apply Hl4. simpl. by apply tt_code_inj.
  - intros r s2 [Hid2 Hl2]. destruct (Z.eqb_spec r 0) as [->|].
    + apply wlp_ret. split; [done|]. intros _. by apply Hl2.
    + apply links_failure; [done|done|]. by intros [].
Qed.

Lemma init_trpc_links s :
  id_ok s -> wlp init_trpc (links (fun r => r = TT_SUCCESS /\ cf_enable_apex (cfg_of s) = false)) s.
Proof.
  unfold init_trpc. generalize TT_MAX_CONNECTION_RETRIES. intros n. revert s.
  induction n as [|n IH]; intros s Hid; cbn [init_trpc_loop].
  { apply wlp_ret. split; [done|]. by intros []. }
  apply wlp_bind. eapply wlp_mono; [eapply frames_wlp; [apply try_connect_quiet|by apply try_connect_links]|].
  intros ok s1 [[Hid1 Hl1] [Hq _]]. unfold core_of in Hq. assert (cfg_of s1 = cfg_of s) as Hc by congruence.
  destruct ok.
  - apply wlp_ret. split; [done|]. intros [_ Ha]. by apply Hl1.
  - apply wlp_bind, wp_wlp, wp_sys. rewrite <- Hc. by apply (IH (log _ _ s1)).
Qed.

End steps.

Lemma wlp_result {A} (m : N A) Q s a s' : wlp m Q s -> m s = Ret (a, s') -> Q a s'.
Proof. unfold wlp. intros H E. by rewrite E in H. Qed.

(** ** Any environment *)

(** What the handlers of the running node need. *)
Definition node_view (s : nstate) : list time_trigger * list apex_info * bool * bool :=
  (tt_list_of s, apex_list_of s, hp_ctx (cx_hp (n_ctx s)), n_g_ctx s).

Definition ready (s : nstate) : Prop := exists A B, NoDup A /\ NoDup B /\ wf A B s /\ n_g_ctx s = true.

Lemma ready_view s s' : keeps node_view s s' -> ready s -> ready s'.
Proof.
  intros H (A & B & HA & HB & [H1 H2 H3 H4] & Hg). unfold keeps, node_view in H. injection H as E1 E2 E3 E4.
  exists A, B. split_and!; [done|done| |congruence]. split; congruence.
Qed.

Lemma nodes_wf_ready s :
  nodes_wf s -> NoDup (ai_addr <$> apex_list_of s) -> hp_ctx (cx_hp (n_ctx s)) = true -> n_g_ctx s = true -> ready s.
Proof.
  intros (_ & HA & _ & Hn) HB Hhp Hg. eexists _, _. split_and!; [exact HA|exact HB| |done]. split; [done|done| |done].
  eapply Forall_impl; [exact Hn|]. intros n (? & ? & ? & ?). split_and!; [lia|done|done].
Qed.

(** The same with the configuration, the hyperperiod manager and the timers. *)
Definition late_view (s : nstate)
    : config * (list time_trigger * list apex_info * bool * bool) * hyperperiod_manager * list timer_op :=
  (cfg_of s, node_view s, cx_hp (n_ctx s), timer_ops s).

Lemma late_node_view s s' : keeps late_view s s' -> keeps node_view s s'.
Proof. unfold keeps, late_view. congruence. Qed.

Section any.
Context {HO : Host} {K : Kernel} {SJ : StackJunk} {BC : BuildConfig} {IJ : IntJunk}.

Lemma sync_timer_view fuel : frames (keeps late_view) (sync_timer_with_server fuel).
Proof.
  assert (forall d n a, frames (keeps late_view) (sync_timer_internal fuel d n a)) as H.
  { induction fuel as [|fuel IH]; intros d n a; cbn [sync_timer_internal];
      unfold trpc_client_sync, call_method, release_reply, upd_rt, upd_ctx, get_ctx; frames_tac. }
  unfold sync_timer_with_server, get_ctx. frames_tac.
Qed.

Lemma start_hyperperiod_timer_view :
  frames (keeps (fun s => (cfg_of s, node_view s, hp_hyperperiod_us (cx_hp (n_ctx s))))) start_hyperperiod_timer.
Proof. unfold start_hyperperiod_timer, upd_hp, upd_ctx, get_ctx. frames_tac. Qed.

Lemma epoll_loop_view : frames (keeps late_view) (epoll_loop []).
Proof. unfold epoll_loop, get_ctx. cbn [epoll_turns]. frames_tac. Qed.

Lemma start_timers_g : frames (keeps n_g_ctx) start_timers.
Proof. unfold start_timers, write_node, upd_rt, upd_ctx, get_ctx. frames_tac. Qed.


Lemma start_timers_ready s :
  ready s -> wlp start_timers (fun r s' => r = TT_SUCCESS -> ready s') s.
Proof.
  intros (A & B & HA & HB & [H1 H2 H3 H4] & Hg).
  eapply wlp_mono; [eapply frames_wlp; [apply start_timers_g|apply wp_wlp, start_timers_effect; by rewrite H1]|].
  cbn beta. intros r s' [H Hg'] ->. destruct H as (ts & Hlen & Hc & _). unfold keeps in Hg'.
  exists A, B. split_and!; [done|done| |congruence]. split; rewrite Hc; simpl; [by rewrite with_timer_addrs|done| |done].
  apply Forall_fmap, Forall_forall. intros [n t] Hin. apply elem_of_zip_l in Hin.
  rewrite Forall_forall in H3. by apply (H3 n).
Qed.

Lemma run_ready fuel s : ready s -> wlp (run fuel []) (fun r s' => r = None -> ready s') s.
Proof.
  intros Hs. unfold run. apply wlp_bind. eapply wlp_mono; [apply sync_timer_view|]. intros r s1 H1.
  apply (ready_view _ _ (late_node_view _ _ H1)) in Hs. destruct r as [r|]; [|by apply wlp_ret].
  destruct (negb _); [by apply wlp_ret|]. apply wlp_bind. eapply wlp_mono; [by apply start_timers_ready|].
  intros r2 s2 H2. destruct (tt_ok_code r2) eqn:E; simpl; [|by apply wlp_ret].
  apply tt_ok_code_spec, H2 in E. apply wlp_bind. eapply wlp_mono; [apply start_hyperperiod_timer_view|].
  intros r3 s3 H3. destruct (negb _); [by apply wlp_ret|]. eapply wlp_mono; [apply epoll_loop_view|].
  assert (keeps node_view s2 s3) as Hv3 by (unfold keeps in *; congruence).
  intros r4 s4 H4 _. eapply ready_view; [apply late_node_view, H4|]. eapply ready_view; [exact Hv3|exact E].
Qed.

(** The nodes of the application list are at distinct addresses. *)
Lemma apex_list_loop_wf tasks k s :
  0 < n_brk s -> NoDup (ai_addr <$> apex_list_of s) -> Forall (fun a => ai_addr a < n_brk s) (apex_list_of s) ->
  wp (apex_list_loop tasks k) (fun _ s' => NoDup (ai_addr <$> apex_list_of s') /\
    tt_list_of s' = tt_list_of s /\ hp_of s' = hp_of s /\ n_g_ctx s' = n_g_ctx s /\ n_brk s <= n_brk s') s.
Proof.
  revert k s. induction tasks as [|[a ti] tasks IH]; intros k s Hb Hd Hlt; cbn [apex_list_loop].
  { by apply wp_ret. }
  unfold get_ctx. do 2 wp_step. destruct (negb _); [by apply IH|].
  unfold alloc. do 2 apply wp_bind. apply wp_sys. destruct (kresp _ (Malloc _)).
  - apply wp_bind, wp_get, wp_bind, wp_modify, wp_ret, wp_bind. unfold upd_rt, upd_ctx. wp_step.
    eapply wp_mono; [apply IH|].
    + simpl. lia.
    + simpl. constructor; [|done]. intros (x & E & Hx)%list_elem_of_fmap.
      rewrite Forall_forall in Hlt. specialize (Hlt x Hx). simpl in E. lia.
    + simpl. constructor; [simpl; lia|]. eapply Forall_impl; [exact Hlt|]. simpl. lia.
    + simpl. intros _ s' (? & ? & ? & ? & ?). split_and!; try done. lia.
  - apply wp_ret. by apply (IH k (log _ _ s)).
Qed.

(** What building the task list leaves alone. *)
Definition task_side (s : nstate) : list apex_info * bool * Z * bool * Z * list timer_op :=
  (apex_list_of s, hp_ctx (hp_of s), hp_hyperperiod_us (hp_of s), n_g_ctx s, tally_of ev_poll s, timer_ops s).

Lemma init_task_list_side : frames (keeps task_side) init_task_list.
Proof.
  assert (forall name p, frames (keeps task_side) (find_threads_by_name name p)) as Hf.
  { intros. unfold find_threads_by_name, get_thread_name. frames_tac. }
  assert (forall n, frames (keeps task_side) (task_setup_process n)) as Hset.
  { intros. unfold task_setup_process, get_pid_by_name, set_affinity, set_schedattr, create_pidfd, bpf_add_pid. frames_tac. }
  assert (forall l k, frames (keeps task_side) (task_list_loop l k)) as Hl.
  { induction l as [|[a ti] l IH]; intros k; cbn [task_list_loop];
      unfold task_create_node, alloc, upd_rt, upd_hp, upd_ctx, get_ctx; frames_tac. }
  unfold init_task_list, get_ctx. frames_tac.
Qed.

Lemma apex_monitor_init_late : frames (keeps (fun s => (late_view s, tally_of ev_poll s))) apex_monitor_init.
Proof. unfold apex_monitor_init, upd_comm, upd_ctx. frames_tac. Qed.

Lemma apex_monitor_init_view : frames (keeps node_view) apex_monitor_init.
Proof.
  intros s. eapply wlp_mono; [apply apex_monitor_init_late|]. cbn beta. intros r s' H. unfold keeps in H.
  apply late_node_view. unfold keeps. congruence.
Qed.

(** The state [main] initializes in. *)
Definition blank (s : nstate) : Prop :=
  0 < n_brk s /\ tt_list_of s = [] /\ apex_list_of s = [] /\ id_ok s.

Lemma load_ready s :
  blank s -> linked s -> n_g_ctx s = true ->
  wlp (if strcmp_eq (hp_workload_id (cx_hp (n_ctx s))) (str "Apex.OS") then
         r ← init_apex_list; mret (tt_ok_code r)
       else
         _ ← bpf_on; r ← init_task_list; mret (tt_ok_code r)) (fun _ s' => ready s') s.
Proof.
  intros (Hb & Ht & Ha & _) [Hl _] Hg. destruct (strcmp_eq _ _).
  - unfold init_apex_list, get_ctx. do 2 apply wlp_bind. apply wp_wlp, wp_gets, wlp_bind, wp_wlp.
    eapply wp_mono; [apply apex_list_loop_wf; [done|rewrite Ha; constructor..]|].
    intros k s1 (Hd & Ht1 & Hh1 & Hg1 & Hb1). apply wlp_ret, wlp_ret. unfold hp_of in Hh1.
    apply nodes_wf_ready; [|done|by rewrite Hh1|by rewrite Hg1].
    unfold nodes_wf. rewrite Ht1, Ht. split_and!; [lia|constructor..].
  - apply wlp_bind. eapply wlp_mono; [apply bpf_on_outer|]. intros _r s1 Ho. injection Ho as Hc Hg1 Hb1 _ _ _.
    assert (nodes_wf s1) as Hwf by (unfold nodes_wf; rewrite Hc, Hb1, Ht; split_and!; [lia|constructor..]).
    apply wlp_bind. eapply wlp_mono; [eapply frames_wlp; [apply init_task_list_side|apply wp_wlp, (init_task_list_effect _ Hwf)]|].
    intros r s2 [(new & (_ & Hwf2 & _) & _) Hside]. injection Hside as Ea Eh _ Eg _ _. unfold hp_of in Eh. rewrite Hc in Ea, Eh.
    apply wlp_ret. apply nodes_wf_ready; [done|rewrite Ea, Ha; constructor|by rewrite Eh|congruence].
Qed.

Lemma initialize_ready s :
  blank s -> cf_enable_apex (cfg_of s) = false -> wlp initialize (fun r s' => r = TT_SUCCESS -> ready s') s.
Proof.
  intros Hs Hapex. unfold initialize. apply wlp_bind, wp_wlp, wp_sys.
  apply wlp_bind, wp_wlp. eapply wp_mono; [apply setup_signal_handlers_spec|]. intros r s1 H1.
  destruct (negb _); [by apply wlp_ret|]. unfold get_ctx. apply wlp_bind, wp_wlp, wp_gets.
  apply wlp_bind. apply (wlp_mono _ (fun _ s' => keeps outer_of s1 s')).
  { destruct (negb _); [|by apply wlp_ret]. apply wlp_bind. eapply wlp_mono; [apply set_affinity_outer|].
    intros ? s2 H2. by apply wlp_ret. }
  intros [] s2 H2. apply wlp_bind. apply (wlp_mono _ (fun _ s' => keeps outer_of s2 s')).
  { destruct (_ && _); [|by apply wlp_ret]. apply wlp_bind. eapply wlp_mono; [apply set_schedattr_outer|].
    intros ? s3 H3. by apply wlp_ret. }
  intros [] s3 H3. apply wlp_bind. eapply wlp_mono; [apply calibrate_outer|]. intros r4 s4 H4.
  assert (outer_of s4 = outer_of (s <| n_g_ctx := true |>)) as Ho.
  { transitivity (outer_of s1); [unfold keeps in *; congruence|exact H1]. }
  injection Ho as Hc Hg Hb _ _ _. clear - Hs Hapex Hc Hg Hb. destruct (negb _); [by apply wlp_ret|].
  destruct Hs as (Hb0 & Ht0 & Ha0 & Hid0). apply wlp_bind.
  eapply wlp_mono; [eapply frames_wlp; [apply init_trpc_quiet|apply init_trpc_links; unfold id_ok; by rewrite Hc]|].
  intros r5 s5 [[Hid5 Hl5] [Hq5 Hb5]]. rewrite Hc in Hl5. injection Hq5 as Hcf Ht Ha Hg5 _ _. rewrite Hc in Hcf, Ht, Ha.
  destruct (tt_ok_code r5) eqn:E; simpl; [|by apply wlp_ret]. apply tt_ok_code_spec in E.
  apply wlp_bind, wp_wlp, wp_gets. rewrite Hcf, Hapex. simpl. apply wlp_bind.
  eapply wlp_mono; [apply load_ready|].
  - split_and!; [lia|by rewrite Ht|by rewrite Ha|done].
  - by apply Hl5.
  - by rewrite Hg5.
  - intros ok s6 H6. destruct (negb _); [by apply wlp_ret|]. apply wlp_bind.
    eapply wlp_mono; [apply apex_monitor_init_view|]. intros r7 s7 H7. apply (ready_view _ _ H7) in H6.
    destruct (negb _); by apply wlp_ret.
Qed.

(** What the command line leaves of the zeroed context. *)
Definition zero_side (s : nstate) : Z * list event * runtime * comm * hyperperiod_manager :=
  (n_brk s, n_trace s, cx_runtime (n_ctx s) , cx_comm (n_ctx s), cx_hp (n_ctx s)).

Lemma parse_config_zero args s :
  wlp (parse_config args) (fun _ s0 => zero_side s0 = zero_side (s <| n_ctx := context_zero |>))
    (s <| n_ctx := context_zero |>).
Proof.
  assert (forall evs, frames (keeps zero_side) (opt_loop evs)) as Hloop.
  { induction evs as [|e evs IH]; cbn [opt_loop]; unfold upd_cfg, upd_ctx, get_ctx; frames_tac. }
  assert (forall ops : list (list byte), frames (keeps zero_side)
    (match ops with [] => mret tt | a :: _ => upd_cfg (fun c => c <| cf_addr := a |>) end)) as Hops.
  { intros ops. unfold upd_cfg, upd_ctx. frames_tac. }
  assert (frames (keeps zero_side) validate_config) as Hval by (unfold validate_config, tt_set_log_level, get_ctx; frames_tac).
  unfold parse_config, config_set_defaults, upd_rt, upd_cfg at 1, upd_ctx. do 2 apply wlp_bind.
  apply wp_wlp, wp_modify, wp_wlp, wp_modify. destruct (getopt args) as [evs ops].
  apply wlp_bind. eapply wlp_mono; [apply Hloop|]. intros ok s1 H1. destruct (negb _); [by apply wlp_ret|].
  apply wlp_bind. eapply wlp_mono; [apply Hops|]. intros [] s2 H2. eapply wlp_mono; [apply Hval|].
  intros r s3 H3. unfold keeps in *. rewrite H3, H2, H1. reflexivity.
Qed.

Lemma epoll_turns_safe A B efd turns :
  NoDup A -> NoDup B -> Forall (Forall (async_ok A B)) turns -> safe A B (epoll_turns efd turns).
Proof.
  intros HA HB. induction 1 as [|acts turns Ha _ IH]; cbn [epoll_turns]; [apply safe_ret|].
  apply safe_bind; [by apply epoll_turn_safe|]. intros [r|]; [apply safe_ret|done].
Qed.

Lemma blank_zero s s0 :
  0 < n_brk s -> zero_side s0 = zero_side (s <| n_ctx := context_zero |>) -> blank s0.
Proof.
  intros Hb H. injection H as E1 _ E2 _ E3. unfold blank, id_ok. rewrite E1, E2, E3. done.
Qed.

(** From [s] any number of turns of the event loop, with any handlers of the
    nodes [A] and applications [B] in between, is without undefined behaviour
    and leaves a well-formed state. *)
Definition loops_safely (A B : list Z) (s : nstate) : Prop :=
  forall efd turns, Forall (Forall (async_ok A B)) turns -> wp (epoll_turns efd turns) (fun _ s' => wf A B s') s.

(** C8: Whatever the environment answers, if the start-up of a node without [-a]
    has no undefined behaviour and gets to the event loop, the node is in a
    well-formed state: the nodes of its task list have distinct addresses,
    pidfds that were opened and their context pointer set; the applications of
    its Apex.OS list have distinct addresses; the hyperperiod manager is linked
    and signals are handled.  From there no handler of its timers, no BPF event,
    signal or message, one after the other in any order and for any number of
    turns, has undefined behaviour, and the state stays well-formed.  (With
    [-a] no schedule is fetched and the hyperperiod manager is not linked.) *)
Theorem main_starts_safely args fuel s s0 :
  0 < n_brk s -> parse_config args (s <| n_ctx := context_zero |>) = Ret (TT_SUCCESS, s0) ->
  cf_enable_apex (cfg_of s0) = false ->
  wlp (main args fuel []) (fun r s' => r = None ->
    exists A B, NoDup A /\ NoDup B /\ wf A B s' /\ n_g_ctx s' = true /\ loops_safely A B s') s.
Proof.
  intros Hb Hp Hapex. pose proof (parse_config_zero args s) as Hz. unfold wlp in Hz. rewrite Hp in Hz.
  unfold main. apply wlp_bind, wp_wlp, wp_modify. apply wlp_bind. unfold wlp at 1. rewrite Hp. simpl.
  apply wlp_bind. eapply wlp_mono; [apply initialize_ready; [by eapply blank_zero|done]|].
  intros r s1 H1. apply wlp_bind. apply (wlp_mono _ (fun r s' => r = None -> ready s')).
  - destruct (tt_ok_code r) eqn:E; simpl; [|by apply wlp_ret]. by apply run_ready, H1, tt_ok_code_spec.
  - intros [r'|] s2 H2.
    + apply wlp_bind. eapply wlp_mono; [apply (wlp_true _)|]. intros. by apply wlp_ret.
    + apply wlp_ret. intros _. destruct (H2 eq_refl) as (A & B & HA & HB & Hwf & Hg). exists A, B.
      split_and!; [done..|]. intros efd turns Ht. by apply epoll_turns_safe.
Qed.

End any.

(** *** Witness *)

(** The orchestrator answers the example schedule at once; the machine runs one
    thread with the name of a task of node "node01". *)
Definition start_dirs (p : list byte) : option (list dirent) :=
  if decide (p = str "/proc") then Some [mk_dirent true (str "7")]
  else if decide (p = str "/proc/7/task") then Some [mk_dirent true (str "7")] else None.
Definition start_kernel : Kernel :=
  {| kresp := fun _ tr c =>
       match c in call A return A with
       | SdBusMessageReadArray _ => (1, readable (snd ex_serialized))
       | Opendir p => start_dirs p
       | ReadFile p => Some (str "sensor" ++ [newline])
       | c => default_reply c
       end |}.
Definition start_args : list (list byte) := [str "-n"; str "node01"].
Definition start_parsed : nstate := Eval vm_compute in
  match parse_config start_args (nstate_init <| n_ctx := context_zero |>) with
  | Ret (_, s) => s
  | UB => nstate_init
  end.
Definition start_config : BuildConfig := {| CONFIG_TRACE_BPF_EVENT := false |}.

Definition start_main : N (option Z) :=
  main (HO := be_host) (K := start_kernel) (SJ := zero_stack) (BC := start_config) (IJ := zero_ints) start_args 1 [].

(** It gets to its loop with one node. *)
Lemma start_main_loops : exists s', start_main nstate_init = Ret (None, s') /\ length (tt_list_of s') = 1%nat.
Proof.
  assert (match start_main nstate_init with Ret (None, s') => length (tt_list_of s') | _ => 0%nat end = 1%nat) as H
    by (vm_compute; reflexivity).
  destruct (start_main nstate_init) as [[[r|] s']|]; [done| |done]. by exists s'.
Qed.

Lemma main_starts_safely_witness :
  exists s' A B, start_main nstate_init = Ret (None, s') /\ wf A B s' /\ length A = 1%nat.
Proof.
  destruct start_main_loops as (s' & E & Hlen). exists s'.
  assert (parse_config start_args (nstate_init <| n_ctx := context_zero |>) = Ret (TT_SUCCESS, start_parsed)) as Hp
    by (vm_compute; reflexivity).
  pose proof (main_starts_safely (HO := be_host) (K := start_kernel) (SJ := zero_stack) (BC := start_config)
    (IJ := zero_ints) start_args 1 nstate_init start_parsed eq_refl Hp eq_refl : wlp start_main _ nstate_init) as H.
  destruct (wlp_result _ _ _ _ _ H E eq_refl) as (A & B & _ & _ & Hwf & _). exists A, B.
  split_and!; [exact E|exact Hwf|]. rewrite <- (wf_nodes _ _ _ Hwf), length_fmap. exact Hlen.
Defined.
