(* ===== verification/ClusterStart.v ===== *)
(** * A node from its command line to its armed timers

    [main] (timpani-n/src/main.c) of a node whose orchestrator serves a
    workload (Cluster), on a system whose calls succeed: which tasks are in the
    list, which timers run, and when they start. *)

From S2P Require Import CppStd Serialize Time SchedInfo OrchHyperperiod NodeConfig GlobalScheduler SchedInfoService OrchServer Orchestrator.
From S2P Require Import Types Kernel Hyperperiod PeerDbus Trpc Sched TraceBpf Task Config ApexMonitor Core Main Safety Shutdown NodeStart Cluster.

(** ** A system whose calls succeed *)

Class NodeOs (K : Kernel) := {
  os_sigaction : forall tr n, 0 <= kresp tr (Sigaction n);
  os_clock : forall tr c, 0 <= fst (kresp tr (ClockGettime c));
  os_timer_create : forall tr c h, fst (kresp tr (TimerCreate c h)) = 0;
  os_timer_settime : forall tr t f its,
    ts_norm (it_value its) -> ts_norm (it_interval its) -> kresp tr (TimerSettime t f its) = 0;
  os_socket : forall tr, 0 <= kresp tr Socket;
  os_bind : forall tr fd p, 0 <= kresp tr (Bind fd p);
  os_chmod : forall tr p m, 0 <= kresp tr (Chmod p m);
  os_epoll_create : forall tr, 0 <= kresp tr EpollCreate1;
  os_epoll_ctl : forall tr e o f, 0 <= kresp tr (EpollCtl e o f);
}.

Section os.
Context {HO : Host} {K : Kernel} `{!NodeOs K} {SJ : StackJunk} {BC : BuildConfig} {IJ : IntJunk}.








End os.


(** ** Loading the workload *)

Section start.
Context {HO : Host} {AL : Allocator} {SS : StdSort} {FR : FaultRpc}.
Context {K : Kernel} {SJ : StackJunk} {BC : BuildConfig} {IJ : IntJunk} (k : Z)
  {dirs : list byte -> option (list dirent)} {files : list byte -> option (list byte)}.
Context `{!MallocOk K} `{!LocalBus K k} `{!NodeOs K} `{!PidfdOk K} `{!ProcFs K dirs files}.
Context (h2 : Host) (o0 : orch) (name : list byte) (env : nat -> list oevent) (clock : nat -> timespec) (junk : timespec).

Abbreviation BK := (bus_kernel (HO := HO) o0 name env clock junk K).

#[local] Instance bus_os : NodeOs BK.
Proof. split; intros; cbn; first [by apply os_timer_settime | apply NodeOs0]. Qed.
#[local] Instance bus_pidfd : PidfdOk BK.
Proof. intros tr p. apply PidfdOk0. Qed.
#[local] Instance bus_proc : ProcFs BK dirs files.
Proof. split; intros; cbn; apply ProcFs0. Qed.

(** The workload that is served, on the wire. *)
Context (w : list byte) (v : schedule_view) (hp : option Z) (rs : list Z) (b : serial_buf_t).
Hypothesis Hserved : represents (HO := HO) o0 (Some (w, v, hp)).
Hypothesis Hwire : SerializeSchedInfo (HO := HO) w hp v = Ret (Some (rs, Some b)).
Hypothesis Hrs : Forall (fun r => r = 0) rs.
Hypothesis Hsize : blen (concat (snd <$> v)) < 2 ^ 31.
Hypothesis Hplain : substr0 w 63 <> str "Apex.OS".


Abbreviation runs := (runs_as (dirs := dirs) (files := files)).




(** ** The timers *)







(** ** The run *)


Hypothesis Hhp : 0 <= default 0 hp < 2 ^ 52.
Hypothesis Hclock : forall i, 0 <= tv_sec (clock i) < 2 ^ 32 /\ ts_norm (clock i).




End start.

(** ** A node that starts *)

#[local] Existing Instance ex_rpc.
#[local] Existing Instance ex_sort.
#[local] Existing Instance ex_alloc.




(** The network of Cluster on a machine with the /proc of Sched. *)
Definition ex_machine : Kernel :=
  {| kresp := fun _ tr c =>
       match c in call A return A with
       | SdBusStart _ => if tally ev_retry tr <? 2 then -111 else 0
       | Opendir p => ex_dirs p
       | ReadFile p => ex_files p
       | c => default_reply c
       end |}.

#[local] Instance ex_machine_malloc : MallocOk ex_machine := fun _ _ => eq_refl.
#[local] Instance ex_machine_pidfd : PidfdOk ex_machine.
Proof. intros tr p. cbn. done. Qed.
#[local] Instance ex_machine_proc : ProcFs ex_machine ex_dirs ex_files.
Proof. split; intros; reflexivity. Qed.
#[local] Instance ex_machine_os : NodeOs ex_machine.
Proof. split; intros; cbn; done || lia. Qed.
#[local] Instance ex_machine_bus : LocalBus ex_machine 2.
Proof.
  split; intros; cbn; try lia.
  - by rewrite (proj2 (Z.ltb_lt _ _)).
  - by rewrite (proj2 (Z.ltb_ge _ _)).
Qed.




