(* ===== verification/Reports.v ===== *)
(** * What the orchestrator reports (timpani-o/src/global_scheduler.cpp,
    schedinfo_service.cpp)

    The report after scheduling and the dump of the served schedules, as the
    log records they write (TLog); reading the task arrays they print is
    undefined once an array is freed. *)

From S2P Require Import CppStd Serialize SchedInfo OrchHyperperiod NodeConfig GlobalScheduler SchedInfoService OrchServer TLog.

(** A record: its level and what is inserted. *)
Definition record : Type := LogLevel * list log_arg.

(** [a > b] on doubles. *)
Definition dgtb (a b : double) : bool := dltb b a.

Definition percent (d : double) : log_arg := LDouble (dmul d (double_of 100)).

(** ** GlobalScheduler *)

Definition print_node_details (node_id : list byte) (g : GlobalScheduler) : list record :=
  let node_utilization := calculate_node_utilization node_id None g in
  [(INFO, [LStr (str "  Node Utilization: "); percent node_utilization; LStr (str "%")])] ++
  match map_find node_id (gs_cpu_utilization g) with
  | None => []
  | Some cpus =>
      omap (fun '(cpu_id, cpu_util) =>
        if dgtb cpu_util d0 then
          Some (INFO, [LStr (str "    CPU "); LInt cpu_id; LStr (str ": "); percent cpu_util; LStr (str "% utilization")])
        else None) cpus
  end ++
  match map_find node_id (gs_available_cpus g) with
  | Some cpus =>
      let cpu_count := double_of (blen cpus) in
      if dgtb node_utilization (dmul d1 cpu_count) then
        [(WARN, [LStr (str "  ⚠ WARNING: Node is over-utilized!")])]
      else if dgtb node_utilization (dmul CPU_UTILIZATION_THRESHOLD cpu_count) then
        [(WARN, [LStr (str "  ⚠ Node is highly utilized")])]
      else [(INFO, [LStr (str "  ✓ Node utilization is acceptable")])]
  | None =>
      [(WARN, [LStr (str "  ⚠ Node ID '"); LStr node_id; LStr (str "' not found in available_cpus_per_node_")])]
  end.

(** [counts[key]++] for every element. *)
Definition count_keys {A} (key : A -> list byte) (l : list A) : cmap (list byte) Z :=
  fold_left (fun m x => let '(n, m) := map_index 0 (key x) m in map_set (key x) (n + 1) m) l [].

Definition scheduled_tasks (tasks : list Task) : list Task := filter (fun task => tk_assigned_node task <> []) tasks.

Definition workload_task_counts (g : GlobalScheduler) : cmap (list byte) Z :=
  count_keys tk_workload_id (scheduled_tasks (gs_tasks g)).

(** The workload of an entry, by its name and node: a [std::string] is compared
    with the C string of the array. *)
Definition task_workload (node_id : list byte) (task : sched_task_t) (g : GlobalScheduler) : list byte :=
  match list_find (fun orig_task => tk_name orig_task = cstr (st_task_name task) /\ tk_assigned_node orig_task = node_id)
          (gs_tasks g) with
  | Some (_, orig_task) => tk_workload_id orig_task
  | None => str "unknown"
  end.

Definition task_record (node_id : list byte) (g : GlobalScheduler) (task : sched_task_t) : record :=
  (INFO, [LStr (str "  Task: "); LStr (cstr (st_task_name task)); LStr (str " (workload: ");
          LStr (task_workload node_id task g); LStr (str ")");
          LStr (str " | Period: "); LInt (st_period_ns task / 1000000); LStr (str "ms");
          LStr (str " | Runtime: "); LInt (st_runtime_ns task / 1000000); LStr (str "ms");
          LStr (str " | CPU: "); LInt (st_cpu_affinity task);
          LStr (str " | Priority: "); LInt (st_sched_priority task)]).

Definition node_record (node_id : list byte) (num_tasks : Z) : record :=
  (INFO, [LStr (str "Node: "); LStr node_id; LStr (str " ("); LInt num_tasks; LStr (str " tasks)")]).

Fixpoint print_nodes (m : NodeSchedInfoMap) (g : GlobalScheduler) (h : heap) : outcome (list record) :=
  match m with
  | [] => Ret []
  | (node_id, schedule) :: m =>
      body ← (if 0 <? si_num_tasks schedule then
                tasks ← read_tasks schedule h;
                Ret ((task_record node_id g <$> tasks) ++ print_node_details node_id g)
              else Ret [(INFO, [LStr (str "  (No tasks assigned)")])]);
      rest ← print_nodes m g h;
      Ret (node_record node_id (si_num_tasks schedule) :: body ++ rest)
  end.

Definition workload_record (e : list byte * Z) : record :=
  (INFO, [LStr (str "Workload '"); LStr e.1; LStr (str "': "); LInt e.2; LStr (str " tasks scheduled")]).

Definition print_scheduling_results (g : GlobalScheduler) (h : heap) : outcome (list record) :=
  nodes ← print_nodes (gs_sched_info_map g) g h;
  Ret ((INFO, [LStr (str "=== GlobalScheduler Results ===")]) ::
       (workload_record <$> workload_task_counts g) ++ nodes).

(** ** SchedInfoServer *)

Definition dump_task (task : sched_task_t) : list record :=
  [(DEBUG, [LStr (str "  Task Name: "); LStr (cstr (st_task_name task))]);
   (DEBUG, [LStr (str "    Assigned Node: "); LStr (cstr (st_assigned_node task))]);
   (DEBUG, [LStr (str "    CPU Affinity: "); LInt (st_cpu_affinity task)]);
   (DEBUG, [LStr (str "    Priority: "); LInt (st_sched_priority task)]);
   (DEBUG, [LStr (str "    Policy: "); LInt (st_sched_policy task)]);
   (DEBUG, [LStr (str "    Period: "); LInt (st_period_ns task / 1000000); LStr (str "ms")]);
   (DEBUG, [LStr (str "    Runtime: "); LInt (st_runtime_ns task / 1000000); LStr (str "ms")]);
   (DEBUG, [LStr (str "    Deadline: "); LInt (st_deadline_ns task / 1000000); LStr (str "ms")])].

Fixpoint dump_nodes (m : NodeSchedInfoMap) (h : heap) : outcome (list record) :=
  match m with
  | [] => Ret []
  | (node_id, si) :: m =>
      tasks ← read_tasks si h;
      rest ← dump_nodes m h;
      Ret ((INFO, [LStr (str "Node ID: "); LStr node_id; LStr (str " with "); LInt (si_num_tasks si); LStr (str " tasks")])
           :: concat (dump_task <$> tasks) ++ rest)
  end.

Fixpoint dump_workloads (m : cmap (list byte) NodeSchedInfoMap) (h : heap) : outcome (list record) :=
  match m with
  | [] => Ret []
  | (workload_id, nodes) :: m =>
      body ← dump_nodes nodes h;
      rest ← dump_workloads m h;
      Ret ((INFO, [LStr (str "Workload ID: "); LStr workload_id; LStr (str " with "); LInt (blen nodes); LStr (str " nodes")])
           :: body ++ rest)
  end.

Definition DumpSchedInfo (s : service) (h : heap) : outcome (list record) :=
  let sched_info_map := (GetSchedInfoMap false s).1.1 in
  match sched_info_map with
  | [] => Ret [(INFO, [LStr (str "No schedule info available")])]
  | _ =>
      body ← dump_workloads sched_info_map h;
      Ret ((INFO, [LStr (str "Dumping SchedInfoMap:")]) :: body)
  end.

(** ** Counting *)

Lemma count_keys_spec {A} (key : A -> list byte) l :
  map_ok (count_keys key l) /\
  forall k, map_find k (count_keys key l) =
    match filter (fun x => key x = k) l with [] => None | ks => Some (blen ks) end.
Proof.
  induction l as [|x l [Hok Hf]] using rev_ind; [split; [apply map_ok_nil|done]|].
  assert (exists m, map_index 0 (key x) (count_keys key l) = (blen (filter (fun y => key y = key x) l), m) /\ map_ok m /\
    forall k, k <> key x -> map_find k m = map_find k (count_keys key l)) as (m & E & Hm & Hmf).
  { unfold map_index. rewrite Hf. destruct (filter _ l); [|by eexists]. eexists.
    split_and!; [done|by apply map_ok_set|]. intros k Hk. by apply map_find_set_ne. }
  unfold count_keys in *. rewrite fold_left_app. cbn [fold_left]. rewrite E. split; [by apply map_ok_set|].
  intros k. rewrite filter_app, filter_cons, filter_nil. destruct (decide (key x = k)) as [<-|Hk].
  - rewrite map_find_set. cbn [fst snd]. destruct (filter (fun y => key y = key x) l); cbn; rewrite ?length_app; cbn; f_equal; lia.
  - rewrite map_find_set_ne, Hmf, Hf, app_nil_r by done. done.
Qed.

(** ** The records that are written *)

Definition node_report (g : GlobalScheduler) (e : list byte * list sched_task_t) : list record :=
  node_record e.1 (blen e.2) ::
  match e.2 with
  | [] => [(INFO, [LStr (str "  (No tasks assigned)")])]
  | tasks => (task_record e.1 g <$> tasks) ++ print_node_details e.1 g
  end.

Lemma read_tasks_held h e x : entry_holds h e x -> read_tasks e.2 h = Ret x.2.
Proof.
  intros (_ & Hl & _ & Hp). unfold read_tasks. rewrite Hl. destruct (Z.leb_spec (blen x.2) 0).
  { by destruct x.2. }
  unfold h_read. rewrite Hp. cbn [mbind outcome_bind]. rewrite Z.leb_refl, Nat2Z.id, take_ge by done. done.
Qed.

Lemma print_nodes_owned m h v g : owns m h v -> print_nodes m g h = Ret (concat (node_report g <$> v)).
Proof.
  revert v. induction m as [|e m IH]; intros v Hown.
  { destruct Hown as [H%Forall2_nil_inv_l _]. by subst. }
  destruct v as [|x v]; [by destruct Hown as [H%Forall2_length _]|].
  apply owns_cons in Hown as (He & _ & Hown). destruct e as [n si]. pose proof (read_tasks_held _ _ _ He) as Hread.
  destruct He as (Hn & Hl & _ & _). cbn in Hn, Hl, Hread. cbn [print_nodes]. rewrite Hread, (IH v Hown), Hl.
  destruct x as [n' ts]. cbn in Hn. subst n'. destruct ts as [|t ts]; [done|].
  rewrite (proj2 (Z.ltb_lt _ _)) by (cbn; lia). reflexivity.
Qed.

(** The name survives in the array. *)
Definition short_name (t : Task) : Prop := no_nul (tk_name t) /\ (length (tk_name t) <= 15)%nat.

Lemma sched_task_name t : cstr (st_task_name (make_sched_task t)) = take 15 (cstr (tk_name t)).
Proof.
  unfold make_sched_task. cbn [st_task_name]. unfold set_char. rewrite list_insert_id.
  - by apply cstr_strncpy.
  - unfold strncpy. rewrite app_assoc, lookup_app_r; rewrite length_app, length_zeros, length_take; [|lia].
    rewrite lookup_drop. replace (15 + _)%nat with 15%nat by lia. done.
Qed.

Lemma task_workload_known g t :
  t ∈ gs_tasks g -> short_name t ->
  (forall t', t' ∈ gs_tasks g -> tk_name t' = tk_name t -> tk_assigned_node t' = tk_assigned_node t ->
     tk_workload_id t' = tk_workload_id t) ->
  task_workload (tk_assigned_node t) (make_sched_task t) g = tk_workload_id t.
Proof.
  intros Hin [Hnul Hlen] Huniq. unfold task_workload. rewrite sched_task_name, cstr_id, take_ge by done.
  destruct (list_find _ _) as [[i t']|] eqn:E.
  - apply list_find_Some in E as (Hi & [Hn Ha] & _). apply Huniq; [|done..]. by eapply list_elem_of_lookup_2.
  - eapply list_find_None in E. rewrite Forall_forall in E. by destruct (E t Hin).
Qed.

(** The report after scheduling reads only live arrays.  It names every workload
    with scheduled tasks once, with their number; then every node with its number
    of tasks, and every task of the node.  A task whose name fits in the array
    and is used once per node and workload is shown with its workload. *)
Theorem results_report g h v :
  owns (gs_sched_info_map g) h v ->
  print_scheduling_results g h =
    Ret ((INFO, [LStr (str "=== GlobalScheduler Results ===")]) ::
         (workload_record <$> workload_task_counts g) ++ concat (node_report g <$> v)) /\
  map_ok (workload_task_counts g) /\
  (forall w k, (w, k) ∈ workload_task_counts g <->
     k = blen (filter (fun t => tk_workload_id t = w) (scheduled_tasks (gs_tasks g))) /\ 0 < k) /\
  (forall t, t ∈ gs_tasks g -> short_name t ->
     (forall t', t' ∈ gs_tasks g -> tk_name t' = tk_name t -> tk_assigned_node t' = tk_assigned_node t ->
        tk_workload_id t' = tk_workload_id t) ->
     task_workload (tk_assigned_node t) (make_sched_task t) g = tk_workload_id t).
Proof.
  intros Hown. destruct (count_keys_spec tk_workload_id (scheduled_tasks (gs_tasks g))) as [Hok Hf]. split_and!.
  - unfold print_scheduling_results. by rewrite (print_nodes_owned _ _ _ _ Hown).
  - done.
  - intros w k. unfold workload_task_counts. rewrite <- (map_find_elem w k) by done. rewrite Hf.
    destruct (filter _ _) as [|t l]; [split; [done|]; intros [-> ?]; done|].
    split; [intros [= <-]; cbn; lia|]. by intros [-> _].
  - apply task_workload_known.
Qed.

(** A longer name is cut when it is copied and is not found again: its task is
    shown with the workload "unknown". *)
Theorem long_name_unknown g t :
  no_nul (tk_name t) -> (15 < length (tk_name t))%nat ->
  (forall t', t' ∈ gs_tasks g -> tk_name t' <> take 15 (tk_name t)) ->
  task_workload (tk_assigned_node t) (make_sched_task t) g = str "unknown".
Proof.
  intros Hn Hl Hno. unfold task_workload. rewrite sched_task_name, cstr_id by done.
  destruct (list_find _ _) as [[i t']|] eqn:E; [|done].
  apply list_find_Some in E as (Hi & [Hx _] & _). exfalso. eapply Hno; [by eapply list_elem_of_lookup_2|exact Hx].
Qed.

(** The dump of a service shows the workload that is served, with all nodes and
    tasks. *)
Definition dump_of (e : list byte * list sched_task_t) : list record :=
  (INFO, [LStr (str "Node ID: "); LStr e.1; LStr (str " with "); LInt (blen e.2); LStr (str " tasks")])
  :: concat (dump_task <$> e.2).

Lemma dump_nodes_owned m h v : owns m h v -> dump_nodes m h = Ret (concat (dump_of <$> v)).
Proof.
  revert v. induction m as [|e m IH]; intros v Hown.
  { destruct Hown as [H%Forall2_nil_inv_l _]. by subst. }
  destruct v as [|x v]; [by destruct Hown as [H%Forall2_length _]|].
  apply owns_cons in Hown as (He & _ & Hown). destruct e as [n si]. pose proof (read_tasks_held _ _ _ He) as Hread.
  destruct He as (Hn & Hl & _ & _). cbn in Hn, Hl, Hread. cbn [dump_nodes]. rewrite Hread, (IH v Hown), Hl.
  destruct x as [n' ts]. cbn in Hn. subst n'. reflexivity.
Qed.

Theorem dump_serves s h cur :
  service_ok s h cur ->
  DumpSchedInfo s h = Ret (match cur with
    | None => [(INFO, [LStr (str "No schedule info available")])]
    | Some (w, v) =>
        (INFO, [LStr (str "Dumping SchedInfoMap:")]) ::
        (INFO, [LStr (str "Workload ID: "); LStr w; LStr (str " with "); LInt (blen v); LStr (str " nodes")]) ::
        concat (dump_of <$> v)
    end).
Proof.
  intros Hs. pose proof (so_map _ _ _ Hs) as Hm. unfold DumpSchedInfo. cbn [GetSchedInfoMap fst].
  destruct cur as [[w v]|].
  - destruct Hm as (m & -> & _ & Hown & _). cbn [dump_workloads]. rewrite (dump_nodes_owned _ _ _ Hown).
    cbn [mbind outcome_bind]. rewrite app_nil_r. destruct Hown as [->%Forall2_length _]. done.
  - destruct Hm as [-> _]. done.
Qed.

(** The report of [schedule]: the arrays it has just built can be read. *)
Theorem schedule_report {AL : Allocator} {SS : StdSort} g h mgr v :
  schedulable g h mgr v ->
  exists ok g' h', schedule target_algorithm g h = Ret (ok, g', h') /\
    exists front, print_scheduling_results g' h' = Ret (front ++ concat (node_report g' <$> schedule_of (gs_tasks g'))).
Proof.
  intros Hs. destruct (target_schedule_effect g h mgr v Hs) as (g' & h' & E & _ & _ & _ & Hown & _).
  eexists _, g', h'. split; [exact E|]. destruct (results_report g' h' _ Hown) as (-> & _).
  eexists (_ :: _). reflexivity.
Qed.

#[local] Existing Instance ex_sort.
#[local] Existing Instance ex_alloc.

Example schedule_report_ex :
  match schedule target_algorithm ex_scheduler heap_empty with
  | Ret (_, g, h) =>
      match print_scheduling_results g h with
      | Ret r => take 3 r
      | UB => []
      end
  | UB => []
  end = [(INFO, [LStr (str "=== GlobalScheduler Results ===")]);
         workload_record (str "w", 5); node_record (str "node01") 5].
Proof. vm_compute. reflexivity. Qed.
