(* ===== verification/NodeLog.v ===== *)
(** * Messages of the node (timpani-n/src/internal.h, globals.c, and
    [log_hyperperiod_statistics] of hyperperiod.c)

    The logging macros test the global log level before they print.  A message
    is the stream it goes to and its text. *)

From S2P Require Import CppStd Prelude Types Kernel Config.

Inductive tt_log_macro := TT_LOG_ERROR | TT_LOG_WARNING | TT_LOG_INFO | TT_LOG_DEBUG | TT_LOG_TIMER.

(** The level a macro compares the global one with. *)
Definition macro_level (m : tt_log_macro) : Z :=
  match m with
  | TT_LOG_ERROR => TT_LOG_LEVEL_ERROR
  | TT_LOG_WARNING => TT_LOG_LEVEL_WARNING
  | TT_LOG_INFO => TT_LOG_LEVEL_INFO
  | TT_LOG_DEBUG => TT_LOG_LEVEL_DEBUG
  | TT_LOG_TIMER => TT_LOG_LEVEL_VERBOSE
  end.

Inductive out_stream := Stdout | Stderr.

(** [func:line: ] *)
Definition at_place (func : list byte) (line : Z) : list byte := func ++ str ":" ++ fmt_d line ++ str ": ".

Definition macro_output (m : tt_log_macro) (func : list byte) (line : Z) (msg : list byte) : out_stream * list byte :=
  match m with
  | TT_LOG_ERROR => (Stderr, str "[ERROR] " ++ at_place func line ++ msg ++ [x0a])
  | TT_LOG_WARNING => (Stderr, str "[WARNING] " ++ at_place func line ++ msg ++ [x0a])
  | TT_LOG_INFO => (Stdout, str "[INFO] " ++ msg ++ [x0a])
  | TT_LOG_DEBUG => (Stdout, str "[DEBUG] " ++ at_place func line ++ msg ++ [x0a])
  | TT_LOG_TIMER => (Stdout, str "[TIMER] " ++ at_place func line ++ msg ++ [x0a])
  end.

(** What a use of the macro prints in state [s], where [func] and [line] are the
    place of the use and [msg] the formatted message. *)
Definition tt_log (m : tt_log_macro) (func : list byte) (line : Z) (msg : list byte) (s : nstate)
  : option (out_stream * list byte) :=
  if macro_level m <=? n_log_level s then Some (macro_output m func line msg) else None.

(** ** printf("%.4f") *)

(** [n / d] rounded to an integer, ties to even. *)
Definition round_half_even (n d : Z) : Z :=
  let q := n / d in
  let r := n mod d in
  if 2 * r <? d then q else if d <? 2 * r then q + 1 else if Z.even q then q else q + 1.

(** A finite double that is not negative, in ten-thousandths. *)
Definition scaled4 (m : positive) (e : Z) : Z :=
  if 0 <=? e then Z.pos m * 2 ^ e * 10000 else round_half_even (Z.pos m * 10000) (2 ^ (- e)).

Definition put4 (n : Z) : list byte :=
  let f := fmt_d (n mod 10000) in fmt_d (n / 10000) ++ str "." ++ replicate (4 - length f) "0"%byte ++ f.

Definition fmt_f4 (d : double) : list byte :=
  match d with
  | S754_zero false => put4 0
  | S754_zero true => str "-" ++ put4 0
  | S754_infinity false => str "inf"
  | S754_infinity true => str "-inf"
  | S754_nan => str "nan"
  | S754_finite false m e => put4 (scaled4 m e)
  | S754_finite true m e => str "-" ++ put4 (scaled4 m e)
  end.

(** ** hyperperiod.c *)

Definition miss_rate (hp_mgr : hyperperiod_manager) : double :=
  if 0 <? hp_completed_cycles hp_mgr
  then ddiv (double_of (hp_total_deadline_misses hp_mgr)) (double_of (hp_completed_cycles hp_mgr))
  else d0.

(** TT_LOG_INFO does not print its place. *)
Definition tt_log_info (msg : list byte) (s : nstate) : option (out_stream * list byte) := tt_log TT_LOG_INFO [] 0 msg s.

Definition statistics_messages (hp_mgr : hyperperiod_manager) : list (list byte) :=
  [str "=== Hyperperiod Statistics ===";
   str "Workload: " ++ cstr (hp_workload_id hp_mgr);
   str "Completed cycles: " ++ fmt_d (hp_completed_cycles hp_mgr);
   str "Hyperperiod length: " ++ fmt_d (hp_hyperperiod_us hp_mgr) ++ str " us";
   str "Total deadline misses: " ++ fmt_d (hp_total_deadline_misses hp_mgr);
   str "Miss rate per cycle: " ++ fmt_f4 (miss_rate hp_mgr);
   str "Tasks in hyperperiod: " ++ fmt_d (hp_tasks_in_hyperperiod hp_mgr);
   str "=============================="].

Definition log_hyperperiod_statistics (hp_mgr : hyperperiod_manager) (s : nstate) : list (out_stream * list byte) :=
  omap (fun msg => tt_log_info msg s) (statistics_messages hp_mgr).

(** ** Properties *)

Lemma tt_log_prints m func line msg s :
  tt_log m func line msg s <> None <-> macro_level m <= n_log_level s.
Proof. unfold tt_log. destruct (Z.leb_spec (macro_level m) (n_log_level s)); split; done || lia. Qed.

(** The option -l selects the messages: after a command line that is accepted, a
    macro prints exactly when its level is at most the requested one, errors first
    and nothing at level 0; by default errors, warnings and information. *)
Theorem log_level_option args s :
  length (cf_node_id (cx_config (n_ctx s))) = 64%nat ->
  wp (parse_config args) (fun r s' => r = TT_SUCCESS -> forall m func line msg,
    (tt_log m func line msg s' <> None <-> macro_level m <= cf_log_level (requested args)) /\
    (cf_log_level (requested args) = TT_LOG_LEVEL_SILENT -> tt_log m func line msg s' = None)) s.
Proof.
  intros Hl. eapply wp_mono; [by apply parse_config_spec|]. intros r s' [_ H] ->.
  destruct (_ && _); [|by destruct H]. destruct H as (_ & _ & _ & E). intros m func line msg.
  split; [by rewrite tt_log_prints, E|]. intros H0. unfold tt_log. rewrite E, H0. by destruct m.
Qed.

(** [round_half_even] is a nearest integer, the even one of two. *)
Lemma round_half_even_nearest n d :
  0 < d -> let q := round_half_even n d in
  2 * Z.abs (q * d - n) <= d /\ (2 * Z.abs (q * d - n) = d -> Z.even q = true).
Proof.
  intros Hd. unfold round_half_even. pose proof (Z.div_mod n d ltac:(lia)) as E.
  pose proof (Z.mod_pos_bound n d Hd) as Hr. set (q := n / d) in *. set (r := n mod d) in *.
  destruct (Z.ltb_spec (2 * r) d); cbn zeta; [split; nia|].
  destruct (Z.ltb_spec d (2 * r)); [split; nia|].
  destruct (Z.even q) eqn:Ee; [split; [nia|done]|]. split; [nia|]. intros _.
  rewrite Z.even_add, Ee. done.
Qed.

(** The statistics are eight lines, or none when information is not printed; the
    rate is printed in ten-thousandths, as the one nearest to the double, and is
    zero before the first cycle. *)
Theorem statistics_lines hp_mgr s :
  length (log_hyperperiod_statistics hp_mgr s) = (if TT_LOG_LEVEL_INFO <=? n_log_level s then 8%nat else 0%nat) /\
  (forall m e, miss_rate hp_mgr = S754_finite false m e -> e < 0 ->
     fmt_f4 (miss_rate hp_mgr) = put4 (scaled4 m e) /\
     2 * Z.abs (scaled4 m e * 2 ^ (- e) - Z.pos m * 10000) <= 2 ^ (- e)) /\
  (hp_completed_cycles hp_mgr = 0 -> fmt_f4 (miss_rate hp_mgr) = str "0.0000").
Proof.
  split_and!.
  - unfold log_hyperperiod_statistics, tt_log_info, tt_log. cbn. by destruct (_ <=? _).
  - intros m e -> He. cbn [fmt_f4]. split; [done|]. unfold scaled4. rewrite (proj2 (Z.leb_gt 0 e)) by lia.
    apply round_half_even_nearest. apply Z.pow_pos_nonneg; lia.
  - intros H. unfold miss_rate. rewrite H. reflexivity.
Qed.

(** Two misses in three cycles. *)
Example miss_rate_ex :
  fmt_f4 (miss_rate (hp_zero <| hp_completed_cycles := 3 |> <| hp_total_deadline_misses := 2 |>)) = str "0.6667".
Proof. vm_compute. reflexivity. Qed.
Example miss_rate_ex2 :
  fmt_f4 (miss_rate (hp_zero <| hp_completed_cycles := 100 |> <| hp_total_deadline_misses := 205 |>)) = str "2.0500".
Proof. vm_compute. reflexivity. Qed.
