(* ===== verification/StartSkew.v ===== *)
(** * The start times of the nodes of a workload

    [SyncCallback] (timpani-o/src/dbus_server.cpp) answers every node with the
    time at which it handled that node's own poll, plus one second.  What this
    gives for several nodes together: each of them starts one second after its
    first poll at which all have called, no two of them at the same time, and
    none later than one polling distance after the first. *)

From S2P Require Import CppStd Serialize Time SchedInfo OrchHyperperiod NodeConfig GlobalScheduler SchedInfoService OrchServer Orchestrator.
From S2P Require Import Types Kernel PeerDbus Trpc Cluster.

Definition NS_PER_SEC : Z := 1000000000.

(** A poll: who, and when the orchestrator handled it. *)
Abbreviation poll := (list byte * timespec)%type.

Definition poll_of (e : oevent) : option poll :=
  match e with EvSync name now => Some (name, now) | _ => None end.
Definition polls (evs : list oevent) : list poll := omap poll_of evs.

(** The times of the polls of one node, and of all, in nanoseconds. *)
Definition times_of (n : list byte) (ps : list poll) : list Z :=
  (fun p => ts_total_ns p.2) <$> filter (fun p => p.1 = n) ps.
Definition times (ps : list poll) : list Z := (fun p => ts_total_ns p.2) <$> ps.

(** The node takes the time of the first reply that acknowledges it. *)
Fixpoint node_start (n : list byte) (ps : list poll) (rs : list (Z * option timespec)) : option timespec :=
  match ps, rs with
  | (m, _) :: ps, (ack, ts) :: rs =>
      if decide (m = n /\ ack <> 0) then ts else node_start n ps rs
  | _, _ => None
  end.

(** One second after a poll. *)
Definition second_after (now : timespec) : timespec := mk_timespec (tv_sec now + 1) (tv_nsec now).

Lemma second_after_ns now : ts_total_ns (second_after now) = ts_total_ns now + NS_PER_SEC.
Proof. unfold ts_total_ns, NS_PER_SEC. cbn. lia. Qed.

(** ** Before and after the last node has called *)

Section gate.
Variable nodes : list (list byte).

Definition complete (seen : list (list byte)) : Prop := Forall (fun n => n ∈ seen) nodes.
#[local] Instance complete_dec seen : Decision (complete seen).
Proof. unfold complete. apply _. Defined.

Lemma complete_mono seen n : complete seen -> complete (n :: seen).
Proof. intros H. eapply Forall_impl; [exact H|]. intros m. by right. Qed.

Lemma node_start_barrier n evs seen :
  n ∈ nodes ->
  node_start n (polls evs) (barrier nodes seen evs) =
    match evs with
    | [] => None
    | EvSync m now :: evs =>
        if decide (m = n /\ complete (m :: seen)) then Some (second_after now)
        else node_start n (polls evs) (barrier nodes (m :: seen) evs)
    | _ :: evs => node_start n (polls evs) (barrier nodes seen evs)
    end.
Proof.
  intros Hn. destruct evs as [|[req|m|m t|m now] evs]; try done.
  cbn [polls omap list_omap poll_of barrier]. unfold sync_answer.
  destruct (decide (m = n /\ complete (m :: seen))) as [[-> Hc]|Hno].
  - rewrite bool_decide_true by done. cbn [node_start]. by rewrite decide_True.
  - case_bool_decide as Hc; cbn [node_start]; (rewrite decide_False; [done|]); intros [-> ?]; [|done].
    by destruct Hc, Hno.
Qed.

(** Once all have called, the next poll of a node gives its start. *)
Lemma start_after_gate n evs seen t :
  n ∈ nodes -> complete seen -> node_start n (polls evs) (barrier nodes seen evs) = Some t ->
  exists now rest, t = second_after now /\ times_of n (polls evs) = ts_total_ns now :: rest /\ (n, now) ∈ polls evs.
Proof.
  intros Hn. revert seen. induction evs as [|e evs IH]; intros seen Hc; rewrite node_start_barrier by done; [done|].
  destruct e as [req|m|m tk|m now]; try by apply IH.
  unfold times_of. cbn [polls omap list_omap poll_of]. rewrite filter_cons. cbn [fst].
  destruct (decide (m = n /\ complete (m :: seen))) as [[-> _]|Hno].
  - intros [= <-]. rewrite decide_True by done. exists now, (times_of n (polls evs)). split_and!; [done|done|left].
  - intros (now' & rest & ? & ? & ?)%IH; [|by apply complete_mono].
    rewrite decide_False by (intros ->; by apply Hno; split; [|apply complete_mono]).
    exists now', rest. split_and!; [done|done|by right].
Qed.

Lemma complete_synced evs seen : complete seen -> complete (synced evs seen).
Proof.
  revert seen. induction evs as [|[] evs IH]; intros seen H; cbn; auto. by apply IH, complete_mono.
Qed.

(** Before, nobody has one. *)
Lemma start_before_gate n evs1 evs2 seen :
  n ∈ nodes -> ~ complete (synced evs1 seen) ->
  node_start n (polls (evs1 ++ evs2)) (barrier nodes seen (evs1 ++ evs2)) =
  node_start n (polls evs2) (barrier nodes (synced evs1 seen) evs2).
Proof.
  intros Hn. revert seen. induction evs1 as [|e evs1 IH]; intros seen Hc; [done|].
  cbn [app]. rewrite node_start_barrier by done. destruct e as [req|m|m tk|m now]; cbn [synced] in *; try by apply IH.
  rewrite decide_False; [by apply IH|]. intros [_ H]. by apply Hc, complete_synced.
Qed.

(** The poll by which all have called. *)
Lemma gate_split evs seen :
  ~ complete seen -> complete (synced evs seen) ->
  exists evs1 g T evs2, evs = evs1 ++ EvSync g T :: evs2 /\
    ~ complete (synced evs1 seen) /\ complete (g :: synced evs1 seen).
Proof.
  revert seen. induction evs as [|e evs IH]; intros seen Hn Hc; [done|].
  destruct e as [req|m|m tk|m now]; cbn [synced] in Hc.
  1-3: destruct (IH seen Hn Hc) as (evs1 & g & T & evs2 & -> & H);
    eexists (_ :: evs1), g, T, evs2; split; [done|exact H].
  destruct (decide (complete (m :: seen))) as [Hm|Hm]; [by exists [], m, now, evs|].
  destruct (IH _ Hm Hc) as (evs1 & g & T & evs2 & -> & H). by exists (EvSync m now :: evs1), g, T, evs2.
Qed.

(** The start of a node of the workload, relative to that poll. *)
Lemma start_at_gate n evs1 g T evs2 seen t :
  n ∈ nodes -> ~ complete (synced evs1 seen) -> complete (g :: synced evs1 seen) ->
  node_start n (polls (evs1 ++ EvSync g T :: evs2)) (barrier nodes seen (evs1 ++ EvSync g T :: evs2)) = Some t ->
  exists now, t = second_after now /\
    (n = g /\ now = T \/
     n <> g /\ n ∈ synced evs1 seen /\ (n, now) ∈ polls evs2 /\ exists rest, times_of n (polls evs2) = ts_total_ns now :: rest).
Proof.
  intros Hn Hno Hc. rewrite start_before_gate, node_start_barrier by done.
  destruct (decide (g = n)) as [->|Hne].
  - rewrite decide_True by done. intros [= <-]. exists T. by split; [|left].
  - rewrite decide_False by naive_solver. intros (now & rest & -> & Ht & Hin)%start_after_gate; [|done|done].
    exists now. split; [done|]. right. split_and!; [done| |done|by exists rest].
    pose proof (proj1 (Forall_forall _ _) Hc n Hn) as Hx. by apply elem_of_cons in Hx as [->|?].
Qed.

(** A poll by which all have called gives a start. *)
Lemma start_exists n now evs1 evs2 seen :
  n ∈ nodes -> complete (n :: synced evs1 seen) ->
  is_Some (node_start n (polls (evs1 ++ EvSync n now :: evs2)) (barrier nodes seen (evs1 ++ EvSync n now :: evs2))).
Proof.
  intros Hn. revert seen. induction evs1 as [|e evs1 IH]; intros seen Hc; cbn [app]; rewrite node_start_barrier by done.
  - by rewrite decide_True.
  - destruct e as [req|m|m tk|m now']; cbn [synced] in Hc; try by apply IH.
    case_decide; [done|by apply IH].
Qed.

End gate.

(** ** Times *)

(** A poll comes at most [D] nanoseconds after the one before it. *)
Definition within (D a b : Z) : Prop := b <= a + D.

Lemma polls_app evs1 evs2 : polls (evs1 ++ evs2) = polls evs1 ++ polls evs2.
Proof. apply omap_app. Qed.

Lemma times_of_app n ps1 ps2 : times_of n (ps1 ++ ps2) = times_of n ps1 ++ times_of n ps2.
Proof. unfold times_of. by rewrite filter_app, fmap_app. Qed.

Lemma elem_times_of n ps x : x ∈ times_of n ps -> x ∈ times ps.
Proof.
  unfold times_of, times. intros ([m now] & -> & [_ ?]%list_elem_of_filter)%list_elem_of_fmap.
  apply list_elem_of_fmap. by eexists.
Qed.

Lemma sorted_apart {A} (R : A -> A -> Prop) (l1 l2 : list A) x y :
  StronglySorted R (l1 ++ l2) -> x ∈ l1 -> y ∈ l2 -> R x y.
Proof.
  intros Hs Hx Hy. induction l1 as [|a l1 IH]; [by apply not_elem_of_nil in Hx|].
  cbn in Hs. apply StronglySorted_inv in Hs as [Hs Ha]. apply elem_of_cons in Hx as [->|Hx]; [|by apply IH].
  rewrite Forall_forall in Ha. apply Ha. set_solver.
Qed.

Lemma sorted_joint {A} (R : A -> A -> Prop) (l1 l2 : list A) x y :
  Sorted R (l1 ++ x :: y :: l2) -> R x y.
Proof.
  induction l1 as [|a l1 IH]; cbn.
  - intros [_ H]%Sorted_inv. by inversion H.
  - intros [H _]%Sorted_inv. by apply IH.
Qed.

(** With a clock that advances, polls at one time are one poll. *)
Lemma polls_distinct ps p q :
  StronglySorted Z.lt (times ps) -> p ∈ ps -> q ∈ ps -> ts_total_ns p.2 = ts_total_ns q.2 -> p = q.
Proof.
  unfold times. induction ps as [|a ps IH]; intros Hs Hp Hq E; [by apply not_elem_of_nil in Hp|].
  cbn in Hs. apply StronglySorted_inv in Hs as [Hs Ha]. rewrite Forall_forall in Ha.
  assert (forall r, r ∈ ps -> ts_total_ns a.2 < ts_total_ns r.2) as Hlt.
  { intros r Hr. apply Ha. apply list_elem_of_fmap. by exists r. }
  apply elem_of_cons in Hp as [->|Hp], Hq as [->|Hq]; [done| | |by apply IH].
  - specialize (Hlt q Hq). lia.
  - specialize (Hlt p Hp). lia.
Qed.

Lemma synced_time n evs : n ∈ synced evs [] -> exists l x, times_of n (polls evs) = l ++ [x].
Proof.
  intros H. destruct (decide (times_of n (polls evs) = [])) as [E|E].
  - exfalso. apply elem_synced in H as [H|[now H]]; [by apply not_elem_of_nil in H|].
    assert (ts_total_ns now ∈ times_of n (polls evs)) as Hx.
    { apply list_elem_of_fmap. exists (n, now). split; [done|]. apply list_elem_of_filter. split; [done|].
      apply list_elem_of_omap. by exists (EvSync n now). }
    rewrite E in Hx. by apply not_elem_of_nil in Hx.
  - destruct (exists_last E) as (l & x & ->). by exists l, x.
Qed.

(** A node starts between one second after the poll that completes the
    workload and [D] later. *)
Lemma start_window nodes n evs1 g T evs2 D t :
  let evs := evs1 ++ EvSync g T :: evs2 in
  n ∈ nodes -> ~ complete nodes (synced evs1 []) -> complete nodes (g :: synced evs1 []) -> 0 <= D ->
  StronglySorted Z.lt (times (polls evs)) -> Sorted (within D) (times_of n (polls evs)) ->
  node_start n (polls evs) (barrier nodes [] evs) = Some t ->
  exists now, t = second_after now /\ (n, now) ∈ polls evs /\
    ts_total_ns T <= ts_total_ns now <= ts_total_ns T + D.
Proof.
  intros evs Hn Hno Hc HD Hs Hg Ht.
  assert (polls evs = polls evs1 ++ (g, T) :: polls evs2) as Ep by (unfold evs; by rewrite polls_app).
  rewrite Ep in *. unfold times in Hs. rewrite fmap_app, fmap_cons in Hs. cbn [snd] in Hs.
  unfold evs in Ht. rewrite <- Ep in Ht. apply start_at_gate in Ht as (now & -> & H); [|done|done|done].
  exists now. split; [done|]. destruct H as [[-> ->]|(Hne & Hsy & Hin & rest & Hr)].
  { split; [apply elem_of_app; right; left|lia]. }
  split; [apply elem_of_app; right; by right|].
  assert (ts_total_ns now ∈ times_of n (polls evs2)) as Hnow by (rewrite Hr; left).
  destruct (synced_time n evs1 Hsy) as (l & x & Hx).
  assert (x < ts_total_ns T) as H1.
  { eapply (sorted_apart _ _ _ _ _ Hs); [|left]. apply (elem_times_of n). rewrite Hx. set_solver. }
  assert (ts_total_ns T < ts_total_ns now) as H2.
  { rewrite (cons_middle (ts_total_ns T)), app_assoc in Hs.
    eapply (sorted_apart _ _ _ _ _ Hs); [set_solver|]. by apply (elem_times_of n). }
  rewrite times_of_app in Hg. unfold times_of in Hg at 2. rewrite filter_cons in Hg. cbn [fst] in Hg.
  rewrite decide_False in Hg by done. fold (times_of n (polls evs2)) in Hg. rewrite Hx, Hr, <- app_assoc in Hg.
  apply sorted_joint in Hg. unfold within in Hg. lia.
Qed.

Lemma barrier_skew nodes evs D n1 n2 t1 t2 :
  nodes <> [] -> n1 ∈ nodes -> n2 ∈ nodes -> 0 <= D ->
  StronglySorted Z.lt (times (polls evs)) -> Forall (fun n => Sorted (within D) (times_of n (polls evs))) nodes ->
  node_start n1 (polls evs) (barrier nodes [] evs) = Some t1 ->
  node_start n2 (polls evs) (barrier nodes [] evs) = Some t2 ->
  Z.abs (ts_total_ns t1 - ts_total_ns t2) <= D /\ (ts_total_ns t1 = ts_total_ns t2 -> n1 = n2).
Proof.
  intros Hne Hn1 Hn2 HD Hs Hg H1 H2. rewrite Forall_forall in Hg.
  assert (~ complete nodes []) as H0.
  { intros H. unfold complete in H. rewrite Forall_forall in H. by apply H, not_elem_of_nil in Hn1. }
  destruct (decide (complete nodes (synced evs []))) as [Hc|Hc].
  - destruct (gate_split nodes evs [] H0 Hc) as (evs1 & g & T & evs2 & E & Ha & Hb). subst evs.
    destruct (start_window nodes n1 evs1 g T evs2 D t1) as (a & -> & Ia & ?); [by auto..|].
    destruct (start_window nodes n2 evs1 g T evs2 D t2) as (b & -> & Ib & ?); [by auto..|].
    rewrite !second_after_ns. split; [lia|]. intros E.
    pose proof (polls_distinct _ (n1, a) (n2, b) Hs Ia Ib ltac:(cbn; lia)) as Eq. by injection Eq.
  - exfalso. rewrite <- (app_nil_r evs) in H1. by rewrite start_before_gate in H1.
Qed.

(** ** The orchestrator *)

Section skew.
Context {HO : Host} {AL : Allocator} {SS : StdSort} {FR : FaultRpc}.

(** C13: The nodes of a workload start close to each other, but never together.
    From the first [Sync] call on, whatever else the orchestrator is asked in
    between, let its clock advance from call to call and let every node of the
    workload poll at distances of at most [D] nanoseconds: then every node that
    polls once all have called gets a start time, the start times of any two
    nodes of the workload are at most [D] apart, and two different nodes never
    have the same one. *)
Theorem start_times_skew name now evs o w v hp D :
  represents o (Some (w, v, hp)) -> v <> [] -> ds_node_sync_map (or_dbus o) = [] -> Forall event_fits evs ->
  let evs := EvSync name now :: evs in
  0 <= D -> StronglySorted Z.lt (times (polls evs)) ->
  Forall (fun n => Sorted (within D) (times_of n (polls evs))) (fst <$> v) ->
  exists rs o', orch_run evs o = Ret (rs, o') /\
    let start n := node_start n (polls evs) (sync_replies rs) in
    (forall n evs1 t evs2, n ∈ (fst <$> v) -> evs = evs1 ++ EvSync n t :: evs2 ->
       complete (fst <$> v) (n :: synced evs1 []) -> is_Some (start n)) /\
    forall n1 n2 t1 t2, n1 ∈ (fst <$> v) -> n2 ∈ (fst <$> v) -> start n1 = Some t1 -> start n2 = Some t2 ->
      Z.abs (ts_total_ns t1 - ts_total_ns t2) <= D /\ (ts_total_ns t1 = ts_total_ns t2 -> n1 = n2).
Proof.
  intros Hr Hv Hm Hf evs' HD Hs Hg.
  destruct (first_sync_run name now evs o w v hp Hr Hv Hm Hf) as (rs & o' & E & Hrs).
  exists rs, o'. split; [exact E|]. cbv zeta. rewrite Hrs. split.
  - intros n evs1 t evs2 Hn Ee Hc. unfold evs'. fold evs'. rewrite Ee. by apply start_exists.
  - intros n1 n2 t1 t2 Hn1 Hn2. apply barrier_skew; try done. by destruct v.
Qed.

End skew.

(** ** The nodes

    One sequence of events, seen by each node as its own polls with the events
    of the others in between ([env] and [clock] of Cluster). *)

(** The polls of node [n], each with the events since the poll before. *)
Fixpoint segments (n : list byte) (acc : list oevent) (evs : list oevent) : list (list oevent * timespec) :=
  match evs with
  | [] => []
  | EvSync m now :: evs =>
      if decide (m = n) then (acc, now) :: segments n [] evs else segments n (acc ++ [EvSync m now]) evs
  | e :: evs => segments n (acc ++ [e]) evs
  end.

Definition env_of (n : list byte) (evs : list oevent) (i : nat) : list oevent :=
  default [] (fst <$> segments n [] evs !! i).
Definition clock_of (n : list byte) (evs : list oevent) (i : nat) : timespec :=
  default ts_zero (snd <$> segments n [] evs !! i).

Definition not_by (n : list byte) (e : oevent) : Prop := match e with EvSync m _ => m <> n | _ => True end.

Definition seg_events (n : list byte) (g : list oevent * timespec) : list oevent := g.1 ++ [EvSync n g.2].

(** The segments, in order, make up the sequence to its last poll of [n]. *)
Lemma segments_spec n evs acc :
  Forall (not_by n) acc ->
  exists rest, acc ++ evs = concat (seg_events n <$> segments n acc evs) ++ rest /\ Forall (not_by n) rest /\
    Forall (fun g => Forall (not_by n) g.1) (segments n acc evs).
Proof.
  revert acc. induction evs as [|e evs IH]; intros acc Hacc; cbn [segments].
  { exists acc. rewrite app_nil_r. split_and!; [done|done|constructor]. }
  assert (forall e', not_by n e' -> exists rest,
    acc ++ e' :: evs = concat (seg_events n <$> segments n (acc ++ [e']) evs) ++ rest /\ Forall (not_by n) rest /\
    Forall (fun g => Forall (not_by n) g.1) (segments n (acc ++ [e']) evs)) as Hstep.
  { intros e' He'. destruct (IH (acc ++ [e'])) as (rest & E & H1 & H2); [apply Forall_app; by repeat constructor|].
    exists rest. rewrite <- E, <- app_assoc. done. }
  destruct e as [req|m|m tk|m now]; try by apply Hstep.
  destruct (decide (m = n)) as [->|Hne]; [|by apply Hstep].
  destruct (IH [] ltac:(constructor)) as (rest & E & H1 & H2). exists rest. split_and!; [|done|by constructor].
  cbn [fmap list_fmap concat]. unfold seg_events at 1. cbn [fst snd]. rewrite <- !app_assoc, <- E. done.
Qed.

(** The history of the node up to its poll [i]. *)
Lemma history_segments n evs i :
  (i <= length (segments n [] evs))%nat ->
  history n (env_of n evs) (clock_of n evs) i = concat (seg_events n <$> take i (segments n [] evs)).
Proof.
  induction i as [|i IH]; intros Hi; [done|]. cbn [history]. rewrite IH by lia.
  destruct (lookup_lt_is_Some_2 (segments n [] evs) i) as [g Hg]; [lia|].
  rewrite (take_S_r _ _ g) by done. rewrite fmap_app, concat_app. cbn [fmap list_fmap concat].
  rewrite app_nil_r. unfold poll_events, env_of, clock_of, seg_events. by rewrite Hg.
Qed.

Lemma history_split n evs i :
  (i < length (segments n [] evs))%nat ->
  exists rest, evs = history n (env_of n evs) (clock_of n evs) i ++ env_of n evs i ++ EvSync n (clock_of n evs i) :: rest.
Proof.
  intros Hi. destruct (segments_spec n evs [] ltac:(constructor)) as (rest & E & _). cbn [app] in E.
  destruct (lookup_lt_is_Some_2 (segments n [] evs) i) as [g Hg]; [lia|].
  exists (concat (seg_events n <$> drop (S i) (segments n [] evs)) ++ rest). rewrite history_segments by lia.
  rewrite E at 1. rewrite <- (take_drop_middle _ _ _ Hg) at 1. rewrite fmap_app, concat_app, fmap_cons, concat_cons.
  unfold env_of, clock_of. rewrite Hg. cbn. unfold seg_events at 2. by rewrite <- !app_assoc.
Qed.

Lemma env_not_by n evs i : Forall (not_by n) (env_of n evs i).
Proof.
  destruct (segments_spec n evs [] ltac:(constructor)) as (_ & _ & _ & H). unfold env_of.
  destruct (segments n [] evs !! i) as [g|] eqn:E; [|constructor]. exact (proj1 (Forall_lookup _ _) H i g E).
Qed.

Section first_ack.
Variables (nodes : list (list byte)) (n : list byte).
Hypothesis Hn : n ∈ nodes.

Lemma start_skip pre post seen :
  node_start n (polls pre) (barrier nodes seen pre) = None ->
  node_start n (polls (pre ++ post)) (barrier nodes seen (pre ++ post)) =
  node_start n (polls post) (barrier nodes (synced pre seen) post).
Proof.
  revert seen. induction pre as [|e pre IH]; intros seen; [done|]. cbn [app].
  rewrite (node_start_barrier nodes n (e :: pre) seen), (node_start_barrier nodes n (e :: pre ++ post) seen) by done.
  destruct e as [req|m|m tk|m now]; cbn [synced]; try apply IH. case_decide; [done|apply IH].
Qed.

Lemma start_not_by pre seen : Forall (not_by n) pre -> node_start n (polls pre) (barrier nodes seen pre) = None.
Proof.
  intros H. revert seen. induction H as [|e pre He _ IH]; intros seen; [done|]. rewrite node_start_barrier by done.
  destruct e as [req|m|m tk|m now]; try apply IH. rewrite decide_False by naive_solver. apply IH.
Qed.

(** Nothing before the first poll at which all have called. *)
Lemma start_first evs i :
  (i < length (segments n [] evs))%nat ->
  complete nodes (n :: called n (env_of n evs) (clock_of n evs) i) ->
  (forall j, (j < i)%nat -> ~ complete nodes (n :: called n (env_of n evs) (clock_of n evs) j)) ->
  node_start n (polls evs) (barrier nodes [] evs) = Some (second_after (clock_of n evs i)).
Proof.
  intros Hi Hc Hlt. set (h := history n (env_of n evs) (clock_of n evs)).
  assert (forall j, (j <= i)%nat -> node_start n (polls (h j ++ env_of n evs j)) (barrier nodes [] (h j ++ env_of n evs j)) = None) as Hnone.
  { assert (forall j, (j <= i)%nat -> node_start n (polls (h j)) (barrier nodes [] (h j)) = None) as Hh.
    { induction j as [|j IH]; intros Hj; [done|]. unfold h. cbn [history]. fold (h j). rewrite start_skip by (apply IH; lia).
      unfold poll_events. rewrite start_skip by (apply start_not_by, env_not_by). rewrite node_start_barrier by done.
      rewrite decide_False; [done|]. intros [_ H]. apply (Hlt j); [lia|]. unfold called. by rewrite synced_app. }
    intros j Hj. rewrite start_skip by by apply Hh. apply start_not_by, env_not_by. }
  destruct (history_split n evs i Hi) as [rest E]. rewrite E at 1 2. fold h. rewrite app_assoc.
  rewrite start_skip by by apply Hnone. rewrite node_start_barrier by done. by rewrite decide_True.
Qed.

End first_ack.

Lemma env_of_Forall (P : oevent -> Prop) n evs i : Forall P evs -> Forall P (env_of n evs i).
Proof.
  intros H. destruct (decide (i < length (segments n [] evs))%nat) as [Hi|Hi].
  - destruct (history_split n evs i Hi) as [rest E]. rewrite E in H. by apply Forall_app in H as [_ [H _]%Forall_app].
  - unfold env_of. rewrite lookup_ge_None_2 by lia. constructor.
Qed.

(** A time the start can be computed from. *)
Definition poll_time_ok (t : timespec) : Prop := 0 <= tv_sec t < 2 ^ 62 /\ 0 <= tv_nsec t < 1000000000.

Lemma clock_of_ok n evs i : Forall (fun p => poll_time_ok p.2) (polls evs) -> poll_time_ok (clock_of n evs i).
Proof.
  intros H. destruct (decide (i < length (segments n [] evs))%nat) as [Hi|Hi].
  - destruct (history_split n evs i Hi) as [rest E]. rewrite E, !polls_app, !Forall_app in H.
    destruct H as (_ & _ & H). cbn in H. by apply Forall_cons in H as [H _].
  - unfold clock_of. rewrite lookup_ge_None_2 by lia. split; cbn; lia.
Qed.

Section cluster_skew.
Context {HO : Host} {AL : Allocator} {SS : StdSort} {FR : FaultRpc}.

(** A run of the orchestrator from the first [Sync] of a workload, during which
    no new workload comes in: its clock advances from call to call, and every
    node of the workload polls at distances of at most [D]. *)
Record joint_run (o : orch) (w : list byte) (v : schedule_view) (hp : option Z) (evs : list oevent) (D : Z) : Prop := {
  jr_state : represents o (Some (w, v, hp));
  jr_nodes : v <> [];
  jr_first : ds_node_sync_map (or_dbus o) = [];
  jr_calm : Forall calm evs;
  jr_range : Forall (fun p => poll_time_ok p.2) (polls evs);
  jr_clock : StronglySorted Z.lt (times (polls evs));
  jr_dist : 0 <= D /\ Forall (fun n => Sorted (within D) (times_of n (polls evs))) (fst <$> v);
}.

(** A node of the workload about to synchronize, whose poll number [last] comes
    when all have called. *)
Record joining (v : schedule_view) (evs : list oevent) (n : list byte) (last : nat) (s : nstate) : Prop := {
  jo_node : n ∈ fst <$> v;
  jo_polls : (last < length (segments n [] evs))%nat;
  jo_all : all_called n (env_of n evs) (clock_of n evs) v last;
  jo_sync : cf_enable_sync (cx_config (n_ctx s)) = true;
  jo_name : cstr (cf_node_id (cx_config (n_ctx s))) = n;
  jo_fresh : tally_of ev_poll s = 0;
}.

(** The node's view of a run. *)
Definition node_bus (o : orch) (evs : list oevent) (n : list byte) (junk : timespec) (K : Kernel) : Kernel :=
  bus_kernel o n (env_of n evs) (clock_of n evs) junk K.

(** What a node stores is the start the run gives it. *)
Lemma node_stores_start {K : Kernel} o w v hp evs D n last junk fuel s :
  joint_run o w v hp evs D -> joining v evs n last s -> (last < fuel)%nat ->
  exists t, node_start n (polls evs) (barrier (fst <$> v) [] evs) = Some t /\
    wp (sync_timer_with_server (K := node_bus o evs n junk K) fuel) (fun r s' =>
      r = Some TT_SUCCESS /\ rt_starttimer_ts (cx_runtime (n_ctx s')) = t) s.
Proof.
  intros [Hr Hv Hm Hc Hrg _ _] [Hn Hlast Hall Hsy Hname Hp0] Hf.
  destruct (node_starts_with_the_others (K := K) o n (env_of n evs) (clock_of n evs) junk w v hp last fuel s)
    as (i & Hi & Hci & Hlt & Hwp); try done.
  - intros j. by apply env_of_Forall.
  - intros j. by apply clock_of_ok.
  - exists (second_after (clock_of n evs i)). split; [apply start_first; try done; lia|].
    eapply wp_mono; [exact Hwp|]. intros r s' (-> & -> & _). done.
Qed.

(** C13: The nodes of a workload start close to each other, but never together.
    In a run of the orchestrator during which no new workload comes in, its
    clock advances from call to call and every node of the workload polls at
    distances of at most [D] nanoseconds, take two nodes that poll once all have
    called: [sync_timer_with_server] returns on both, and the start times they
    have then stored are at most [D] apart; they are equal only if it is one
    node. *)
Theorem nodes_start_close {K1 K2 : Kernel} o w v hp evs D n1 n2 last1 last2 junk fuel s1 s2 :
  joint_run o w v hp evs D -> joining v evs n1 last1 s1 -> joining v evs n2 last2 s2 ->
  (last1 < fuel)%nat -> (last2 < fuel)%nat ->
  exists t1 t2,
    wp (sync_timer_with_server (K := node_bus o evs n1 junk K1) fuel) (fun r s' =>
      r = Some TT_SUCCESS /\ rt_starttimer_ts (cx_runtime (n_ctx s')) = t1) s1 /\
    wp (sync_timer_with_server (K := node_bus o evs n2 junk K2) fuel) (fun r s' =>
      r = Some TT_SUCCESS /\ rt_starttimer_ts (cx_runtime (n_ctx s')) = t2) s2 /\
    Z.abs (ts_total_ns t1 - ts_total_ns t2) <= D /\ (ts_total_ns t1 = ts_total_ns t2 -> n1 = n2).
Proof.
  intros Hj H1 H2 Hf1 Hf2.
  destruct (node_stores_start (K := K1) o w v hp evs D n1 last1 junk fuel s1 Hj H1 Hf1) as (t1 & E1 & W1).
  destruct (node_stores_start (K := K2) o w v hp evs D n2 last2 junk fuel s2 Hj H2 Hf2) as (t2 & E2 & W2).
  exists t1, t2. destruct Hj as [_ Hv _ _ _ Hs [HD Hd]], H1 as [Hn1 _ _ _ _ _], H2 as [Hn2 _ _ _ _ _].
  destruct (barrier_skew (fst <$> v) evs D n1 n2 t1 t2) as [? ?]; try done. by destruct v.
Qed.

End cluster_skew.

(** ** Two nodes *)

#[local] Existing Instance ex_rpc.
#[local] Existing Instance ex_sort.
#[local] Existing Instance ex_alloc.

(** node01 polls every 100 ms, node02 comes between two of its polls. *)
Definition ex_polls : list oevent :=
  [ EvSync (str "node01") (mk_timespec 10 0); EvSync (str "node02") (mk_timespec 10 50000000);
    EvSync (str "node01") (mk_timespec 10 100000000) ].

(** They start 50 ms apart. *)
Example ex_skew :
  let rs := barrier (fst <$> ex_view) [] ex_polls in
  node_start (str "node01") (polls ex_polls) rs = Some (mk_timespec 11 100000000) /\
  node_start (str "node02") (polls ex_polls) rs = Some (mk_timespec 11 50000000).
Proof. vm_compute. auto. Qed.

Lemma ex_distances : Forall (fun n => Sorted (within 100000000) (times_of n (polls ex_polls))) (fst <$> ex_view).
Proof.
  assert (times_of (str "node01") (polls ex_polls) = [10000000000; 10100000000]) as E1 by (vm_compute; reflexivity).
  assert (times_of (str "node02") (polls ex_polls) = [10050000000]) as E2 by (vm_compute; reflexivity).
  apply Forall_cons. split; [change (Sorted (within 100000000) (times_of (str "node01") (polls ex_polls))); rewrite E1|].
  - unfold within. repeat constructor; lia.
  - apply Forall_cons. split; [|constructor].
    change (Sorted (within 100000000) (times_of (str "node02") (polls ex_polls))). rewrite E2. repeat constructor.
Qed.

Lemma start_times_skew_witness : exists o rs o' t1 t2,
  orch_run (HO := le_host) ex_polls o = Ret (rs, o') /\
  node_start (str "node01") (polls ex_polls) (sync_replies rs) = Some t1 /\
  node_start (str "node02") (polls ex_polls) (sync_replies rs) = Some t2 /\
  0 < Z.abs (ts_total_ns t1 - ts_total_ns t2) <= 100000000.
Proof.
  destruct ex_apex_served as (o & Hr & Hm & _).
  destruct (start_times_skew (HO := le_host) (str "node01") (mk_timespec 10 0) (drop 1 ex_polls) o apex_os ex_view
    None 100000000 Hr ltac:(done) Hm ltac:(repeat constructor)) as (rs & o' & E & Hex & Hd).
  - lia.
  - repeat constructor.
  - exact ex_distances.
  - destruct (Hex (str "node01") (take 2 ex_polls) (mk_timespec 10 100000000) []) as [t1 H1];
      [left|reflexivity|repeat constructor; set_solver|].
    destruct (Hex (str "node02") (take 1 ex_polls) (mk_timespec 10 50000000) (drop 2 ex_polls)) as [t2 H2];
      [right; left|reflexivity|repeat constructor; set_solver|].
    exists o, rs, o', t1, t2. split_and!; [exact E|exact H1|exact H2| |].
    + destruct (Hd (str "node01") (str "node02") t1 t2 ltac:(left) ltac:(right; left) H1 H2) as [_ Hne].
      assert (ts_total_ns t1 <> ts_total_ns t2) by (intros Eq; discriminate (Hne Eq)). lia.
    + by apply (Hd (str "node01") (str "node02") t1 t2 ltac:(left) ltac:(right; left)).
Defined.

Definition node02_state : nstate := Eval vm_compute in
  sync_state <| n_ctx ::= fun c => c <| cx_config ::= fun f => f <| cf_node_id := in_array 64 (str "node02") |> |> |>.

Lemma ex_joint_run o :
  represents (HO := le_host) o (Some (apex_os, ex_view, None)) -> ds_node_sync_map (or_dbus o) = [] ->
  joint_run (HO := le_host) o apex_os ex_view None ex_polls 100000000.
Proof.
  intros Hr Hm. split; [exact Hr|done|exact Hm|repeat constructor| |repeat constructor|].
  - unfold poll_time_ok. repeat constructor; cbn; change (2 ^ 62) with 4611686018427387904; lia.
  - split; [lia|exact ex_distances].
Qed.

Lemma nodes_start_close_witness : exists o t1 t2,
  wp (sync_timer_with_server (K := node_bus (HO := le_host) o ex_polls (str "node01") ts_zero ex_network) 2) (fun r s' =>
    r = Some TT_SUCCESS /\ rt_starttimer_ts (cx_runtime (n_ctx s')) = t1) sync_state /\
  wp (sync_timer_with_server (K := node_bus (HO := le_host) o ex_polls (str "node02") ts_zero ex_network) 2) (fun r s' =>
    r = Some TT_SUCCESS /\ rt_starttimer_ts (cx_runtime (n_ctx s')) = t2) node02_state /\
  0 < Z.abs (ts_total_ns t1 - ts_total_ns t2) <= 100000000.
Proof.
  destruct ex_apex_served as (o & Hr & Hm & _). exists o.
  destruct (nodes_start_close (HO := le_host) (K1 := ex_network) (K2 := ex_network) o apex_os ex_view None ex_polls 100000000
    (str "node01") (str "node02") 1 0 ts_zero 2 sync_state node02_state (ex_joint_run o Hr Hm)) as (t1 & t2 & W1 & W2 & Hle & Hne).
  - split; [left|vm_compute; lia| |reflexivity|reflexivity|reflexivity].
    apply (bool_decide_eq_true_1 (all_called _ _ _ _ _)). vm_compute. reflexivity.
  - split; [right; left|vm_compute; lia| |reflexivity|reflexivity|reflexivity].
    apply (bool_decide_eq_true_1 (all_called _ _ _ _ _)). vm_compute. reflexivity.
  - lia.
  - lia.
  - exists t1, t2. split_and!; [exact W1|exact W2| |exact Hle].
    assert (ts_total_ns t1 <> ts_total_ns t2) by (intros Eq; discriminate (Hne Eq)). lia.
Defined.
