(* ===== verification/TrpcTest.v ===== *)
(** * The test programs of libtrpc (libtrpc/test)

    [trpc_server.c] serves a fixed schedule of four tasks and refuses the first
    two [Sync] calls; [trpc_client.c] registers, fetches the schedule, polls
    until it is acknowledged and reports a deadline miss.  Both use the library
    as the orchestrator and the node executor do, with a message layout of
    their own.  What the programs print is not modelled, only that a string
    given to [printf] has to end. *)

From S2P Require Import CppStd Serialize Time Types Kernel SchedInfo PeerDbus TrpcServer Trpc TLog Cluster.

(** ** schedinfo.h *)

Record test_task_info := mk_test_task_info {
  xt_pid : Z;
  xt_name : list byte;
  xt_period : Z;
  xt_release_time : Z;
}.
#[export] Instance eta_test_task_info : Eta test_task_info := fun r =>
  mk_test_task_info (xt_pid r) (xt_name r) (xt_period r) (xt_release_time r).

Record test_sched_info := mk_test_sched_info {
  xs_container_id : list byte;
  xs_container_rt_runtime : Z;
  xs_container_rt_period : Z;
  xs_cpumask : Z;
  xs_container_period : Z;
  xs_pod_period : Z;
  xs_nr_tasks : Z;
  xs_tasks : list test_task_info;
}.
#[export] Instance eta_test_sched_info : Eta test_sched_info := fun r =>
  mk_test_sched_info (xs_container_id r) (xs_container_rt_runtime r) (xs_container_rt_period r) (xs_cpumask r)
    (xs_container_period r) (xs_pod_period r) (xs_nr_tasks r) (xs_tasks r).

(** The static object before [main]. *)
Definition zero_sched_info : test_sched_info := mk_test_sched_info (zeros 64) 0 0 0 0 0 0 [].

(** [pid] at 0, [name] at 4, [period] at 20, [release_time] at 24, [next] at 32. *)
Definition sizeof_test_task_info : Z := 40.

(** The result of code with an [assert], which may end the program. *)
Inductive asserted (A : Type) := Aborted | Went (a : A).
Arguments Aborted {A}.
Arguments Went {A} a.

(** [snprintf(dst, n, ...)] of a text, into an array with room for [n] bytes. *)
Definition snprintf (dst : list byte) (n : nat) (text : list byte) : list byte :=
  let w := take (n - 1) text in w ++ x00 :: drop (S (length w)) dst.

(** [printf("%s", a)] reads to the terminator; with a precision, at most that
    many characters. *)
Definition print_s (a : list byte) : outcome unit :=
  if bool_decide (x00 ∈ a) then Ret tt else UB.
Definition print_prec_s (prec : Z) (a : list byte) : outcome unit :=
  if (0 <=? prec) && (prec <=? blen a) then Ret tt else print_s a.

(** ** The server (trpc_server.c) *)

Module TestServer.

Definition SERVER_PORT : Z := 7777.
Definition CONTAINER_ID : list byte :=
  str "cc5c0d4ba8e10568df25f67b6f396da65c2615a4e6dd6f2f0ad554e9465fbb55".

(** The static variables. *)
Record server := mk_server {
  sv_sbuf : sbufp;
  sv_sched_info : test_sched_info;
  sv_sync_count : Z;
}.
#[export] Instance eta_server : Eta server := fun r =>
  mk_server (sv_sbuf r) (sv_sched_info r) (sv_sync_count r).

Section server.
Context {HO : Host} {AL : Allocator}.

Definition ser_blob (t : list byte) (bytes : Z) (b : sbufp) := serialize_blob b t bytes.

(** The calls for one task, and those after the loop. *)
Definition ser_test_task (t : test_task_info) : list (sbufp -> outcome (Z * sbufp)) :=
  [ ser_int32 (xt_pid t); ser_str (xt_name t); ser_int32 (xt_period t); ser_int32 (xt_release_time t) ].

Definition ser_test_info (sinfo : test_sched_info) : list (sbufp -> outcome (Z * sbufp)) :=
  [ ser_blob (xs_container_id sinfo) 64;
    ser_int32 (xs_container_rt_runtime sinfo);
    ser_int32 (xs_container_rt_period sinfo);
    ser_int64 (xs_cpumask sinfo);
    ser_int32 (xs_container_period sinfo);
    ser_int32 (xs_pod_period sinfo);
    ser_int32 (xs_nr_tasks sinfo) ].

(** Every task is printed before it is packed. *)
Fixpoint print_tasks (ts : list test_task_info) : outcome unit :=
  match ts with
  | [] => Ret tt
  | t :: ts => _ ← print_s (xt_name t); print_tasks ts
  end.

(** The statuses of the calls, which the source discards, and the buffer. *)
Definition serialize_schedinfo (sinfo : test_sched_info) (sbuf : sbufp)
  : outcome (asserted (list Z * sbufp)) :=
  match sbuf with
  | Some b => Ret (Went ([], Some b))
  | None =>
      match new_serial_buf 256 with
      | None => Ret Aborted
      | Some b =>
          _ ← print_tasks (xs_tasks sinfo);
          r ← serialize_seq (concat (ser_test_task <$> xs_tasks sinfo) ++ ser_test_info sinfo) (Some b);
          Ret (Went r)
      end
  end.

(** Returns what [*buf] and [*bufsize] describe; libtrpc passes both. *)
Definition schedinfo_callback (s : server) : outcome (asserted (list byte * server)) :=
  r ← serialize_schedinfo (sv_sched_info s) (sv_sbuf s);
  match r with
  | Aborted => Ret Aborted
  | Went (_, None) => UB
  | Went (_, Some b) => Ret (Went (readable b, s <| sv_sbuf := Some b |>))
  end.

(** They only print. *)
Definition register_callback (name : list byte) (s : server) : server := s.
Definition dmiss_callback (name task : list byte) (s : server) : server := s.

(** [*ack], and [*ts] when it is assigned; [now] is the clock.  The counter is
    an [int]. *)
Definition sync_callback (now : timespec) (s : server) : outcome (Z * option timespec * server) :=
  if sv_sync_count s =? 2 ^ 31 - 1 then UB
  else
    let s' := s <| sv_sync_count := sv_sync_count s + 1 |> in
    if sv_sync_count s <? 2 then Ret (0, None, s') else Ret (1, Some now, s').

(** The loop from [i]; [n] turns are left.  A task starts as fresh memory. *)
Fixpoint init_tasks (n : nat) (i : Z) (sinfo : test_sched_info) : outcome (asserted test_sched_info) :=
  match n with
  | O => Ret (Went sinfo)
  | S n =>
      match malloc sizeof_test_task_info with
      | None => Ret Aborted
      | Some fresh =>
          let tinfo := mk_test_task_info i
            (snprintf (take 16 (drop 4 fresh)) 16 (str "hello" ++ fmt_d i)) (20000 * i) i in
          init_tasks n (i + 1)
            (sinfo <| xs_tasks ::= cons tinfo |> <| xs_nr_tasks := u32 (xs_nr_tasks sinfo + 1) |>)
      end
  end.

Definition init_schedinfo (sinfo : test_sched_info) : outcome (asserted test_sched_info) :=
  container_id ← memcpy_to (xs_container_id sinfo) 0 CONTAINER_ID;
  init_tasks 4 1 (mk_test_sched_info container_id 800000 1000000 0xffffffff 1000000 1000000 0 []).

(** The exit status, the operations and the schedule in place. *)
Definition test_server_main (args : list (list byte)) {K : Kernel} : N (asserted (Z * test_sched_info)) :=
  let port := match args with a :: _ => u32 (atoi a) | [] => SERVER_PORT end in
  r ← lift (init_schedinfo zero_sched_info);
  match r with
  | Aborted => mret Aborted
  | Went sinfo =>
      let out (ret source event fd : Z) : N (asserted (Z * test_sched_info)) :=
        sys (SdEventSourceUnref source) ;;
        sys (SdEventUnref event) ;;
        _ ← (if 0 <=? fd then sys (Close fd) else mret 0);
        mret (Went (if ret <? 0 then 1 else 0, sinfo)) in
      '(ret, event) ← sys SdEventDefault;
      if ret <? 0 then out ret 0 0 (-1)
      else
        '(ret, source) ← trpc_server_create port event (Some (mk_trpc_server_ops true true true true));
        let source := default 0 source in
        if ret <? 0 then out ret source event (-1)
        else
          let fd := ret in
          ret ← sys (SdEventLoop event);
          out ret source event fd
  end.

End server.
End TestServer.

(** ** The client (trpc_client.c) *)

(** What a task allocated at some point holds. *)
Class TaskJunk := {
  task_junk : list event -> test_task_info;
  task_junk_name : forall tr, length (xt_name (task_junk tr)) = 16%nat;
}.

(** Stores the value that was read, if the call succeeded. *)
Definition if_read {A B} (r : option A) (f : A -> B -> B) (b : B) : B :=
  match r with Some a => f a b | None => b end.

Module TestClient.

Definition CLIENT_NAME : list byte := str "Timpani-N".
Definition SERVER_IPADDR : list byte := str "localhost".
Definition SERVER_PORT : Z := 7777.

Section client.
Context {HO : Host} {K : Kernel} {TJ : TaskJunk}.

Definition register_to_server (dbus : Z) : N Z := trpc_client_register dbus CLIENT_NAME.

(** One turn of the loop; the statuses are discarded. *)
Definition deserialize_task (tinfo : test_task_info) (sbuf : serial_buf_t)
  : outcome (test_task_info * serial_buf_t) :=
  '(r, sbuf) ← deserialize_int32_t sbuf;
  let tinfo := if_read r (fun x t => t <| xt_release_time := u32 x |>) tinfo in
  '(r, sbuf) ← deserialize_int32_t sbuf;
  let tinfo := if_read r (fun x t => t <| xt_period := u32 x |>) tinfo in
  '(r, sbuf) ← deserialize_str sbuf (xt_name tinfo);
  let tinfo := if_read r (fun x t => t <| xt_name := x |>) tinfo in
  '(r, sbuf) ← deserialize_int32_t sbuf;
  let tinfo := if_read r (fun x t => t <| xt_pid := u32 x |>) tinfo in
  _ ← print_s (xt_name tinfo);
  Ret (tinfo, sbuf).

Fixpoint deserialize_test_tasks (i : nat) (tasks : list test_task_info) (sbuf : serial_buf_t)
  : N (asserted (list test_task_info * serial_buf_t)) :=
  match i with
  | O => mret (Went (tasks, sbuf))
  | S i =>
      p ← alloc sizeof_test_task_info;
      match p with
      | None => mret Aborted
      | Some _ =>
          s ← get_st;
          '(tinfo, sbuf) ← lift (deserialize_task (task_junk (n_trace s)) sbuf);
          deserialize_test_tasks i (tinfo :: tasks) sbuf
      end
  end.

(** The fields before the tasks. *)
Definition deserialize_head (sbuf : serial_buf_t) (sinfo : test_sched_info)
  : outcome (test_sched_info * serial_buf_t) :=
  '(r, sbuf) ← deserialize_int32_t sbuf;
  let sinfo := if_read r (fun x i => i <| xs_nr_tasks := u32 x |>) sinfo in
  '(r, sbuf) ← deserialize_int32_t sbuf;
  let sinfo := if_read r (fun x i => i <| xs_pod_period := x |>) sinfo in
  '(r, sbuf) ← deserialize_int32_t sbuf;
  let sinfo := if_read r (fun x i => i <| xs_container_period := x |>) sinfo in
  '(r, sbuf) ← deserialize_int64_t sbuf;
  let sinfo := if_read r (fun x i => i <| xs_cpumask := u64 x |>) sinfo in
  '(r, sbuf) ← deserialize_int32_t sbuf;
  let sinfo := if_read r (fun x i => i <| xs_container_rt_period := x |>) sinfo in
  '(r, sbuf) ← deserialize_int32_t sbuf;
  let sinfo := if_read r (fun x i => i <| xs_container_rt_runtime := x |>) sinfo in
  '(_, container_id, cid_size, sbuf) ← deserialize_blob sbuf (xs_container_id sinfo) 64;
  _ ← print_prec_s (i32 cid_size) container_id;
  Ret (sinfo <| xs_container_id := container_id |> <| xs_tasks := [] |>, sbuf).

Definition deserialize_schedinfo (sbuf : serial_buf_t) (sinfo : test_sched_info)
  : N (asserted (test_sched_info * serial_buf_t)) :=
  '(sinfo, sbuf) ← lift (deserialize_head sbuf sinfo);
  r ← deserialize_test_tasks (Z.to_nat (xs_nr_tasks sinfo)) [] sbuf;
  match r with
  | Aborted => mret Aborted
  | Went (tasks, sbuf) => mret (Went (sinfo <| xs_tasks := tasks |>, sbuf))
  end.

(** The status and the static [sched_info] after the call. *)
Definition get_schedinfo (dbus : Z) (sinfo : test_sched_info) : N (asserted (Z * test_sched_info)) :=
  '(ret, buf) ← trpc_client_schedinfo dbus CLIENT_NAME;
  if ret <? 0 then mret (Went (ret, sinfo))
  else
    match buf with
    | None => mret (Went (-1, sinfo))
    | Some (data, bytes) =>
        sbuf ← alloc sizeof_serial_buf_t;
        match sbuf with
        | None => mret (Went (-1, sinfo))
        | Some sbuf =>
            r ← deserialize_schedinfo (received bytes) sinfo;
            match r with
            | Aborted => mret Aborted
            | Went (sinfo, _) =>
                free_serial_buf data sbuf ;;
                mret (Went (0, sinfo))
            end
        end
    end.

Definition report_dmiss (dbus : Z) : N Z := trpc_client_dmiss dbus CLIENT_NAME (str "hello1").

(** [str] holds the text; [len] is what is left of it by the code's count.
    [gmtime_r] and [strftime] in UTC, for years the format writes with their
    digits. *)
Definition timespec_to_str (ts : timespec) (a : list byte) (len : Z) : outcome (list byte) :=
  let date := put_date (fun _ => 0) (tv_sec ts) ++ str " " ++ put_clock (fun _ => 0) (tv_sec ts) in
  a ← memcpy_to a 0 (date ++ [x00]);
  let len := len - (blen date - 1) in
  memcpy_to a (blen date) (take (Z.to_nat (len - 1)) (str "." ++ setw0 9 (tv_nsec ts)) ++ [x00]).

(** The polling loop for at most [fuel] polls; the time at which it is
    acknowledged, [inl ret] on an error, [None] while it has not returned.
    [ack] and [ts] are the local variables. *)
Fixpoint wait_for_sync (fuel : nat) (dbus ack : Z) (ts : timespec) : N (option (Z + timespec)) :=
  match fuel with
  | O => mret None
  | S fuel =>
      '(ret, ack, ts) ← trpc_client_sync dbus CLIENT_NAME ack ts;
      if ret <? 0 then mret (Some (inl ret))
      else if negb (ack =? 0) then
        _ ← lift (timespec_to_str ts (zeros 64) 64);
        mret (Some (inr ts))
      else
        _ ← sys (Usleep 500000);
        wait_for_sync fuel dbus ack ts
  end.

(** The end of [main]: [event] is 0 for NULL, [fd] -1 when it was not assigned. *)
Definition out (ret event fd : Z) (sinfo : test_sched_info) : N (option (asserted (Z * test_sched_info))) :=
  sys (SdEventUnref event) ;;
  _ ← (if 0 <=? fd then sys (Close fd) else mret 0);
  mret (Some (Went (if ret <? 0 then 1 else 0, sinfo))).

(** Once connected. *)
Definition session (fuel : nat) (event dbus fd : Z) : N (option (asserted (Z * test_sched_info))) :=
  ret ← register_to_server dbus;
  if ret <? 0 then out ret event fd zero_sched_info
  else
    r ← get_schedinfo dbus zero_sched_info;
    match r with
    | Aborted => mret (Some Aborted)
    | Went (ret, sinfo) =>
        if ret <? 0 then out ret event fd sinfo
        else
          r ← wait_for_sync fuel dbus 0 ts_zero;
          match r with
          | None => mret None
          | Some (inl ret) => out ret event fd sinfo
          | Some (inr _) =>
              ret ← report_dmiss dbus;
              if ret <? 0 then out ret event fd sinfo
              else
                ret ← sys (SdEventLoop event);
                out ret event fd sinfo
          end
    end.

(** The exit status and the schedule; [None] while the program polls. *)
Definition test_client_main (fuel : nat) (args : list (list byte)) : N (option (asserted (Z * test_sched_info))) :=
  let addr := match args with a :: _ => a | [] => SERVER_IPADDR end in
  let port := match args with _ :: p :: _ => u32 (atoi p) | _ => SERVER_PORT end in
  '(ret, event) ← sys SdEventDefault;
  if ret <? 0 then out ret 0 (-1) zero_sched_info
  else
    '(ret, dbus) ← trpc_client_create (Some (serv_addr addr port)) event;
    if ret <? 0 then out ret event (-1) zero_sched_info
    else
      let fd := ret in
      session fuel event (default 0 dbus) fd.

End client.
End TestClient.

(** ** The schedule on the wire *)

Import TestServer.

Definition test_task_wires (t : test_task_info) : list (list byte) :=
  [ be_bytes 4 (xt_pid t); blob_wire (cstr (xt_name t)); be_bytes 4 (xt_period t); be_bytes 4 (xt_release_time t) ].

Definition test_info_wires (i : test_sched_info) : list (list byte) :=
  [ blob_wire (xs_container_id i); be_bytes 4 (xs_container_rt_runtime i); be_bytes 4 (xs_container_rt_period i);
    be_bytes 8 (xs_cpumask i); be_bytes 4 (xs_container_period i); be_bytes 4 (xs_pod_period i);
    be_bytes 4 (xs_nr_tasks i) ].

Definition test_task_wire (t : test_task_info) : list byte := concat (test_task_wires t).
Definition test_wire (i : test_sched_info) : list byte :=
  concat (test_task_wire <$> xs_tasks i) ++ concat (test_info_wires i).

(** Values of the declared types, arrays of the declared sizes, terminated
    names, and a task count that counts. *)
Record task_fits (t : test_task_info) : Prop := {
  tf_pid : in_u 32 (xt_pid t);
  tf_name : length (xt_name t) = 16%nat /\ nul_terminated (xt_name t);
  tf_period : in_u 32 (xt_period t);
  tf_release : in_u 32 (xt_release_time t);
}.

Record info_fits (i : test_sched_info) : Prop := {
  if_container : length (xs_container_id i) = 64%nat;
  if_rt_runtime : in_s 32 (xs_container_rt_runtime i);
  if_rt_period : in_s 32 (xs_container_rt_period i);
  if_cpumask : in_u 64 (xs_cpumask i);
  if_cperiod : in_s 32 (xs_container_period i);
  if_pod : in_s 32 (xs_pod_period i);
  if_nr : xs_nr_tasks i = blen (xs_tasks i);
  if_nr_range : in_u 32 (xs_nr_tasks i);
  if_tasks : Forall task_fits (xs_tasks i);
}.

Lemma length_cstr a : (length (cstr a) <= length a)%nat.
Proof. induction a as [|b a IH]; [done|]. cbn. case_decide; cbn; lia. Qed.

Lemma length_cstr_nul a : nul_terminated a -> (length (cstr a) < length a)%nat.
Proof.
  unfold nul_terminated. induction a as [|b a IH]; [by intros ?%not_elem_of_nil|]. cbn.
  intros [<-|H]%elem_of_cons; [rewrite decide_True by done; cbn; lia|].
  case_decide; cbn; [lia|]. specialize (IH H). lia.
Qed.

Section pack.
Context {HO : Host} {AL : Allocator}.

Lemma ser_test_task_pushes t : task_fits t -> Forall2 pushes (ser_test_task t) (test_task_wires t).
Proof.
  intros [_ [Hn _] _ _]. pose proof (length_cstr (xt_name t)).
  repeat (constructor; [apply ser_int32_pushes || (apply serialize_str_pushes; change (2 ^ 32) with 4294967296; lia)|]).
  constructor.
Qed.

Lemma ser_test_info_pushes i : info_fits i -> Forall2 pushes (ser_test_info i) (test_info_wires i).
Proof.
  intros []. constructor.
  { replace 64 with (blen (xs_container_id i)) by lia.
    apply (serialize_blob_pushes _ _ []); [by rewrite app_nil_r|]. change (2 ^ 32) with 4294967296. lia. }
  repeat (constructor; [apply ser_int32_pushes || apply ser_int64_pushes|]). constructor.
Qed.

Lemma print_tasks_ok ts : Forall task_fits ts -> print_tasks ts = Ret tt.
Proof.
  induction 1 as [|t ts [_ [_ Hn] _ _] _ IH]; cbn; [done|]. unfold print_s.
  by rewrite bool_decide_true.
Qed.

Lemma ser_test_tasks_pushes ts :
  Forall task_fits ts -> Forall2 pushes (concat (ser_test_task <$> ts)) (concat (test_task_wires <$> ts)).
Proof.
  induction 1 as [|t ts H _ IH]; [constructor|]. rewrite !fmap_cons, !concat_cons.
  apply Forall2_app; [by apply ser_test_task_pushes|done].
Qed.

(** The packed schedule when no call failed. *)
Lemma serialize_schedinfo_wire i rs b :
  info_fits i -> serialize_schedinfo i None = Ret (Went (rs, Some b)) -> Forall (fun r => r = 0) rs ->
  wf_buf b /\ readable b = test_wire i.
Proof.
  intros Hi E Hrs. unfold serialize_schedinfo in E. destruct (new_serial_buf 256) as [b0|] eqn:En; [|done].
  apply new_serial_buf_wf in En as [Hwf0 Hr0]; [|lia].
  rewrite print_tasks_ok in E by apply Hi. cbn [mbind outcome_bind] in E.
  assert (Forall2 pushes (concat (ser_test_task <$> xs_tasks i) ++ ser_test_info i)
    (concat (test_task_wires <$> xs_tasks i) ++ test_info_wires i)) as Hp.
  { apply Forall2_app; [by apply ser_test_tasks_pushes, Hi|by apply ser_test_info_pushes]. }
  destruct (serialize_seq_spec _ _ b0 Hp Hwf0) as (rs' & b' & E' & Hwf' & Hr').
  rewrite E' in E. injection E as <- <-. split; [done|]. rewrite Hr', Hr0 by done.
  unfold test_wire, test_task_wire. rewrite concat_app. cbn [app]. f_equal.
  clear. induction (xs_tasks i) as [|t ts IH]; [done|].
  by rewrite !fmap_cons, !concat_cons, concat_app, IH.
Qed.

End pack.

Import TestClient.

(** What a task is, apart from the bytes after its name. *)
Definition seen (t : test_task_info) : Z * list byte * Z * Z :=
  (xt_pid t, cstr (xt_name t), xt_period t, xt_release_time t).

Section unpack.
Context {HO : Host} {K : Kernel} {TJ : TaskJunk}.

(** A popped value, followed by the rest of the computation. *)
Lemma run_pops {A B} (p : BP A) (a : A) w b l (k : option A * serial_buf_t -> outcome B) (Q : B -> Prop) :
  pops p a w -> wf_buf b -> readable b = l ++ w ->
  (forall b', wf_buf b' -> readable b' = l -> exists r, k (Some a, b') = Ret r /\ Q r) ->
  exists r, (x ← p b; k x) = Ret r /\ Q r.
Proof. intros Hp Hwf Hr Hk. destruct (Hp b l Hwf Hr) as (b' & -> & ? & ?). by apply Hk. Qed.

Lemma u32_i32 x : in_u 32 x -> u32 (i32 x) = x.
Proof. intros. rewrite wrapu_wraps by lia. by apply wrapu_id. Qed.

Lemma deserialize_task_ok junk t b l :
  length (xt_name junk) = 16%nat -> task_fits t -> wf_buf b -> readable b = l ++ test_task_wire t ->
  exists r, deserialize_task junk b = Ret r /\ seen r.1 = seen t /\ wf_buf r.2 /\ readable r.2 = l.
Proof.
  intros Hj [Hp [Hn Hz] Hpe Hre] Hwf Hr. unfold test_task_wire in Hr. cbn [test_task_wires concat] in Hr.
  rewrite app_nil_r, !app_assoc in Hr. unfold deserialize_task.
  eapply run_pops; [apply int32_pops|exact Hwf|exact Hr|]. clear Hwf Hr. intros b1 Hwf Hr. cbn [if_read].
  eapply run_pops; [apply int32_pops|exact Hwf|exact Hr|]. clear Hwf Hr. intros b2 Hwf Hr. cbn [if_read xt_name upd eta eta_test_task_info].
  pose proof (length_cstr_nul _ Hz) as Hlt.
  eapply (run_pops (fun b => deserialize_str b (xt_name junk)));
    [apply (deserialize_str_pops (xt_name junk) (cstr (xt_name t)))|exact Hwf|exact Hr|];
    [lia|change (2 ^ 32) with 4294967296; lia|]. clear Hwf Hr. intros b3 Hwf Hr. cbn [if_read].
  eapply run_pops; [apply int32_pops|exact Hwf|exact Hr|]. clear Hwf Hr. intros b4 Hwf Hr. cbn [if_read].
  unfold print_s. cbn. rewrite bool_decide_true by set_solver. cbn. eexists. split; [done|].
  cbn. unfold seen. cbn. rewrite !u32_i32 by done. rewrite cstr_app_nul by apply cstr_no_nul. done.
Qed.

Lemma deserialize_test_tasks_ok `{!MallocOk K} ts acc b l s :
  Forall task_fits ts -> wf_buf b -> readable b = l ++ concat (test_task_wire <$> ts) ->
  wp (deserialize_test_tasks (length ts) acc b) (fun r s' => exists ts' b',
    r = Went (ts' ++ acc, b') /\ seen <$> ts' = seen <$> ts /\ readable b' = l) s.
Proof.
  revert acc b l s. induction ts as [|t ts IH] using rev_ind; intros acc b l s Ht Hwf Hr; cbn [length deserialize_test_tasks].
  { apply wp_ret. cbn in Hr. rewrite app_nil_r in Hr. by exists [], b. }
  apply Forall_app in Ht as [Ht [Hlast _]%Forall_cons].
  rewrite length_app, Nat.add_comm. cbn [length Nat.add deserialize_test_tasks].
  rewrite fmap_app, concat_app, app_assoc in Hr. cbn [fmap list_fmap concat] in Hr. rewrite app_nil_r in Hr.
  unfold alloc. do 2 apply wp_bind. apply wp_sys. rewrite malloc_ok. wp_run. apply wp_lift.
  match goal with |- context [deserialize_task ?j b] =>
    destruct (deserialize_task_ok j t b _ (task_junk_name _) Hlast Hwf Hr) as ([ti b1] & -> & Hs & Hwf1 & Hr1) end.
  cbn [fst snd] in *. eapply wp_mono; [by apply (IH (ti :: acc) b1 l)|].
  intros r s' (ts' & b' & -> & E & Hb'). exists (ts' ++ [ti]), b'. rewrite <- app_assoc. split_and!; [done| |done].
  rewrite !fmap_app, E. cbn. by rewrite Hs.
Qed.

Lemma deserialize_head_ok i sinfo b l :
  info_fits i -> length (xs_container_id sinfo) = 64%nat -> wf_buf b -> readable b = l ++ concat (test_info_wires i) ->
  exists r, deserialize_head b sinfo = Ret r /\ r.1 = i <| xs_tasks := [] |> /\ wf_buf r.2 /\ readable r.2 = l.
Proof.
  intros [Hc H1 H2 H3 H4 H5 _ H6 _] Hlen Hwf Hr. cbn [test_info_wires concat] in Hr.
  rewrite app_nil_r, !app_assoc in Hr. unfold deserialize_head.
  do 3 (eapply run_pops; [apply int32_pops|exact Hwf|exact Hr|]; clear Hwf Hr; intros ? Hwf Hr; cbn [if_read]).
  eapply run_pops; [apply int64_pops|exact Hwf|exact Hr|]; clear Hwf Hr; intros ? Hwf Hr; cbn [if_read].
  do 2 (eapply run_pops; [apply int32_pops|exact Hwf|exact Hr|]; clear Hwf Hr; intros ? Hwf Hr; cbn [if_read]).
  rewrite (u32_i32 (xs_nr_tasks i)), (wrapu_wraps 64), (wrapu_id 64 (xs_cpumask i)) by (done || lia).
  rewrite (wraps_id 32 (xs_pod_period i)), (wraps_id 32 (xs_container_period i)),
    (wraps_id 32 (xs_container_rt_period i)), (wraps_id 32 (xs_container_rt_runtime i)) by (done || lia).
  match goal with |- context [deserialize_blob ?b (xs_container_id ?x) 64] => set (got := x) end.
  assert (xs_container_id got = xs_container_id sinfo) as -> by reflexivity.
  destruct (deserialize_blob_pops _ l (xs_container_id i) (xs_container_id sinfo) 64 Hwf Hr) as (b2 & -> & Hwf2 & Hr2).
  { change (2 ^ 32) with 4294967296. lia. }
  { lia. }
  cbn [mbind outcome_bind]. rewrite drop_ge, app_nil_r by lia. rewrite Hc, (wraps_id 32 (Z.of_nat 64)) by (lia || range).
  unfold print_prec_s. rewrite Hc. cbn [mbind outcome_bind]. eexists. split; [reflexivity|]. split; [|done].
  subst got. destruct i, sinfo. reflexivity.
Qed.

Lemma deserialize_schedinfo_ok `{!MallocOk K} i sinfo b s :
  info_fits i -> length (xs_container_id sinfo) = 64%nat -> wf_buf b -> readable b = test_wire i ->
  wp (deserialize_schedinfo b sinfo) (fun r s' => exists ts' b',
    r = Went (i <| xs_tasks := ts' |>, b') /\ seen <$> ts' = seen <$> xs_tasks i /\ readable b' = []) s.
Proof.
  intros Hi Hlen Hwf Hr. unfold deserialize_schedinfo. apply wp_bind, wp_lift.
  destruct (deserialize_head_ok i sinfo b _ Hi Hlen Hwf Hr) as ([i' b1] & -> & E & Hwf1 & Hr1).
  cbn [fst snd] in *. subst i'. cbn [xs_nr_tasks upd eta eta_test_sched_info]. rewrite (if_nr _ Hi), Nat2Z.id.
  apply wp_bind. eapply wp_mono; [apply (deserialize_test_tasks_ok (xs_tasks i) [] b1 [])|].
  - apply Hi.
  - done.
  - exact Hr1.
  - intros r s' (ts' & b' & -> & E & Hb'). apply wp_ret. exists ts', b'. by rewrite app_nil_r.
Qed.

End unpack.

(** The two test programs agree on the schedule: whatever the byte orders
    of the two hosts, a schedule the server packs without a failing call is
    unpacked by the client with every field, the same tasks in the same order
    and the same names, and nothing is left over. *)
Theorem test_schedule_roundtrip (h1 h2 : Host) {AL : Allocator} {K : Kernel} {TJ : TaskJunk} `{!MallocOk K} i sinfo rs b s :
  info_fits i -> serialize_schedinfo (HO := h1) i None = Ret (Went (rs, Some b)) -> Forall (fun r => r = 0) rs ->
  length (xs_container_id sinfo) = 64%nat ->
  wp (deserialize_schedinfo (HO := h2) (received (readable b)) sinfo) (fun r s' => exists ts' b',
    r = Went (i <| xs_tasks := ts' |>, b') /\ seen <$> ts' = seen <$> xs_tasks i /\ readable b' = []) s.
Proof.
  intros Hi E Hrs Hl. destruct (serialize_schedinfo_wire (HO := h1) i rs b Hi E Hrs) as [Hwf Hr].
  destruct (received_wf (readable b)) as [Hwf0 Hr0].
  { rewrite length_readable by done. destruct Hwf as (?&?&?). lia. }
  apply (deserialize_schedinfo_ok (HO := h2)); [done|done|done|by rewrite Hr0].
Qed.

(** ** The server's answers *)

Section answers.
Context {HO : Host} {AL : Allocator}.

(** The requests of the clients and what they get. *)
Inductive test_request :=
  | Q_register (name : list byte)
  | Q_schedinfo
  | Q_dmiss (name task : list byte)
  | Q_sync (now : timespec).

Inductive test_answer := A_none | A_bytes (bytes : list byte) | A_sync (ack : Z) (ts : option timespec).

Definition serve (q : test_request) (s : server) : outcome (asserted (test_answer * server)) :=
  match q with
  | Q_register name => Ret (Went (A_none, register_callback name s))
  | Q_dmiss name task => Ret (Went (A_none, dmiss_callback name task s))
  | Q_schedinfo =>
      r ← schedinfo_callback s;
      Ret (match r with Aborted => Aborted | Went (bytes, s) => Went (A_bytes bytes, s) end)
  | Q_sync now => '(ack, ts, s) ← sync_callback now s; Ret (Went (A_sync ack ts, s))
  end.

Fixpoint serve_all (qs : list test_request) (s : server) : outcome (asserted (list test_answer * server)) :=
  match qs with
  | [] => Ret (Went ([], s))
  | q :: qs =>
      r ← serve q s;
      match r with
      | Aborted => Ret Aborted
      | Went (a, s) =>
          rs ← serve_all qs s;
          Ret (match rs with Aborted => Aborted | Went (l, s) => Went (a :: l, s) end)
      end
  end.

(** The answers in terms of the bytes of the schedule and the number of [Sync]
    calls before. *)
Fixpoint expected (bytes : list byte) (n : Z) (qs : list test_request) : list test_answer :=
  match qs with
  | [] => []
  | Q_schedinfo :: qs => A_bytes bytes :: expected bytes n qs
  | Q_sync now :: qs => (if n <? 2 then A_sync 0 None else A_sync 1 (Some now)) :: expected bytes (n + 1) qs
  | _ :: qs => A_none :: expected bytes n qs
  end.

(** The buffer, once made, is the one that packing the schedule gives. *)
Definition holds_schedule (b : serial_buf_t) (s : server) : Prop :=
  (sv_sbuf s = None \/ sv_sbuf s = Some b) /\
  exists rs, serialize_schedinfo (sv_sched_info s) None = Ret (Went (rs, Some b)).

Lemma serve_all_expected b qs s :
  holds_schedule b s -> 0 <= sv_sync_count s -> sv_sync_count s + blen qs < 2 ^ 31 ->
  exists s', serve_all qs s = Ret (Went (expected (readable b) (sv_sync_count s) qs, s')) /\ holds_schedule b s'.
Proof.
  revert s. induction qs as [|q qs IH]; intros s Hs H0 Hn; cbn [serve_all expected]; [by exists s|].
  cbn [length] in Hn. destruct q as [name| |name task|now]; cbn [serve mbind outcome_bind].
  - unfold register_callback. destruct (IH s) as (s' & -> & ?); [done|done|lia|]. by exists s'.
  - destruct Hs as [Hb [rs Hrs]]. unfold schedinfo_callback.
    assert (exists rs', serialize_schedinfo (sv_sched_info s) (sv_sbuf s) = Ret (Went (rs', Some b))) as [rs' ->].
    { destruct Hb as [->| ->]; [by exists rs|by exists []]. }
    cbn [mbind outcome_bind]. destruct (IH (s <| sv_sbuf := Some b |>)) as (s' & -> & ?);
      [split; [by right|by exists rs]|done|cbn; lia|]. by exists s'.
  - unfold dmiss_callback. destruct (IH s) as (s' & -> & ?); [done|done|lia|]. by exists s'.
  - unfold sync_callback. rewrite (proj2 (Z.eqb_neq _ _)) by lia. set (s1 := s <| sv_sync_count := _ |>).
    destruct (IH s1) as (s' & E & ?); [done|cbn; lia|cbn; lia|]. change (sv_sync_count s1) with (sv_sync_count s + 1) in E.
    exists s'. split; [|done]. destruct (sv_sync_count s <? 2); cbn [mbind outcome_bind]; by rewrite E.
Qed.

End answers.

(** ** The printed time *)

Lemma length_string_to_bytes s : length (str s) = String.length s.
Proof. induction s as [|c s IH]; [done|]. cbn. by f_equal. Qed.

Lemma length_pretty_N_go k x s : (x < 10 ^ N.of_nat k)%N -> (String.length (pretty_N_go x s) <= k + String.length s)%nat.
Proof.
  revert x s. induction k as [|k IH]; intros x s Hx.
  - assert (x = 0%N) as -> by (cbn in Hx; lia). rewrite pretty_N_go_0. lia.
  - destruct (decide (x = 0%N)) as [->|Hne]; [rewrite pretty_N_go_0; lia|].
    rewrite pretty_N_go_step by lia. etrans; [apply IH|cbn; lia].
    rewrite Nat2N.inj_succ, N.pow_succ_r' in Hx. apply N.Div0.div_lt_upper_bound. lia.
Qed.

Lemma length_fmt_d k z : 0 <= z < 10 ^ Z.of_nat k -> (length (fmt_d z) <= Nat.max 1 k)%nat.
Proof.
  intros Hz. unfold fmt_d. rewrite length_string_to_bytes. destruct z as [|p|p]; [cbn; lia| |lia].
  change (pretty (Z.pos p)) with (pretty (N.pos p)). unfold pretty, pretty_N. rewrite decide_False by done.
  etrans; [apply (length_pretty_N_go k)|cbn; lia].
  apply N2Z.inj_lt. rewrite N2Z.inj_pow, nat_N_Z. cbn [Z.of_N]. lia.
Qed.

Lemma length_setw0 n k z : 0 <= z < 10 ^ Z.of_nat k -> (n <= length (setw0 n z) <= Nat.max (Nat.max 1 n) k)%nat.
Proof. intros Hz. pose proof (length_fmt_d k z Hz). unfold setw0. rewrite length_app, length_replicate. lia. Qed.

Lemma civil_bounds days :
  0 <= days < 2932897 -> let '(y, m, d) := civil_of_days days in 0 <= y <= 10000 /\ 1 <= m <= 12 /\ 1 <= d <= 31.
Proof.
  intros H. unfold civil_of_days.
  set (z := days + 719468). pose proof (Z.mod_pos_bound z 146097 ltac:(lia)) as Hd.
  assert (1 <= z / 146097 <= 24) by (subst z; Z.div_mod_to_equations; lia).
  generalize dependent (z / 146097). generalize dependent (z mod 146097). clear z. intros doe Hd era He.
  set (yoe := (doe - _ + _ - _) / 365).
  assert (0 <= yoe <= 399 /\ 0 <= doe - (365 * yoe + yoe / 4 - yoe / 100) <= 365) as [Hy Hdoy].
  { subst yoe. Z.div_mod_to_equations. lia. }
  clearbody yoe. set (doy := doe - (365 * yoe + yoe / 4 - yoe / 100)) in *. clearbody doy. clear -He Hy Hdoy.
  assert (0 <= (5 * doy + 2) / 153 <= 11 /\ 1 <= doy - (153 * ((5 * doy + 2) / 153) + 2) / 5 + 1 <= 31) as [Hm Hd]
    by (Z.div_mod_to_equations; lia).
  destruct (Z.ltb_spec ((5 * doy + 2) / 153) 10); repeat case_match; lia.
Qed.

Lemma setw0_no_nul n z : no_nul (setw0 n z).
Proof.
  unfold no_nul, setw0. intros [H|H]%elem_of_app.
  - by apply elem_of_replicate in H as [? _].
  - pose proof (proj1 (fmt_d_chars z)) as Hc. rewrite Forall_forall in Hc. apply Hc in H as [H|H]; discriminate H.
Qed.

(** The date and the clock. *)
Definition date_text (sec : Z) : list byte := put_date (fun _ => 0) sec ++ str " " ++ put_clock (fun _ => 0) sec.

Lemma length_date_text sec : 0 <= sec < 253402300800 -> (length (date_text sec) <= 20)%nat.
Proof.
  intros Hs. unfold date_text, put_date, put_clock. rewrite Z.add_0_r.
  pose proof (civil_bounds (sec / 86400) ltac:(Z.div_mod_to_equations; lia)) as Hc.
  destruct (civil_of_days (sec / 86400)) as [[y m] d]. destruct Hc as (Hy & Hm & Hd).
  pose proof (Z.mod_pos_bound sec 86400 ltac:(lia)) as Hr. set (t := sec mod 86400) in *. clearbody t.
  pose proof (length_setw0 4 5 y ltac:(cbn; lia)). pose proof (length_setw0 2 2 m ltac:(cbn; lia)).
  pose proof (length_setw0 2 2 d ltac:(cbn; lia)).
  pose proof (length_setw0 2 2 (t / 3600) ltac:(cbn; Z.div_mod_to_equations; lia)).
  pose proof (length_setw0 2 2 (t / 60 mod 60) ltac:(cbn; Z.div_mod_to_equations; lia)).
  pose proof (length_setw0 2 2 (t mod 60) ltac:(cbn; Z.div_mod_to_equations; lia)).
  rewrite !length_app. cbn [length str]. cbn. lia.
Qed.

(** The text fits, although the code counts one byte more than is left: the
    rest takes ten characters. *)
Lemma timespec_to_str_ok ts a :
  0 <= tv_sec ts < 253402300800 -> 0 <= tv_nsec ts < 1000000000 -> length a = 64%nat ->
  exists a', timespec_to_str ts a 64 = Ret a' /\ cstr a' = date_text (tv_sec ts) ++ str "." ++ setw0 9 (tv_nsec ts).
Proof.
  intros Hs Hn Ha. unfold timespec_to_str. fold (date_text (tv_sec ts)).
  pose proof (length_date_text _ Hs). pose proof (length_setw0 9 9 (tv_nsec ts) ltac:(cbn; lia)).
  rewrite memcpy_to_ok by (rewrite ?length_app; cbn [length]; lia). cbn [mbind outcome_bind].
  rewrite (take_ge (str "." ++ _)) by (rewrite length_app; change (length (str ".")) with 1%nat; lia).
  rewrite memcpy_to_ok by (lia || (rewrite !length_app, !length_take, !length_drop, ?length_app;
    change (length (str ".")) with 1%nat; cbn [length]; lia)).
  eexists. split; [done|]. rewrite Nat2Z.id. change (take (Z.to_nat 0) a) with (@nil byte). rewrite app_nil_l.
  rewrite <- !app_assoc, take_app_length. set (rest := drop _ _). clearbody rest.
  replace (date_text (tv_sec ts) ++ str "." ++ setw0 9 (tv_nsec ts) ++ [x00] ++ rest)
    with ((date_text (tv_sec ts) ++ str "." ++ setw0 9 (tv_nsec ts)) ++ x00 :: rest) by (by rewrite <- !app_assoc).
  apply cstr_app_nul. unfold no_nul.
  pose proof setw0_no_nul as Hz. unfold no_nul in Hz. unfold date_text, put_date, put_clock.
  destruct (civil_of_days _) as [[y m] d]. rewrite !elem_of_app.
  intros H'. repeat match type of H' with _ \/ _ => destruct H' as [H'|H'] end;
    first [by eapply Hz|by apply list_elem_of_singleton in H'].
Qed.

(** ** The two programs together *)

(** The schedule [init_schedinfo] makes, newest task first. *)
Definition hello_tasks : list (Z * list byte * Z * Z) :=
  [ (4, str "hello4", 80000, 4); (3, str "hello3", 60000, 3); (2, str "hello2", 40000, 2); (1, str "hello1", 20000, 1) ].

Lemma init_tasks_ok {AL : Allocator} n i sinfo :
  al_ok sizeof_test_task_info = true -> 0 < i -> i + Z.of_nat n <= 10 ->
  info_fits sinfo -> xs_nr_tasks sinfo < i ->
  exists sinfo', init_tasks n i sinfo = Ret (Went sinfo') /\ info_fits sinfo' /\
    seen <$> xs_tasks sinfo' =
      reverse ((fun k => (k, str "hello" ++ fmt_d k, 20000 * k, k)) <$> seqZ i (Z.of_nat n)) ++ (seen <$> xs_tasks sinfo).
Proof.
  intros Hal. revert i sinfo. induction n as [|n IH]; intros i sinfo Hi Hn Hf Hk; cbn [init_tasks]; [by exists sinfo|].
  unfold malloc. rewrite Hal.
  set (fresh := fresh_bytes _ _). assert (length (take 16 (drop 4 fresh)) = 16%nat) as Hl.
  { rewrite length_take, length_drop. unfold fresh. by rewrite length_fresh_bytes. }
  set (name := snprintf _ _ _).
  pose proof (length_fmt_d 1 i ltac:(cbn; lia)) as Hd.
  assert (take (16 - 1) (str "hello" ++ fmt_d i) = str "hello" ++ fmt_d i) as Ht.
  { apply take_ge. rewrite length_app. change (length (str "hello")) with 5%nat. lia. }
  assert (cstr name = str "hello" ++ fmt_d i) as Hname.
  { unfold name, snprintf. rewrite Ht. apply cstr_app_nul. unfold no_nul. rewrite elem_of_app. intros [H|H].
    - revert H. apply (bool_decide_eq_true_1 (~ _)). reflexivity.
    - by apply (setw0_no_nul 0 i). }
  assert (length name = 16%nat /\ nul_terminated name) as [Hnl Hnz].
  { unfold name, snprintf, nul_terminated. rewrite Ht. split; [|apply elem_of_app; right; left].
    rewrite length_app. cbn [length]. rewrite length_drop, Hl, !length_app. change (length (str "hello")) with 5%nat. lia. }
  clearbody name. destruct (IH (i + 1) (sinfo <| xs_tasks ::= cons (mk_test_task_info i name (20000 * i) i) |>
    <| xs_nr_tasks := u32 (xs_nr_tasks sinfo + 1) |>)) as (sinfo' & E & Hf' & Hs); [lia|lia| | |].
  - destruct Hf as [H1 H2 H3 H4 H5 H6 H7 H8 H9].
    assert (u32 (xs_nr_tasks sinfo + 1) = xs_nr_tasks sinfo + 1) as Eu by (apply wrapu_id; range).
    split; [exact H1|exact H2|exact H3|exact H4|exact H5|exact H6| | |]; cbn [xs_nr_tasks xs_tasks upd eta eta_test_sched_info].
    + rewrite Eu, H7. cbn [length]. lia.
    + rewrite Eu. range.
    + constructor; [|exact H9]. split; cbn [xt_pid xt_name xt_period xt_release_time]; done || range.
  - cbn. rewrite wrapu_id; [lia|]. destruct Hf as [_ _ _ _ _ _ _ H8 _]. range.
  - exists sinfo'. split_and!; [exact E|done|]. rewrite Hs.
    rewrite (seqZ_cons i (Z.of_nat (S n))) by lia. replace (Z.pred (Z.of_nat (S n))) with (Z.of_nat n) by lia.
    replace (Z.succ i) with (i + 1) by lia. rewrite fmap_cons, reverse_cons, <- app_assoc. f_equal.
    cbn. unfold seen at 1. cbn. by rewrite Hname.
Qed.

Lemma init_schedinfo_ok {AL : Allocator} :
  al_ok sizeof_test_task_info = true ->
  exists i, init_schedinfo zero_sched_info = Ret (Went i) /\ info_fits i /\ seen <$> xs_tasks i = hello_tasks.
Proof.
  intros Hal. unfold init_schedinfo. rewrite memcpy_to_ok by (vm_compute; intuition congruence). cbn [mbind outcome_bind].
  set (i0 := mk_test_sched_info _ _ _ _ _ _ _ _).
  assert (info_fits i0) as Hi0 by (split; (reflexivity || apply Forall_nil_2 || (cbn; range))).
  destruct (init_tasks_ok 4 1 i0 Hal) as (i & E & Hi & Hs); [lia|lia|done|cbn; lia|].
  exists i. split_and!; [exact E|exact Hi|]. rewrite Hs. reflexivity.
Qed.

Definition client_history (clock : nat -> timespec) (i : nat) : list test_request :=
  [Q_register CLIENT_NAME; Q_schedinfo] ++ ((fun k => Q_sync (clock k)) <$> seq 0 i).

Section together.
Context {HO : Host} {AL : Allocator}.
(** The server with its schedule, the times of the [Sync] calls, and what the
    reply of a refused call holds for the time. *)
Context (s0 : server) (clock : nat -> timespec) (junk : timespec).

(** The bytes the server answers after [Register]. *)
Definition reply_bytes : list byte :=
  match serve_all (client_history clock 0) s0 with
  | Ret (Went ([_; A_bytes bytes], _)) => bytes
  | _ => []
  end.

(** The reply to the [Sync] call number [i], as libtrpc's server sends it. *)
Definition reply_sync (i : nat) : Z * Z * Z :=
  match serve_all (client_history clock (S i)) s0 with
  | Ret (Went (l, _)) =>
      match last l with
      | Some (A_sync ack ts) => let t := default junk ts in (ack, u64 (tv_sec t), u64 (tv_nsec t))
      | _ => (0, 0, 0)
      end
  | _ => (0, 0, 0)
  end.

(** [K] with the replies of the test server. *)
Definition test_bus (K : Kernel) : Kernel :=
  {| kresp := fun _ tr c =>
       match c in call A return A with
       | SdBusCallMethod _ dest path iface member _ => if served_method dest path iface member then (0, 9) else (-22, 0)
       | SdBusMessageReadArray _ =>
           match asked tr with
           | Some (member, [n]) => if decide (member = TRPC_METHOD_SCHEDINFO /\ n = CLIENT_NAME) then (1, reply_bytes) else (-6, [])
           | _ => (-6, [])
           end
       | SdBusMessageReadBTT _ =>
           match asked tr with
           | Some (member, [n]) =>
               if decide (member = TRPC_METHOD_SYNC /\ n = CLIENT_NAME) then (0, reply_sync (Z.to_nat (tally ev_poll tr)))
               else (-6, (0, 0, 0))
           | _ => (-6, (0, 0, 0))
           end
       | c => kresp tr c
       end |}.

#[export] Instance test_bus_sync K : SyncServer (test_bus K) CLIENT_NAME (fun i => reply_sync (Z.to_nat i)).
Proof.
  split; intros; unfold request; cbn [kresp test_bus asked].
  - by rewrite (proj2 served_requests).
  - by rewrite decide_True.
Qed.

#[export] Instance test_bus_malloc K : MallocOk K -> MallocOk (test_bus K).
Proof. intros H tr n. apply H. Qed.

#[export] Instance test_bus_up K k : LocalBus K k -> ServerUpAfter (test_bus K) k CLIENT_NAME reply_bytes.
Proof.
  intros []. split; unfold request; cbn [kresp test_bus asked]; auto; intros.
  - by rewrite (proj1 served_requests).
  - rewrite decide_True by done. split; [done|reflexivity].
Qed.

Lemma expected_syncs bytes n l :
  expected bytes n ((fun k => Q_sync (clock k)) <$> l) =
  imap (fun j k => if n + Z.of_nat j <? 2 then A_sync 0 None else A_sync 1 (Some (clock k))) l.
Proof.
  revert n. induction l as [|k l IH]; intros n; [done|]. cbn [fmap list_fmap expected]. rewrite IH.
  rewrite imap_cons. rewrite Z.add_0_r. f_equal. apply imap_ext. intros j x _. cbn.
  by replace (n + 1 + Z.of_nat j) with (n + Z.of_nat (S j)) by lia.
Qed.

(** The replies the client gets from a server that has just started. *)
Lemma replies b i :
  holds_schedule b s0 -> sv_sync_count s0 = 0 -> Z.of_nat i < 1000 ->
  reply_bytes = readable b /\
  reply_sync i = (if decide (i < 2)%nat then (0, u64 (tv_sec junk), u64 (tv_nsec junk))
                  else (1, u64 (tv_sec (clock i)), u64 (tv_nsec (clock i)))).
Proof.
  intros Hs H0 Hi. split.
  - unfold reply_bytes. destruct (serve_all_expected b (client_history clock 0) s0 Hs) as (s' & -> & _); [lia|cbn; lia|done].
  - unfold reply_sync. destruct (serve_all_expected b (client_history clock (S i)) s0 Hs) as (s' & -> & _); [lia| |].
    { unfold client_history. rewrite length_app, length_fmap, length_seq. cbn [length]. change (2 ^ 31) with 2147483648. lia. }
    rewrite H0. unfold client_history. cbn [app expected].
    rewrite expected_syncs, seq_S, imap_app. cbn [imap]. rewrite !app_comm_cons, last_snoc, length_seq, Nat.add_0_r, !Z.add_0_l.
    destruct (Z.ltb_spec (Z.of_nat i) 2); case_decide; lia || done.
Qed.

End together.

(** *** What the client does *)

Inductive client_act :=
  | D_request (member : list byte) (args : list (list byte))
  | D_wait (us : Z)
  | D_loop
  | D_close (fd : Z).

Definition act_of (e : event) : option client_act :=
  match ev_call e with
  | SdBusCallMethod _ _ _ _ member args => Some (D_request member args)
  | Usleep us => Some (D_wait us)
  | SdEventLoop _ => Some D_loop
  | Close fd => Some (D_close fd)
  | _ => None
  end.

(** Latest first. *)
Definition acts (s : nstate) : list client_act := omap act_of (n_trace s).

Section acts.
Context {HO : Host} {K : Kernel} {TJ : TaskJunk}.

Lemma release_reply_acts reply : frames (keeps acts) (release_reply reply).
Proof. unfold release_reply. frames_tac. Qed.

(** A request, then code that does none of the above. *)
Lemma request_acts {A} dbus member args (k : Z * Z -> N A) s :
  (forall x, frames (keeps acts) (k x)) ->
  wlp (call_method dbus member args ≫= k) (fun _ s' => acts s' = D_request member args :: acts s) s.
Proof.
  intros Hk. apply wlp_bind, wp_wlp. unfold call_method. apply wp_sys.
  eapply wlp_mono; [apply Hk|]. intros a s' ->. done.
Qed.

Ltac acts_tac := apply request_acts; intros []; unfold release_reply, alloc; frames_tac.

Lemma trpc_client_register_acts dbus nm s :
  wlp (trpc_client_register dbus nm) (fun _ s' => acts s' = D_request TRPC_METHOD_REGISTER [cstr nm] :: acts s) s.
Proof. acts_tac. Qed.
Lemma trpc_client_dmiss_acts dbus nm task s :
  wlp (trpc_client_dmiss dbus nm task) (fun _ s' => acts s' = D_request TRPC_METHOD_DMISS [cstr nm; cstr task] :: acts s) s.
Proof. acts_tac. Qed.
Lemma trpc_client_schedinfo_acts dbus nm s :
  wlp (trpc_client_schedinfo dbus nm) (fun _ s' => acts s' = D_request TRPC_METHOD_SCHEDINFO [cstr nm] :: acts s) s.
Proof. acts_tac. Qed.
Lemma trpc_client_sync_acts dbus nm ack ts s :
  wlp (trpc_client_sync dbus nm ack ts) (fun _ s' => acts s' = D_request TRPC_METHOD_SYNC [cstr nm] :: acts s) s.
Proof. acts_tac. Qed.

Lemma trpc_client_schedinfo_polls dbus nm : frames (keeps (tally_of ev_poll)) (trpc_client_schedinfo dbus nm).
Proof. unfold trpc_client_schedinfo, call_method, release_reply, alloc. frames_tac. Qed.

Lemma trpc_client_create_keeps addr event :
  frames (keeps (fun s => (acts s, tally_of ev_poll s))) (trpc_client_create addr event).
Proof. unfold trpc_client_create, init_dbus_client, checked. destruct addr; frames_tac. Qed.

Lemma deserialize_test_tasks_keeps i tasks b :
  frames (keeps (fun s => (acts s, tally_of ev_poll s))) (deserialize_test_tasks i tasks b).
Proof.
  revert tasks b. induction i as [|i IH]; intros tasks b; cbn [deserialize_test_tasks]; unfold alloc; frames_tac.
Qed.

Lemma deserialize_schedinfo_keeps b sinfo :
  frames (keeps (fun s => (acts s, tally_of ev_poll s))) (deserialize_schedinfo b sinfo).
Proof.
  pose proof deserialize_test_tasks_keeps. unfold deserialize_schedinfo. frames_tac.
Qed.

End acts.

Lemma wp_acts {K : Kernel} {A} (m : N A) (P : A -> nstate -> Prop) (l : list client_act) s :
  wp m P s -> wlp m (fun _ s' => acts s' = l) s -> wp m (fun a s' => P a s' /\ acts s' = l) s.
Proof. intros. by apply wp_and. Qed.

Section polling.
Context {K : Kernel} {answer : Z -> Z * Z * Z} `{!SyncServer K CLIENT_NAME answer}.

(** The polls of the loop: the last one, and [n] before it with their waits. *)
Definition poll_acts (n : nat) : list client_act :=
  D_request TRPC_METHOD_SYNC [CLIENT_NAME] ::
  concat (replicate n [D_wait 500000; D_request TRPC_METHOD_SYNC [CLIENT_NAME]]).

Lemma poll_acts_S n :
  poll_acts (S n) = poll_acts n ++ [D_wait 500000; D_request TRPC_METHOD_SYNC [CLIENT_NAME]].
Proof.
  unfold poll_acts. rewrite replicate_S_end, concat_app. by rewrite app_comm_cons.
Qed.

Lemma wait_for_sync_ok n fuel dbus ack ts s :
  acks_after (answer := answer) (tally_of ev_poll s) n -> (n < fuel)%nat ->
  (let '(_, sec, nsec) := answer (tally_of ev_poll s + Z.of_nat n) in
   0 <= i64 sec < 253402300800 /\ 0 <= i64 nsec < 1000000000) ->
  wp (wait_for_sync fuel dbus ack ts) (fun r s' =>
    let '(_, sec, nsec) := answer (tally_of ev_poll s + Z.of_nat n) in
    r = Some (inr (mk_timespec (i64 sec) (i64 nsec))) /\ acts s' = poll_acts n ++ acts s) s.
Proof.
  revert n ack ts s. induction fuel as [|fuel IH]; intros n ack ts s [Hno Hyes] Hlt Ht; [lia|].
  cbn [wait_for_sync]. apply wp_bind.
  eapply wp_mono; [apply wp_acts; [apply (trpc_client_sync_spec dbus CLIENT_NAME); reflexivity|apply trpc_client_sync_acts]|].
  intros [[ret a'] ts'] s1 [H1 Hacts]. change (cstr CLIENT_NAME) with CLIENT_NAME in Hacts. destruct n as [|n].
  - rewrite Z.add_0_r in *. destruct (answer (tally_of ev_poll s)) as [[a sec] nsec].
    destruct H1 as (-> & -> & -> & _). cbn in Hyes. cbn [Z.ltb Z.compare].
    rewrite (proj2 (Z.eqb_neq _ _) Hyes). cbn [negb]. apply wp_bind, wp_lift.
    destruct (timespec_to_str_ok (mk_timespec (i64 sec) (i64 nsec)) (zeros 64)) as (t & -> & _); [apply Ht|apply Ht|done|].
    apply wp_ret. split; [done|]. by rewrite Hacts.
  - specialize (Hno (tally_of ev_poll s) ltac:(lia)) as Ha.
    destruct (answer (tally_of ev_poll s)) as [[a sec] nsec]. cbn in Ha. subst a.
    destruct H1 as (-> & -> & -> & Hp & _ & _). cbn [Z.ltb Z.compare Z.eqb negb]. apply wp_bind, wp_sys.
    replace (tally_of ev_poll s + Z.of_nat (S n)) with (tally_of ev_poll s1 + Z.of_nat n) in * by lia.
    eapply wp_mono; [apply (IH n)|].
    + change (tally_of ev_poll (log _ _ _)) with (tally_of ev_poll s1). split; [|done]. intros i Hi. apply Hno. lia.
    + lia.
    + exact Ht.
    + intros r s2. change (tally_of ev_poll (log _ _ _)) with (tally_of ev_poll s1).
      destruct (answer _) as [[? ?] ?]. intros (-> & Hs2). split; [done|]. rewrite Hs2.
      rewrite poll_acts_S, <- app_assoc. f_equal.
      change (acts (log _ _ s1)) with (D_wait 500000 :: acts s1). by rewrite Hacts.
Qed.

End polling.

(** *** The session *)

Lemma served_simple :
  served_method TRPC_SERVER_NAME TRPC_OBJECT_PATH TRPC_OBJECT_INTERFACE TRPC_METHOD_REGISTER = true /\
  served_method TRPC_SERVER_NAME TRPC_OBJECT_PATH TRPC_OBJECT_INTERFACE TRPC_METHOD_DMISS = true.
Proof. split; vm_compute; reflexivity. Qed.

Section session.
Context (h1 h2 : Host) {AL : Allocator} {K : Kernel} {TJ : TaskJunk} `{!MallocOk K} `{!LocalBus K 0}.
Context (i : test_sched_info) (rs : list Z) (b : serial_buf_t) (clock : nat -> timespec) (junk : timespec).

(** The server has started and packs its schedule without a failing call; the
    clock shows times before the year 10000; the event loop ends normally. *)
Record server_ready : Prop := {
  sr_init : init_schedinfo zero_sched_info = Ret (Went i);
  sr_alloc : al_ok sizeof_test_task_info = true;
  sr_packed : serialize_schedinfo (HO := h1) i None = Ret (Went (rs, Some b));
  sr_status : Forall (fun r => r = 0) rs;
  sr_clock : forall n, 0 <= tv_sec (clock n) < 253402300800 /\ 0 <= tv_nsec (clock n) < 1000000000;
  sr_loop : forall tr e, 0 <= kresp tr (SdEventLoop e);
}.

#[local] Abbreviation bus := (test_bus (HO := h1) (mk_server None i 0) clock junk K).

Lemma server_ready_info : server_ready -> info_fits i /\ seen <$> xs_tasks i = hello_tasks.
Proof. intros []. destruct init_schedinfo_ok as (i' & E & H & ?); [done|]. rewrite sr_init0 in E. by injection E as <-. Qed.

Lemma server_ready_replies n :
  server_ready -> Z.of_nat n < 1000 ->
  reply_bytes (HO := h1) (mk_server None i 0) clock = readable b /\
  reply_sync (HO := h1) (mk_server None i 0) clock junk n =
    (if decide (n < 2)%nat then (0, u64 (tv_sec junk), u64 (tv_nsec junk))
     else (1, u64 (tv_sec (clock n)), u64 (tv_nsec (clock n)))).
Proof.
  intros [] Hn. apply replies; [|done|done]. split; [by left|]. by exists rs.
Qed.

(** A request without a reply body. *)
Lemma register_ok dbus s :
  wp (register_to_server (K := bus) dbus) (fun ret s' =>
    (ret = 0 /\ keeps (tally_of ev_poll) s s') /\ acts s' = D_request TRPC_METHOD_REGISTER [CLIENT_NAME] :: acts s) s.
Proof.
  apply (wp_acts (K := bus)); [|apply (trpc_client_register_acts (K := bus))].
  unfold register_to_server, trpc_client_register, call_method, release_reply. apply wp_bind, wp_sys.
  cbn [kresp test_bus]. rewrite (proj1 served_simple).
  apply wp_bind, wp_bind, wp_sys. by apply wp_sys, wp_ret.
Qed.

Lemma dmiss_ok dbus s :
  wp (report_dmiss (K := bus) dbus) (fun ret s' =>
    ret = 0 /\ acts s' = D_request TRPC_METHOD_DMISS [CLIENT_NAME; str "hello1"] :: acts s) s.
Proof.
  apply (wp_acts (K := bus)); [|apply (trpc_client_dmiss_acts (K := bus))].
  unfold report_dmiss, trpc_client_dmiss, call_method, release_reply. apply wp_bind, wp_sys.
  cbn [kresp test_bus]. rewrite (proj2 served_simple).
  apply wp_bind, wp_bind, wp_sys. by apply wp_sys, wp_ret.
Qed.

Lemma get_schedinfo_ok dbus s :
  server_ready ->
  wp (get_schedinfo (HO := h2) (K := bus) dbus zero_sched_info) (fun r s' => exists ts',
    r = Went (0, i <| xs_tasks := ts' |>) /\ seen <$> ts' = hello_tasks /\
    keeps (tally_of ev_poll) s s' /\ acts s' = D_request TRPC_METHOD_SCHEDINFO [CLIENT_NAME] :: acts s) s.
Proof.
  intros Hsr. destruct (server_ready_info Hsr) as [Hi Hh]. pose proof Hsr as [_ _ Hp Hst _ _].
  destruct (serialize_schedinfo_wire (HO := h1) i rs b Hi Hp Hst) as [Hwf Hr].
  destruct (server_ready_replies 0 Hsr ltac:(lia)) as [Hb _].
  destruct (received_wf (readable b)) as [Hwf0 Hr0].
  { rewrite length_readable by done. destruct Hwf as (?&?&?). lia. }
  assert (forall s, wp (deserialize_schedinfo (HO := h2) (K := bus) (received (readable b)) zero_sched_info) (fun r s' =>
    (exists ts' b', r = Went (i <| xs_tasks := ts' |>, b') /\ seen <$> ts' = hello_tasks) /\
    keeps (fun s => (acts s, tally_of ev_poll s)) s s') s) as Hd.
  { intros s1. apply wp_and.
    - eapply wp_mono; [apply (deserialize_schedinfo_ok (HO := h2) (K := bus) i); [done|done|done|by rewrite Hr0]|].
      intros r s' (ts' & b' & -> & E & _). exists ts', b'. by rewrite E.
    - apply (deserialize_schedinfo_keeps (K := bus)). }
  unfold get_schedinfo. apply wp_bind.
  eapply wp_mono; [apply wp_and; [apply wp_and; [apply (trpc_client_schedinfo_reach (K := bus) dbus CLIENT_NAME); reflexivity|
    apply (trpc_client_schedinfo_acts (K := bus))]|apply (trpc_client_schedinfo_polls (K := bus))]|].
  intros [ret buf] s1 [[(H0 & [p ->] & _) Ha] Hpo]. rewrite (proj2 (Z.ltb_ge _ _) H0). rewrite Hb.
  unfold alloc. do 2 apply wp_bind. apply wp_sys. rewrite malloc_ok. wp_run. eapply wp_mono; [apply Hd|].
  intros r s2 [(ts' & b' & -> & E) Hk]. unfold keeps in Hk. apply pair_equal_spec in Hk as [Hk1 Hk2].
  unfold free_serial_buf. apply wp_bind, wp_bind, wp_sys, wp_sys, wp_ret. exists ts'. split_and!; [done|done| |].
  - unfold keeps in *. transitivity (tally_of ev_poll s2); [done|]. rewrite Hk2. exact Hpo.
  - transitivity (acts s2); [done|]. rewrite Hk1. exact Ha.
Qed.

Lemma trpc_client_create_reach addr event s :
  tally_of ev_retry s = 0 ->
  wp (trpc_client_create (K := bus) (Some addr) event) (fun '(ret, dbus) s' =>
    ret = 0 /\ keeps (fun s => (acts s, tally_of ev_poll s)) s s') s.
Proof.
  intros H0. eapply wp_mono; [apply wp_and; [|apply (trpc_client_create_keeps (K := bus))]|].
  - unfold trpc_client_create. apply wp_bind.
    eapply wp_mono; [apply (init_dbus_client_reach (K := bus) (k := 0))|]. intros d s1. rewrite H0. intros Hd.
    rewrite (proj2 (Z.eqb_neq d 0)) by done. apply wp_ret. instantiate (1 := fun '(ret, _) _ => ret = 0). done.
  - by intros [ret dbus] s' [-> ?].
Qed.

Lemma session_ok fuel event dbus s :
  server_ready -> (2 < fuel)%nat -> tally_of ev_poll s = 0 ->
  wp (session (HO := h2) (K := bus) fuel event dbus 0) (fun r s' => exists ts',
    r = Some (Went (0, i <| xs_tasks := ts' |>)) /\ seen <$> ts' = hello_tasks /\
    acts s' = [D_close 0; D_loop; D_request TRPC_METHOD_DMISS [CLIENT_NAME; str "hello1"]] ++ poll_acts 2 ++
      [D_request TRPC_METHOD_SCHEDINFO [CLIENT_NAME]; D_request TRPC_METHOD_REGISTER [CLIENT_NAME]] ++ acts s) s.
Proof.
  intros Hsr Hf H0. unfold session. apply wp_bind. eapply wp_mono; [apply register_ok|].
  intros ret s1 [[-> Hp1] Ha1]. cbn [Z.ltb Z.compare]. apply wp_bind. eapply wp_mono; [by apply get_schedinfo_ok|].
  intros r s2 (ts' & -> & Hts & Hp2 & Ha2). cbn [Z.ltb Z.compare]. apply wp_bind. unfold keeps in *.
  assert (tally_of ev_poll s2 = 0) as Hp by congruence.
  assert (forall n, Z.of_nat n < 1000 -> reply_sync (HO := h1) (mk_server None i 0) clock junk (Z.to_nat (Z.of_nat n)) =
    (if decide (n < 2)%nat then (0, u64 (tv_sec junk), u64 (tv_nsec junk))
     else (1, u64 (tv_sec (clock n)), u64 (tv_nsec (clock n))))) as Hrep.
  { intros n Hn. rewrite Nat2Z.id. by apply server_ready_replies. }
  eapply wp_mono; [apply (wait_for_sync_ok (K := bus) 2)|].
  - rewrite Hp. split.
    + intros j Hj. rewrite <- (Z2Nat.id j) by lia. rewrite Hrep by lia. by rewrite decide_True by lia.
    + rewrite Z.add_0_l, Hrep by lia. by rewrite decide_False by lia.
  - done.
  - rewrite Hp, Z.add_0_l, Hrep, decide_False by lia. destruct (sr_clock Hsr 2) as [Hc1 Hc2].
    rewrite !wraps_wrapu, !wraps_id by (lia || range). lia.
  - intros r s3. cbv beta. match goal with |- context [reply_sync ?a ?b ?c ?d] => destruct (reply_sync a b c d) as [[? ?] ?] end. intros [-> Ha3]. apply wp_bind.
    eapply wp_mono; [apply dmiss_ok|]. intros ret s4 [-> Ha4]. cbn [Z.ltb Z.compare]. apply wp_bind, wp_sys.
    unfold out. apply wp_bind, wp_sys. cbn [Z.leb Z.compare]. apply wp_bind, wp_sys, wp_ret. exists ts'.
    pose proof (sr_loop Hsr (n_trace s4) event) as Hl. change (kresp (n_trace s4) (SdEventLoop event)) with
      (kresp (Kernel := bus) (n_trace s4) (SdEventLoop event)) in Hl. rewrite (proj2 (Z.ltb_ge _ _) Hl).
    split_and!; [done|done|]. match goal with |- acts ?x = _ => change (acts x) with (D_close 0 :: D_loop :: acts s4) end.
    by rewrite Ha4, Ha3, Ha2, Ha1.
Qed.

(** C38: The two test programs together.  A client that starts against a server
    that has started, over a bus that works, ends with status 0; on the way it
    registers, fetches the four tasks hello1 to hello4 with the schedule the
    server made, is refused twice and waits half a second each time, is
    acknowledged at its third [Sync], and reports the miss of hello1, in this
    order and nothing else; the descriptor it closes at the end is 0. *)
Theorem test_programs_session fuel args s :
  server_ready -> (2 < fuel)%nat -> n_trace s = [] ->
  wp (test_client_main (HO := h2) (K := bus) fuel args) (fun r s' => exists ts',
    r = Some (Went (0, i <| xs_tasks := ts' |>)) /\ seen <$> ts' = hello_tasks /\
    acts s' = [D_close 0; D_loop; D_request TRPC_METHOD_DMISS [CLIENT_NAME; str "hello1"]] ++ poll_acts 2 ++
      [D_request TRPC_METHOD_SCHEDINFO [CLIENT_NAME]; D_request TRPC_METHOD_REGISTER [CLIENT_NAME]]) s.
Proof.
  intros Hsr Hf Hs. unfold test_client_main. apply wp_bind, wp_sys.
  pose proof (sv_event (K := bus) (k := 0) (name := CLIENT_NAME) (n_trace s)) as He.
  destruct (kresp _ SdEventDefault) as [ret event]. cbn [fst] in He. rewrite (proj2 (Z.ltb_ge _ _) He).
  apply wp_bind. eapply wp_mono; [apply trpc_client_create_reach; unfold tally_of; cbn; by rewrite Hs|].
  intros [ret1 dbus] s1 [-> Hk]. unfold keeps in Hk. apply pair_equal_spec in Hk as [Hk1 Hk2]. cbn [Z.ltb Z.compare].
  eapply wp_mono; [apply session_ok; [done|done|]|].
  - rewrite Hk2. unfold tally_of. cbn. by rewrite Hs.
  - intros r s2 (ts' & -> & Hts & Ha). exists ts'. split_and!; [done|done|]. rewrite Ha, Hk1.
    unfold acts. cbn. by rewrite Hs.
Qed.

End session.

(** From its start, the test server answers every request for the schedule with
    the same bytes, acknowledges every [Sync] from the third on with the time of
    that call and refuses the first two, for up to two thousand million
    requests. *)
Theorem test_server_answers {HO : Host} {AL : Allocator} i rs b qs :
  init_schedinfo zero_sched_info = Ret (Went i) -> serialize_schedinfo i None = Ret (Went (rs, Some b)) ->
  blen qs < 2 ^ 31 ->
  exists s', serve_all qs (mk_server None i 0) = Ret (Went (expected (readable b) 0 qs, s')).
Proof.
  intros Hi Hb Hq. destruct (serve_all_expected b qs (mk_server None i 0)) as (s' & E & _); [|done|done|by exists s'].
  split; [by left|by exists rs].
Qed.

(** The client takes an empty reply for a schedule: no status of a deserializer
    is looked at. *)
Theorem empty_schedule_accepted {HO : Host} {K : Kernel} {TJ : TaskJunk} dbus sinfo s :
  xs_nr_tasks sinfo = 0 -> length (xs_container_id sinfo) = 64%nat ->
  wp (trpc_client_schedinfo dbus CLIENT_NAME) (fun '(ret, buf) _ => 0 <= ret /\ exists p, buf = Some (p, [])) s ->
  wlp (get_schedinfo dbus sinfo) (fun r _ => r = Went (0, sinfo <| xs_tasks := [] |>) \/ r = Went (-1, sinfo)) s.
Proof.
  intros H0 Hl Hc. unfold get_schedinfo. apply wlp_bind, wp_wlp. eapply wp_mono; [exact Hc|].
  intros [ret buf] s1 [Hr [p ->]]. rewrite (proj2 (Z.ltb_ge _ _) Hr). unfold alloc.
  apply wlp_bind, wlp_bind, wp_wlp, wp_sys. destruct (kresp _ _); [|do 2 apply wlp_ret; by right].
  apply wlp_bind, wp_wlp, wp_get, wlp_bind, wp_wlp, wp_modify. do 2 apply wlp_ret. apply wlp_bind.
  unfold deserialize_schedinfo. apply wlp_bind, wlp_lift.
  assert (deserialize_head (received []) sinfo = Ret (sinfo <| xs_tasks := [] |>, received [])) as ->.
  { assert (print_prec_s (i32 64) (xs_container_id sinfo) = Ret tt) as Hp by (unfold print_prec_s; by rewrite Hl).
    transitivity (_ ← print_prec_s (i32 64) (xs_container_id sinfo);
      Ret (sinfo <| xs_container_id := xs_container_id sinfo |> <| xs_tasks := [] |>, received [])); [reflexivity|].
    rewrite Hp. by destruct sinfo. }
  cbn [xs_nr_tasks upd eta eta_test_sched_info]. rewrite H0. cbn [Z.to_nat deserialize_test_tasks].
  apply wlp_bind. do 2 apply wlp_ret. unfold free_serial_buf. apply wlp_bind, wlp_bind, wp_wlp, wp_sys, wp_wlp, wp_sys, wlp_ret.
  left. do 2 f_equal.
Qed.

(** *** Witnesses *)

#[local] Instance zero_junk : TaskJunk :=
  { task_junk := fun _ => mk_test_task_info 0 (zeros 16) 0 0; task_junk_name := fun _ => eq_refl }.

#[local] Instance default_local : LocalBus default_kernel 0.
Proof.
  split; intros; cbn; try lia. exfalso. assert (0 <= tally ev_retry tr); [|lia]. clear.
  induction tr as [|[A c r] tr IH]; cbn; [done|]. destruct c; try lia. destruct (_ =? _); lia.
Qed.

Definition ex_test_info : test_sched_info := Eval vm_compute in
  match init_schedinfo (AL := small_alloc) zero_sched_info with Ret (Went i) => i | _ => zero_sched_info end.
Definition ex_test_packed : list Z * serial_buf_t := Eval vm_compute in
  match serialize_schedinfo (HO := le_host) (AL := small_alloc) ex_test_info None with
  | Ret (Went (rs, Some b)) => (rs, b)
  | _ => ([], mk_serial_buf [] 0 0)
  end.

Lemma ex_test_ready :
  server_ready le_host (AL := small_alloc) (K := default_kernel) ex_test_info ex_test_packed.1 ex_test_packed.2
    (fun n => mk_timespec (1700000000 + Z.of_nat n mod 1000) 500).
Proof.
  split.
  - vm_compute. reflexivity.
  - vm_compute. reflexivity.
  - vm_compute. reflexivity.
  - repeat constructor.
  - intros n. cbn [tv_sec tv_nsec]. pose proof (Z.mod_pos_bound (Z.of_nat n) 1000). lia.
  - intros tr e. cbn. lia.
Qed.

Lemma ex_test_fits : info_fits ex_test_info.
Proof. apply (server_ready_info le_host _ _ _ _ ex_test_ready). Qed.

Lemma test_schedule_roundtrip_witness :
  wp (deserialize_schedinfo (HO := be_host) (K := default_kernel) (received (readable ex_test_packed.2)) zero_sched_info)
    (fun r s' => exists ts' b', r = Went (ex_test_info <| xs_tasks := ts' |>, b') /\
      seen <$> ts' = hello_tasks /\ readable b' = []) nstate_init.
Proof.
  apply (test_schedule_roundtrip le_host be_host (AL := small_alloc) (K := default_kernel) ex_test_info zero_sched_info
    ex_test_packed.1 ex_test_packed.2).
  - exact ex_test_fits.
  - exact (sr_packed _ _ _ _ _ ex_test_ready).
  - exact (sr_status _ _ _ _ _ ex_test_ready).
  - reflexivity.
Defined.

Lemma test_programs_session_witness :
  wp (test_client_main (HO := be_host)
        (K := test_bus (HO := le_host) (AL := small_alloc) (mk_server None ex_test_info 0)
                (fun n => mk_timespec (1700000000 + Z.of_nat n mod 1000) 500) ts_zero default_kernel) 3 [])
    (fun r s' => exists ts', r = Some (Went (0, ex_test_info <| xs_tasks := ts' |>)) /\ seen <$> ts' = hello_tasks) nstate_init.
Proof.
  eapply wp_mono.
  - apply (test_programs_session le_host be_host (AL := small_alloc) (K := default_kernel) ex_test_info
      ex_test_packed.1 ex_test_packed.2 (fun n => mk_timespec (1700000000 + Z.of_nat n mod 1000) 500) ts_zero 3 []).
    + exact ex_test_ready.
    + lia.
    + reflexivity.
  - intros r s' (ts' & -> & Hts & _). by exists ts'.
Defined.
