(* ===== verification/Exprocs.v ===== *)
(** * The test process of the node executor (timpani-n/test/exprocs.c)

    A process for the executor to release: it waits for the release signal and
    reports every release whose distance from the one before differs from the
    period by more than 100 microseconds; with a run time it then keeps the CPU
    busy for it. *)

From S2P Require Import CppStd.
From S2P Require Import Prelude Time Types Kernel SampleApps SampleWorkloads.

(** The global variables and the static [before] of [do_workload]. *)
Record exprocs := mk_exprocs {
  xp_pr_name : list byte;
  xp_task_period : Z;
  xp_task_runtime : Z;
  xp_jitter_cnt : Z;
  xp_before : timespec;
}.
#[export] Instance eta_exprocs : Eta exprocs := fun p =>
  mk_exprocs (xp_pr_name p) (xp_task_period p) (xp_task_runtime p) (xp_jitter_cnt p) (xp_before p).

(** [int jitter = diff(ts_ns(now), ts_ns(before)) / NSEC_PER_USEC - task_period;]:
    the macros compute in [long], and so does the difference with the period. *)
Definition jitter_us (task_period : Z) (before now : timespec) : outcome Z :=
  n ← app_ts_ns now;
  b ← app_ts_ns before;
  d ← as_long (n - b);
  j ← as_long (Z.quot d 1000 - task_period);
  Ret (i32 j).

Section process.
(** The CPU time of the thread, read by the successive calls; the state is the
    number of readings. *)
Variable cpu_clock : nat -> timespec.

(** A line that is printed: the count and the jitter. *)
Abbreviation report := (Z * Z)%type.

(** The first part of [do_workload]; [now] is the clock at the call. *)
Definition check_jitter (now : timespec) (p : exprocs) : outcome (exprocs * list report) :=
  b ← app_ts_ns (xp_before p);
  if negb (b =? 0) then
    jitter ← jitter_us (xp_task_period p) (xp_before p) now;
    if (jitter <? -100) || (100 <? jitter) then
      let cnt := u64 (xp_jitter_cnt p + 1) in
      Ret (p <| xp_jitter_cnt := cnt |>, [(cnt, jitter)])
    else Ret (p, [])
  else Ret (p, []).

(** [None] while the busy loop runs. *)
Definition do_workload (fuel : nat) (now : timespec) (p : exprocs) : ST nat (option (exprocs * list report)) :=
  '(p, rs) ← lift_o (check_jitter now p);
  r ← (if negb (xp_task_runtime p =? 0) then
      let runtime_ns := u32 (xp_task_runtime p * 1000) in
      start_ns ← get_cpu_time cpu_clock;
      busy_wait cpu_clock fuel start_ns runtime_ns
    else mret (Some tt));
  match r with
  | None => mret None
  | Some _ => mret (Some (p <| xp_before := now |>, rs))
  end.

(** One return of [sigwait]: its result, the signal it stores when the result
    is 0, and the clock after it. *)
Record turn := mk_turn { tu_ret : Z; tu_signo : Z; tu_now : timespec }.

Inductive process_state := P_failed | P_waiting | P_busy.

(** The loop of [main]; [signal_received] is [None] until it is assigned. *)
Fixpoint exprocs_loop (fuel : nat) (turns : list turn) (signal_received : option Z) (p : exprocs)
  : ST nat (exprocs * list report * process_state) :=
  match turns with
  | [] => mret (p, [], P_waiting)
  | t :: turns =>
      if tu_ret t =? -1 then mret (p, [], P_failed)
      else
        let signal_received := if tu_ret t =? 0 then Some (tu_signo t) else signal_received in
        match signal_received with
        | None => undef
        | Some signo =>
            if negb (signo =? SIGNO_TT) then exprocs_loop fuel turns signal_received p
            else
              r ← do_workload fuel (tu_now t) p;
              match r with
              | None => mret (p, [], P_busy)
              | Some (p, rs) =>
                  '(p, rs', st) ← exprocs_loop fuel turns signal_received p;
                  mret (p, rs ++ rs', st)
              end
        end
  end.

End process.

(** What [main] does before the loop: the exit status, or the process that
    serves; [args] is [argv] without the program's name. *)
Definition exprocs_main {K : Kernel} (args : list (list byte)) : N (Z + exprocs) :=
  _ ← sys Getpid;
  match args with
  | name :: period :: rest =>
      let task_period := u32 (atoi period) in
      let task_runtime := match rest with r :: _ => u32 (atoi r) | [] => 0 end in
      _ ← sys (PrctlSetName (cstr name));
      '(_, pr_name) ← sys PrctlGetName;
      _ ← sys (SigprocmaskBlock SIGNO_TT);
      mret (inr (mk_exprocs pr_name task_period task_runtime 0 ts_zero))
  | _ => mret (inl 1)
  end.

(** ** Reports *)

(** The clock at the releases. *)
Definition release_times (turns : list turn) : list timespec :=
  tu_now <$> filter (fun t => tu_signo t = SIGNO_TT) turns.

(** The deviations of successive distances from the period, in microseconds. *)
Fixpoint deviations (period : Z) (before : timespec) (l : list timespec) : list Z :=
  match l with
  | [] => []
  | now :: l => (Z.quot (ts_total_ns now - ts_total_ns before) 1000 - period) :: deviations period now l
  end.

Definition all_deviations (period : Z) (l : list timespec) : list Z :=
  match l with [] => [] | now :: l => deviations period now l end.

Definition large (j : Z) : Prop := 100 < Z.abs j.
#[export] Instance large_dec j : Decision (large j).
Proof. unfold large. apply _. Defined.

(** Numbered from [n + 1]. *)
Fixpoint numbered (n : Z) (l : list Z) : list (Z * Z) :=
  match l with [] => [] | j :: l => (n + 1, j) :: numbered (n + 1) l end.

(** A time of the real-time clock after the epoch. *)
Definition wall_ok (ts : timespec) : Prop := ts_norm ts /\ 0 <= tv_sec ts /\ 0 < ts_total_ns ts < 2 ^ 62.

Lemma jitter_us_ok period before now :
  in_u 32 period -> wall_ok before -> wall_ok now ->
  let j := Z.quot (ts_total_ns now - ts_total_ns before) 1000 - period in
  in_s 32 j -> jitter_us period before now = Ret j.
Proof.
  intros Hp (Hb1 & Hb2 & Hb3) (Hn1 & Hn2 & Hn3) j Hj. unfold jitter_us.
  rewrite !app_ts_ns_ok by (done || lia). cbn [mbind outcome_bind].
  rewrite as_long_ok by lia. cbn [mbind outcome_bind]. fold j.
  rewrite as_long_ok by (unfold in_s in Hj; lia). cbn [mbind outcome_bind]. by rewrite wraps_id by (lia || done).
Qed.

Section reports.
Variable cpu_clock : nat -> timespec.

(** From any reading on, [d] nanoseconds of CPU time pass within [fuel]
    readings. *)
Definition advances (fuel : nat) (d : Z) : Prop := forall s, exists k,
  (s < k <= s + fuel)%nat /\ ts_total_ns (cpu_clock s) + d <= ts_total_ns (cpu_clock k).

Lemma busy_wait_ends fuel d s :
  cpu_clock_ok cpu_clock -> 0 <= d < 2 ^ 63 -> advances fuel d ->
  exists k, busy_wait cpu_clock fuel (ts_total_ns (cpu_clock s)) d (S s) = Ret (Some tt, S k) /\
    (s < k <= s + fuel)%nat /\ ts_total_ns (cpu_clock s) + d <= ts_total_ns (cpu_clock k) /\
    (forall n, (s < n < k)%nat -> ts_total_ns (cpu_clock n) < ts_total_ns (cpu_clock s) + d).
Proof.
  intros Hc Hd Ha. destruct (Ha s) as (k0 & Hk0 & Hl0).
  destruct (least_nat (fun k => (s < k)%nat /\ ts_total_ns (cpu_clock s) + d <= ts_total_ns (cpu_clock k)) k0)
    as (k & Hk & [Hk1 Hk2] & Hmin); [split; [lia|done]|].
  exists k. assert (forall n, (s < n < k)%nat -> ts_total_ns (cpu_clock n) < ts_total_ns (cpu_clock s) + d) as Hearly.
  { intros n Hn. destruct (Z.lt_ge_cases (ts_total_ns (cpu_clock n)) (ts_total_ns (cpu_clock s) + d)) as [|Hge]; [done|].
    exfalso. apply (Hmin n); [lia|]. split; [lia|done]. }
  split_and!; [|lia|lia|done|done]. apply busy_wait_spec; try done; try lia.
Qed.

End reports.

(** The deviations at the releases [l] that come next: the first job of the
    process has nothing to compare with. *)
Definition next_deviations (p : exprocs) (l : list timespec) : list Z :=
  if decide (xp_before p = ts_zero) then all_deviations (xp_task_period p) l
  else deviations (xp_task_period p) (xp_before p) l.

Lemma check_jitter_ok now p :
  wall_ok now -> in_u 32 (xp_task_period p) -> 0 <= xp_jitter_cnt p < 2 ^ 64 - 1 ->
  (xp_before p = ts_zero \/ wall_ok (xp_before p)) -> Forall (in_s 32) (next_deviations p [now]) ->
  let js := filter large (next_deviations p [now]) in
  check_jitter now p = Ret (p <| xp_jitter_cnt := xp_jitter_cnt p + blen js |>, numbered (xp_jitter_cnt p) js).
Proof.
  intros Hn Hp Hcnt Hb Hj js. unfold check_jitter, js, next_deviations in *. clear js.
  destruct (decide (xp_before p = ts_zero)) as [Hz|Hz].
  { rewrite Hz. cbn. rewrite Z.add_0_r. by destruct p. }
  destruct Hb as [?|Hw]; [done|]. apply Forall_cons in Hj as [Hj _]. pose proof Hw as (H1 & H2 & H3). rewrite app_ts_ns_ok by (done || lia).
  cbn [mbind outcome_bind]. rewrite (proj2 (Z.eqb_neq _ _)) by lia. cbn [negb]. rewrite jitter_us_ok by done.
  cbn [mbind outcome_bind deviations]. set (j := Z.quot _ _ - _). clearbody j. rewrite filter_cons.
  assert ((j <? -100) || (100 <? j) = bool_decide (large j)) as ->.
  { unfold large. case_bool_decide; destruct (Z.ltb_spec j (-100)), (Z.ltb_spec 100 j); done || lia. }
  destruct (decide (large j)) as [Hl|Hl]; [rewrite bool_decide_true by done|rewrite bool_decide_false by done].
  - by rewrite wrapu_id by (unfold in_u; lia).
  - cbn. rewrite Z.add_0_r. by destruct p.
Qed.

Section reports2.
Variable cpu_clock : nat -> timespec.

(** A job ends; it keeps the CPU for the run time of the process. *)
Lemma do_workload_ok fuel now p s :
  cpu_clock_ok cpu_clock -> advances cpu_clock fuel (u32 (xp_task_runtime p * 1000)) ->
  wall_ok now -> in_u 32 (xp_task_period p) -> 0 <= xp_jitter_cnt p < 2 ^ 64 - 1 ->
  (xp_before p = ts_zero \/ wall_ok (xp_before p)) -> Forall (in_s 32) (next_deviations p [now]) ->
  let js := filter large (next_deviations p [now]) in
  exists s', do_workload cpu_clock fuel now p s =
    Ret (Some (p <| xp_jitter_cnt := xp_jitter_cnt p + blen js |> <| xp_before := now |>, numbered (xp_jitter_cnt p) js), s').
Proof.
  intros Hc Ha Hn Hp Hcnt Hb Hj js. unfold do_workload, mbind, ST_bind, lift_o.
  rewrite check_jitter_ok by done. fold js. cbn [xp_task_runtime upd eta eta_exprocs].
  destruct (xp_task_runtime p =? 0); cbn [negb]; [by eexists|].
  destruct (get_cpu_time_ok cpu_clock s Hc) as [-> _].
  pose proof (wrapu_range 32 (xp_task_runtime p * 1000) ltac:(lia)) as Hr.
  destruct (busy_wait_ends cpu_clock fuel (u32 (xp_task_runtime p * 1000)) s Hc) as (k & -> & _); [unfold in_u in Hr; lia|done|].
  by eexists.
Qed.

Lemma numbered_app n l1 l2 : numbered n (l1 ++ l2) = numbered n l1 ++ numbered (n + blen l1) l2.
Proof.
  revert n. induction l1 as [|j l1 IH]; intros n; cbn [app numbered length]; [by rewrite Z.add_0_r|].
  rewrite IH. by replace (n + 1 + blen l1) with (n + Z.of_nat (S (length l1))) by lia.
Qed.

Lemma wall_not_zero ts : wall_ok ts -> ts <> ts_zero.
Proof. intros (_ & _ & [H _]) ->. by vm_compute in H. Qed.

Lemma next_deviations_cons p now l c :
  wall_ok now -> next_deviations p (now :: l) =
    next_deviations p [now] ++ next_deviations (p <| xp_jitter_cnt := c |> <| xp_before := now |>) l.
Proof.
  intros Hn. unfold next_deviations. cbn [xp_before xp_task_period upd eta eta_exprocs].
  rewrite (decide_False (P := now = ts_zero)) by (by apply wall_not_zero). by case_decide.
Qed.

Lemma exprocs_loop_ok fuel turns sig p s :
  cpu_clock_ok cpu_clock -> advances cpu_clock fuel (u32 (xp_task_runtime p * 1000)) ->
  Forall (fun t => tu_ret t = 0) turns -> Forall wall_ok (release_times turns) ->
  in_u 32 (xp_task_period p) -> 0 <= xp_jitter_cnt p -> xp_jitter_cnt p + blen turns < 2 ^ 64 ->
  (xp_before p = ts_zero \/ wall_ok (xp_before p)) -> Forall (in_s 32) (next_deviations p (release_times turns)) ->
  let js := filter large (next_deviations p (release_times turns)) in
  exists p' s', exprocs_loop cpu_clock fuel turns sig p s = Ret (p', numbered (xp_jitter_cnt p) js, P_waiting, s') /\
    xp_jitter_cnt p' = xp_jitter_cnt p + blen js.
Proof.
  intros Hc Ha Hret. revert sig p s Ha. induction Hret as [|t turns Ht _ IH]; intros sig p s Ha Hw Hp H0 Hcnt Hb Hj js.
  { exists p, s. subst js. unfold next_deviations, release_times. case_decide; cbn; split; done || lia. }
  cbn [exprocs_loop length] in *. rewrite Ht. change (0 =? -1) with false. cbn [Z.eqb]. subst js.
  unfold release_times in *. rewrite filter_cons in *. destruct (Z.eqb_spec (tu_signo t) SIGNO_TT) as [Hs|Hs]; cbn [negb].
  - rewrite decide_True in * by done. rewrite fmap_cons in *. fold (release_times turns) in *.
    apply Forall_cons in Hw as [Hn Hw]. set (js1 := filter large (next_deviations p [tu_now t])).
    pose proof (next_deviations_cons p (tu_now t) (release_times turns) (xp_jitter_cnt p + blen js1) Hn) as En.
    rewrite En in Hj |- *. apply Forall_app in Hj as [Hj1 Hj2].
    assert (blen js1 <= 1) as Hle.
    { unfold js1. etrans; [apply inj_le, length_filter|]. unfold next_deviations. case_decide; cbn; lia. }
    destruct (do_workload_ok fuel (tu_now t) p s Hc Ha Hn Hp ltac:(lia) Hb Hj1) as (s1 & E1). fold js1 in E1.
    unfold mbind, ST_bind. rewrite E1.
    match goal with |- context [exprocs_loop _ _ _ ?g ?q s1] => destruct (IH g q s1) as (p' & s' & E2 & Hp') end.
    { exact Ha. } { exact Hw. } { exact Hp. }
    { cbn [xp_jitter_cnt upd eta eta_exprocs]. lia. } { cbn [xp_jitter_cnt upd eta eta_exprocs]. lia. }
    { by right. } { exact Hj2. }
    rewrite E2. exists p', s'. rewrite filter_app. fold js1. rewrite numbered_app, length_app. split; [done|].
    rewrite Hp'. cbn [xp_jitter_cnt upd eta eta_exprocs]. lia.
  - rewrite decide_False in * by done. fold (release_times turns) in *. apply IH; try done. lia.
Qed.

End reports2.

(** C39: The test process checks the releases it gets.  For any sequence of
    signals, with the CPU time its jobs need, it runs one job per release and
    reports exactly those releases, apart from the first, whose distance from
    the release before, in whole microseconds, differs from the period by more
    than 100, with that difference, in order and numbered from 1. *)
Theorem exprocs_reports_jitter cpu_clock fuel turns sig name period runtime s :
  cpu_clock_ok cpu_clock -> advances cpu_clock fuel (u32 (runtime * 1000)) ->
  Forall (fun t => tu_ret t = 0) turns -> Forall wall_ok (release_times turns) -> in_u 32 period -> blen turns < 2 ^ 64 ->
  Forall (in_s 32) (all_deviations period (release_times turns)) ->
  exists p' s', exprocs_loop cpu_clock fuel turns sig (mk_exprocs name period runtime 0 ts_zero) s =
    Ret (p', numbered 0 (filter large (all_deviations period (release_times turns))), P_waiting, s').
Proof.
  intros Hc Ha Ht Hw Hp Hl Hj.
  destruct (exprocs_loop_ok cpu_clock fuel turns sig (mk_exprocs name period runtime 0 ts_zero) s)
    as (p' & s' & E & _); try done. by left. by exists p', s'.
Qed.

(** A job keeps the CPU until the first reading at which [u32 (1000 * runtime)]
    nanoseconds have passed: the run time, up to 4294967 microseconds; a longer
    one is cut, since the product is computed in 32 bits. *)
Theorem exprocs_job_runtime cpu_clock fuel now p p1 rs s :
  cpu_clock_ok cpu_clock -> advances cpu_clock fuel (u32 (xp_task_runtime p * 1000)) -> xp_task_runtime p <> 0 ->
  check_jitter now p = Ret (p1, rs) -> xp_task_runtime p1 = xp_task_runtime p ->
  let start := ts_total_ns (cpu_clock s) in
  let d := u32 (xp_task_runtime p * 1000) in
  (exists k, do_workload cpu_clock fuel now p s = Ret (Some (p1 <| xp_before := now |>, rs), S k) /\ (s < k)%nat /\
     start + d <= ts_total_ns (cpu_clock k) /\
     forall n, (s < n < k)%nat -> ts_total_ns (cpu_clock n) < start + d) /\
  (0 <= xp_task_runtime p <= 4294967 -> d = xp_task_runtime p * 1000).
Proof.
  intros Hc Ha Hr Hj Hp1 start d. split.
  - unfold do_workload, mbind, ST_bind, lift_o. rewrite Hj, Hp1, (proj2 (Z.eqb_neq _ _) Hr). cbn [negb].
    destruct (get_cpu_time_ok cpu_clock s Hc) as [-> _]. fold d start.
    pose proof (wrapu_range 32 (xp_task_runtime p * 1000) ltac:(lia)) as Hd. fold d in Hd, Ha.
    destruct (busy_wait_ends cpu_clock fuel d s Hc) as (k & E & Hk & Hl & He); [unfold in_u in Hd; lia|done|].
    fold start in E. rewrite E. exists k. split_and!; [done|lia|done|done].
  - intros Hle. apply wrapu_id. range.
Qed.

(** Five seconds become 705.032704 milliseconds. *)
Example runtime_wraps : u32 (5000000 * 1000) = 705032704.
Proof. reflexivity. Qed.

(** What the command line gives, and what is set up: the name, then the mask,
    so that a release that comes later is not lost. *)
Lemma exprocs_main_spec {K : Kernel} args s :
  wp (exprocs_main args) (fun r s' =>
    match r with
    | inl status => status = 1 /\ (length args < 2)%nat
    | inr p => exists name period rest, args = name :: period :: rest /\
        xp_task_period p = u32 (atoi period) /\ xp_task_runtime p = default 0 (u32 ∘ atoi <$> head rest) /\
        xp_jitter_cnt p = 0 /\ xp_before p = ts_zero /\
        exists a b c d, n_trace s' = Event (SigprocmaskBlock SIGNO_TT) a :: Event PrctlGetName b ::
          Event (PrctlSetName (cstr name)) c :: Event Getpid d :: n_trace s
    end) s.
Proof.
  unfold exprocs_main. apply wp_bind, wp_sys. destruct args as [|name [|period rest]]; try (apply wp_ret; cbn; split; [done|lia]).
  apply wp_bind, wp_sys, wp_bind, wp_sys. destruct (kresp _ PrctlGetName) as [r pr_name] eqn:E.
  apply wp_bind, wp_sys, wp_ret. exists name, period, rest. split_and!; try done.
  - by destruct rest.
  - by do 4 eexists.
Qed.

(** [sigwait] reports an error by a positive number, never by -1, and then
    stores no signal: the test for -1 does not see it, and the process runs a
    job for the signal it got before. *)
Theorem exprocs_sigwait_error_runs_job cpu_clock fuel e now p s :
  0 < e ->
  exprocs_loop cpu_clock fuel [mk_turn e 0 now] (Some SIGNO_TT) p s =
  exprocs_loop cpu_clock fuel [mk_turn 0 SIGNO_TT now] (Some SIGNO_TT) p s.
Proof.
  intros He. cbn [exprocs_loop tu_ret tu_signo tu_now]. rewrite (proj2 (Z.eqb_neq e (-1))), (proj2 (Z.eqb_neq e 0)) by lia. done.
Qed.

(** *** Witnesses *)

(** A period of 10 ms; the third release is 150 us late, the next 150 us early
    with respect to it, and another signal comes in between. *)
Definition ex_releases : list turn :=
  [ mk_turn 0 SIGNO_TT (mk_timespec 100 0); mk_turn 0 SIGNO_TT (mk_timespec 100 10000000);
    mk_turn 0 10 (mk_timespec 100 12000000); mk_turn 0 SIGNO_TT (mk_timespec 100 20150000);
    mk_turn 0 SIGNO_TT (mk_timespec 100 30000000) ].

Lemma exprocs_reports_jitter_witness :
  let clock n := mk_timespec 0 (Z.min (Z.of_nat n) 999999999) in
  exists p' s', exprocs_loop clock 1 ex_releases None (mk_exprocs (str "wakee1") 10000 0 0 ts_zero) 0%nat =
    Ret (p', [(1, 150); (2, -150)], P_waiting, s').
Proof.
  intros clock.
  apply (exprocs_reports_jitter clock 1 ex_releases None (str "wakee1") 10000 0 0%nat).
  - split; intros n; unfold clock, ts_norm, ts_total_ns; cbn [tv_sec tv_nsec]; lia.
  - intros n. exists (S n). split; [lia|]. unfold clock, ts_total_ns. cbn [tv_sec tv_nsec]. change (u32 (0 * 1000)) with 0. lia.
  - repeat constructor.
  - unfold wall_ok, ts_norm. repeat constructor; vm_compute; (discriminate || reflexivity).
  - range.
  - vm_compute. reflexivity.
  - repeat constructor; vm_compute; (discriminate || reflexivity).
Defined.
